(** * moneybotsapi-js: session acquisition, TOTP, cookie merging,
      freshness oracle and instrument refresh.

    A shallow embedding of the TypeScript sources under [src/api] and the
    properties stated about them.  Part I holds the model, Part II the
    theorems. *)

From Stdlib Require Import ZArith List String Ascii Bool Lia Arith.
Import ListNotations.

Local Open Scope string_scope.
Local Open Scope list_scope.
Local Open Scope Z_scope.

(* ================================================================== *)
(** * Part I: the model *)
(* ================================================================== *)

(** ** Results of code that may throw *)

(** A JavaScript computation either returns a value or throws an [Error]
    carrying a message. *)
Inductive result (A : Type) : Type :=
| Ok (a : A)
| Throw (msg : string).
Arguments Ok {A} a.
Arguments Throw {A} msg.

Definition bind {A B} (r : result A) (k : A -> result B) : result B :=
  match r with
  | Ok a => k a
  | Throw m => Throw m
  end.

Notation "x <- r ;; k" := (bind r (fun x => k))
  (at level 61, r at next level, right associativity).

(** A computation over a state of type [S] that may throw: the explicit
    form of the code that reads and writes the database, the network and
    the clock. *)
Definition M (S A : Type) : Type := S -> result A * S.

Definition ret {S A} (a : A) : M S A := fun s => (Ok a, s).

Definition throw {S A} (msg : string) : M S A := fun s => (Throw msg, s).

Definition lift {S A} (r : result A) : M S A := fun s => (r, s).

Definition mbind {S A B} (m : M S A) (k : A -> M S B) : M S B :=
  fun s =>
    match m s with
    | (Ok a, s') => k a s'
    | (Throw e, s') => (Throw e, s')
    end.

(** [try { m } catch (error) { handler(error.message) }]. *)
Definition tryCatch {S A} (m : M S A) (handler : string -> M S A) : M S A :=
  fun s =>
    match m s with
    | (Ok a, s') => (Ok a, s')
    | (Throw e, s') => handler e s'
    end.

Notation "'let*' x := m 'in' k" := (mbind m (fun x => k))
  (at level 10, x name, m at level 100, k at level 200).
Notation "m1 >> m2" := (mbind m1 (fun _ => m2))
  (at level 61, right associativity).

(** ** The fragment of the JavaScript string and number library in use *)

Module JS.

Definition chr (n : Z) : ascii := ascii_of_N (Z.to_N n).
Definition ord (c : ascii) : Z := Z.of_N (N_of_ascii c).

Definition str1 (c : ascii) : string := String c EmptyString.

Definition len (s : string) : Z := Z.of_nat (String.length s).

Fixpoint repeat_char (c : ascii) (n : nat) : string :=
  match n with
  | O => EmptyString
  | S k => String c (repeat_char c k)
  end.

(** [s.padStart(n, c)] for a one-character pad string. *)
Definition padStart (n : nat) (c : ascii) (s : string) : string :=
  (repeat_char c (n - String.length s) ++ s)%string.

(** The decimal digit [d] (0..9) as a character. *)
Definition digit (d : Z) : ascii := chr (48 + d).

(** [n.toString(radix)] for a non-negative integer and a radix of at
    most ten; the fuel is the bit size of [n], enough for every radix
    of at least two. *)
Fixpoint digits_fuel (fuel : nat) (radix n : Z) : string :=
  match fuel with
  | O => str1 (digit (n mod radix))
  | S f =>
      if n <? radix then str1 (digit n)
      else (digits_fuel f radix (n / radix) ++ str1 (digit (n mod radix)))%string
  end.

Definition toStringRadix (radix n : Z) : string :=
  digits_fuel (Z.to_nat (Z.log2 n)) radix n.

(** [String(n)], [n.toString()] and template interpolation of an integer. *)
Definition toString (n : Z) : string :=
  if n <? 0 then ("-" ++ toStringRadix 10 (- n))%string
  else toStringRadix 10 n.

Definition is_digit (c : ascii) : bool :=
  (48 <=? ord c) && (ord c <=? 57).

Fixpoint all_chars (p : ascii -> bool) (s : string) : bool :=
  match s with
  | EmptyString => true
  | String c r => p c && all_chars p r
  end.

(** White space and line terminators among the code units below 256:
    what [\s] matches and what [trim] strips. *)
Definition is_space (c : ascii) : bool :=
  let n := ord c in
  (n =? 9) || (n =? 10) || (n =? 11) || (n =? 12) || (n =? 13)
  || (n =? 32) || (n =? 160).

(** [\w]: ASCII letters, digits and the underscore. *)
Definition is_word (c : ascii) : bool :=
  let n := ord c in
  ((48 <=? n) && (n <=? 57)) || ((65 <=? n) && (n <=? 90))
  || ((97 <=? n) && (n <=? 122)) || (n =? 95).

Fixpoint trimStart (s : string) : string :=
  match s with
  | EmptyString => EmptyString
  | String c r => if is_space c then trimStart r else s
  end.

(** Drops trailing white space: a character is kept when something
    that is kept follows it, or when it is not white space. *)
Fixpoint trimEnd (s : string) : string :=
  match s with
  | EmptyString => EmptyString
  | String c r =>
      match trimEnd r with
      | EmptyString => if is_space c then EmptyString else str1 c
      | r' => String c r'
      end
  end.

Definition trim (s : string) : string := trimEnd (trimStart s).

(** [s.split(sep)] for a one-character separator: the pieces between
    the separators, never an empty array. *)
Fixpoint split (sep : ascii) (s : string) : list string :=
  match s with
  | EmptyString => [EmptyString]
  | String c r =>
      if Ascii.eqb c sep then EmptyString :: split sep r
      else match split sep r with
           | p :: ps => String c p :: ps
           | [] => [str1 c]
           end
  end.

(** [parts.join(sep)]. *)
Fixpoint join (sep : string) (parts : list string) : string :=
  match parts with
  | [] => EmptyString
  | [p] => p
  | p :: rest => (p ++ sep ++ join sep rest)%string
  end.

(** [s.slice(a, b)] for [0 <= a <= b]. *)
Definition slice (a b : nat) (s : string) : string :=
  String.substring a (b - a) s.

(** The longest prefix of characters satisfying [p], and what is left
    after it. *)
Fixpoint take_while (p : ascii -> bool) (s : string) : string :=
  match s with
  | EmptyString => EmptyString
  | String c r => if p c then String c (take_while p r) else EmptyString
  end.

Fixpoint skip_while (p : ascii -> bool) (s : string) : string :=
  match s with
  | EmptyString => EmptyString
  | String c r => if p c then skip_while p r else s
  end.

(** Digits of fixed width, least significant last: what a rendering
    padded with zeros comes to. *)
Fixpoint fixed_digits (k : nat) (n : Z) : string :=
  match k with
  | O => EmptyString
  | S k' => (fixed_digits k' (n / 10) ++ str1 (digit (n mod 10)))%string
  end.

(** [sep] does not occur in [s]. *)
Definition free_of (sep : ascii) (s : string) : Prop :=
  all_chars (fun c => negb (Ascii.eqb c sep)) s = true.

(** [xs[i] ?? d] on an array. *)
Definition nth_or {A} (d : A) (xs : list A) (i : nat) : A := nth i xs d.

End JS.

(** ** TOTP generation ([src/api/user/totp.ts]) *)

Module Totp.

(** A string as the sequence of its code points, which is what
    [for (const char of ...)] iterates over. *)
Definition ustring : Type := list N.

Definition ustr (s : string) : ustring :=
  map N_of_ascii (list_ascii_of_string s).

(** What the generator takes from the runtime.
    - [upperCP]: [String.prototype.toUpperCase] maps every code point
      on its own, some of them to several code points; this is its
      table.
    - [importKeyAccepts]: [crypto.subtle.importKey] refuses some raw
      keys (the Web Cryptography API has it throw on a key of length
      zero); [importKeyError] is the message of what it throws. *)
Record Runtime : Type := {
  upperCP : N -> list N;
  importKeyAccepts : list Z -> bool;
  importKeyError : string
}.

(** *** SHA-1 and HMAC, as [crypto.subtle] computes them.
    Words are 32-bit integers kept in [Z] with the wrap-around written
    out; byte strings are lists of integers below 256. *)

Definition w32 (x : Z) : Z := x mod 2 ^ 32.
Definition add32 (a b : Z) : Z := w32 (a + b).
Definition not32 (a : Z) : Z := Z.lxor a (2 ^ 32 - 1).
Definition rotl32 (n x : Z) : Z :=
  Z.lor (w32 (Z.shiftl x n)) (Z.shiftr x (32 - n)).

(** Big-endian bytes of the low [8 * n] bits of [x]. *)
Fixpoint be_bytes (n : nat) (x : Z) : list Z :=
  match n with
  | O => []
  | S k => be_bytes k (x / 256) ++ [x mod 256]
  end.

Definition be_word (bs : list Z) : Z :=
  fold_left (fun acc b => acc * 256 + b) bs 0.

(** Groups of [n] consecutive items; [fuel] bounds the number of groups. *)
Fixpoint chunks {A} (fuel n : nat) (xs : list A) : list (list A) :=
  match fuel with
  | O => []
  | S f =>
      match xs with
      | [] => []
      | _ => firstn n xs :: chunks f n (skipn n xs)
      end
  end.

Definition sha1_pad (msg : list Z) : list Z :=
  let l := Z.of_nat (List.length msg) in
  let zeros := Z.to_nat ((55 - l) mod 64) in
  msg ++ [128] ++ repeat 0 zeros ++ be_bytes 8 (8 * l).

(** The message schedule, most recent word first. *)
Fixpoint sha1_schedule (n : nat) (w : list Z) : list Z :=
  match n with
  | O => w
  | S k =>
      let x := Z.lxor (Z.lxor (nth 2 w 0) (nth 7 w 0))
                      (Z.lxor (nth 13 w 0) (nth 15 w 0)) in
      sha1_schedule k (rotl32 1 x :: w)
  end.

Definition sha1_f (t : nat) (b c d : Z) : Z :=
  if (t <? 20)%nat then Z.lor (Z.land b c) (Z.land (not32 b) d)
  else if (t <? 40)%nat then Z.lxor (Z.lxor b c) d
  else if (t <? 60)%nat then
    Z.lor (Z.lor (Z.land b c) (Z.land b d)) (Z.land c d)
  else Z.lxor (Z.lxor b c) d.

Definition sha1_k (t : nat) : Z :=
  if (t <? 20)%nat then 0x5A827999
  else if (t <? 40)%nat then 0x6ED9EBA1
  else if (t <? 60)%nat then 0x8F1BBCDC
  else 0xCA62C1D6.

Definition sha1_state : Type := (Z * Z * Z * Z * Z)%type.

Fixpoint sha1_rounds (t : nat) (ws : list Z) (st : sha1_state)
  : sha1_state :=
  match ws with
  | [] => st
  | w :: rest =>
      let '(a, b, c, d, e) := st in
      let tmp :=
        add32 (add32 (add32 (add32 (rotl32 5 a) (sha1_f t b c d)) e)
                     (sha1_k t)) w in
      sha1_rounds (S t) rest (tmp, a, rotl32 30 b, c, d)
  end.

Definition sha1_block (st : sha1_state) (block : list Z) : sha1_state :=
  let w16 := map be_word (chunks 16 4 block) in
  let ws := rev (sha1_schedule 64 (rev w16)) in
  let '(a, b, c, d, e) := st in
  let '(a', b', c', d', e') := sha1_rounds 0 ws st in
  (add32 a a', add32 b b', add32 c c', add32 d d', add32 e e').

Definition sha1_init : sha1_state :=
  (0x67452301, 0xEFCDAB89, 0x98BADCFE, 0x10325476, 0xC3D2E1F0).

Definition sha1 (msg : list Z) : list Z :=
  let padded := sha1_pad msg in
  let blocks := chunks (List.length padded) 64 padded in
  let '(a, b, c, d, e) := fold_left sha1_block blocks sha1_init in
  be_bytes 4 a ++ be_bytes 4 b ++ be_bytes 4 c ++ be_bytes 4 d
    ++ be_bytes 4 e.

(** HMAC with SHA-1: what [crypto.subtle.sign("HMAC", key, message)]
    computes. *)
Definition hmac_sha1 (key message : list Z) : list Z :=
  let k0 := if (64 <? List.length key)%nat then sha1 key else key in
  let k := k0 ++ repeat 0 (64 - List.length k0) in
  let ipad := map (fun b => Z.lxor b 0x36) k in
  let opad := map (fun b => Z.lxor b 0x5c) k in
  sha1 (opad ++ sha1 (ipad ++ message)).

(** *** 32-bit integer operators of JavaScript *)

Definition to_int32 (x : Z) : Z := (x + 2 ^ 31) mod 2 ^ 32 - 2 ^ 31.
(** [a & b], [a | b] and [a << n]. *)
Definition and32 (a b : Z) : Z := Z.land (to_int32 a) (to_int32 b).
Definition or32 (a b : Z) : Z := Z.lor (to_int32 a) (to_int32 b).
Definition shl32 (a n : Z) : Z := to_int32 (Z.shiftl (to_int32 a) n).

(** *** Decoding the secret *)

Definition base32Chars : ustring := ustr "ABCDEFGHIJKLMNOPQRSTUVWXYZ234567".

(** [alphabet.indexOf(char)] for a one-code-point [char], counting
    from [i]. *)
Fixpoint indexOf (c : N) (alphabet : ustring) (i : Z) : Z :=
  match alphabet with
  | [] => -1
  | a :: rest => if N.eqb a c then i else indexOf c rest (i + 1)
  end.

(** [s.replace(/=+$/, empty)]: the trailing run of [=] is removed. *)
Fixpoint stripPadding (s : ustring) : ustring :=
  match s with
  | [] => []
  | c :: r =>
      match stripPadding r with
      | [] => if N.eqb c 61 then [] else [c]
      | r' => c :: r'
      end
  end.

(** [parseInt(s, 2)] on a string of binary digits; [None] is NaN. *)
Fixpoint parseInt2_go (s : string) (acc : option Z) : option Z :=
  match s with
  | EmptyString => acc
  | String c r =>
      let v := match acc with Some a => a | None => 0 end in
      if Ascii.eqb c "0" then parseInt2_go r (Some (2 * v))
      else if Ascii.eqb c "1" then parseInt2_go r (Some (2 * v + 1))
      else acc
  end.

Definition parseInt2 (s : string) : option Z := parseInt2_go s None.

(** A store into a [Uint8Array] cell. *)
Definition toUint8 (x : option Z) : Z :=
  match x with
  | Some v => v mod 256
  | None => 0
  end.

Section WithRuntime.

Variable R : Runtime.

Definition toUpperCase (s : ustring) : ustring :=
  flat_map (upperCP R) s.

Definition cleanSecret (secret : ustring) : ustring :=
  stripPadding (toUpperCase secret).

(** The first loop of [base32Decode]: five bits per character. *)
Fixpoint base32Bits (s : ustring) (bits : string) : result string :=
  match s with
  | [] => Ok bits
  | char :: rest =>
      let val := indexOf char base32Chars 0 in
      if val =? -1 then Throw "Invalid base32 character"
      else base32Bits rest
             (bits ++ JS.padStart 5 "0" (JS.toStringRadix 2 val))%string
  end.

(** The second loop of [base32Decode]: bytes [i .. n-1]. *)
Fixpoint base32Bytes (n i : nat) (bits : string) : list Z :=
  match n with
  | O => []
  | S k =>
      toUint8 (parseInt2 (JS.slice (i * 8) ((i + 1) * 8) bits))
        :: base32Bytes k (S i) bits
  end.

Definition base32Decode (secret : ustring) : result (list Z) :=
  bits <- base32Bits (cleanSecret secret) EmptyString ;;
  Ok (base32Bytes (String.length bits / 8) 0 bits).

(** The counter loop, [i] from 7 down to 0: each turn stores
    [tempCounter & 0xff] in front of the bytes already written. *)
Fixpoint counterLoop (n : nat) (tempCounter : Z) (bytes : list Z)
  : list Z :=
  match n with
  | O => bytes
  | S k => counterLoop k (tempCounter / 256)
             (and32 tempCounter 0xff :: bytes)
  end.

(** [hmacSha1(key, message)]: import the raw key, then sign. *)
Definition hmacSha1 (key message : list Z) : result (list Z) :=
  if importKeyAccepts R key then Ok (hmac_sha1 key message)
  else Throw (importKeyError R).

(** [generateTotpValue(totpSecret, timeStep)] when [Date.now()] is
    [now] milliseconds. *)
Definition generateTotpValue (totpSecret : ustring) (now timeStep : Z)
  : result string :=
  let epoch := now / 1000 in
  let counter := epoch / timeStep in
  let counterBytes := counterLoop 8 counter [] in
  key <- base32Decode totpSecret ;;
  hash <- hmacSha1 key counterBytes ;;
  let at_ (i : Z) := JS.nth_or 0 hash (Z.to_nat i) in
  let offset :=
    and32 (JS.nth_or 0 hash (List.length hash - 1)) 0x0f in
  let binary :=
    or32 (or32 (or32 (shl32 (and32 (at_ offset) 0x7f) 24)
                     (shl32 (and32 (at_ (offset + 1)) 0xff) 16))
               (shl32 (and32 (at_ (offset + 2)) 0xff) 8))
         (and32 (at_ (offset + 3)) 0xff) in
  let otp := Z.rem binary 1000000 in
  Ok (JS.padStart 6 "0" (JS.toString otp)).

End WithRuntime.

(** A runtime to evaluate with: the case mapping is the one of ASCII
    ([a]..[z] go to [A]..[Z], every other code point is left alone) and
    [importKey] refuses exactly the empty key. *)
Definition upperASCII (c : N) : list N :=
  if (N.leb 97 c && N.leb c 122)%bool then [N.sub c 32] else [c].

Definition asciiRuntime : Runtime := {|
  upperCP := upperASCII;
  importKeyAccepts := fun key => negb (Nat.eqb (List.length key) 0);
  importKeyError := "Data provided to an operation does not meet requirements"
|}.

(** *** The algorithm in the words of its description (RFC 4226 and
    RFC 6238), to compare [generateTotpValue] with. *)

Definition rfc_counter_bytes (c : Z) : list Z :=
  map (fun i => (c / 256 ^ (7 - Z.of_nat i)) mod 256) (seq 0 8).

Definition rfc_truncate (h : list Z) : Z :=
  let o := Z.to_nat (nth 19 h 0 mod 16) in
  (nth o h 0 mod 128) * 2 ^ 24 + nth (o + 1) h 0 * 2 ^ 16
  + nth (o + 2) h 0 * 2 ^ 8 + nth (o + 3) h 0.

Definition six_digits (n : Z) : string :=
  string_of_list_ascii
    (map (fun k => JS.digit ((n / 10 ^ (5 - Z.of_nat k)) mod 10)) (seq 0 6)).

Definition rfc_totp (key : list Z) (unix_seconds step : Z) : string :=
  let counter := unix_seconds / step in
  let h := hmac_sha1 key (rfc_counter_bytes counter) in
  six_digits (rfc_truncate h mod 1000000).

Definition is_byte (b : Z) : Prop := 0 <= b < 256.

(** The secret and the key of the RFC 6238 test vectors (the key is the
    ASCII text [12345678901234567890]), and the same secret in lower
    case with padding. *)
Definition rfc_secret : ustring := ustr "GEZDGNBVGY3TQOJQGEZDGNBVGY3TQOJQ".

Definition rfc_key : list Z :=
  [49; 50; 51; 52; 53; 54; 55; 56; 57; 48;
   49; 50; 51; 52; 53; 54; 55; 56; 57; 48].

Definition rfc_secret_lower : ustring :=
  ustr "gezdgnbvgy3tqojqgezdgnbvgy3tqojq====".

(** The characters [A]..[Z] and [2]..[7]. *)
Definition in_alphabet (c : N) : bool :=
  (N.leb 65 c && N.leb c 90) || (N.leb 50 c && N.leb c 55).

(** What is asked of the case mapping: mapping twice is mapping once,
    and on ASCII it is the ASCII mapping. *)
Record CaseMappingLaws (R : Runtime) : Prop := {
  upper_idempotent :
    forall c, flat_map (upperCP R) (upperCP R c) = upperCP R c;
  upper_ascii :
    forall c, (c < 128)%N -> upperCP R c = upperASCII c
}.

(** [u] is [s] in upper case without its trailing [=]: the upper case
    of [s] is [u] followed by [=] signs only, and [u] does not end
    with one. *)
Definition normalized (R : Runtime) (s u : ustring) : Prop :=
  (exists k, toUpperCase R s = u ++ repeat 61%N k)
  /\ (forall v, u <> v ++ [61%N]).

End Totp.

(** ** Set-Cookie to Cookie conversion
      ([convertSetCookieToCookie] in [src/api/user/sessionAPI.ts] and, with
      the same body, inside [generateOMSSession]).

    A header value read through [Headers.get] is a byte string, so a
    character here is one of its bytes. *)

Module Cookie.

(** The lookahead [(?=\s*\w+=)] at the start of [s]: both quantifiers
    are greedy and what follows each run cannot belong to it, so the
    match is decided by skipping the longest runs. *)
Definition lookahead_name_eq (s : string) : bool :=
  match JS.skip_while JS.is_space s with
  | String c r =>
      JS.is_word c &&
      match JS.skip_while JS.is_word r with
      | String e _ => Ascii.eqb e "="
      | EmptyString => false
      end
  | EmptyString => false
  end.

(** [setCookie.split(/,(?=\s*\w+=)/)]. *)
Fixpoint splitCookies (s : string) : list string :=
  match s with
  | EmptyString => [EmptyString]
  | String c r =>
      if Ascii.eqb c "," && lookahead_name_eq r
      then EmptyString :: splitCookies r
      else match splitCookies r with
           | p :: ps => String c p :: ps
           | [] => [JS.str1 c]
           end
  end.

(** [cookie.split(";")[0].trim()]. *)
Definition nameValue (cookie : string) : string :=
  JS.trim (hd EmptyString (JS.split ";" cookie)).

Definition convertSetCookieToCookie (setCookie : string) : string :=
  JS.join "; " (map nameValue (splitCookies setCookie)).

(** [[loginCookies, twofaCookies].filter(Boolean).join(", ")]: the raw
    cookie blob of [generateOMSSession]. *)
Definition allCookies (loginCookies twofaCookies : string) : string :=
  JS.join ", "
    (filter (fun c => negb (String.eqb c EmptyString))
            [loginCookies; twofaCookies]).

(** The pattern of the lookahead in words, to compare with: optional
    white space, a non-empty name made of word characters, then [=]. *)
Definition starts_with_name_eq (s : string) : Prop :=
  exists ws name rest,
    s = (ws ++ name ++ String "=" rest)%string
    /\ JS.all_chars JS.is_space ws = true
    /\ name <> EmptyString
    /\ JS.all_chars JS.is_word name = true.

(** [before] and [after] cut the pieces of [s] at the comma between
    [x] and [y]. *)
Definition cut_at (s x y : string) : Prop :=
  exists before after,
    splitCookies s = before ++ after
    /\ before <> [] /\ after <> []
    /\ x = JS.join "," before /\ y = JS.join "," after.

(** The portion of a fragment before its first semicolon. *)
Definition before_semicolon (fragment : string) : string :=
  JS.take_while (fun c => negb (Ascii.eqb c ";")) fragment.

End Cookie.

(** ** Dates ([src/api/_shared/time.ts] and the [Date] operations the
      sources call, after ECMA-262, "Time Values and Time Range") *)

Module Clock.

Definition msPerDay : Z := 86400000.
Definition Day (t : Z) : Z := t / msPerDay.
Definition TimeWithinDay (t : Z) : Z := t mod msPerDay.

Definition isLeap (y : Z) : bool :=
  ((y mod 4 =? 0) && negb (y mod 100 =? 0)) || (y mod 400 =? 0).

Definition leapDay (y : Z) : Z := if isLeap y then 1 else 0.

Definition DayFromYear (y : Z) : Z :=
  365 * (y - 1970) + (y - 1969) / 4 - (y - 1901) / 100 + (y - 1601) / 400.

(** The largest year that starts on or before day [d], searched upwards
    from an underestimate. *)
Fixpoint year_search (fuel : nat) (y d : Z) : Z :=
  match fuel with
  | O => y
  | S f => if DayFromYear (y + 1) <=? d then year_search f (y + 1) d else y
  end.

Definition YearFromDay (d : Z) : Z :=
  year_search (Z.to_nat (Z.abs d / 365 - Z.abs d / 366 + 2))
              (1970 + Z.min (d / 366) (d / 365)) d.

Definition YearFromTime (t : Z) : Z := YearFromDay (Day t).
Definition DayWithinYear (t : Z) : Z := Day t - DayFromYear (YearFromTime t).
Definition InLeapYear (t : Z) : Z := leapDay (YearFromTime t).

(** The day within the year on which month [m] (0..11) starts. *)
Definition monthStart (leap m : Z) : Z :=
  match m with
  | 0 => 0
  | 1 => 31
  | 2 => 59 + leap
  | 3 => 90 + leap
  | 4 => 120 + leap
  | 5 => 151 + leap
  | 6 => 181 + leap
  | 7 => 212 + leap
  | 8 => 243 + leap
  | 9 => 273 + leap
  | 10 => 304 + leap
  | _ => 334 + leap
  end.

Definition MonthFromTime (t : Z) : Z :=
  let d := DayWithinYear t in
  let l := InLeapYear t in
  if d <? 31 then 0
  else if d <? 59 + l then 1
  else if d <? 90 + l then 2
  else if d <? 120 + l then 3
  else if d <? 151 + l then 4
  else if d <? 181 + l then 5
  else if d <? 212 + l then 6
  else if d <? 243 + l then 7
  else if d <? 273 + l then 8
  else if d <? 304 + l then 9
  else if d <? 334 + l then 10
  else 11.

Definition DateFromTime (t : Z) : Z :=
  DayWithinYear t - monthStart (InLeapYear t) (MonthFromTime t) + 1.

Definition HourFromTime (t : Z) : Z := (t / 3600000) mod 24.
Definition MinFromTime (t : Z) : Z := (t / 60000) mod 60.
Definition SecFromTime (t : Z) : Z := (t / 1000) mod 60.

Definition MakeDay (year month date : Z) : Z :=
  let ym := year + month / 12 in
  let mn := month mod 12 in
  DayFromYear ym + monthStart (leapDay ym) mn + date - 1.

Definition MakeDate (day time : Z) : Z := day * msPerDay + time.

Definition pad2 (n : Z) : string := JS.padStart 2 "0" (JS.toString n).

(** [getISTTimestamp()] when [Date.now()] is [now]. *)
Definition getISTTimestamp (now : Z) : string :=
  let istOffset := 19800000 in
  let istTime := now + istOffset in
  let year := YearFromTime istTime in
  let month := pad2 (MonthFromTime istTime + 1) in
  let day := pad2 (DateFromTime istTime) in
  let hours := pad2 (HourFromTime istTime) in
  let minutes := pad2 (MinFromTime istTime) in
  let seconds := pad2 (SecFromTime istTime) in
  (JS.toString year ++ "-" ++ month ++ "-" ++ day ++ " "
     ++ hours ++ ":" ++ minutes ++ ":" ++ seconds)%string.

(** The cutoff in the words of its description: the date of the
    current day in IST, or of the day before when the IST time of day
    is before 08:30, followed by 08:30:00. *)
Definition dateString (day : Z) : string :=
  let t := MakeDate day 0 in
  (JS.toString (YearFromTime t) ++ "-" ++ pad2 (MonthFromTime t + 1)
     ++ "-" ++ pad2 (DateFromTime t))%string.

Definition cutoffOf (now : Z) : string :=
  let ist := now + 19800000 in
  let day := if TimeWithinDay ist <? 30600000 then Day ist - 1
             else Day ist in
  (dateString day ++ " 08:30:00")%string.

(** *** Numbers that may be NaN, and [Date] objects that may be invalid.
    A [Date] is kept as its local time value; the server's zone is taken
    to have a fixed offset, so that the local fields of a date built
    from local fields are those fields. *)

Definition num : Type := option Z.

Definition num_toString (x : num) : string :=
  match x with
  | Some v => JS.toString v
  | None => "NaN"
  end.

Definition num_ltb (x : num) (k : Z) : bool :=
  match x with Some v => v <? k | None => false end.

Definition num_eqb (x : num) (k : Z) : bool :=
  match x with Some v => v =? k | None => false end.

Definition num_add (x : num) (k : Z) : num :=
  match x with Some v => Some (v + k) | None => None end.

Fixpoint parse_digits (s : string) (acc : Z) : num :=
  match s with
  | EmptyString => Some acc
  | String c r =>
      if JS.is_digit c then parse_digits r (10 * acc + (JS.ord c - 48))
      else None
  end.

(** [Number(s)] on an unsigned decimal integer with optional white
    space around it; the empty string is 0.  The other numeric forms
    (signs, fractions, exponents, other radices) do not occur in a
    timestamp and are read as NaN. *)
Definition Number_ (s : string) : num := parse_digits (JS.trim s) 0.

(** A text made of digits that [Number] reads as [value]: what a
    field of a printed timestamp is. *)
Record printed (text : string) (value : Z) : Prop := {
  printed_digits : JS.all_chars JS.is_digit text = true;
  printed_value : Number_ text = Some value;
  printed_nonempty : text <> EmptyString
}.

(** [new Date(year, monthIndex, day)]. *)
Definition newDate (year monthIndex day : num) : num :=
  match year, monthIndex, day with
  | Some y, Some m, Some d =>
      let yr := if (0 <=? y) && (y <=? 99) then 1900 + y else y in
      Some (MakeDate (MakeDay yr m d) 0)
  | _, _, _ => None
  end.

Definition getFullYear (d : num) : num := option_map YearFromTime d.
Definition getMonth (d : num) : num := option_map MonthFromTime d.
Definition getDate (d : num) : num := option_map DateFromTime d.

(** [d.setDate(date)]. *)
Definition setDate (d : num) (date : num) : num :=
  match d, date with
  | Some t, Some dt =>
      Some (MakeDate (MakeDay (YearFromTime t) (MonthFromTime t) dt)
                     (TimeWithinDay t))
  | _, _ => None
  end.

End Clock.

(** ** The instrument mirror: [src/api/instruments/refresh.ts] and
      [src/api/instruments/refresh-check.ts] over the table of
      [src/api/_db/kite_instruments.ts] *)

Module Instruments.

(** *** The table and the statements the two files run on it *)

Section WithNumbers.

(** JavaScript numbers stay abstract: the type, [parseInt],
    [parseFloat] and [x || 0]. *)
Variable number : Type.
Variable parseInt parseFloat : string -> number.
Variable orZero : number -> number.

Record InstrumentRecord : Type := {
  instrument_token : number;
  exchange_token : number;
  tradingsymbol : string;
  name : option string;
  last_price : number;
  expiry : option string;
  strike : number;
  tick_size : number;
  lot_size : number;
  instrument_type : option string;
  segment : option string;
  exchange : string;
  updated_at : string
}.

Inductive Stmt : Type :=
| SDelete                       (* DELETE FROM kite_instruments *)
| SPrepare                      (* db.prepare(INSERT ...) *)
| SBegin                        (* BEGIN TRANSACTION *)
| SInsert (r : InstrumentRecord)
| SCommit
| SRollback.

(** The connection: the rows it sees, the rows to return to when a
    transaction is open, and the statements issued so far. *)
Record DbState : Type := {
  rows : list InstrumentRecord;
  txn : option (list InstrumentRecord);
  log : list Stmt
}.

(** What can go wrong with a statement: it fails alone, or it fails
    and the engine abandons the open transaction with it. *)
Inductive Fault : Type :=
| NoFault
| StmtFails (msg : string)
| TxnAborted (msg : string).

Definition DB (A : Type) : Type := M DbState A.

Definition logged (s : Stmt) (st : DbState) : DbState :=
  {| rows := rows st; txn := txn st; log := log st ++ [s] |}.

Definition abandon (st : DbState) : DbState :=
  match txn st with
  | Some before => {| rows := before; txn := None; log := log st |}
  | None => st
  end.

Definition effect (s : Stmt) (st : DbState) : DbState :=
  match s with
  | SDelete => {| rows := []; txn := txn st; log := log st |}
  | SPrepare => st
  | SBegin => {| rows := rows st; txn := Some (rows st); log := log st |}
  | SInsert r => {| rows := rows st ++ [r]; txn := txn st; log := log st |}
  | SCommit => {| rows := rows st; txn := None; log := log st |}
  | SRollback => abandon st
  end.

(** What the engine refuses whatever the faults: a transaction inside
    a transaction, and closing one that is not open. *)
Definition refused (s : Stmt) (st : DbState) : option string :=
  match s, txn st with
  | SBegin, Some _ =>
      Some "cannot start a transaction within a transaction"
  | SCommit, None => Some "cannot commit - no transaction is active"
  | SRollback, None => Some "cannot rollback - no transaction is active"
  | _, _ => None
  end.

(** [db.run(...)] / [stmt.run(...)]: [faults n] is the fate of the
    [n]-th statement of the connection.  A rollback of an open
    transaction always goes through. *)
Definition exec (faults : nat -> Fault) (s : Stmt) : DB unit :=
  fun st =>
    let st1 := logged s st in
    match refused s st with
    | Some msg => (Throw msg, st1)
    | None =>
        match s, faults (List.length (log st)) with
        | SRollback, _ => (Ok tt, effect s st1)
        | _, NoFault => (Ok tt, effect s st1)
        | _, StmtFails msg => (Throw msg, st1)
        | _, TxnAborted msg => (Throw msg, abandon st1)
        end
    end.

(** *** [refresh.ts] *)

(** A parsed CSV row: an object from header to value. *)
Definition Row : Type := list (string * string).

Fixpoint row_set (k v : string) (row : Row) : Row :=
  match row with
  | [] => [(k, v)]
  | (k', v') :: rest =>
      if String.eqb k' k then (k, v) :: rest
      else (k', v') :: row_set k v rest
  end.

Fixpoint row_get (k : string) (row : Row) : option string :=
  match row with
  | [] => None
  | (k', v) :: rest => if String.eqb k' k then Some v else row_get k rest
  end.

Definition dquote : ascii := ascii_of_nat 34.

Fixpoint drop_last_quote (s : string) : string :=
  match s with
  | EmptyString => EmptyString
  | String c EmptyString =>
      if Ascii.eqb c dquote then EmptyString else s
  | String c r => String c (drop_last_quote r)
  end.

(** [value.replace(re, empty)] where [re] is global and matches a
    double quote at the start or at the end of the value. *)
Definition stripQuotes (value : string) : string :=
  match value with
  | String c r => if Ascii.eqb c dquote then drop_last_quote r
                  else drop_last_quote value
  | EmptyString => EmptyString
  end.

(** The inner loop of [parseCSV], over the headers in order.  The
    row is a plain object: [row[header] = v] sets the field of that
    name, except under the name [__proto__], which is the accessor
    of [Object.prototype] and ignores a string given to it, so that
    a header of that name leaves the row as it is. *)
Fixpoint fillRow (headers values : list string) (row : Row) : Row :=
  match headers with
  | [] => row
  | header :: hs =>
      let v := match values with
               | value :: _ => stripQuotes value
               | [] => EmptyString
               end in
      fillRow hs (tl values)
              (if String.eqb header "__proto__" then row
               else row_set header v row)
  end.

Definition newline : ascii := ascii_of_nat 10.

Definition parseCSV (csvText : string) : result (list Row) :=
  let lines := JS.split newline (JS.trim csvText) in
  if (List.length lines <? 2)%nat
  then Throw "Invalid CSV format: no data rows"
  else
    let headers := JS.split "," (hd EmptyString lines) in
    Ok (map (fun line => fillRow headers (JS.split "," line) [])
            (tl lines)).

(** [row.k || d] and [row.k || null]. *)
Definition field_or (d : string) (k : string) (row : Row) : string :=
  match row_get k row with
  | Some v => if String.eqb v EmptyString then d else v
  | None => d
  end.

Definition field_or_null (k : string) (row : Row) : option string :=
  match row_get k row with
  | Some v => if String.eqb v EmptyString then None else Some v
  | None => None
  end.

Definition transformToDBRecord (row : Row) (updatedAt : string)
  : InstrumentRecord := {|
  instrument_token := orZero (parseInt (field_or "0" "instrument_token" row));
  exchange_token := orZero (parseInt (field_or "0" "exchange_token" row));
  tradingsymbol := field_or EmptyString "tradingsymbol" row;
  name := field_or_null "name" row;
  last_price := orZero (parseFloat (field_or "0" "last_price" row));
  expiry :=
    match field_or_null "expiry" row with
    | Some e => if String.eqb e "0" then None else Some e
    | None => None
    end;
  strike := orZero (parseFloat (field_or "0" "strike" row));
  tick_size := orZero (parseFloat (field_or "0" "tick_size" row));
  lot_size := orZero (parseInt (field_or "0" "lot_size" row));
  instrument_type := field_or_null "instrument_type" row;
  segment := field_or_null "segment" row;
  exchange := field_or EmptyString "exchange" row;
  updated_at := updatedAt
|}.

(** What [fetch] of the feed and [response.text()] come to. *)
Inductive Fetched : Type :=
| FetchThrows (msg : string)
| FetchResponse (ok : bool) (statusText : string) (text : result string).

(** The surroundings of one refresh: the feed, the clock and the
    faults of the connection. *)
Record Env : Type := {
  fetched : Fetched;
  now : Z;
  faults : nat -> Fault
}.

Record RefreshResult : Type := {
  success : bool;
  count : Z;
  error : option string
}.

Definition failed (msg : string) : RefreshResult :=
  {| success := false; count := 0; error := Some msg |}.

(** The [for (const record of dbRecords)] loop. *)
Fixpoint insertAll (env : Env) (records : list InstrumentRecord)
                   (insertedCount : Z) : DB Z :=
  match records with
  | [] => ret insertedCount
  | record :: rest =>
      exec (faults env) (SInsert record) >>
      insertAll env rest (insertedCount + 1)
  end.

(** The part of [performInstrumentsRefresh] that follows the
    transformation of the parsed rows; [Some r] is an early
    [return r] from the first inner [try]. *)
Definition replaceRows (env : Env) (dbRecords : list InstrumentRecord)
  : DB RefreshResult :=
  let* truncated :=
    tryCatch
      (exec (faults env) SDelete >> ret None)
      (fun msg =>
         ret (Some (failed ("Failed to truncate table: " ++ msg)))) in
  match truncated with
  | Some early => ret early
  | None =>
      exec (faults env) SPrepare >>
      tryCatch
        (exec (faults env) SBegin >>
         let* insertedCount := insertAll env dbRecords 0 in
         exec (faults env) SCommit >>
         ret {| success := true; count := insertedCount; error := None |})
        (fun msg =>
           exec (faults env) SRollback >>
           ret (failed ("Failed to insert data: " ++ msg)))
  end.

Definition performInstrumentsRefresh (env : Env)
  : DbState -> RefreshResult * DbState :=
  fun st =>
    let body : DB RefreshResult :=
      match fetched env with
      | FetchThrows msg => throw msg
      | FetchResponse ok statusText text =>
          if negb ok then
            ret (failed ("Failed to fetch instruments: " ++ statusText))
          else
            let* csvText := lift text in
            let* csvData := lift (parseCSV csvText) in
            let istTimestamp := Clock.getISTTimestamp (now env) in
            let dbRecords :=
              map (fun row => transformToDBRecord row istTimestamp)
                  csvData in
            replaceRows env dbRecords
      end in
    match body st with
    | (Ok r, st') => (r, st')
    | (Throw msg, st') => (failed msg, st')
    end.

(** *** [refresh-check.ts] *)

Definition getInstrumentsRefreshCutoff (now : Z) : result string :=
  let currentIST := Clock.getISTTimestamp now in
  match JS.split " " currentIST with
  | [datePart; timePart] =>
      if String.eqb datePart EmptyString
         || String.eqb timePart EmptyString
      then Throw "Invalid timestamp format"
      else
        let dateParts := map Clock.Number_ (JS.split "-" datePart) in
        let timeParts := map Clock.Number_ (JS.split ":" timePart) in
        if negb (List.length dateParts =? 3)%nat
           || (List.length timeParts <? 2)%nat
        then Throw "Invalid timestamp format"
        else
          let year := JS.nth_or (Some 0) dateParts 0 in
          let month := JS.nth_or (Some 0) dateParts 1 in
          let day := JS.nth_or (Some 0) dateParts 2 in
          let hours := JS.nth_or (Some 0) timeParts 0 in
          let minutes := JS.nth_or (Some 0) timeParts 1 in
          let REFRESH_CUTOFF_HOUR := 8 in
          let REFRESH_CUTOFF_MINUTE := 30 in
          let cutoffDate0 :=
            Clock.newDate year (Clock.num_add month (-1)) day in
          let cutoffDate :=
            if Clock.num_ltb hours REFRESH_CUTOFF_HOUR
               || (Clock.num_eqb hours REFRESH_CUTOFF_HOUR
                   && Clock.num_ltb minutes REFRESH_CUTOFF_MINUTE)
            then Clock.setDate cutoffDate0
                   (Clock.num_add (Clock.getDate cutoffDate0) (-1))
            else cutoffDate0 in
          let cutoffYear := Clock.getFullYear cutoffDate in
          let cutoffMonth :=
            JS.padStart 2 "0"
              (Clock.num_toString
                 (Clock.num_add (Clock.getMonth cutoffDate) 1)) in
          let cutoffDay :=
            JS.padStart 2 "0"
              (Clock.num_toString (Clock.getDate cutoffDate)) in
          Ok (Clock.num_toString cutoffYear ++ "-" ++ cutoffMonth ++ "-"
                ++ cutoffDay ++ " 08:30:00")%string
  | _ => Throw "Invalid timestamp format"
  end.

(** [SELECT MAX(updated_at) FROM kite_instruments]: NULL on an empty
    table, else the greatest text in byte order. *)
Fixpoint max_updated_at (table : list InstrumentRecord) : option string :=
  match table with
  | [] => None
  | r :: rest =>
      match max_updated_at rest with
      | None => Some (updated_at r)
      | Some m => if String.ltb (updated_at r) m then Some m
                  else Some (updated_at r)
      end
  end.

(** [getLatestUpdateTime()]; [fault] is the fate of its query. *)
Definition getLatestUpdateTime (fault : Fault) (st : DbState)
  : option string :=
  match fault with
  | NoFault =>
      match max_updated_at (rows st) with
      | Some latest =>
          if String.eqb latest EmptyString then None else Some latest
      | None => None
      end
  | _ => None
  end.

(** [isRefreshRequired()] at time [now]. *)
Definition isRefreshRequired (now : Z) (fault : Fault) (st : DbState)
  : bool :=
  match getInstrumentsRefreshCutoff now with
  | Ok cutoff =>
      match getLatestUpdateTime fault st with
      | None => true
      | Some latestUpdate =>
          if String.ltb latestUpdate cutoff then true else false
      end
  | Throw _ => true
  end.

End WithNumbers.

Arguments SDelete {number}.
Arguments SPrepare {number}.
Arguments SBegin {number}.
Arguments SInsert {number} r.
Arguments SCommit {number}.
Arguments SRollback {number}.
Arguments rows {number} d.
Arguments txn {number} d.
Arguments log {number} d.
Arguments updated_at {number} i.
Arguments exec {number} faults s _.
Arguments effect {number} s st.
Arguments abandon {number} st.
Arguments logged {number} s st.
Arguments refused {number} s st.
Arguments max_updated_at {number} table.
Arguments getLatestUpdateTime {number} fault st.
Arguments isRefreshRequired {number} now fault st.
Arguments performInstrumentsRefresh {number} parseInt parseFloat orZero env _.
Arguments replaceRows {number} env dbRecords _.
Arguments insertAll {number} env records insertedCount _.
Arguments transformToDBRecord {number} parseInt parseFloat orZero row updatedAt.

(** Tables to evaluate with: numbers are left out, a row is known by
    its [updated_at]. *)
Definition stampedRow (stamp : string) : InstrumentRecord unit := {|
  instrument_token := tt; exchange_token := tt;
  tradingsymbol := EmptyString; name := None; last_price := tt;
  expiry := None; strike := tt; tick_size := tt; lot_size := tt;
  instrument_type := None; segment := None; exchange := EmptyString;
  updated_at := stamp
|}.

Definition tableOf (stamps : list string) : DbState unit :=
  {| rows := map stampedRow stamps; txn := None; log := [] |}.

(** A feed of a header and two data lines, the surroundings that serve
    it at IST 2024-01-10 09:00:00 under given faults, and a fault at
    the second insert (statements are counted from 0: delete, prepare,
    begin, then the inserts). *)
Definition demoFeed : string :=
  ("instrument_token,tradingsymbol" ++ String newline "1,ABC"
     ++ String newline "2,DEF")%string.

Definition demoEnv (faults : nat -> Fault) : Env :=
  {| fetched := FetchResponse true "OK" (Ok demoFeed);
     now := 1704857400000;
     faults := faults |}.

Definition noFaults (n : nat) : Fault := NoFault.

Definition secondInsertFails (n : nat) : Fault :=
  if Nat.eqb n 4 then StmtFails "disk I/O error" else NoFault.

Definition oldTable : DbState unit := tableOf ["2024-01-09 09:00:00"].

Definition demoRefresh (faults : nat -> Fault)
  : RefreshResult * DbState unit :=
  performInstrumentsRefresh (fun _ => tt) (fun _ => tt) (fun x => x)
    (demoEnv faults) oldTable.

End Instruments.

(** ** Session acquisition: [src/api/user/sessionOMS.ts],
      [sessionAPI.ts], [session.ts] and [login.ts], with the replies of
      [src/api/_shared/responses.ts] and the tables of
      [src/api/_db/kite_users.ts] *)

Module Session.

Import Totp.

(** *** JavaScript values, as far as the session code handles them.
    A number is kept as its rendering. *)
#[local] Set Warnings "-register-all".
Inductive jsval : Type :=
| VUndefined
| VNull
| VBool (b : bool)
| VNum (rendering : string)
| VStr (s : string)
| VArr (items : list jsval)
| VObj (fields : list (string * jsval)).

Definition truthy (v : jsval) : bool :=
  match v with
  | VUndefined | VNull => false
  | VBool b => b
  | VNum r => negb (String.eqb r "0" || String.eqb r "NaN")
  | VStr s => negb (String.eqb s EmptyString)
  | VArr _ | VObj _ => true
  end.

Fixpoint lookup (k : string) (fields : list (string * jsval)) : jsval :=
  match fields with
  | [] => VUndefined
  | (k', v) :: rest => if String.eqb k' k then v else lookup k rest
  end.

(** [obj.k] on a value that is neither [null] nor [undefined]. *)
Definition prop (obj : jsval) (k : string) : jsval :=
  match obj with
  | VObj fields => lookup k fields
  | _ => VUndefined
  end.

(** String conversion, as a template literal or [URLSearchParams]
    applies it. *)
Fixpoint ToString (v : jsval) : string :=
  match v with
  | VUndefined => "undefined"
  | VNull => "null"
  | VBool true => "true"
  | VBool false => "false"
  | VNum r => r
  | VStr s => s
  | VArr items =>
      JS.join ","
        (map (fun x => match x with
                       | VUndefined | VNull => EmptyString
                       | _ => ToString x
                       end) items)
  | VObj _ => "[object Object]"
  end.

(** A string or [undefined] as a value, and a string that is falsy
    when empty. *)
Definition opt_val (o : option string) : jsval :=
  match o with
  | Some s => VStr s
  | None => VUndefined
  end.

Definition nonempty (s : string) : bool := negb (String.eqb s EmptyString).

(** [o || d] and the truth of [o] for an optional string. *)
Definition opt_or (o : option string) (d : string) : string :=
  match o with
  | Some s => if nonempty s then s else d
  | None => d
  end.

Definition opt_truthy (o : option string) : bool :=
  match o with
  | Some s => nonempty s
  | None => false
  end.

(** [o || null] where the result is bound to a nullable column. *)
Definition opt_or_null (o : option string) : option string :=
  if opt_truthy o then o else None.

(** What the session code takes from the runtime besides the TOTP
    generator's needs: the JSON codec, [Bun.password.verify], the query
    parameter of a [URL] (relative to a base or not), SHA-256 in hex,
    [toISOString] of a time and of a parsed date string, the text a
    value is bound as in a statement ([None] is NULL), and the message
    of the [TypeError] on reading a property of [null] or
    [undefined]. *)
Record Runtime : Type := {
  totp : Totp.Runtime;
  JSON_parse : string -> result jsval;
  JSON_stringify : jsval -> string;
  passwordVerify : string -> string -> result bool;
  searchParam : bool -> string -> string -> result (option string);
  sha256Hex : string -> string;
  toISOString : Z -> string;
  reformatDate : string -> result string;
  sqlText : jsval -> result (option string);
  readOfNullish : string -> string
}.

(** *** The network *)

Record Request : Type := {
  method : string;
  url : string;
  headers : list (string * string);
  form : list (string * string);
  redirect_manual : bool
}.

Record Response : Type := {
  status : Z;
  set_cookie : option string;
  location : option string;
  text : string;
  json : result jsval
}.

Definition ok (r : Response) : bool :=
  (200 <=? status r) && (status r <=? 299).

Inductive NetOutcome : Type :=
| NetThrows (msg : string)
| NetReply (r : Response).

(** *** The tables *)

Record UserRow : Type := {
  u_user_id : string;
  password_hash : string;
  u_totp_secret : ustring
}.

Record SessionRow : Type := {
  s_user_id : string;
  enctoken : option string;
  api_key : option string;
  access_token : option string;
  kite_session : string;
  login_type : string;
  login_time : string;
  created_at : string;
  updated_at : string
}.

(** *** The world of one request: the tables, the requests sent so far,
    and how many statements and clock readings there have been. *)
Record World : Type := {
  users : list UserRow;
  sessions : list SessionRow;
  netlog : list Request;
  dbops : nat;
  ticks : nat
}.

(** The world after a request is sent, the clock is read, a statement
    reaches the engine, a session row is inserted. *)
Definition sent (req : Request) (w : World) : World :=
  {| users := users w; sessions := sessions w;
     netlog := netlog w ++ [req]; dbops := dbops w; ticks := ticks w |}.

Definition ticked (w : World) : World :=
  {| users := users w; sessions := sessions w; netlog := netlog w;
     dbops := dbops w; ticks := S (ticks w) |}.

Definition counted (w : World) : World :=
  {| users := users w; sessions := sessions w; netlog := netlog w;
     dbops := S (dbops w); ticks := ticks w |}.

Definition stored (r : SessionRow) (w : World) : World :=
  {| users := users w; sessions := sessions w ++ [r];
     netlog := netlog w; dbops := dbops w; ticks := ticks w |}.

(** The surroundings: the answer to a request given those sent before
    it, the clock, and the fate of each statement ([Some msg]: it
    throws). *)
Record Env : Type := {
  net : list Request -> Request -> NetOutcome;
  clock : nat -> Z;
  dbfault : nat -> option string
}.

(** *** Replies ([responses.ts]); the body is kept as the object that
    [JSON.stringify] is applied to. *)
Record Reply : Type := {
  code : Z;
  body : jsval
}.

Definition successResponse (data : jsval) : Reply :=
  {| code := 200;
     body := VObj [("status", VStr "success"); ("data", data)] |}.

Definition errorResponse (error_type message : string) (statusCode : Z)
  : Reply :=
  {| code := statusCode;
     body := VObj [("status", VStr "error");
                   ("error_type", VStr error_type);
                   ("message", VStr message)] |}.

Definition inputError (message : string) : Reply :=
  errorResponse "InputException" message 400.
Definition authError (message : string) : Reply :=
  errorResponse "AuthenticationException" message 401.
Definition dbError (message : string) : Reply :=
  errorResponse "DatabaseException" message 500.

(** *** Results of the drivers *)

Record OMSSessionResult : Type := {
  oms_success : bool;
  oms_user_id : jsval;
  oms_enctoken : option string;
  oms_kf_session : option string;
  oms_public_token : option string;
  oms_login_time : option string;
  oms_raw_cookies : option string;
  oms_error : option string
}.

Definition omsFailure (msg : string) : OMSSessionResult :=
  {| oms_success := false; oms_user_id := VUndefined;
     oms_enctoken := None; oms_kf_session := None;
     oms_public_token := None; oms_login_time := None;
     oms_raw_cookies := None; oms_error := Some msg |}.

Record APISessionResult : Type := {
  api_success : bool;
  api_error : option string;
  oms_session : option OMSSessionResult;
  api_session : jsval
}.

Definition apiFailure (msg : string) : APISessionResult :=
  {| api_success := false; api_error := Some msg;
     oms_session := None; api_session := VUndefined |}.

(** What [generateSession] returns: one of the two shapes. *)
Inductive SessionResult : Type :=
| FromOMS (r : OMSSessionResult)
| FromAPI (r : APISessionResult).

Definition result_success (r : SessionResult) : bool :=
  match r with
  | FromOMS o => oms_success o
  | FromAPI a => api_success a
  end.

Definition result_error (r : SessionResult) : option string :=
  match r with
  | FromOMS o => oms_error o
  | FromAPI a => api_error a
  end.

(** *** The login request after [req.formData()] *)

Record LoginForm : Type := {
  f_user_id : option string;
  f_password : option string;
  f_totp_secret : option ustring;
  f_api_key : option string;
  f_api_secret : option string
}.

Record LoginRequest : Type := {
  req_method : string;
  content_type : option string;
  formData : result LoginForm
}.

(** [s.includes(needle)]. *)
Definition includes (needle s : string) : bool :=
  match String.index 0 needle s with
  | Some _ => true
  | None => false
  end.

Fixpoint drop (n : nat) (s : string) : string :=
  match n, s with
  | O, _ => s
  | S k, String _ r => drop k r
  | S _, EmptyString => EmptyString
  end.

(** [parseCookie(cookieString, name)]: the first place where
    [name=] is followed by at least one character other than [;], and
    the longest run of such characters there. *)
Fixpoint parseCookie_from (pat : string) (s : string) : option string :=
  let here :=
    if String.prefix pat s then
      let v := JS.take_while (fun c => negb (Ascii.eqb c ";"))
                          (drop (String.length pat) s) in
      if nonempty v then Some v else None
    else None in
  match here with
  | Some v => Some v
  | None =>
      match s with
      | EmptyString => None
      | String _ r => parseCookie_from pat r
      end
  end.

Definition parseCookie (cookieString name : string) : option string :=
  parseCookie_from (name ++ "=") cookieString.

Section WithSurroundings.

Variable RT : Runtime.
Variable E : Env.

Definition IO (A : Type) : Type := M World A.

(** [obj.k]: a [TypeError] on [null] and [undefined], the field of an
    object, and [undefined] on the other values for the names read
    here. *)
Definition get (obj : jsval) (k : string) : result jsval :=
  match obj with
  | VUndefined | VNull => Throw (readOfNullish RT k)
  | _ => Ok (prop obj k)
  end.

Definition is_success (v : jsval) : bool :=
  match v with
  | VStr s => String.eqb s "success"
  | _ => false
  end.

(** [await fetch(...)]: the request is sent, then answered or not. *)
Definition fetch (req : Request) : IO Response :=
  fun w =>
    match net E (netlog w) req with
    | NetThrows msg => (Throw msg, sent req w)
    | NetReply r => (Ok r, sent req w)
    end.

(** [Date.now()]. *)
Definition dateNow : IO Z :=
  fun w => (Ok (clock E (ticks w)), ticked w).

(** A statement reaches the engine: it is counted and may throw. *)
Definition statement : IO unit :=
  fun w =>
    match dbfault E (dbops w) with
    | Some msg => (Throw msg, counted w)
    | None => (Ok tt, counted w)
    end.

Definition getISTTimestamp : IO string :=
  let* now := dateNow in ret (Clock.getISTTimestamp now).

Definition generateTotpValue (totpSecret : ustring) : IO string :=
  let* now := dateNow in
  lift (Totp.generateTotpValue (totp RT) totpSecret now 30).

Definition formHeaders : list (string * string) :=
  [("Content-Type", "application/x-www-form-urlencoded")].

(** [sessionOMS.ts] *)

Definition loginRequest (userId password : string) : Request :=
  {| method := "POST";
     url := "https://kite.zerodha.com/api/login";
     headers := formHeaders;
     form := [("user_id", userId); ("password", password)];
     redirect_manual := false |}.

Definition twofaRequest (cookie : string) (user_id request_id : jsval)
                        (twofaValue : string) (twofa_type : jsval)
  : Request :=
  {| method := "POST";
     url := "https://kite.zerodha.com/api/twofa";
     headers := formHeaders ++ [("Cookie", cookie)];
     form := [("user_id", ToString user_id);
              ("request_id", ToString request_id);
              ("twofa_value", twofaValue);
              ("twofa_type", ToString twofa_type)];
     redirect_manual := false |}.

Definition generateOMSSession (userId password : string)
                              (totpSecret : ustring)
  : IO OMSSessionResult :=
  tryCatch
    (let* loginResponse := fetch (loginRequest userId password) in
     if negb (ok loginResponse) then
       let errorData := text loginResponse in
       ret (omsFailure ("Login failed ["
                          ++ JS.toString (status loginResponse)
                          ++ "]: " ++ errorData))
     else
       let loginCookies := opt_or (set_cookie loginResponse) EmptyString in
       let* loginData := lift (json loginResponse) in
       let* loginStatus := lift (get loginData "status") in
       if negb (is_success loginStatus) then
         ret (omsFailure (JSON_stringify RT loginData))
       else
         let* data := lift (get loginData "data") in
         let* user_id := lift (get data "user_id") in
         let* request_id := lift (get data "request_id") in
         let* twofa_type := lift (get data "twofa_type") in
         let* twofaValue := generateTotpValue totpSecret in
         let loginCookieHeader :=
           Cookie.convertSetCookieToCookie loginCookies in
         let* twofaResponse :=
           fetch (twofaRequest loginCookieHeader user_id request_id
                               twofaValue twofa_type) in
         if negb (ok twofaResponse) then
           let errorData := text twofaResponse in
           ret (omsFailure ("2FA failed ["
                              ++ JS.toString (status twofaResponse)
                              ++ "]: " ++ errorData))
         else
           let* twofaData := lift (json twofaResponse) in
           let* twofaStatus := lift (get twofaData "status") in
           if negb (is_success twofaStatus) then
             ret (omsFailure (JSON_stringify RT twofaData))
           else
             let twofaCookies := opt_or (set_cookie twofaResponse) EmptyString in
             let allCookies :=
               Cookie.allCookies loginCookies twofaCookies in
             let kf_session := parseCookie loginCookies "kf_session" in
             let enctoken := parseCookie twofaCookies "enctoken" in
             let public_token :=
               parseCookie twofaCookies "public_token" in
             let rawCookies := allCookies in
             let* login_time := getISTTimestamp in
             ret {| oms_success := true;
                    oms_user_id := user_id;
                    oms_enctoken := enctoken;
                    oms_kf_session := kf_session;
                    oms_public_token := public_token;
                    oms_login_time := Some login_time;
                    oms_raw_cookies := Some rawCookies;
                    oms_error := None |})
    (fun msg => ret (omsFailure msg)).

Definition profileRequest (enctoken : string) : Request :=
  {| method := "GET";
     url := "https://kite.zerodha.com/oms/user/profile";
     headers := [("Authorization", ("enctoken " ++ enctoken)%string)];
     form := [];
     redirect_manual := false |}.

Definition isEnctokenValid (enctoken : string) : IO bool :=
  tryCatch
    (let* response := fetch (profileRequest enctoken) in
     ret (status response =? 200))
    (fun _ => ret false).

(** [getUserProfile(enctoken)]; [VNull] is its [null]. *)
Definition getUserProfile (enctoken : string) : IO jsval :=
  tryCatch
    (let* response := fetch (profileRequest enctoken) in
     if negb (ok response) then ret VNull
     else
       let* profileData := lift (json response) in
       lift (get profileData "data"))
    (fun _ => ret VNull).

(** [sessionAPI.ts] *)

Definition browserHeaders (cookies : string) : list (string * string) :=
  [("User-Agent",
    "Mozilla/5.0 (Macintosh; Intel Mac OS X 10.15; rv:94.0) Gecko/20100101 Firefox/94.0");
   ("X-Kite-Version", "3");
   ("Cookie", cookies)].

Definition connectRequest (apiKey cookies : string) : Request :=
  {| method := "GET";
     url := ("https://kite.zerodha.com/connect/login?v=3&api_key="
               ++ apiKey)%string;
     headers := browserHeaders cookies;
     form := [];
     redirect_manual := true |}.

Definition finishRequest (apiKey sessId cookies : string) : Request :=
  {| method := "GET";
     url := ("https://kite.zerodha.com/connect/finish?v=3&api_key="
               ++ apiKey ++ "&sess_id=" ++ sessId)%string;
     headers := browserHeaders cookies;
     form := [];
     redirect_manual := true |}.

Definition tokenRequest (apiKey requestToken checksum : string)
  : Request :=
  {| method := "POST";
     url := "https://api.kite.trade/session/token";
     headers := formHeaders;
     form := [("api_key", apiKey); ("request_token", requestToken);
              ("checksum", checksum)];
     redirect_manual := false |}.

(** The common body of [getSessionID] and [getRequestToken]: expect a
    302, read [Location], take one query parameter of it. *)
Definition redirectParam (req : Request) (withBase : bool)
                         (param : string) : IO (option string) :=
  tryCatch
    (let* response := fetch req in
     if negb (status response =? 302) then ret None
     else
       match location response with
       | None => ret None
       | Some loc =>
           if negb (nonempty loc) then ret None
           else
             let* value := lift (searchParam RT withBase loc param) in
             if opt_truthy value then ret value else ret None
       end)
    (fun _ => ret None).

Definition getSessionID (apiKey cookies : string) : IO (option string) :=
  redirectParam (connectRequest apiKey cookies) true "sess_id".

Definition getRequestToken (apiKey sessId cookies : string)
  : IO (option string) :=
  redirectParam (finishRequest apiKey sessId cookies) false
                "request_token".

Definition generateChecksum (apiKey requestToken apiSecret : string)
  : string :=
  sha256Hex RT (apiKey ++ requestToken ++ apiSecret)%string.

(** [generateSessionToken]; [VNull] is its [null]. *)
Definition generateSessionToken (apiKey requestToken checksum : string)
  : IO jsval :=
  tryCatch
    (let* response := fetch (tokenRequest apiKey requestToken checksum) in
     if negb (status response =? 200) then ret VNull
     else
       let* jsonData := lift (json response) in
       lift (get jsonData "data"))
    (fun _ => ret VNull).

(** [omsResult.raw_cookies ? convertSetCookieToCookie(...) : empty]. *)
Definition cookieHeader (omsResult : OMSSessionResult) : string :=
  if opt_truthy (oms_raw_cookies omsResult)
  then Cookie.convertSetCookieToCookie
         (opt_or (oms_raw_cookies omsResult) EmptyString)
  else EmptyString.

Definition generateAPISession (userId password : string)
                              (totpSecret : ustring)
                              (apiKey apiSecret : string)
  : IO APISessionResult :=
  tryCatch
    (let* omsResult := generateOMSSession userId password totpSecret in
     if negb (oms_success omsResult) then
       ret (apiFailure (opt_or (oms_error omsResult)
                               "Failed to generate OMS session"))
     else
       let cookies := cookieHeader omsResult in
       let* sessId := getSessionID apiKey cookies in
       match sessId with
       | None => ret (apiFailure "Failed to get session ID")
       | Some sessId =>
           let* requestToken := getRequestToken apiKey sessId cookies in
           match requestToken with
           | None => ret (apiFailure "Failed to get request token")
           | Some requestToken =>
               let checksum :=
                 generateChecksum apiKey requestToken apiSecret in
               let* sessionTokenData :=
                 generateSessionToken apiKey requestToken checksum in
               if negb (truthy sessionTokenData) then
                 ret (apiFailure "Failed to generate session token")
               else
                 ret {| api_success := true;
                        api_error := None;
                        oms_session := Some omsResult;
                        api_session := sessionTokenData |}
           end
       end)
    (fun msg => ret (apiFailure msg)).

(** [session.ts] *)
Definition generateSession (userId password : string)
                           (totpSecret : ustring)
                           (apiKey apiSecret : option string)
  : IO SessionResult :=
  if opt_truthy apiKey && opt_truthy apiSecret then
    let* r := generateAPISession userId password totpSecret
                (opt_or apiKey EmptyString) (opt_or apiSecret EmptyString) in
    ret (FromAPI r)
  else
    let* r := generateOMSSession userId password totpSecret in
    ret (FromOMS r).

(** [login.ts] *)

Definition present (o : option string) : option string :=
  if opt_truthy o then o else None.

Definition present_secret (o : option ustring) : option ustring :=
  match o with
  | Some [] => None
  | other => other
  end.

Definition ustring_eqb (a b : ustring) : bool :=
  if list_eq_dec N.eq_dec a b then true else false.

(** [SELECT password_hash, totp_secret FROM kite_users WHERE
    user_id = ?], prepared and run. *)
Definition selectUser (user_id : string) : IO (option UserRow) :=
  statement >> statement >>
  fun w =>
    (Ok (find (fun u => String.eqb (u_user_id u) user_id) (users w)), w).

(** The row of [user_id] with the greatest [created_at]; among equal
    ones the first inserted. *)
Fixpoint latestSession (user_id : string) (table : list SessionRow)
  : option SessionRow :=
  match table with
  | [] => None
  | r :: rest =>
      let best := latestSession user_id rest in
      if String.eqb (s_user_id r) user_id then
        match best with
        | None => Some r
        | Some b =>
            if String.ltb (created_at r) (created_at b) then Some b
            else Some r
        end
      else best
  end.

(** [SELECT enctoken, kite_session FROM kite_sessions WHERE user_id = ?
    ORDER BY created_at DESC LIMIT 1], prepared and run. *)
Definition selectLatestSession (user_id : string)
  : IO (option SessionRow) :=
  statement >> statement >>
  fun w => (Ok (latestSession user_id (sessions w)), w).

Definition appendSession (r : SessionRow) : IO unit :=
  fun w => (Ok tt, stored r w).

(** [.run(...)] of the INSERT into [kite_sessions]: the values are
    bound, the statement runs, and [user_id] must not be NULL. *)
Definition runInsert (v_user_id : jsval) (enc : option string)
                     (v_api_key v_access_token : jsval)
                     (session_text type_ time_ created updated : string)
  : IO unit :=
  let* uid := lift (sqlText RT v_user_id) in
  let* key := lift (sqlText RT v_api_key) in
  let* token := lift (sqlText RT v_access_token) in
  statement >>
  match uid with
  | None => throw "NOT NULL constraint failed: kite_sessions.user_id"
  | Some u =>
      appendSession
        {| s_user_id := u; enctoken := enc; api_key := key;
           access_token := token; kite_session := session_text;
           login_type := type_; login_time := time_;
           created_at := created; updated_at := updated |}
  end.

(** [sessionResult as { success, user_id, enctoken, ... }]. *)
Definition asOMS (r : SessionResult) : OMSSessionResult :=
  match r with
  | FromOMS o => o
  | FromAPI a =>
      {| oms_success := api_success a; oms_user_id := VUndefined;
         oms_enctoken := None; oms_kf_session := None;
         oms_public_token := None; oms_login_time := None;
         oms_raw_cookies := None; oms_error := api_error a |}
  end.

Definition apiSessionOf (r : SessionResult) : jsval :=
  match r with
  | FromAPI a => api_session a
  | FromOMS _ => VUndefined
  end.

Definition omsTokenOf (r : SessionResult) : option string :=
  match r with
  | FromAPI a =>
      match oms_session a with
      | Some o => oms_enctoken o
      | None => None
      end
  | FromOMS _ => None
  end.

(** The part of [handleLogin] after the cache check: a new session is
    generated, stored and returned. *)
Definition freshLogin (user_id password : string) (totp_secret : ustring)
                      (api_key api_secret : option string) : IO Reply :=
  let* sessionResult :=
    generateSession user_id password totp_secret api_key api_secret in
  if negb (result_success sessionResult) then
    ret (authError (opt_or (result_error sessionResult)
                           "Failed to generate session"))
  else if truthy (apiSessionOf sessionResult) then
    let apiSession := apiSessionOf sessionResult in
    let* timestamp := getISTTimestamp in
    tryCatch
      (statement >>
       let* now := dateNow in
       runInsert (prop apiSession "user_id")
                 (opt_or_null (omsTokenOf sessionResult))
                 (prop apiSession "api_key")
                 (prop apiSession "access_token")
                 (JSON_stringify RT apiSession)
                 "API" (toISOString RT now) timestamp timestamp)
      (fun _ => ret tt) >>
    ret (successResponse apiSession)
  else
    let omsSession := asOMS sessionResult in
    let* profile :=
      getUserProfile (ToString (opt_val (oms_enctoken omsSession))) in
    if negb (truthy profile) then
      ret (authError "Failed to get user profile")
    else
      let omsResponse :=
        VObj [("user_id", oms_user_id omsSession);
              ("user_type", prop profile "user_type");
              ("email", prop profile "email");
              ("user_name", prop profile "user_name");
              ("user_shortname", prop profile "user_shortname");
              ("broker", prop profile "broker");
              ("exchanges", prop profile "exchanges");
              ("products", prop profile "products");
              ("order_types", prop profile "order_types");
              ("avatar_url", prop profile "avatar_url");
              ("enctoken", opt_val (oms_enctoken omsSession));
              ("kf_session", opt_val (oms_kf_session omsSession));
              ("public_token", opt_val (oms_public_token omsSession));
              ("login_time", opt_val (oms_login_time omsSession));
              ("meta", prop profile "meta")] in
      let* timestamp := getISTTimestamp in
      tryCatch
        (statement >>
         let* login_source :=
           if opt_truthy (oms_login_time omsSession)
           then ret (opt_or (oms_login_time omsSession) EmptyString)
           else let* now := dateNow in ret (toISOString RT now) in
         let* login_iso := lift (reformatDate RT login_source) in
         runInsert (if truthy (oms_user_id omsSession)
                    then oms_user_id omsSession else VStr user_id)
                   (opt_or_null (oms_enctoken omsSession))
                   VNull VNull
                   (JSON_stringify RT omsResponse)
                   "OMS" login_iso timestamp timestamp)
        (fun _ => ret tt) >>
      ret (successResponse omsResponse).

(** The cache check of [handleLogin]: [Some reply] when the stored
    session is returned. *)
Definition cachedSession (existingSession : option SessionRow)
  : IO (option Reply) :=
  match existingSession with
  | Some es =>
      if nonempty (kite_session es) && opt_truthy (enctoken es) then
        let* isValid :=
          isEnctokenValid (opt_or (enctoken es) EmptyString) in
        if isValid then
          let* sessionData := lift (JSON_parse RT (kite_session es)) in
          ret (Some (successResponse sessionData))
        else ret None
      else ret None
  | None => ret None
  end.

(** The existing session is fetched (a failing query counts as no
    session) and checked. *)
Definition lookupCache (user_id : string) : IO (option Reply) :=
  let* existingSession :=
    tryCatch (selectLatestSession user_id) (fun _ => ret None) in
  cachedSession existingSession.

(** The first part of [handleLogin], up to the verification of the
    credentials: an early reply, or the verified fields of the form. *)
Definition verifyCredentials (req : LoginRequest)
  : IO (Reply + (string * string * ustring * LoginForm)) :=
  if negb (String.eqb (req_method req) "POST") then
    ret (inl (inputError "Method not allowed"))
  else if negb (match content_type req with
                | Some ct =>
                    includes "application/x-www-form-urlencoded" ct
                | None => false
                end) then
    ret (inl (inputError
                "Content-Type must be application/x-www-form-urlencoded"))
  else
    let* formData := lift (formData req) in
    match present (f_user_id formData) with
    | None => ret (inl (inputError "user_id is required"))
    | Some user_id =>
    match present (f_password formData) with
    | None => ret (inl (inputError "password is required"))
    | Some password =>
    match present_secret (f_totp_secret formData) with
    | None => ret (inl (inputError "totp_secret is required"))
    | Some totp_secret =>
        let* looked :=
          tryCatch
            (let* u := selectUser user_id in ret (inr u))
            (fun msg => ret (inl (dbError msg))) in
        match looked with
        | inl early => ret (inl early)
        | inr None => ret (inl (authError "Invalid credentials"))
        | inr (Some userRecord) =>
            let* isPasswordValid :=
              lift (passwordVerify RT password
                                   (password_hash userRecord)) in
            if negb isPasswordValid then
              ret (inl (authError "Invalid credentials"))
            else if negb (ustring_eqb (u_totp_secret userRecord)
                                      totp_secret) then
              ret (inl (authError "Invalid credentials"))
            else
              ret (inr (user_id, password, totp_secret, formData))
        end
    end end end.

(** The body of the outer [try] of [handleLogin]. *)
Definition handleLoginBody (req : LoginRequest) : IO Reply :=
  let* verified := verifyCredentials req in
  match verified with
  | inl early => ret early
  | inr (user_id, password, totp_secret, formData) =>
      let* cached := lookupCache user_id in
      match cached with
      | Some reply => ret reply
      | None =>
          freshLogin user_id password totp_secret
                     (f_api_key formData) (f_api_secret formData)
      end
  end.

(** The outer [catch]: what is thrown becomes a database error. *)
Definition settle (outcome : result Reply * World) : Reply * World :=
  match outcome with
  | (Ok reply, w') => (reply, w')
  | (Throw msg, w') => (dbError msg, w')
  end.

Definition handleLogin (req : LoginRequest) : World -> Reply * World :=
  fun w => settle (handleLoginBody req w).

End WithSurroundings.

(** *** Notions the properties are stated with *)

(** The request passes the local checks of [handleLogin] in world [w]:
    it is a form POST with the three required fields, the query for
    the account goes through and finds a record whose password hash
    verifies and whose TOTP secret is the one given. *)
Record Verified (RT : Runtime) (E : Env) (req : LoginRequest) (w : World)
       (user_id password : string) (totp_secret : ustring)
       (form : LoginForm) : Prop := {
  ver_method : req_method req = "POST";
  ver_type :
    exists ct, content_type req = Some ct
               /\ includes "application/x-www-form-urlencoded" ct = true;
  ver_form : formData req = Ok form;
  ver_user_id : present (f_user_id form) = Some user_id;
  ver_password : present (f_password form) = Some password;
  ver_secret : present_secret (f_totp_secret form) = Some totp_secret;
  ver_select :
    dbfault E (dbops w) = None /\ dbfault E (S (dbops w)) = None;
  ver_record :
    exists u,
      find (fun u => String.eqb (u_user_id u) user_id) (users w) = Some u
      /\ passwordVerify RT password (password_hash u) = Ok true
      /\ u_totp_secret u = totp_secret
}.

(** [es] is the most recently created session record of [user_id] in
    a table whose rows stand in the order of their insertion: a row of
    that account whose [created_at] no row of the account exceeds in
    the byte order of texts, and among those the first inserted. *)
Definition most_recent (user_id : string) (table : list SessionRow)
                       (es : SessionRow) : Prop :=
  exists earlier later,
    table = earlier ++ es :: later
    /\ s_user_id es = user_id
    /\ (forall r, In r earlier -> s_user_id r = user_id ->
                  String.ltb (created_at r) (created_at es) = true)
    /\ (forall r, In r later -> s_user_id r = user_id ->
                  String.leb (created_at r) (created_at es) = true).

(** No stored bearer token is the empty text: what every insert of
    [handleLogin] keeps, since it stores [enctoken || null]. *)
Definition tokens_nonempty (table : list SessionRow) : Prop :=
  Forall (fun r => enctoken r <> Some EmptyString) table.

(** A computation under which no stored bearer token becomes the empty
    text, and one that always returns. *)
Definition keeps_tokens {A : Type} (m : IO A) : Prop :=
  forall w, tokens_nonempty (sessions w) ->
            tokens_nonempty (sessions (snd (m w))).

Definition returns {A : Type} (m : IO A) : Prop :=
  forall w, exists a w', m w = (Ok a, w').

(** The answer to the connect request gives no session identifier:
    the request fails, or the status is not 302, or there is no
    [Location], or its [sess_id] parameter cannot be read or is
    absent or empty. *)
Definition noSessionId (RT : Runtime) (outcome : NetOutcome) : Prop :=
  match outcome with
  | NetThrows _ => True
  | NetReply r =>
      status r <> 302
      \/ opt_truthy (location r) = false
      \/ exists loc,
           location r = Some loc
           /\ match searchParam RT true loc "sess_id" with
              | Ok value => opt_truthy value = false
              | Throw _ => True
              end
  end.

(** The class and the message of an error reply. *)
Definition error_class (r : Reply) : Z * jsval :=
  (code r, prop (body r) "error_type").

Definition error_message (r : Reply) : jsval := prop (body r) "message".

(** A runtime to evaluate with.  Its JSON codec knows the empty object
    and [null] only, its password check compares the password with the
    stored text, it finds no query parameter, and it binds strings and
    [null]. *)
Definition demoRuntime : Runtime := {|
  totp := Totp.asciiRuntime;
  JSON_parse := fun s =>
    if String.eqb s "{}" then Ok (VObj [])
    else if String.eqb s "null" then Ok VNull
    else Throw "JSON Parse error";
  JSON_stringify := fun v =>
    match v with
    | VObj [] => "{}"
    | VNull => "null"
    | _ => "[json]"
    end;
  passwordVerify := fun password hash => Ok (String.eqb password hash);
  searchParam := fun _ _ _ => Ok None;
  sha256Hex := fun _ => EmptyString;
  toISOString := fun t => JS.toString t;
  reformatDate := fun s => Ok s;
  sqlText := fun v =>
    match v with
    | VStr s => Ok (Some s)
    | VNull | VUndefined => Ok None
    | _ => Throw "Binding expected string or null"
    end;
  readOfNullish := fun k => ("cannot read " ++ k)%string
|}.

(** *** An account, its login request, and broker answers to evaluate
    with.  A body read as JSON is given by its value. *)

Definition demoUser : UserRow :=
  {| u_user_id := "AB1234"; password_hash := "correct horse";
     u_totp_secret := Totp.rfc_secret |}.

Definition demoForm (key secret : option string) : LoginForm :=
  {| f_user_id := Some "AB1234"; f_password := Some "correct horse";
     f_totp_secret := Some Totp.rfc_secret;
     f_api_key := key; f_api_secret := secret |}.

Definition demoRequest (key secret : option string) : LoginRequest :=
  {| req_method := "POST";
     content_type := Some "application/x-www-form-urlencoded";
     formData := Ok (demoForm key secret) |}.

Definition demoWorld (table : list SessionRow) : World :=
  {| users := [demoUser]; sessions := table; netlog := [];
     dbops := 0; ticks := 0 |}.





Definition loginOk : NetOutcome :=
  NetReply
    {| status := 200;
       set_cookie := Some "kf_session=abc; Path=/";
       location := None; text := EmptyString;
       json := Ok (VObj [("status", VStr "success");
                         ("data", VObj [("user_id", VStr "AB1234");
                                        ("request_id", VStr "req1");
                                        ("twofa_type", VStr "totp")])]) |}.

Definition twofaOk : NetOutcome :=
  NetReply
    {| status := 200;
       set_cookie :=
         Some "enctoken=tok123; Path=/, public_token=pub456; Path=/";
       location := None; text := EmptyString;
       json := Ok (VObj [("status", VStr "success");
                         ("data", VObj [("profile", VObj [])])]) |}.

Definition answered (code : Z) (body : string) : NetOutcome :=
  NetReply
    {| status := code; set_cookie := None; location := None;
       text := body; json := Throw "JSON Parse error" |}.

(** The broker, by the four answers it gives: to the login, to the
    2FA, to the connect and to the profile request.  The clock stands
    at 59 seconds and no statement is at fault. *)
Definition broker (login twofa connect profile : NetOutcome) : Env :=
  {| net := fun _ req =>
       if String.eqb (url req) "https://kite.zerodha.com/api/login"
       then login
       else if String.eqb (url req) "https://kite.zerodha.com/api/twofa"
       then twofa
       else if String.prefix "https://kite.zerodha.com/connect/login"
                             (url req)
       then connect
       else if String.eqb (url req)
                          "https://kite.zerodha.com/oms/user/profile"
       then profile
       else NetThrows "no route";
     clock := fun _ => 59000;
     dbfault := fun _ => None |}.

Definition unreached : NetOutcome := NetThrows "not reached".

End Session.


(** ** Logout and registration: [src/api/user/logout.ts] and
      [src/api/user/register.ts] *)

Module Account.

Import Session.

(** *** [logout.ts], over the world of the login *)

Definition unstored (user_id : string) (w : World) : World :=
  {| users := users w;
     sessions :=
       filter (fun r => negb (String.eqb (s_user_id r) user_id))
              (sessions w);
     netlog := netlog w; dbops := dbops w; ticks := ticks w |}.

Section WithSurroundings.

Variable E : Env.

(** The request that invalidates an API session at the broker. *)
Definition invalidateRequest (api_key access_token : string) : Request :=
  {| method := "DELETE";
     url := ("https://api.kite.trade/session/token?api_key=" ++ api_key
               ++ "&access_token=" ++ access_token)%string;
     headers := [("X-Kite-Version", "3")];
     form := [];
     redirect_manual := false |}.

(** [DELETE FROM kite_sessions WHERE user_id = ?], prepared and run;
    the value is [result.changes]. *)
Definition deleteSessions (user_id : string) : IO Z :=
  statement E >> statement E >>
  fun w =>
    (Ok (Z.of_nat
           (List.length
              (filter (fun r => String.eqb (s_user_id r) user_id)
                      (sessions w)))),
     unstored user_id w).

(** The body of the outer [try] of [handleLogout]. *)
Definition handleLogoutBody (req : LoginRequest) : IO Reply :=
  if negb (String.eqb (req_method req) "DELETE") then
    ret (inputError "Method not allowed")
  else if negb (match content_type req with
                | Some ct =>
                    includes "application/x-www-form-urlencoded" ct
                | None => false
                end) then
    ret (inputError
           "Content-Type must be application/x-www-form-urlencoded")
  else
    let* formData := lift (formData req) in
    match present (f_user_id formData) with
    | None => ret (inputError "user_id is required")
    | Some user_id =>
        let* looked :=
          tryCatch
            (let* s := selectLatestSession E user_id in ret (inr s))
            (fun msg => ret (inl (dbError msg))) in
        match looked with
        | inl early => ret early
        | inr None =>
            ret (authError "No active session found for this user")
        | inr (Some sessionRecord) =>
            (if opt_truthy (api_key sessionRecord)
                && opt_truthy (access_token sessionRecord)
             then
               tryCatch
                 (fetch E (invalidateRequest
                             (opt_or (api_key sessionRecord) EmptyString)
                             (opt_or (access_token sessionRecord)
                                     EmptyString))
                  >> ret tt)
                 (fun _ => ret tt)
             else ret tt) >>
            let* deleted :=
              tryCatch
                (let* changes := deleteSessions user_id in
                 ret (inr changes))
                (fun msg => ret (inl (dbError msg))) in
            match deleted with
            | inl early => ret early
            | inr changes =>
                if changes =? 0 then
                  ret (authError "No session found to delete")
                else
                  ret (successResponse
                         (VObj [("message", VStr "Logout successful");
                                ("user_id", VStr user_id)]))
            end
        end
    end.

Definition handleLogout (req : LoginRequest) : World -> Reply * World :=
  fun w => settle (handleLogoutBody req w).

End WithSurroundings.

(** *** [register.ts], over the table [kite_users] in full.  The [id]
    column is assigned by the engine and no statement of the sources
    reads its value; rows are kept in the order of their insertion. *)

Record AccountRow : Type := {
  a_user_id : string;
  a_password_hash : string;
  a_totp_secret : Totp.ustring;
  a_hash_key : string;
  a_created_at : string;
  a_updated_at : string
}.

(** The table, and how many statements and clock readings there have
    been. *)
Record Registry : Type := {
  accounts : list AccountRow;
  r_dbops : nat;
  r_ticks : nat
}.

Definition RIO (A : Type) : Type := M Registry A.

Definition r_counted (r : Registry) : Registry :=
  {| accounts := accounts r; r_dbops := S (r_dbops r);
     r_ticks := r_ticks r |}.

Definition r_ticked (r : Registry) : Registry :=
  {| accounts := accounts r; r_dbops := r_dbops r;
     r_ticks := S (r_ticks r) |}.

Definition has_account (user_id : string) (table : list AccountRow)
  : bool :=
  existsb (fun a => String.eqb (a_user_id a) user_id) table.

(** What the [UPDATE] makes of a row. *)
Definition updated (user_id password_hash : string)
                   (totp_secret : Totp.ustring)
                   (hash_key timestamp : string) (a : AccountRow)
  : AccountRow :=
  if String.eqb (a_user_id a) user_id then
    {| a_user_id := a_user_id a;
       a_password_hash := password_hash;
       a_totp_secret := totp_secret;
       a_hash_key := hash_key;
       a_created_at := a_created_at a;
       a_updated_at := timestamp |}
  else a.

(** What a login reads of a row: [SELECT password_hash, totp_secret
    FROM kite_users WHERE user_id = ?]. *)
Definition loginView (a : AccountRow) : UserRow :=
  {| u_user_id := a_user_id a;
     password_hash := a_password_hash a;
     u_totp_secret := a_totp_secret a |}.

Section WithRegistration.

Variable E : Env.

(** The two random sources of one registration: what
    [Bun.password.hash] gives for a password, and the UUID. *)
Variable passwordHash : string -> result string.
Variable randomUUID : string.

Definition r_statement : RIO unit :=
  fun r =>
    match dbfault E (r_dbops r) with
    | Some msg => (Throw msg, r_counted r)
    | None => (Ok tt, r_counted r)
    end.

Definition r_getISTTimestamp : RIO string :=
  fun r => (Ok (Clock.getISTTimestamp (clock E (r_ticks r))), r_ticked r).

(** [SELECT id FROM kite_users WHERE user_id = ?]: whether there is
    a row. *)
Definition selectAccountId (user_id : string) : RIO bool :=
  r_statement >> r_statement >>
  fun r => (Ok (has_account user_id (accounts r)), r).

Definition updateAccount (password_hash : string)
                         (totp_secret : Totp.ustring)
                         (hash_key timestamp user_id : string)
  : RIO unit :=
  r_statement >> r_statement >>
  fun r =>
    (Ok tt,
     {| accounts :=
          map (updated user_id password_hash totp_secret hash_key
                       timestamp)
              (accounts r);
        r_dbops := r_dbops r; r_ticks := r_ticks r |}).

(** The [INSERT]; [user_id] is declared [UNIQUE]. *)
Definition insertAccount (user_id password_hash : string)
                         (totp_secret : Totp.ustring)
                         (hash_key created updated_ : string)
  : RIO unit :=
  r_statement >> r_statement >>
  fun r =>
    if has_account user_id (accounts r) then
      (Throw "UNIQUE constraint failed: kite_users.user_id", r)
    else
      (Ok tt,
       {| accounts :=
            accounts r ++
            [{| a_user_id := user_id;
                a_password_hash := password_hash;
                a_totp_secret := totp_secret;
                a_hash_key := hash_key;
                a_created_at := created;
                a_updated_at := updated_ |}];
          r_dbops := r_dbops r; r_ticks := r_ticks r |}).

(** The body of the outer [try] of [handleRegister]. *)
Definition handleRegisterBody (req : LoginRequest) : RIO Reply :=
  if negb (String.eqb (req_method req) "POST") then
    ret (inputError "Method not allowed")
  else if negb (match content_type req with
                | Some ct =>
                    includes "application/x-www-form-urlencoded" ct
                | None => false
                end) then
    ret (inputError
           "Content-Type must be application/x-www-form-urlencoded")
  else
    let* formData := lift (formData req) in
    match present (f_user_id formData) with
    | None => ret (inputError "user_id is required")
    | Some user_id =>
    match present (f_password formData) with
    | None => ret (inputError "password is required")
    | Some password =>
    match present_secret (f_totp_secret formData) with
    | None => ret (inputError "totp_secret is required")
    | Some totp_secret =>
        let* password_hash := lift (passwordHash password) in
        let hash_key := randomUUID in
        let* timestamp := r_getISTTimestamp in
        let* existingUser := selectAccountId user_id in
        let* done :=
          tryCatch
            (if existingUser then
               updateAccount password_hash totp_secret hash_key
                             timestamp user_id >>
               ret (inr "updated")
             else
               insertAccount user_id password_hash totp_secret hash_key
                             timestamp timestamp >>
               ret (inr "created"))
            (fun msg => ret (inl (dbError msg))) in
        match done with
        | inl early => ret early
        | inr operation =>
            let message :=
              if String.eqb operation "updated"
              then "User updated successfully"
              else "User registered successfully" in
            ret (successResponse
                   (VObj [("message", VStr message);
                          ("user_id", VStr user_id);
                          ("operation", VStr operation)]))
        end
    end end end.

Definition handleRegister (req : LoginRequest)
  : Registry -> Reply * Registry :=
  fun r =>
    match handleRegisterBody req r with
    | (Ok reply, r') => (reply, r')
    | (Throw msg, r') => (dbError msg, r')
    end.

End WithRegistration.

(** *** Notions the properties are stated with *)

(** No two rows of the table have the same [user_id]. *)
Definition unique_ids (table : list AccountRow) : Prop :=
  NoDup (map a_user_id table).

(** The table after a registration that went through, and the
    [user_id]s of a table in the order of its rows. *)
Definition registered (user_id password_hash : string)
                      (totp_secret : Totp.ustring)
                      (hash_key timestamp : string)
                      (table : list AccountRow) : list AccountRow :=
  if has_account user_id table then
    map (updated user_id password_hash totp_secret hash_key timestamp)
        table
  else
    table ++ [{| a_user_id := user_id;
                 a_password_hash := password_hash;
                 a_totp_secret := totp_secret;
                 a_hash_key := hash_key;
                 a_created_at := timestamp;
                 a_updated_at := timestamp |}].

Definition ids (table : list AccountRow) : list string :=
  map a_user_id table.

(** The world a login sees over a registry. *)
Definition loginWorld (r : Registry) (table : list SessionRow)
                      (sentSoFar : list Request) : World :=
  {| users := map loginView (accounts r); sessions := table;
     netlog := sentSoFar; dbops := r_dbops r; ticks := r_ticks r |}.

(** The answer to the finish request gives no request token. *)
Definition noRequestToken (RT : Runtime) (outcome : NetOutcome) : Prop :=
  match outcome with
  | NetThrows _ => True
  | NetReply r =>
      status r <> 302
      \/ opt_truthy (location r) = false
      \/ exists loc,
           location r = Some loc
           /\ match searchParam RT false loc "request_token" with
              | Ok value => opt_truthy value = false
              | Throw _ => True
              end
  end.

(** Between two worlds no request was sent and no table changed. *)
Definition undisturbed (w w' : World) : Prop :=
  netlog w' = netlog w /\ sessions w' = sessions w /\ users w' = users w.

(** A computation that writes to no table. *)
Definition reads_only {A : Type} (m : IO A) : Prop :=
  forall w, sessions (snd (m w)) = sessions w
            /\ users (snd (m w)) = users w.

(** A computation that leaves the user table alone and appends at
    most one session row; and a reply computed so, where a row is
    appended only with a reply of status 200. *)
Definition may_append {A : Type} (m : IO A) : Prop :=
  forall w, users (snd (m w)) = users w
            /\ (sessions (snd (m w)) = sessions w
                \/ exists row, sessions (snd (m w)) = sessions w ++ [row]).

Definition stores_once (m : IO Reply) : Prop :=
  forall w,
    users (snd (m w)) = users w
    /\ (sessions (snd (m w)) = sessions w
        \/ (exists reply, fst (m w) = Ok reply /\ code reply = 200)
           /\ exists row, sessions (snd (m w)) = sessions w ++ [row]).

(** *** Data to evaluate with *)

Definition profileOk : NetOutcome :=
  NetReply
    {| status := 200; set_cookie := None; location := None;
       text := EmptyString;
       json := Ok (VObj [("status", VStr "success");
                         ("data", VObj [("user_name", VStr "A B")])]) |}.

Definition demoLogout : LoginRequest :=
  {| req_method := "DELETE";
     content_type := Some "application/x-www-form-urlencoded";
     formData := Ok (demoForm None None) |}.

Definition apiSession : SessionRow :=
  {| s_user_id := "AB1234"; enctoken := Some "tok123";
     api_key := Some "key"; access_token := Some "acc789";
     kite_session := "{}"; login_type := "API";
     login_time := "2024-01-10T03:30:00.000Z";
     created_at := "2024-01-10 09:00:00";
     updated_at := "2024-01-10 09:00:00" |}.

Definition otherSession : SessionRow :=
  {| s_user_id := "ZZ9999"; enctoken := Some "tok999";
     api_key := None; access_token := None;
     kite_session := "{}"; login_type := "OMS";
     login_time := "2024-01-10T03:00:00.000Z";
     created_at := "2024-01-10 08:30:00";
     updated_at := "2024-01-10 08:30:00" |}.

Definition emptyRegistry : Registry :=
  {| accounts := []; r_dbops := 0; r_ticks := 0 |}.

(** A hash function to evaluate with: the password itself, which
    [demoRuntime] verifies. *)
Definition demoHash (password : string) : result string := Ok password.

(** A runtime that reads the parameters of a redirect: it finds
    [sess_id] and nothing else. *)
Definition redirectRuntime : Runtime := {|
  totp := totp demoRuntime;
  JSON_parse := JSON_parse demoRuntime;
  JSON_stringify := JSON_stringify demoRuntime;
  passwordVerify := passwordVerify demoRuntime;
  searchParam := fun _ _ param =>
    if String.eqb param "sess_id" then Ok (Some "sess1") else Ok None;
  sha256Hex := sha256Hex demoRuntime;
  toISOString := toISOString demoRuntime;
  reformatDate := reformatDate demoRuntime;
  sqlText := sqlText demoRuntime;
  readOfNullish := readOfNullish demoRuntime
|}.

Definition redirected (to : string) : NetOutcome :=
  NetReply
    {| status := 302; set_cookie := None; location := Some to;
       text := EmptyString; json := Throw "JSON Parse error" |}.

End Account.

(** ** Responses with their headers ([src/api/_shared/responses.ts]) and
      the handlers that check the method through [checkMethod]:
      [handleTotp] and [handleRefresh] *)

Module Http.

Import Session.

(** A response as a handler builds it: the status, the headers, and
    the object that [JSON.stringify] is applied to for the body. *)
Record HttpReply : Type := {
  h_status : Z;
  h_headers : list (string * string);
  h_body : jsval
}.

(** [new Response(JSON.stringify(body), { status, headers: {
    "Content-Type": "application/json" } })]: what [successResponse]
    and [errorResponse] end with. *)
Definition asResponse (r : Reply) : HttpReply :=
  {| h_status := code r;
     h_headers := [("Content-Type", "application/json")];
     h_body := body r |}.

Definition notFoundError (message : string) : Reply :=
  errorResponse "NotFoundException" message 404.
Definition internalError (message : string) : Reply :=
  errorResponse "InternalException" message 500.

(** [checkMethod(req, allowedMethods)]; a single method is the list of
    that method. *)
Definition checkMethod (method : string) (allowedMethods : list string)
  : option HttpReply :=
  let methods := allowedMethods in
  if negb (existsb (String.eqb method) methods) then
    let allowHeader := JS.join ", " methods in
    Some {| h_status := 405;
            h_headers := [("Content-Type", "application/json");
                          ("Allow", allowHeader)];
            h_body :=
              VObj [("status", VStr "error");
                    ("error_type", VStr "MethodNotAllowed");
                    ("message",
                     VStr ("Method " ++ method
                             ++ " not allowed. Allowed methods: "
                             ++ allowHeader))] |}
  else None.

(** [handleTotp(req)] when [Date.now()] is [now]. *)
Definition handleTotp (R : Totp.Runtime) (now : Z) (req : LoginRequest)
  : HttpReply :=
  let body : result HttpReply :=
    match checkMethod (req_method req) ["POST"] with
    | Some methodError => Ok methodError
    | None =>
        if negb (match content_type req with
                 | Some ct =>
                     includes "application/x-www-form-urlencoded" ct
                 | None => false
                 end) then
          Ok (asResponse
                (inputError
                   "Content-Type must be application/x-www-form-urlencoded"))
        else
          formData <- formData req ;;
          match present_secret (f_totp_secret formData) with
          | None => Ok (asResponse (inputError "totp_secret is required"))
          | Some totp_secret =>
              match Totp.generateTotpValue R totp_secret now 30 with
              | Ok totpValue =>
                  Ok (asResponse
                        (successResponse
                           (VObj [("message",
                                   VStr "TOTP generated successfully");
                                  ("totp_value", VStr totpValue)])))
              | Throw _ =>
                  Ok (asResponse
                        (inputError
                           "Invalid TOTP secret format. Must be a valid base32 encoded string."))
              end
          end
    end in
  match body with
  | Ok r => r
  | Throw msg => asResponse (dbError msg)
  end.

Section WithNumbers.

Variable number : Type.
Variable parseInt parseFloat : string -> number.
Variable orZero : number -> number.

(** [handleRefresh(req)]. *)
Definition handleRefresh (method : string) (env : Instruments.Env)
                         (st : Instruments.DbState number)
  : HttpReply * Instruments.DbState number :=
  match checkMethod method ["GET"] with
  | Some methodError => (methodError, st)
  | None =>
      let (result, st') :=
        Instruments.performInstrumentsRefresh parseInt parseFloat orZero
          env st in
      if Instruments.success result then
        (asResponse
           (successResponse
              (VObj [("message",
                      VStr "Instruments refreshed successfully");
                     ("total_instruments",
                      VNum (JS.toString (Instruments.count result)))])),
         st')
      else
        (asResponse
           (dbError (opt_or (Instruments.error result) "Refresh failed")),
         st')
  end.

End WithNumbers.

Arguments handleRefresh {number} parseInt parseFloat orZero method env st.

(** *** Notions the properties are stated with *)

(** The rows of the feed, when it is fetched and parsed. *)
Definition parsedFeed (env : Instruments.Env)
  : option (list Instruments.Row) :=
  match Instruments.fetched env with
  | Instruments.FetchResponse true _ (Ok csvText) =>
      match Instruments.parseCSV csvText with
      | Ok csvData => Some csvData
      | Throw _ => None
      end
  | _ => None
  end.

(** A feed whose first header is [__proto__]. *)
Definition protoFeed : string :=
  ("__proto__,tradingsymbol" ++ String Instruments.newline "x,ABC")%string.

(** The value of the field at place [i] of a line: unquoted, and
    empty when the line is too short. *)
Definition cell (values : list string) (i : nat) : string :=
  match nth_error values i with
  | Some value => Instruments.stripQuotes value
  | None => EmptyString
  end.

(** What [error instanceof Error ? error.message : ...] comes to for a
    feed that cannot be used. *)
Definition feedError (env : Instruments.Env) : string :=
  match Instruments.fetched env with
  | Instruments.FetchThrows msg => msg
  | Instruments.FetchResponse false statusText _ =>
      ("Failed to fetch instruments: " ++ statusText)%string
  | Instruments.FetchResponse true _ (Throw msg) => msg
  | Instruments.FetchResponse true _ (Ok csvText) =>
      match Instruments.parseCSV csvText with
      | Throw msg => msg
      | Ok _ => EmptyString
      end
  end.

Definition totpRequest (method : string) (secret : string) : LoginRequest :=
  {| req_method := method;
     content_type := Some "application/x-www-form-urlencoded";
     formData :=
       Ok {| f_user_id := None; f_password := None;
             f_totp_secret := Some (Totp.ustr secret);
             f_api_key := None; f_api_secret := None |} |}.

End Http.

(** ** The decoder of the secret, in numbers *)

Module Base32.

Import Totp.

(** The number that a text over the alphabet denotes in base 32, most
    significant character first. *)
Definition base32_value (s : ustring) : Z :=
  fold_left (fun acc c => acc * 32 + indexOf c base32Chars 0) s 0.

(** The [k] low binary digits of [v], most significant first. *)
Fixpoint fixed_bits (k : nat) (v : Z) : string :=
  match k with
  | O => EmptyString
  | S k' =>
      String (if (v / 2 ^ Z.of_nat k') mod 2 =? 1
              then "1"%char else "0"%char)
             (fixed_bits k' v)
  end.

End Base32.

(** ** Timestamps and the instants they stand for *)

Module Instants.

Import Clock.

(** The first instant whose IST year has five digits: from here on a
    timestamp is longer than nineteen characters. *)
Definition lastInstant : Z := 253402281000000.

(** The latest instant at or before [now] at which a clock in IST
    shows 08:30:00. *)
Definition cutoffInstant (now : Z) : Z :=
  Day (now + 19800000 - 30600000) * msPerDay + 30600000 - 19800000.

End Instants.

(** ** Querying the mirror: [src/api/instruments/query.ts] *)

Module Query.

Import Session.

Definition VALID_QUERY_FIELDS : list string :=
  ["instrument_token"; "tradingsymbol"; "name"; "expiry"; "strike";
   "instrument_type"; "segment"; "exchange"].

Definition VALID_ORDER_BY_FIELDS : list string :=
  ["instrument_token"; "exchange_token"; "tradingsymbol"; "name";
   "last_price"; "expiry"; "strike"; "tick_size"; "lot_size";
   "instrument_type"; "segment"; "exchange"; "updated_at"].

(** What the handler takes from the runtime.  JavaScript numbers stay
    abstract: their type, [parseInt], [parseFloat], [x || 0],
    [isNaN], the comparisons with an integer constant and with each
    other, truth, and the text of a number in a template.  So do the
    two case mappings of strings. *)
Record Runtime : Type := {
  number : Type;
  parseInt : string -> number;
  parseFloat : string -> number;
  orZero : number -> number;
  isNaN : number -> bool;
  lessThan : number -> Z -> bool;
  greaterThan : number -> Z -> bool;
  greater : number -> number -> bool;
  truthyNumber : number -> bool;
  show : number -> string;
  toLowerCase : string -> string;
  toUpperCase : string -> string
}.

(** [array.includes(x)] on strings. *)
Definition member (x : string) (xs : list string) : bool :=
  existsb (String.eqb x) xs.

(** [params.get(name)]: the first value under the name. *)
Fixpoint get (name : string) (params : list (string * string))
  : option string :=
  match params with
  | [] => None
  | (k, v) :: rest => if String.eqb k name then Some v else get name rest
  end.

Definition special (key : string) : bool :=
  String.eqb key "order_by" || String.eqb key "order"
  || String.eqb key "limit" || String.eqb key "strike_min"
  || String.eqb key "strike_max".

(** The loop that builds [filters]: an object keeps a key at the
    place of its first assignment and the value of its last. *)
Fixpoint buildFilters (params : list (string * string))
                      (filters : list (string * string))
  : list (string * string) :=
  match params with
  | [] => filters
  | (key, value) :: rest =>
      if special key then buildFilters rest filters
      else if member key VALID_QUERY_FIELDS then
        buildFilters rest (Instruments.row_set key value filters)
      else buildFilters rest filters
  end.

(** The condition of one filter. *)
Definition whereClause (field : string) : string :=
  if String.eqb field "instrument_token" || String.eqb field "strike"
     || String.eqb field "expiry"
  then (field ++ " = ?")%string
  else (field ++ " = ? COLLATE NOCASE")%string.

Definition nl : string := String Instruments.newline EmptyString.

(** The template of the statement, around the conditions. *)
Definition sqlBefore : string :=
  JS.join nl
    [EmptyString;
     "      SELECT";
     "        id,";
     "        instrument_token,";
     "        exchange_token,";
     "        tradingsymbol,";
     "        name,";
     "        last_price,";
     "        expiry,";
     "        strike,";
     "        tick_size,";
     "        lot_size,";
     "        instrument_type,";
     "        segment,";
     "        exchange,";
     "        updated_at";
     "      FROM kite_instruments";
     "      WHERE "].

Definition sqlAfter : string := (nl ++ "    ")%string.

Section WithRuntime.

Variable R : Runtime.

(** A value bound to a placeholder. *)
Inductive Bound : Type :=
| BText (s : string)
| BNumber (n : number R).

Record Plan : Type := {
  sql : string;
  queryParams : list Bound;
  queryMeta : jsval
}.

Definition numberValue (n : number R) : jsval := VNum (show R n).

(** [limit], [strike_min] and [strike_max]: absent, refused, or a
    number. *)
Definition readLimit (limitParam : option string)
  : Reply + option (number R) :=
  if opt_truthy limitParam then
    let limit := parseInt R (opt_or limitParam EmptyString) in
    if isNaN R limit || lessThan R limit 1 then
      inl (inputError "limit parameter must be a positive integer")
    else if greaterThan R limit 10000 then
      inl (inputError "limit parameter cannot exceed 10000")
    else inr (Some limit)
  else inr None.

Definition readStrike (param : option string) (message : string)
  : Reply + option (number R) :=
  if opt_truthy param then
    let strike := parseFloat R (opt_or param EmptyString) in
    if isNaN R strike then inl (inputError message)
    else inr (Some strike)
  else inr None.

Definition present_number (o : option (number R)) : bool :=
  match o with
  | Some n => truthyNumber R n
  | None => false
  end.

Definition bound_number (o : option (number R)) : list Bound :=
  match o with
  | Some n => [BNumber n]
  | None => []
  end.

(** The part of [handleQuery] from the reading of the special
    parameters to the statement and its values: an early reply, or
    what is to run. *)
Definition planQuery (params : list (string * string)) : Reply + Plan :=
  let orderByParam := get "order_by" params in
  let orderParam :=
    match get "order" params with
    | Some s =>
        if nonempty (toLowerCase R s) then toLowerCase R s else "asc"
    | None => "asc"
    end in
  let limitParam := get "limit" params in
  let strikeMinParam := get "strike_min" params in
  let strikeMaxParam := get "strike_max" params in
  if negb (String.eqb orderParam "asc")
     && negb (String.eqb orderParam "desc") then
    inl (inputError "order parameter must be either 'asc' or 'desc'")
  else if opt_truthy orderByParam
          && negb (member (opt_or orderByParam EmptyString)
                          VALID_ORDER_BY_FIELDS) then
    inl (inputError
           ("Invalid order_by field: "
              ++ opt_or orderByParam EmptyString
              ++ ". Valid fields: "
              ++ JS.join ", " VALID_ORDER_BY_FIELDS))
  else
    match readLimit limitParam with
    | inl early => inl early
    | inr limit =>
    match readStrike strikeMinParam
            "strike_min parameter must be a valid number" with
    | inl early => inl early
    | inr strikeMin =>
    match readStrike strikeMaxParam
            "strike_max parameter must be a valid number" with
    | inl early => inl early
    | inr strikeMax =>
        if match strikeMin, strikeMax with
           | Some lo, Some hi => greater R lo hi
           | _, _ => false
           end then
          inl (inputError "strike_min cannot be greater than strike_max")
        else
          let filters := buildFilters params [] in
          if (List.length filters =? 0)%nat
             && match strikeMin, strikeMax with
                | None, None => true
                | _, _ => false
                end then
            inl (inputError
                   ("No valid query parameters provided. Valid fields: "
                      ++ JS.join ", " VALID_QUERY_FIELDS
                      ++ ", strike_min, strike_max"))
          else
            let whereClauses :=
              map (fun f => whereClause (fst f)) filters
              ++ match strikeMin with
                 | Some _ => ["strike >= ?"]
                 | None => []
                 end
              ++ match strikeMax with
                 | Some _ => ["strike <= ?"]
                 | None => []
                 end in
            let queryParams :=
              map (fun f => BText (snd f)) filters
              ++ bound_number strikeMin ++ bound_number strikeMax in
            let sql0 :=
              (sqlBefore ++ JS.join " AND " whereClauses ++ sqlAfter)%string in
            let sql1 :=
              if opt_truthy orderByParam then
                (sql0 ++ " ORDER BY " ++ opt_or orderByParam EmptyString
                   ++ " " ++ toUpperCase R orderParam)%string
              else sql0 in
            let sql2 :=
              if present_number limit then
                (sql1 ++ " LIMIT "
                   ++ match limit with
                      | Some n => show R n
                      | None => EmptyString
                      end)%string
              else sql1 in
            let queryMeta :=
              VObj ([("filters",
                      VObj (map (fun f => (fst f, VStr (snd f)))
                                filters))]
                      ++ match strikeMin with
                         | Some n => [("strike_min", numberValue n)]
                         | None => []
                         end
                      ++ match strikeMax with
                         | Some n => [("strike_max", numberValue n)]
                         | None => []
                         end
                      ++ (if opt_truthy orderByParam then
                            [("order_by",
                              VStr (opt_or orderByParam EmptyString));
                             ("order", VStr orderParam)]
                          else [])
                      ++ (if present_number limit then
                            match limit with
                            | Some n => [("limit", numberValue n)]
                            | None => []
                            end
                          else [])) in
            inr {| sql := sql2; queryParams := queryParams;
                   queryMeta := queryMeta |}
    end end end.

(** The surroundings of one query: the clock and the fate of the
    freshness check, the surroundings of the refresh, and what
    [db.prepare(sql).all(...values)] gives on a table. *)
Record Env : Type := {
  checkedAt : Z;
  checkFault : Instruments.Fault;
  refreshEnv : Instruments.Env;
  execute : Instruments.DbState (number R) -> string -> list Bound
            -> result (list jsval)
}.

(** [handleQuery(req)] for a request with the given method and query
    parameters. *)
Definition handleQuery (method : string) (params : list (string * string))
                       (env : Env) (st : Instruments.DbState (number R))
  : Reply * Instruments.DbState (number R) :=
  if negb (String.eqb method "GET") then
    (inputError "Method not allowed", st)
  else
    let st1 :=
      if Instruments.isRefreshRequired (checkedAt env) (checkFault env) st
      then snd (Instruments.performInstrumentsRefresh
                  (parseInt R) (parseFloat R) (orZero R)
                  (refreshEnv env) st)
      else st in
    match params with
    | [] => (inputError "At least one query parameter is required", st1)
    | _ =>
        match planQuery params with
        | inl early => (early, st1)
        | inr plan =>
            match execute env st1 (sql plan) (queryParams plan) with
            | Throw msg => (dbError msg, st1)
            | Ok data =>
                (successResponse
                   (VObj [("count",
                           VNum (JS.toString
                                   (Z.of_nat (List.length data))));
                          ("query", queryMeta plan);
                          ("instruments", VArr data)]),
                 st1)
            end
        end
    end.

End WithRuntime.

Arguments BText {R} s.
Arguments BNumber {R} n.
Arguments sql {R} p.
Arguments queryParams {R} p.
Arguments queryMeta {R} p.

(** *** Notions the properties are stated with *)

(** Two lists of parameters that differ at most in the values given
    for the fields of [VALID_QUERY_FIELDS]. *)
Definition same_but_filter_values (ps ps' : list (string * string)) : Prop :=
  Forall2 (fun p p' =>
             fst p = fst p'
             /\ (special (fst p) = false
                 /\ member (fst p) VALID_QUERY_FIELDS = true
                 \/ snd p = snd p'))
          ps ps'.

(** The conditions a statement can have. *)
Definition conditions : list string :=
  map whereClause VALID_QUERY_FIELDS ++ ["strike >= ?"; "strike <= ?"].

(** The parameters under names the handler knows. *)
Definition known (p : string * string) : bool :=
  special (fst p) || member (fst p) VALID_QUERY_FIELDS.

(** A runtime to evaluate with: numbers are the unsigned decimal
    integers, anything else is NaN, and the case mappings are those of
    ASCII letters. *)
Definition lowerChar (c : ascii) : ascii :=
  let n := JS.ord c in
  if (65 <=? n) && (n <=? 90) then JS.chr (n + 32) else c.

Definition upperChar (c : ascii) : ascii :=
  let n := JS.ord c in
  if (97 <=? n) && (n <=? 122) then JS.chr (n - 32) else c.

Fixpoint mapChars (f : ascii -> ascii) (s : string) : string :=
  match s with
  | EmptyString => EmptyString
  | String c r => String (f c) (mapChars f r)
  end.

Definition demoNumbers : Runtime := {|
  number := option Z;
  parseInt := fun s => if nonempty s then Clock.parse_digits s 0 else None;
  parseFloat := fun s => if nonempty s then Clock.parse_digits s 0 else None;
  orZero := fun n => match n with Some v => Some v | None => Some 0 end;
  isNaN := fun n => match n with Some _ => false | None => true end;
  lessThan := fun n k => match n with Some v => v <? k | None => false end;
  greaterThan := fun n k => match n with Some v => k <? v | None => false end;
  greater := fun a b =>
    match a, b with Some x, Some y => y <? x | _, _ => false end;
  truthyNumber := fun n =>
    match n with Some v => negb (v =? 0) | None => false end;
  show := Clock.num_toString;
  toLowerCase := mapChars lowerChar;
  toUpperCase := mapChars upperChar
|}.

(** An empty table, and the surroundings of a query whose staleness
    check reads the clock one second before 09:00 IST of 10 January
    2024 and whose refresh, with the feed of [Instruments.demoEnv],
    reads it at 09:00 IST. *)
Definition emptyTable : Instruments.DbState (number demoNumbers) :=
  {| Instruments.rows := []; Instruments.txn := None;
     Instruments.log := [] |}.

Definition demoQueryEnv : Env demoNumbers :=
  {| checkedAt := 1704857399000;
     checkFault := Instruments.NoFault;
     refreshEnv := Instruments.demoEnv Instruments.noFaults;
     execute := fun _ _ _ => Ok [] |}.

End Query.
(* ================================================================== *)
(** * Part II: the properties *)
(* ================================================================== *)

(** ** Decimal rendering *)

Module JSFacts.

Import JS.

Lemma ord_chr (n : Z) : 0 <= n < 256 -> ord (chr n) = n.
Proof.
  intros H. unfold ord, chr.
  rewrite N_ascii_embedding; lia.
Qed.

Lemma is_digit_digit (d : Z) : 0 <= d < 10 -> is_digit (digit d) = true.
Proof.
  intros H. unfold is_digit, digit. rewrite ord_chr by lia.
  apply andb_true_intro; split; apply Z.leb_le; lia.
Qed.

Lemma length_app (s t : string) :
  String.length (s ++ t) = (String.length s + String.length t)%nat.
Proof. induction s; simpl; congruence. Qed.

Lemma app_assoc (s t u : string) : ((s ++ t) ++ u = s ++ (t ++ u))%string.
Proof. induction s; simpl; congruence. Qed.

Lemma app_empty_r (s : string) : (s ++ EmptyString)%string = s.
Proof. induction s; simpl; congruence. Qed.

Lemma all_chars_app (p : ascii -> bool) (s t : string) :
  all_chars p (s ++ t) = all_chars p s && all_chars p t.
Proof.
  induction s; simpl; [reflexivity|].
  rewrite IHs. apply andb_assoc.
Qed.

Lemma length_repeat_char (c : ascii) (n : nat) :
  String.length (repeat_char c n) = n.
Proof. induction n; simpl; congruence. Qed.

Lemma repeat_char_snoc (c : ascii) (n : nat) :
  (repeat_char c n ++ str1 c)%string = repeat_char c (S n).
Proof. induction n; simpl; [reflexivity|]. now rewrite IHn. Qed.

(** The fuel of [digits_fuel] does not matter once it covers the bits
    of the number. *)
Lemma digits_fuel_enough (f g : nat) (n : Z) :
  0 <= n < 2 ^ (Z.of_nat f + 1) ->
  0 <= n < 2 ^ (Z.of_nat g + 1) ->
  digits_fuel f 10 n = digits_fuel g 10 n.
Proof.
  revert g n. induction f as [|f IH]; intros g n Hf Hg.
  - simpl in Hf.
    assert (Hn : n = 0 \/ n = 1) by lia.
    destruct g; destruct Hn; subst; reflexivity.
  - destruct g as [|g].
    + simpl in Hg.
      assert (Hn : n = 0 \/ n = 1) by lia.
      destruct Hn; subst; reflexivity.
    + cbn [digits_fuel]. destruct (n <? 10) eqn:E; [reflexivity|].
      apply Z.ltb_ge in E. f_equal.
      replace (Z.of_nat (S f) + 1) with (Z.succ (Z.of_nat f + 1)) in Hf by lia.
      replace (Z.of_nat (S g) + 1) with (Z.succ (Z.of_nat g + 1)) in Hg by lia.
      rewrite Z.pow_succ_r in Hf, Hg by lia.
      apply IH; (split; [apply Z.div_pos; lia|]);
        apply Z.div_lt_upper_bound; lia.
Qed.

Lemma toStringRadix_unfold (n : Z) :
  0 <= n ->
  toStringRadix 10 n =
    if n <? 10 then str1 (digit n)
    else (toStringRadix 10 (n / 10) ++ str1 (digit (n mod 10)))%string.
Proof.
  intros Hn. unfold toStringRadix.
  destruct (n <? 10) eqn:E.
  - apply Z.ltb_lt in E.
    destruct (Z.to_nat (Z.log2 n)); cbn [digits_fuel].
    + now rewrite Z.mod_small by lia.
    + assert ((n <? 10) = true) as -> by now apply Z.ltb_lt.
      reflexivity.
  - apply Z.ltb_ge in E.
    assert (Hlog : 3 <= Z.log2 n).
    { apply Z.log2_le_pow2; simpl; lia. }
    destruct (Z.log2_spec n ltac:(lia)) as [Hlo Hhi].
    destruct (Z.to_nat (Z.log2 n)) as [|f] eqn:Ef; [lia|].
    cbn [digits_fuel].
    assert ((n <? 10) = false) as -> by now apply Z.ltb_ge.
    f_equal.
    assert (Hq : 0 < n / 10) by (apply Z.div_str_pos; lia).
    destruct (Z.log2_spec (n / 10) Hq) as [Hlo' Hhi'].
    assert (HS : Z.succ (Z.log2 n) = Z.succ (Z.of_nat f + 1)) by lia.
    rewrite HS, Z.pow_succ_r in Hhi by lia.
    apply digits_fuel_enough.
    + split; [lia|]. apply Z.div_lt_upper_bound; lia.
    + rewrite Z2Nat.id by apply Z.log2_nonneg.
      replace (Z.log2 (n / 10) + 1) with (Z.succ (Z.log2 (n / 10))) by lia.
      lia.
Qed.

Lemma fixed_digits_0 (k : nat) : fixed_digits k 0 = repeat_char "0" k.
Proof.
  induction k; [reflexivity|].
  cbn [fixed_digits]. rewrite Z.div_0_l, IHk by lia.
  apply repeat_char_snoc.
Qed.

Lemma length_fixed_digits (k : nat) (n : Z) :
  String.length (fixed_digits k n) = k.
Proof.
  revert n. induction k; intros n; [reflexivity|].
  cbn [fixed_digits]. rewrite length_app, IHk. simpl. lia.
Qed.

Lemma all_digits_fixed (k : nat) (n : Z) :
  all_chars is_digit (fixed_digits k n) = true.
Proof.
  revert n. induction k; intros n; [reflexivity|].
  cbn [fixed_digits]. rewrite all_chars_app, IHk. simpl.
  rewrite is_digit_digit; [reflexivity|].
  apply Z.mod_pos_bound; lia.
Qed.

Lemma length_toStringRadix_pos (n : Z) :
  0 <= n -> (1 <= String.length (toStringRadix 10 n))%nat.
Proof.
  intros Hn. rewrite toStringRadix_unfold by assumption.
  destruct (n <? 10); [simpl; lia|].
  rewrite length_app. simpl. lia.
Qed.

(** Padding a rendering to [k + 1] places gives the digits of fixed
    width. *)
Lemma padStart_toStringRadix (k : nat) (n : Z) :
  0 <= n < 10 ^ Z.of_nat (S k) ->
  padStart (S k) "0" (toStringRadix 10 n) = fixed_digits (S k) n.
Proof.
  revert n. induction k as [|k IH]; intros n Hn.
  - change (10 ^ Z.of_nat 1) with 10 in Hn.
    rewrite toStringRadix_unfold by lia.
    assert ((n <? 10) = true) as -> by (apply Z.ltb_lt; lia).
    cbn. now rewrite Z.mod_small by lia.
  - rewrite toStringRadix_unfold by lia.
    destruct (n <? 10) eqn:E.
    + apply Z.ltb_lt in E.
      cbn [fixed_digits]. rewrite (Z.div_small n 10) by lia.
      rewrite Z.div_0_l by lia.
      rewrite (Z.mod_small n 10) by lia.
      change (fixed_digits k 0 ++ str1 (digit (0 mod 10)))%string
        with (fixed_digits (S k) 0).
      rewrite fixed_digits_0. unfold padStart. reflexivity.
    + apply Z.ltb_ge in E.
      replace (fixed_digits (S (S k)) n)
        with (fixed_digits (S k) (n / 10) ++ str1 (digit (n mod 10)))%string
        by reflexivity.
      rewrite <- IH.
      * unfold padStart. rewrite length_app, app_assoc.
        f_equal. f_equal. simpl String.length.
        pose proof (length_toStringRadix_pos (n / 10)
                      ltac:(apply Z.div_pos; lia)).
        lia.
      * rewrite Nat2Z.inj_succ, Z.pow_succ_r in Hn by lia.
        split; [apply Z.div_pos; lia|].
        apply Z.div_lt_upper_bound; lia.
Qed.

End JSFacts.

(** ** The TOTP generator *)

Module TotpFacts.

Import Totp.

(** *** Shape of a digest *)

Lemma length_be_bytes (n : nat) (x : Z) : List.length (be_bytes n x) = n.
Proof.
  revert x. induction n; intros x; [reflexivity|].
  cbn [be_bytes]. rewrite length_app, IHn. simpl. lia.
Qed.

Lemma be_bytes_range (n : nat) (x : Z) : Forall is_byte (be_bytes n x).
Proof.
  revert x. induction n; intros x; [constructor|].
  cbn [be_bytes]. apply Forall_app. split; [apply IHn|].
  constructor; [|constructor]. apply Z.mod_pos_bound. lia.
Qed.

Lemma length_sha1 (msg : list Z) : List.length (sha1 msg) = 20%nat.
Proof.
  unfold sha1.
  destruct (fold_left _ _ _) as [[[[a b] c] d] e].
  rewrite !length_app, !length_be_bytes. reflexivity.
Qed.

Lemma sha1_range (msg : list Z) : Forall is_byte (sha1 msg).
Proof.
  unfold sha1.
  destruct (fold_left _ _ _) as [[[[a b] c] d] e].
  do 4 (apply Forall_app; split; [apply be_bytes_range|]).
  apply be_bytes_range.
Qed.

Lemma length_hmac_sha1 (key msg : list Z) :
  List.length (hmac_sha1 key msg) = 20%nat.
Proof. apply length_sha1. Qed.

Lemma hmac_sha1_range (key msg : list Z) : Forall is_byte (hmac_sha1 key msg).
Proof. apply sha1_range. Qed.

Lemma nth_byte (h : list Z) (i : nat) :
  Forall is_byte h -> is_byte (nth i h 0).
Proof.
  intros H. destruct (Nat.lt_ge_cases i (List.length h)) as [Hi | Hi].
  - rewrite Forall_forall in H. apply H. now apply nth_In.
  - rewrite nth_overflow by assumption. unfold is_byte. lia.
Qed.

(** *** The 32-bit operators on small arguments *)

Lemma to_int32_small (x : Z) : - 2 ^ 31 <= x < 2 ^ 31 -> to_int32 x = x.
Proof.
  intros H. unfold to_int32. rewrite Z.mod_small; lia.
Qed.

Lemma to_int32_mod256 (x : Z) : to_int32 x mod 256 = x mod 256.
Proof.
  unfold to_int32.
  change (2 ^ 32) with (256 * 2 ^ 24). change (2 ^ 31) with (256 * 2 ^ 23).
  rewrite <- Zminus_mod_idemp_r, Z.mul_comm, Z_mod_mult, Z.sub_0_r.
  rewrite Z.mul_comm, <- (Z.mul_comm _ 256), Z.rem_mul_r by lia.
  rewrite <- Zplus_mod_idemp_r.
  rewrite (Z.mul_comm 256 (_ mod _)), Z_mod_mult, Z.add_0_r.
  rewrite Z.mod_mod by lia.
  rewrite <- Zplus_mod_idemp_r, Z_mod_mult, Z.add_0_r. reflexivity.
Qed.

(** [x & 0xff] is [x mod 256], whatever the integer [x]. *)
Lemma and32_255 (x : Z) : and32 x 0xff = x mod 256.
Proof.
  unfold and32. rewrite (to_int32_small 255) by (simpl; lia).
  change 255 with (Z.ones 8). rewrite Z.land_ones by lia.
  change (2 ^ 8) with 256. apply to_int32_mod256.
Qed.

Lemma and32_byte_255 (b : Z) : is_byte b -> and32 b 0xff = b.
Proof.
  intros H. rewrite and32_255. apply Z.mod_small. exact H.
Qed.

Lemma and32_byte_ones (b : Z) (k : Z) :
  is_byte b -> 0 <= k <= 8 -> and32 b (Z.ones k) = b mod 2 ^ k.
Proof.
  intros Hb Hk. unfold and32, is_byte in *.
  rewrite (to_int32_small b) by (simpl; lia).
  rewrite to_int32_small.
  - apply Z.land_ones. lia.
  - rewrite Z.ones_equiv.
    assert (0 < 2 ^ k <= 2 ^ 8).
    { split; [apply Z.pow_pos_nonneg; lia|].
      apply Z.pow_le_mono_r; lia. }
    simpl in *. lia.
Qed.

Lemma land_shiftl_low (a b n : Z) :
  0 <= n -> 0 <= b < 2 ^ n -> Z.land (Z.shiftl a n) b = 0.
Proof.
  intros Hn Hb. apply Z.bits_inj'. intros i Hi.
  rewrite Z.land_spec, Z.bits_0.
  destruct (Z.lt_ge_cases i n) as [Hlt | Hge].
  - rewrite Z.shiftl_spec_low by assumption. reflexivity.
  - destruct (Z.eq_dec b 0) as [-> | Hnz].
    + rewrite Z.bits_0. apply andb_false_r.
    + rewrite (Z.bits_above_log2 b i); [apply andb_false_r | lia |].
      apply Z.log2_lt_pow2; [lia|].
      apply Z.lt_le_trans with (2 ^ n); [lia|].
      apply Z.pow_le_mono_r; lia.
Qed.

Lemma lor_shiftl_add (a b n : Z) :
  0 <= n -> 0 <= b < 2 ^ n -> Z.lor (Z.shiftl a n) b = a * 2 ^ n + b.
Proof.
  intros Hn Hb.
  rewrite <- Z.lxor_lor by now apply land_shiftl_low.
  rewrite <- Z.add_nocarry_lxor by now apply land_shiftl_low.
  now rewrite Z.shiftl_mul_pow2.
Qed.

Lemma lor_mul_add (a b n : Z) :
  0 <= n -> 0 <= b < 2 ^ n -> Z.lor (a * 2 ^ n) b = a * 2 ^ n + b.
Proof.
  intros Hn Hb. rewrite <- Z.shiftl_mul_pow2 by assumption.
  rewrite lor_shiftl_add by assumption.
  now rewrite Z.shiftl_mul_pow2.
Qed.

Lemma shl32_small (b n : Z) :
  0 <= n -> 0 <= b -> b * 2 ^ n < 2 ^ 31 -> shl32 b n = b * 2 ^ n.
Proof.
  intros Hn Hb Hlt. unfold shl32.
  assert (0 < 2 ^ n) by (apply Z.pow_pos_nonneg; lia).
  assert (b < 2 ^ 31) by nia.
  rewrite (to_int32_small b) by lia.
  rewrite Z.shiftl_mul_pow2 by lia. apply to_int32_small. nia.
Qed.

(** The four bytes of the truncation, assembled by [<<] and [|]. *)
Lemma assemble (b0 b1 b2 b3 : Z) :
  0 <= b0 < 128 -> is_byte b1 -> is_byte b2 -> is_byte b3 ->
  or32 (or32 (or32 (shl32 b0 24) (shl32 b1 16)) (shl32 b2 8)) b3
  = b0 * 2 ^ 24 + b1 * 2 ^ 16 + b2 * 2 ^ 8 + b3.
Proof.
  unfold is_byte. intros H0 H1 H2 H3.
  rewrite !shl32_small by (simpl; lia).
  unfold or32.
  pose proof (lor_mul_add b0 (b1 * 2 ^ 16) 24) as S1.
  pose proof (lor_mul_add (b0 * 2 ^ 8 + b1) (b2 * 2 ^ 8) 16) as S2.
  pose proof (lor_mul_add ((b0 * 2 ^ 8 + b1) * 2 ^ 8 + b2) b3 8) as S3.
  change (2 ^ 24) with 16777216 in *. change (2 ^ 16) with 65536 in *.
  change (2 ^ 8) with 256 in *.
  rewrite (to_int32_small (b0 * 16777216)) by (simpl; lia).
  rewrite (to_int32_small (b1 * 65536)) by (simpl; lia).
  rewrite S1 by lia.
  rewrite (to_int32_small (b0 * 16777216 + b1 * 65536)) by (simpl; lia).
  rewrite (to_int32_small (b2 * 256)) by (simpl; lia).
  replace (b0 * 16777216 + b1 * 65536) with ((b0 * 256 + b1) * 65536) by lia.
  rewrite S2 by lia.
  rewrite (to_int32_small ((b0 * 256 + b1) * 65536 + b2 * 256))
    by (simpl; lia).
  rewrite (to_int32_small b3) by (simpl; lia).
  replace ((b0 * 256 + b1) * 65536 + b2 * 256)
    with (((b0 * 256 + b1) * 256 + b2) * 256) by lia.
  rewrite S3 by lia. lia.
Qed.

(** *** The counter bytes *)

Lemma counterLoop_rfc (c : Z) : counterLoop 8 c [] = rfc_counter_bytes c.
Proof.
  unfold rfc_counter_bytes. cbn [counterLoop seq map Z.of_nat].
  rewrite !and32_255.
  rewrite !Z.div_div by lia.
  repeat f_equal.
  rewrite Z.div_1_r. reflexivity.
Qed.

(** *** The code digits *)

Lemma six_digits_fixed (n : Z) : six_digits n = JS.fixed_digits 6 n.
Proof.
  unfold six_digits.
  cbn [seq map string_of_list_ascii Z.of_nat Pos.of_succ_nat Pos.succ
       JS.fixed_digits append JS.str1].
  change (5 - 0) with 5. change (5 - 1) with 4. change (5 - 2) with 3.
  change (5 - 3) with 2. change (5 - 4) with 1. change (5 - 5) with 0.
  rewrite !Z.div_div by lia.
  rewrite Z.pow_0_r, Z.div_1_r.
  reflexivity.
Qed.

Lemma six_digits_shape (n : Z) :
  String.length (six_digits n) = 6%nat
  /\ JS.all_chars JS.is_digit (six_digits n) = true.
Proof.
  rewrite six_digits_fixed. split.
  - apply JSFacts.length_fixed_digits.
  - apply JSFacts.all_digits_fixed.
Qed.

Lemma pad_six (n : Z) :
  0 <= n < 1000000 -> JS.padStart 6 "0" (JS.toString n) = six_digits n.
Proof.
  intros Hn. unfold JS.toString.
  assert ((n <? 0) = false) as -> by (apply Z.ltb_ge; lia).
  rewrite six_digits_fixed. apply JSFacts.padStart_toStringRadix.
  change (10 ^ Z.of_nat 6) with 1000000. exact Hn.
Qed.

(** *** The truncation *)

Lemma truncation_rfc (h : list Z) :
  List.length h = 20%nat -> Forall is_byte h ->
  let at_ (i : Z) := JS.nth_or 0 h (Z.to_nat i) in
  let offset := and32 (JS.nth_or 0 h (List.length h - 1)) 0x0f in
  or32 (or32 (or32 (shl32 (and32 (at_ offset) 0x7f) 24)
                   (shl32 (and32 (at_ (offset + 1)) 0xff) 16))
             (shl32 (and32 (at_ (offset + 2)) 0xff) 8))
       (and32 (at_ (offset + 3)) 0xff)
  = rfc_truncate h.
Proof.
  intros Hlen Hb at_ offset. subst at_ offset. unfold JS.nth_or.
  rewrite Hlen. change (20 - 1)%nat with 19%nat.
  pose proof (nth_byte h 19 Hb) as H19.
  change 0x0f with (Z.ones 4). rewrite and32_byte_ones by (assumption || lia).
  change (2 ^ 4) with 16.
  set (o := nth 19 h 0 mod 16).
  assert (Ho : 0 <= o < 16) by (apply Z.mod_pos_bound; lia).
  change 0x7f with (Z.ones 7).
  rewrite and32_byte_ones by (try apply nth_byte; assumption || lia).
  rewrite !and32_byte_255 by (apply nth_byte; assumption).
  change (2 ^ 7) with 128.
  rewrite assemble;
    try (apply nth_byte; assumption);
    try (apply Z.mod_pos_bound; lia).
  unfold rfc_truncate. fold o.
  replace (Z.to_nat (o + 1)) with (Z.to_nat o + 1)%nat by lia.
  replace (Z.to_nat (o + 2)) with (Z.to_nat o + 2)%nat by lia.
  replace (Z.to_nat (o + 3)) with (Z.to_nat o + 3)%nat by lia.
  reflexivity.
Qed.

Lemma rfc_truncate_range (h : list Z) :
  Forall is_byte h -> 0 <= rfc_truncate h < 2 ^ 31.
Proof.
  intros Hb. unfold rfc_truncate.
  set (o := Z.to_nat (nth 19 h 0 mod 16)).
  pose proof (nth_byte h (o + 1) Hb) as H1.
  pose proof (nth_byte h (o + 2) Hb) as H2.
  pose proof (nth_byte h (o + 3) Hb) as H3.
  assert (H0 : 0 <= nth o h 0 mod 128 < 128) by (apply Z.mod_pos_bound; lia).
  unfold is_byte in *. simpl. lia.
Qed.

(** C8.  For every secret that decodes to a key the runtime imports,
    and every time, [generateTotpValue] returns the code of the RFC
    algorithm: the counter [floor(seconds / step)] as eight big-endian
    bytes, HMAC-SHA1 under the decoded key, dynamic truncation at the
    offset in the low four bits of the last byte to 31 bits, reduced
    modulo 1,000,000 and padded with zeros to six places.  The code is
    six decimal digits, and two times in the same bucket give the same
    code. *)
Theorem generateTotpValue_rfc (R : Runtime) (secret : ustring)
                              (key : list Z) (now step : Z) :
  base32Decode R secret = Ok key ->
  importKeyAccepts R key = true ->
  generateTotpValue R secret now step = Ok (rfc_totp key (now / 1000) step)
  /\ String.length (rfc_totp key (now / 1000) step) = 6%nat
  /\ JS.all_chars JS.is_digit (rfc_totp key (now / 1000) step) = true
  /\ (forall now', now' / 1000 / step = now / 1000 / step ->
       generateTotpValue R secret now' step
       = generateTotpValue R secret now step).
Proof.
  intros Hdec Hacc.
  assert (Hgen : forall t,
             generateTotpValue R secret t step
             = Ok (rfc_totp key (t / 1000) step)).
  { intros t. unfold generateTotpValue. rewrite Hdec. cbn [bind].
    unfold hmacSha1. rewrite Hacc. cbn [bind].
    rewrite counterLoop_rfc.
    set (h := hmac_sha1 key (rfc_counter_bytes (t / 1000 / step))).
    pose proof (length_hmac_sha1 key (rfc_counter_bytes (t / 1000 / step)))
      as Hlen.
    pose proof (hmac_sha1_range key (rfc_counter_bytes (t / 1000 / step)))
      as Hb.
    fold h in Hlen, Hb.
    pose proof (truncation_rfc h Hlen Hb) as Htr. cbv zeta in Htr.
    rewrite Htr.
    pose proof (rfc_truncate_range h Hb) as Hr.
    rewrite Z.rem_mod_nonneg by lia.
    rewrite pad_six by (apply Z.mod_pos_bound; lia).
    reflexivity. }
  split; [apply Hgen|].
  split; [apply six_digits_shape|].
  split; [apply six_digits_shape|].
  intros now' Hbucket. rewrite !Hgen. unfold rfc_totp.
  now rewrite Hbucket.
Qed.

End TotpFacts.

Module TotpWitness.

Import Totp.

Example rfc_secret_decodes : base32Decode asciiRuntime rfc_secret = Ok rfc_key.
Proof. vm_compute. reflexivity. Qed.

(** The RFC 6238 vectors for SHA-1, cut to six digits. *)
Example rfc6238_at_59 :
  generateTotpValue asciiRuntime rfc_secret 59000 30 = Ok "287082".
Proof. vm_compute. reflexivity. Qed.

Example rfc6238_at_1111111109 :
  generateTotpValue asciiRuntime rfc_secret 1111111109000 30 = Ok "081804".
Proof. vm_compute. reflexivity. Qed.

Example rfc6238_at_1234567890 :
  generateTotpValue asciiRuntime rfc_secret 1234567890000 30 = Ok "005924".
Proof. vm_compute. reflexivity. Qed.

Lemma generateTotpValue_rfc_witness :
  generateTotpValue asciiRuntime rfc_secret 59000 30
  = Ok (rfc_totp rfc_key (59000 / 1000) 30)
  /\ String.length (rfc_totp rfc_key (59000 / 1000) 30) = 6%nat
  /\ JS.all_chars JS.is_digit (rfc_totp rfc_key (59000 / 1000) 30) = true
  /\ (forall now', now' / 1000 / 30 = 59000 / 1000 / 30 ->
       generateTotpValue asciiRuntime rfc_secret now' 30
       = generateTotpValue asciiRuntime rfc_secret 59000 30).
Proof.
  apply (TotpFacts.generateTotpValue_rfc asciiRuntime rfc_secret rfc_key
           59000 30).
  - vm_compute. reflexivity.
  - reflexivity.
Defined.

(** The secret [A] decodes under the alphabet, to the empty key, which
    [importKey] refuses: the generator throws and returns no code. *)
Example decodable_secret_without_code :
  base32Decode asciiRuntime (ustr "A") = Ok []
  /\ importKeyAccepts asciiRuntime [] = false
  /\ generateTotpValue asciiRuntime (ustr "A") 59000 30
     = Throw (importKeyError asciiRuntime).
Proof. repeat split; vm_compute; reflexivity. Qed.

End TotpWitness.

(** ** Normalisation of the secret *)

Module SecretFacts.

Import Totp.

Lemma indexOf_notin (c : N) (l : ustring) (i : Z) :
  ~ In c l -> indexOf c l i = -1.
Proof.
  revert i. induction l as [|a l IH]; intros i Hn; [reflexivity|].
  cbn [indexOf]. destruct (N.eqb_spec a c) as [-> | Hne].
  - exfalso. apply Hn. now left.
  - apply IH. intros Hin. apply Hn. now right.
Qed.

Lemma indexOf_in (c : N) (l : ustring) (i : Z) :
  In c l -> 0 <= i -> 0 <= indexOf c l i.
Proof.
  revert i. induction l as [|a l IH]; intros i Hin Hi; [destruct Hin|].
  cbn [indexOf]. destruct (N.eqb_spec a c) as [-> | Hne]; [assumption|].
  destruct Hin as [-> | Hin]; [congruence|].
  apply IH; [assumption | lia].
Qed.

Lemma in_base32Chars (c : N) : In c base32Chars <-> in_alphabet c = true.
Proof.
  unfold in_alphabet. rewrite orb_true_iff, !andb_true_iff, !N.leb_le.
  cbn. split; intros H; lia.
Qed.

(** A character is refused by the decoder exactly when it is outside
    the alphabet. *)
Lemma indexOf_alphabet (c : N) :
  indexOf c base32Chars 0 = -1 <-> in_alphabet c = false.
Proof.
  split; intros H.
  - destruct (in_alphabet c) eqn:E; [|reflexivity].
    apply in_base32Chars in E.
    pose proof (indexOf_in c base32Chars 0 E ltac:(lia)). lia.
  - apply indexOf_notin. rewrite in_base32Chars. congruence.
Qed.

Lemma base32Bits_ok (s : ustring) (bits : string) :
  (forall c, In c s -> in_alphabet c = true) ->
  exists bits', base32Bits s bits = Ok bits'.
Proof.
  revert bits. induction s as [|c s IH]; intros bits Hall.
  - now exists bits.
  - cbn [base32Bits].
    assert (Hc : in_alphabet c = true) by (apply Hall; now left).
    destruct (indexOf c base32Chars 0 =? -1) eqn:E.
    + apply Z.eqb_eq, indexOf_alphabet in E. congruence.
    + apply IH. intros c' Hin. apply Hall. now right.
Qed.

Lemma base32Bits_bad (s : ustring) (bits : string) :
  (exists c, In c s /\ in_alphabet c = false) ->
  base32Bits s bits = Throw "Invalid base32 character".
Proof.
  revert bits. induction s as [|c s IH]; intros bits [c' [Hin Hc']].
  - destruct Hin.
  - cbn [base32Bits].
    destruct (indexOf c base32Chars 0 =? -1) eqn:E; [reflexivity|].
    apply IH. exists c'. split; [|assumption].
    destruct Hin as [-> | Hin]; [|assumption].
    apply indexOf_alphabet in Hc'. apply Z.eqb_neq in E. contradiction.
Qed.

Lemma all_or_some_outside (s : ustring) :
  (forall c, In c s -> in_alphabet c = true)
  \/ (exists c, In c s /\ in_alphabet c = false).
Proof.
  induction s as [|a s [IH | [c [Hin Hc]]]].
  - left. intros c [].
  - destruct (in_alphabet a) eqn:E.
    + left. intros c [-> | Hin]; [assumption | now apply IH].
    + right. exists a. split; [now left | assumption].
  - right. exists c. split; [now right | assumption].
Qed.

(** *** Stripping the padding *)

Lemma stripPadding_split (u : ustring) :
  exists k, u = stripPadding u ++ repeat 61%N k.
Proof.
  induction u as [|c u [k IH]].
  - exists 0%nat. reflexivity.
  - cbn [stripPadding]. destruct (stripPadding u) as [|d r] eqn:E.
    + destruct (N.eqb_spec c 61) as [-> | Hne].
      * exists (S k). cbn [repeat app]. now rewrite IH at 1.
      * exists k. cbn [app]. now rewrite IH at 1.
    + exists k. cbn [app]. now rewrite IH at 1.
Qed.

Lemma stripPadding_idempotent (u : ustring) :
  stripPadding (stripPadding u) = stripPadding u.
Proof.
  induction u as [|c u IH]; [reflexivity|].
  cbn [stripPadding]. destruct (stripPadding u) as [|d r] eqn:E.
  - destruct (N.eqb_spec c 61) as [-> | Hne]; [reflexivity|].
    cbn [stripPadding]. destruct (N.eqb_spec c 61); congruence.
  - cbn [stripPadding]. cbn [stripPadding] in IH.
    destruct (stripPadding r) as [|d' r'] eqn:E'.
    + destruct (N.eqb d 61) eqn:Ed; [discriminate IH|].
      injection IH as <-. reflexivity.
    + now rewrite IH.
Qed.

Lemma stripPadding_incl (u : ustring) (c : N) :
  In c (stripPadding u) -> In c u.
Proof.
  destruct (stripPadding_split u) as [k Hk].
  intros Hin. rewrite Hk. apply in_or_app. now left.
Qed.

Lemma stripPadding_no_padding (u : ustring) :
  ~ In 61%N u -> stripPadding u = u.
Proof.
  induction u as [|c u IH]; intros Hn; [reflexivity|].
  cbn [stripPadding]. rewrite IH by (intros H; apply Hn; now right).
  destruct u; [|reflexivity].
  destruct (N.eqb_spec c 61) as [-> | Hne]; [|reflexivity].
  exfalso. apply Hn. now left.
Qed.

Section WithLaws.

Variable R : Runtime.
Hypothesis laws : CaseMappingLaws R.

Lemma toUpperCase_app (s t : ustring) :
  toUpperCase R (s ++ t) = toUpperCase R s ++ toUpperCase R t.
Proof. apply flat_map_app. Qed.

Lemma toUpperCase_idempotent (s : ustring) :
  toUpperCase R (toUpperCase R s) = toUpperCase R s.
Proof.
  induction s as [|c s IH]; [reflexivity|].
  change (toUpperCase R (c :: s)) with (upperCP R c ++ toUpperCase R s).
  rewrite toUpperCase_app, IH. f_equal.
  apply (upper_idempotent R laws).
Qed.

Lemma toUpperCase_padding (k : nat) :
  toUpperCase R (repeat 61%N k) = repeat 61%N k.
Proof.
  induction k; [reflexivity|].
  cbn [repeat]. change (toUpperCase R (61%N :: repeat 61%N k))
    with (upperCP R 61 ++ toUpperCase R (repeat 61%N k)).
  rewrite IHk, (upper_ascii R laws) by reflexivity. reflexivity.
Qed.

(** Cleaning a cleaned secret changes nothing. *)
Lemma cleanSecret_idempotent (s : ustring) :
  cleanSecret R (cleanSecret R s) = cleanSecret R s.
Proof.
  unfold cleanSecret. set (u := toUpperCase R s).
  assert (Hu : toUpperCase R u = u) by apply toUpperCase_idempotent.
  assert (Hs : toUpperCase R (stripPadding u) = stripPadding u).
  { destruct (stripPadding_split u) as [k Hk].
    remember (stripPadding u) as v eqn:Ev. clear Ev.
    rewrite Hk, toUpperCase_app, toUpperCase_padding in Hu.
    now apply app_inv_tail in Hu. }
  rewrite Hs. apply stripPadding_idempotent.
Qed.

Lemma base32Decode_clean (s : ustring) :
  base32Decode R (cleanSecret R s) = base32Decode R s.
Proof. unfold base32Decode. now rewrite cleanSecret_idempotent. Qed.

Lemma toUpperCase_letters (s : ustring) :
  (forall c, In c s ->
             in_alphabet c = true \/ (97 <= c /\ c <= 122)%N) ->
  forall c, In c (toUpperCase R s) -> in_alphabet c = true.
Proof.
  induction s as [|a s IH]; intros Hs c Hin; [destruct Hin|].
  change (toUpperCase R (a :: s)) with (upperCP R a ++ toUpperCase R s)
    in Hin.
  apply in_app_or in Hin. destruct Hin as [Hin | Hin].
  - assert (Ha : in_alphabet a = true \/ (97 <= a /\ a <= 122)%N)
      by (apply Hs; now left).
    assert (Hlt : (a < 128)%N).
    { destruct Ha as [Ha | Ha]; [|lia].
      unfold in_alphabet in Ha.
      rewrite orb_true_iff, !andb_true_iff, !N.leb_le in Ha. lia. }
    rewrite (upper_ascii R laws) in Hin by assumption.
    unfold upperASCII in Hin.
    destruct (N.leb 97 a && N.leb a 122)%bool eqn:E.
    + destruct Hin as [<- | []].
      rewrite andb_true_iff, !N.leb_le in E.
      unfold in_alphabet.
      rewrite orb_true_iff, !andb_true_iff, !N.leb_le. lia.
    + destruct Hin as [<- | []].
      destruct Ha as [Ha | Ha]; [assumption|].
      rewrite andb_false_iff, !N.leb_gt in E. lia.
  - apply IH; [|assumption]. intros c' Hc'. apply Hs. now right.
Qed.

End WithLaws.

Lemma asciiRuntime_laws : CaseMappingLaws asciiRuntime.
Proof.
  split.
  - intros c. cbn [upperCP asciiRuntime]. unfold upperASCII.
    destruct (N.leb 97 c && N.leb c 122)%bool eqn:E; cbn [flat_map app].
    + rewrite andb_true_iff, !N.leb_le in E.
      assert ((N.leb 97 (c - 32) && N.leb (c - 32) 122)%bool = false) as ->.
      { rewrite andb_false_iff, !N.leb_gt. lia. }
      reflexivity.
    + rewrite E. reflexivity.
  - reflexivity.
Qed.

Example lowercase_padded_secret :
  generateTotpValue asciiRuntime rfc_secret_lower 59000 30 = Ok "287082".
Proof. vm_compute. reflexivity. Qed.

End SecretFacts.

(** ** The Set-Cookie to Cookie conversion *)

Module CookieFacts.

Import Cookie.

Lemma word_not_space (c : ascii) :
  JS.is_word c = true -> JS.is_space c = false.
Proof.
  destruct c as [[] [] [] [] [] [] [] []]; vm_compute; congruence.
Qed.

Lemma take_skip (p : ascii -> bool) (s : string) :
  s = (JS.take_while p s ++ JS.skip_while p s)%string.
Proof.
  induction s as [|c s IH]; [reflexivity|].
  cbn [JS.take_while JS.skip_while]. destruct (p c); [|reflexivity].
  cbn [append]. now rewrite <- IH.
Qed.

Lemma all_take_while (p : ascii -> bool) (s : string) :
  JS.all_chars p (JS.take_while p s) = true.
Proof.
  induction s as [|c s IH]; [reflexivity|].
  cbn [JS.take_while]. destruct (p c) eqn:E; [|reflexivity].
  cbn [JS.all_chars]. now rewrite E, IH.
Qed.

Lemma skip_while_all (p : ascii -> bool) (u v : string) :
  JS.all_chars p u = true ->
  JS.skip_while p (u ++ v)%string = JS.skip_while p v.
Proof.
  induction u as [|c u IH]; intros H; [reflexivity|].
  cbn [JS.all_chars] in H. apply andb_true_iff in H. destruct H as [Hc Hu].
  cbn [append JS.skip_while]. rewrite Hc. now apply IH.
Qed.

(** The lookahead of the regular expression holds exactly where the
    text starts with optional white space, a name and [=]. *)
Lemma lookahead_name_eq_spec (s : string) :
  lookahead_name_eq s = true <-> starts_with_name_eq s.
Proof.
  unfold lookahead_name_eq, starts_with_name_eq. split.
  - intros H.
    pose proof (take_skip JS.is_space s) as Hs.
    destruct (JS.skip_while JS.is_space s) as [|c r] eqn:E1;
      [discriminate H|].
    apply andb_true_iff in H. destruct H as [Hc H].
    pose proof (take_skip JS.is_word r) as Hr.
    destruct (JS.skip_while JS.is_word r) as [|e rest] eqn:E2;
      [discriminate H|].
    apply Ascii.eqb_eq in H. subst e.
    exists (JS.take_while JS.is_space s),
           (String c (JS.take_while JS.is_word r)), rest.
    split; [|split; [|split]].
    + rewrite Hs at 1. f_equal. cbn [append]. f_equal. exact Hr.
    + apply all_take_while.
    + discriminate.
    + cbn [JS.all_chars]. now rewrite Hc, all_take_while.
  - intros [ws [name [rest [-> [Hws [Hne Hname]]]]]].
    rewrite skip_while_all by assumption.
    destruct name as [|c name]; [congruence|].
    cbn [JS.all_chars] in Hname. apply andb_true_iff in Hname.
    destruct Hname as [Hc Hname].
    cbn [append JS.skip_while]. rewrite (word_not_space c Hc), Hc.
    rewrite skip_while_all by assumption.
    reflexivity.
Qed.

Lemma splitCookies_nonempty (s : string) : splitCookies s <> [].
Proof.
  destruct s as [|c r]; cbn [splitCookies]; [discriminate|].
  destruct (Ascii.eqb c "," && lookahead_name_eq r); [discriminate|].
  destruct (splitCookies r); discriminate.
Qed.

Lemma join_cons (sep p : string) (ps : list string) :
  ps <> [] -> JS.join sep (p :: ps) = (p ++ sep ++ JS.join sep ps)%string.
Proof. destruct ps; [congruence | reflexivity]. Qed.

(** Nothing is lost: the pieces joined by commas are the input. *)
Lemma join_splitCookies (s : string) : JS.join "," (splitCookies s) = s.
Proof.
  induction s as [|c r IH]; [reflexivity|].
  cbn [splitCookies].
  destruct (Ascii.eqb c "," && lookahead_name_eq r) eqn:E.
  - apply andb_true_iff in E. destruct E as [Ec _].
    apply Ascii.eqb_eq in Ec. subst c.
    rewrite join_cons by apply splitCookies_nonempty.
    cbn [append]. now rewrite IH.
  - destruct (splitCookies r) as [|p ps] eqn:Er.
    + now apply splitCookies_nonempty in Er.
    + destruct ps as [|q qs].
      * cbn [JS.join] in *. now rewrite IH.
      * rewrite join_cons by discriminate.
        rewrite join_cons in IH by discriminate.
        cbn [append]. f_equal. exact IH.
Qed.

Lemma join_first_nonempty (c : ascii) (p : string) (ps : list string) :
  JS.join "," (String c p :: ps) <> EmptyString.
Proof. destruct ps; cbn; discriminate. Qed.

(** The input is cut at a comma exactly when the lookahead holds after
    that comma. *)
Lemma splitCookies_cuts (s x y : string) :
  s = (x ++ String "," y)%string ->
  (cut_at s x y <-> lookahead_name_eq y = true).
Proof.
  unfold cut_at. revert x. induction s as [|c r IH]; intros x Hs.
  - destruct x; discriminate Hs.
  - destruct x as [|d x'].
    + (* the comma is the first character *)
      cbn [append] in Hs. injection Hs as -> ->.
      cbn [splitCookies]. rewrite Ascii.eqb_refl. cbn [andb].
      destruct (lookahead_name_eq y) eqn:L.
      * split; [reflexivity|]. intros _.
        exists [EmptyString], (splitCookies y).
        repeat split; try discriminate.
        -- apply splitCookies_nonempty.
        -- symmetry. apply join_splitCookies.
      * split; [|discriminate].
        intros [before [after [Hsp [Hb [_ [Hx _]]]]]].
        destruct (splitCookies y) as [|p ps]; [|].
        -- destruct before as [|b0 before]; [congruence|].
           cbn [app] in Hsp. injection Hsp as <- _.
           symmetry in Hx. now apply join_first_nonempty in Hx.
        -- destruct before as [|b0 before]; [congruence|].
           cbn [app] in Hsp. injection Hsp as <- _.
           symmetry in Hx. now apply join_first_nonempty in Hx.
    + (* the comma is further on *)
      cbn [append] in Hs. injection Hs as -> Hr.
      rewrite <- (IH x' Hr). clear IH.
      cbn [splitCookies].
      destruct (Ascii.eqb d "," && lookahead_name_eq r) eqn:E.
      * apply andb_true_iff in E. destruct E as [Ed _].
        apply Ascii.eqb_eq in Ed. subst d.
        split.
        -- intros [before [after [Hsp [Hb [Ha [Hx Hy]]]]]].
           destruct before as [|b0 before]; [congruence|].
           cbn [app] in Hsp. injection Hsp as <- Hsp.
           destruct before as [|b1 before]; [discriminate Hx|].
           exists (b1 :: before), after.
           repeat split; try assumption; try discriminate.
           rewrite join_cons in Hx by discriminate.
           cbn [append] in Hx. now injection Hx.
        -- intros [before [after [Hsp [Hb [Ha [Hx Hy]]]]]].
           exists (EmptyString :: before), after.
           repeat split; try assumption; try discriminate.
           ++ cbn [app]. now rewrite Hsp.
           ++ rewrite join_cons by assumption. cbn [append]. now rewrite Hx.
      * destruct (splitCookies r) as [|p ps] eqn:Er;
          [now apply splitCookies_nonempty in Er|].
        split.
        -- intros [before [after [Hsp [Hb [Ha [Hx Hy]]]]]].
           destruct before as [|b0 before]; [congruence|].
           cbn [app] in Hsp. injection Hsp as <- Hsp.
           exists (p :: before), after.
           repeat split; try assumption; try discriminate.
           ++ cbn [app]. now rewrite Hsp.
           ++ destruct before as [|b1 before].
              ** cbn [JS.join] in *. now injection Hx.
              ** rewrite join_cons in * by discriminate.
                 cbn [append] in Hx. now injection Hx.
        -- intros [before [after [Hsp [Hb [Ha [Hx Hy]]]]]].
           destruct before as [|b0 before]; [congruence|].
           cbn [app] in Hsp. injection Hsp as <- Hsp.
           exists (String d p :: before), after.
           repeat split; try assumption; try discriminate.
           ++ cbn [app]. now rewrite Hsp.
           ++ destruct before as [|b1 before].
              ** cbn [JS.join] in *. now rewrite Hx.
              ** rewrite join_cons in * by discriminate.
                 cbn [append]. now rewrite Hx.
Qed.

(** *** The name=value pair of a fragment *)

Lemma split_nonempty (sep : ascii) (s : string) : JS.split sep s <> [].
Proof.
  destruct s as [|c r]; cbn [JS.split]; [discriminate|].
  destruct (Ascii.eqb c sep); [discriminate|].
  destruct (JS.split sep r); discriminate.
Qed.

(** [fragment.split(";")[0]] is the portion before the first
    semicolon. *)
Lemma first_of_split (fragment : string) :
  hd EmptyString (JS.split ";" fragment) = before_semicolon fragment.
Proof.
  unfold before_semicolon.
  induction fragment as [|c r IH]; [reflexivity|].
  cbn [JS.split JS.take_while].
  destruct (Ascii.eqb c ";"); cbn [negb hd]; [reflexivity|].
  destruct (JS.split ";" r) as [|p ps] eqn:E;
    [now apply split_nonempty in E|].
  cbn [hd] in *. now rewrite IH.
Qed.

Lemma all_trimStart (p : ascii -> bool) (s : string) :
  JS.all_chars p s = true -> JS.all_chars p (JS.trimStart s) = true.
Proof.
  induction s as [|c r IH]; intros H; [reflexivity|].
  cbn [JS.trimStart]. destruct (JS.is_space c); [|assumption].
  cbn [JS.all_chars] in H. apply andb_true_iff in H. now apply IH.
Qed.

Lemma all_trimEnd (p : ascii -> bool) (s : string) :
  JS.all_chars p s = true -> JS.all_chars p (JS.trimEnd s) = true.
Proof.
  induction s as [|c r IH]; intros H; [reflexivity|].
  cbn [JS.all_chars] in H. apply andb_true_iff in H. destruct H as [Hc Hr].
  cbn [JS.trimEnd]. specialize (IH Hr).
  destruct (JS.trimEnd r) as [|d r'].
  - destruct (JS.is_space c); [reflexivity|].
    cbn [JS.str1 JS.all_chars]. now rewrite Hc.
  - cbn [JS.all_chars] in *. now rewrite Hc.
Qed.

Lemma nameValue_free (fragment : string) : JS.free_of ";" (nameValue fragment).
Proof.
  unfold JS.free_of, nameValue, JS.trim. rewrite first_of_split.
  apply all_trimEnd, all_trimStart. unfold before_semicolon.
  apply all_take_while.
Qed.

(** C7.  The conversion cuts a raw Set-Cookie value at exactly the
    commas that are followed by optional white space, a name and [=],
    losing nothing; it keeps of each fragment the portion before its
    first semicolon, trimmed, so that no extracted pair holds a
    semicolon; and it joins the pairs with a semicolon and a space.
    Merging [a=1; Path=/, b=2; Path=/] with [c=3; Path=/] gives
    [a=1; b=2; c=3]. *)
Theorem convertSetCookieToCookie_spec :
  convertSetCookieToCookie
    (allCookies "a=1; Path=/, b=2; Path=/" "c=3; Path=/")
  = "a=1; b=2; c=3"
  /\ forall setCookie : string,
       JS.join "," (splitCookies setCookie) = setCookie
       /\ (forall x y : string,
             setCookie = (x ++ String "," y)%string ->
             (cut_at setCookie x y <-> starts_with_name_eq y))
       /\ convertSetCookieToCookie setCookie
          = JS.join "; "
              (map (fun fragment => JS.trim (before_semicolon fragment))
                   (splitCookies setCookie))
       /\ Forall (JS.free_of ";")
                 (map nameValue (splitCookies setCookie)).
Proof.
  split; [vm_compute; reflexivity|].
  intros setCookie. split; [apply join_splitCookies|].
  split.
  { intros x y Hxy. rewrite <- lookahead_name_eq_spec.
    now apply splitCookies_cuts. }
  split.
  { unfold convertSetCookieToCookie. f_equal.
    apply map_ext. intros fragment. unfold nameValue.
    now rewrite first_of_split. }
  apply Forall_forall. intros nv Hin.
  apply in_map_iff in Hin. destruct Hin as [fragment [<- _]].
  apply nameValue_free.
Qed.

(** A comma inside an [Expires] date is not a cut. *)
Example expires_comma_kept :
  convertSetCookieToCookie
    "kf_session=abc; Expires=Wed, 21 Oct 2015 07:28:00 GMT; Path=/, x_y=2"
  = "kf_session=abc; x_y=2".
Proof. vm_compute. reflexivity. Qed.

End CookieFacts.

(** ** Dates *)

Module ClockFacts.

Import Clock.

Lemma DayFromYear_succ (y : Z) :
  DayFromYear (y + 1) = DayFromYear y + 365 + leapDay y.
Proof.
  unfold DayFromYear, leapDay, isLeap.
  replace (y + 1 - 1970) with (y - 1970 + 1) by lia.
  replace (y + 1 - 1969) with (y - 1969 + 1) by lia.
  replace (y + 1 - 1901) with (y - 1901 + 1) by lia.
  replace (y + 1 - 1601) with (y - 1601 + 1) by lia.
  destruct (Z.eqb_spec (y mod 4) 0) as [H4 | H4];
    destruct (Z.eqb_spec (y mod 100) 0) as [H100 | H100];
    destruct (Z.eqb_spec (y mod 400) 0) as [H400 | H400];
    cbn [andb orb negb];
    Z.div_mod_to_equations; lia.
Qed.

Lemma leapDay_range (y : Z) : 0 <= leapDay y <= 1.
Proof. unfold leapDay. destruct (isLeap y); lia. Qed.

(** A year has 365 or 366 days, so the start of the year [1970 + k]
    lies between [365 * k] and [366 * k]. *)
Lemma DayFromYear_bounds (k : nat) :
  365 * Z.of_nat k <= DayFromYear (1970 + Z.of_nat k) <= 366 * Z.of_nat k.
Proof.
  induction k as [|k IH].
  - vm_compute. split; discriminate.
  - rewrite Nat2Z.inj_succ.
    replace (1970 + Z.succ (Z.of_nat k)) with (1970 + Z.of_nat k + 1) by lia.
    rewrite DayFromYear_succ.
    pose proof (leapDay_range (1970 + Z.of_nat k)). lia.
Qed.

Lemma year_search_ge (fuel : nat) (y d : Z) : y <= year_search fuel y d.
Proof.
  revert y. induction fuel as [|f IH]; intros y; cbn [year_search]; [lia|].
  destruct (DayFromYear (y + 1) <=? d); [|lia].
  specialize (IH (y + 1)). lia.
Qed.

Lemma year_search_spec (fuel : nat) (y d : Z) :
  DayFromYear y <= d ->
  d < DayFromYear (y + Z.of_nat fuel) ->
  DayFromYear (year_search fuel y d) <= d
    < DayFromYear (year_search fuel y d + 1).
Proof.
  revert y. induction fuel as [|f IH]; intros y Hlo Hhi.
  - rewrite Z.add_0_r in Hhi. lia.
  - cbn [year_search]. destruct (Z.leb_spec (DayFromYear (y + 1)) d) as [H | H].
    + apply IH; [assumption|].
      replace (y + 1 + Z.of_nat f) with (y + Z.of_nat (S f)) by lia.
      assumption.
    + lia.
Qed.

(** From the epoch on, [YearFromDay] is the year the day falls in. *)
Lemma YearFromDay_spec (d : Z) :
  0 <= d ->
  1970 <= YearFromDay d
  /\ DayFromYear (YearFromDay d) <= d < DayFromYear (YearFromDay d + 1).
Proof.
  intros Hd. unfold YearFromDay.
  assert (Hmin : Z.min (d / 366) (d / 365) = d / 366).
  { apply Z.min_l. Z.div_mod_to_equations. lia. }
  rewrite Hmin, Z.abs_eq by assumption.
  assert (0 <= d / 366) by (apply Z.div_pos; lia).
  assert (d / 366 <= d / 365) by (Z.div_mod_to_equations; lia).
  split.
  - pose proof (year_search_ge
                  (Z.to_nat (d / 365 - d / 366 + 2)) (1970 + d / 366) d).
    lia.
  - apply year_search_spec.
    + pose proof (DayFromYear_bounds (Z.to_nat (d / 366))) as B.
      rewrite Z2Nat.id in B by assumption.
      Z.div_mod_to_equations. lia.
    + rewrite Z2Nat.id by lia.
      replace (1970 + d / 366 + (d / 365 - d / 366 + 2))
        with (1970 + Z.of_nat (Z.to_nat (d / 365 + 2))) by lia.
      pose proof (DayFromYear_bounds (Z.to_nat (d / 365 + 2))) as B.
      rewrite Z2Nat.id in * by lia.
      Z.div_mod_to_equations. lia.
Qed.

Lemma Day_nonneg (t : Z) : 0 <= t -> 0 <= Day t.
Proof. intros H. unfold Day, msPerDay. apply Z.div_pos; lia. Qed.

Lemma YearFromDay_spec_t (t : Z) :
  0 <= t ->
  1970 <= YearFromTime t
  /\ DayFromYear (YearFromTime t) <= Day t
       < DayFromYear (YearFromTime t + 1).
Proof.
  intros Ht. apply YearFromDay_spec. now apply Day_nonneg.
Qed.

Lemma DayWithinYear_range (t : Z) :
  0 <= t -> 0 <= DayWithinYear t < 365 + InLeapYear t.
Proof.
  intros Ht. unfold DayWithinYear, InLeapYear, YearFromTime.
  destruct (YearFromDay_spec (Day t) (Day_nonneg t Ht)) as [_ [Hlo Hhi]].
  rewrite DayFromYear_succ in Hhi. lia.
Qed.

Lemma MonthFromTime_range (t : Z) : 0 <= MonthFromTime t <= 11.
Proof.
  unfold MonthFromTime.
  repeat match goal with
         | |- context [if ?b then _ else _] => destruct b
         end; lia.
Qed.

Lemma DateFromTime_range (t : Z) : 0 <= t -> 1 <= DateFromTime t <= 31.
Proof.
  intros Ht. pose proof (DayWithinYear_range t Ht) as Hd.
  unfold DateFromTime, MonthFromTime.
  pose proof (leapDay_range (YearFromTime t)) as Hl.
  fold (InLeapYear t) in Hl.
  set (d := DayWithinYear t) in *. set (l := InLeapYear t) in *.
  repeat match goal with
         | |- context [if ?a <? ?b then _ else _] =>
             destruct (Z.ltb_spec a b)
         end; cbn [monthStart]; lia.
Qed.

(** The fields of a time give back its day. *)
Lemma MakeDay_fields (t : Z) :
  MakeDay (YearFromTime t) (MonthFromTime t) (DateFromTime t) = Day t.
Proof.
  pose proof (MonthFromTime_range t) as Hm.
  unfold MakeDay.
  rewrite Z.div_small, Z.mod_small, Z.add_0_r by lia.
  unfold DateFromTime, InLeapYear, DayWithinYear. lia.
Qed.

Lemma MakeDay_date (y m d k : Z) : MakeDay y m (d + k) = MakeDay y m d + k.
Proof. unfold MakeDay. lia. Qed.

Lemma Day_of_midnight (d : Z) : Day (MakeDate d 0) = d.
Proof.
  unfold Day, MakeDate, msPerDay. rewrite Z.add_0_r.
  apply Z.div_mul. lia.
Qed.

Lemma TimeWithinDay_of_midnight (d : Z) : TimeWithinDay (MakeDate d 0) = 0.
Proof.
  unfold TimeWithinDay, MakeDate, msPerDay. rewrite Z.add_0_r.
  apply Z_mod_mult.
Qed.

Lemma hour_minute_before_cutoff (t : Z) :
  0 <= t ->
  ((HourFromTime t <? 8)
   || ((HourFromTime t =? 8) && (MinFromTime t <? 30)))%bool
  = (TimeWithinDay t <? 30600000).
Proof.
  intros Ht. unfold HourFromTime, MinFromTime, TimeWithinDay, msPerDay.
  destruct (Z.ltb_spec (t mod 86400000) 30600000) as [H | H];
    destruct (Z.ltb_spec ((t / 3600000) mod 24) 8) as [H8 | H8];
    destruct (Z.eqb_spec ((t / 3600000) mod 24) 8) as [E8 | E8];
    destruct (Z.ltb_spec ((t / 60000) mod 60) 30) as [H30 | H30];
    cbn [andb orb]; try reflexivity; exfalso;
    Z.div_mod_to_equations; lia.
Qed.

Lemma time_fields_range (t : Z) :
  0 <= HourFromTime t < 24 /\ 0 <= MinFromTime t < 60
  /\ 0 <= SecFromTime t < 60.
Proof.
  unfold HourFromTime, MinFromTime, SecFromTime.
  repeat split; apply Z.mod_pos_bound; lia.
Qed.

End ClockFacts.

(** ** Reading back what was printed *)

Module ParseFacts.

Import JS Clock.

Lemma all_chars_impl (p q : ascii -> bool) (s : string) :
  (forall c, p c = true -> q c = true) ->
  all_chars p s = true -> all_chars q s = true.
Proof.
  intros Hpq. induction s as [|c r IH]; [reflexivity|].
  cbn [all_chars]. rewrite !andb_true_iff. intros [Hc Hr].
  split; [now apply Hpq | now apply IH].
Qed.

Lemma split_free (sep : ascii) (a : string) :
  free_of sep a -> split sep a = [a].
Proof.
  unfold free_of. induction a as [|c r IH]; [reflexivity|].
  cbn [all_chars split]. rewrite andb_true_iff. intros [Hc Hr].
  apply negb_true_iff in Hc. rewrite Hc, (IH Hr). reflexivity.
Qed.

Lemma split_app (sep : ascii) (a b : string) :
  free_of sep a ->
  split sep (a ++ String sep b)%string = a :: split sep b.
Proof.
  unfold free_of. induction a as [|c r IH].
  - intros _. cbn [append split]. now rewrite Ascii.eqb_refl.
  - cbn [all_chars append split]. rewrite andb_true_iff. intros [Hc Hr].
    apply negb_true_iff in Hc. rewrite Hc, (IH Hr). reflexivity.
Qed.

Lemma digit_not_space (c : ascii) : is_digit c = true -> is_space c = false.
Proof.
  destruct c as [[] [] [] [] [] [] [] []]; vm_compute; congruence.
Qed.

Lemma digit_not_sep (sep c : ascii) :
  is_digit sep = false -> is_digit c = true -> negb (Ascii.eqb c sep) = true.
Proof.
  intros Hsep Hc. apply negb_true_iff, Ascii.eqb_neq. congruence.
Qed.

Lemma digits_free (sep : ascii) (s : string) :
  is_digit sep = false -> all_chars is_digit s = true -> free_of sep s.
Proof.
  intros Hsep. apply all_chars_impl. intros c. now apply digit_not_sep.
Qed.

Lemma trimStart_digits (s : string) :
  all_chars is_digit s = true -> trimStart s = s.
Proof.
  destruct s as [|c r]; [reflexivity|].
  cbn [all_chars trimStart]. rewrite andb_true_iff. intros [Hc _].
  now rewrite (digit_not_space c Hc).
Qed.

Lemma trimEnd_digits (s : string) :
  all_chars is_digit s = true -> trimEnd s = s.
Proof.
  induction s as [|c r IH]; [reflexivity|].
  cbn [all_chars trimEnd]. rewrite andb_true_iff. intros [Hc Hr].
  rewrite (IH Hr). destruct r; [|reflexivity].
  now rewrite (digit_not_space c Hc).
Qed.

Lemma trim_digits (s : string) : all_chars is_digit s = true -> trim s = s.
Proof.
  intros H. unfold trim. rewrite trimStart_digits by assumption.
  now apply trimEnd_digits.
Qed.

Lemma parse_digits_snoc (s : string) (d acc : Z) :
  0 <= d < 10 ->
  parse_digits (s ++ str1 (digit d)) acc
  = match parse_digits s acc with
    | Some v => Some (10 * v + d)
    | None => None
    end.
Proof.
  intros Hd. revert acc. induction s as [|c r IH]; intros acc.
  - cbn [append str1 parse_digits]. rewrite JSFacts.is_digit_digit by assumption.
    unfold digit. rewrite JSFacts.ord_chr by lia. f_equal. lia.
  - cbn [append parse_digits]. destruct (is_digit c); [apply IH | reflexivity].
Qed.

(** A rendering is made of digits and reads back as the number. *)
Lemma toStringRadix_digits (n : Z) :
  0 <= n ->
  all_chars is_digit (toStringRadix 10 n) = true
  /\ parse_digits (toStringRadix 10 n) 0 = Some n.
Proof.
  induction n as [n IH] using (well_founded_induction (Z.lt_wf 0)).
  intros Hn. rewrite JSFacts.toStringRadix_unfold by assumption.
  destruct (Z.ltb_spec n 10) as [Hlt | Hge].
  - split.
    + cbn [str1 all_chars]. rewrite JSFacts.is_digit_digit by lia.
      reflexivity.
    + cbn [str1 parse_digits]. rewrite JSFacts.is_digit_digit by lia.
      unfold digit. rewrite JSFacts.ord_chr by lia. f_equal. lia.
  - assert (Hq : 0 <= n / 10 < n).
    { split; [apply Z.div_pos; lia | apply Z.div_lt; lia]. }
    destruct (IH (n / 10) Hq ltac:(lia)) as [Hall Hparse].
    assert (Hr : 0 <= n mod 10 < 10) by (apply Z.mod_pos_bound; lia).
    split.
    + rewrite JSFacts.all_chars_app, Hall. cbn [str1 all_chars].
      rewrite JSFacts.is_digit_digit by assumption. reflexivity.
    + rewrite parse_digits_snoc, Hparse by assumption. f_equal.
      rewrite (Z.div_mod n 10) at 3 by lia. reflexivity.
Qed.

Lemma toString_digits (n : Z) :
  0 <= n ->
  all_chars is_digit (toString n) = true
  /\ Number_ (toString n) = Some n
  /\ toString n <> EmptyString.
Proof.
  intros Hn. unfold toString.
  assert ((n <? 0) = false) as -> by (apply Z.ltb_ge; lia).
  destruct (toStringRadix_digits n Hn) as [Hall Hparse].
  split; [assumption|]. split.
  - unfold Number_. now rewrite trim_digits.
  - pose proof (JSFacts.length_toStringRadix_pos n Hn) as Hlen.
    intros E. rewrite E in Hlen. simpl in Hlen. lia.
Qed.

Lemma parse_digits_zero (s : string) :
  parse_digits (String "0" s) 0 = parse_digits s 0.
Proof. reflexivity. Qed.

(** Two places with a leading zero read back as the number too. *)
Lemma pad2_digits (n : Z) :
  0 <= n < 100 ->
  all_chars is_digit (pad2 n) = true
  /\ Number_ (pad2 n) = Some n
  /\ pad2 n <> EmptyString.
Proof.
  intros Hn. unfold pad2, toString.
  assert ((n <? 0) = false) as -> by (apply Z.ltb_ge; lia).
  rewrite (JSFacts.padStart_toStringRadix 1 n) by (simpl; lia).
  split; [apply JSFacts.all_digits_fixed|]. split.
  - unfold Number_.
    rewrite trim_digits by apply JSFacts.all_digits_fixed.
    assert (H1 : 0 <= n / 10 mod 10 < 10) by (apply Z.mod_pos_bound; lia).
    assert (H2 : 0 <= n mod 10 < 10) by (apply Z.mod_pos_bound; lia).
    cbn [fixed_digits append str1 parse_digits].
    rewrite !JSFacts.is_digit_digit by assumption.
    unfold digit. rewrite !JSFacts.ord_chr by lia. f_equal.
    Z.div_mod_to_equations. lia.
  - cbn [fixed_digits append str1]. discriminate.
Qed.

End ParseFacts.

(** ** The freshness oracle *)

Module FreshnessFacts.

Import JS Clock Instruments.

Lemma free_of_app (sep c : ascii) (a b : string) :
  free_of sep a -> Ascii.eqb c sep = false -> free_of sep b ->
  free_of sep (a ++ String c b)%string.
Proof.
  unfold free_of. intros Ha Hc Hb.
  rewrite JSFacts.all_chars_app. cbn [all_chars].
  now rewrite Ha, Hc, Hb.
Qed.

Lemma nonempty_app (a b : string) :
  a <> EmptyString -> String.eqb (a ++ b) EmptyString = false.
Proof.
  intros Ha. apply String.eqb_neq. destruct a; [congruence | discriminate].
Qed.

Lemma printed_toString (n : Z) : 0 <= n -> printed (toString n) n.
Proof.
  intros H. destruct (ParseFacts.toString_digits n H) as [? [? ?]].
  now split.
Qed.

Lemma printed_pad2 (n : Z) : 0 <= n < 100 -> printed (pad2 n) n.
Proof.
  intros H. destruct (ParseFacts.pad2_digits n H) as [? [? ?]].
  now split.
Qed.

Lemma printed_free (sep : ascii) (text : string) (value : Z) :
  is_digit sep = false -> printed text value -> free_of sep text.
Proof.
  intros Hsep [Hd _ _]. now apply ParseFacts.digits_free.
Qed.

(** Splitting a printed timestamp gives its six fields back. *)
Lemma split_timestamp (Y Mo D h mi s : string) (y mo d hh mm ss : Z) :
  printed Y y -> printed Mo mo -> printed D d ->
  printed h hh -> printed mi mm -> printed s ss ->
  let datePart := (Y ++ String "-" (Mo ++ String "-" D))%string in
  let timePart := (h ++ String ":" (mi ++ String ":" s))%string in
  split " " (datePart ++ String " " timePart)%string = [datePart; timePart]
  /\ map Number_ (split "-" datePart) = [Some y; Some mo; Some d]
  /\ map Number_ (split ":" timePart) = [Some hh; Some mm; Some ss]
  /\ String.eqb datePart EmptyString = false
  /\ String.eqb timePart EmptyString = false.
Proof.
  intros HY HMo HD Hh Hmi Hs datePart timePart.
  assert (Fsp : forall t v, printed t v -> free_of " " t)
    by (intros t v; now apply printed_free).
  assert (Fda : forall t v, printed t v -> free_of "-" t)
    by (intros t v; now apply printed_free).
  assert (Fco : forall t v, printed t v -> free_of ":" t)
    by (intros t v; now apply printed_free).
  split; [|split; [|split; [|split]]].
  - rewrite ParseFacts.split_app.
    + rewrite ParseFacts.split_free; [reflexivity|].
      subst timePart. repeat apply free_of_app; eauto.
    + subst datePart. repeat apply free_of_app; eauto.
  - subst datePart.
    rewrite ParseFacts.split_app by eauto.
    rewrite ParseFacts.split_app by eauto.
    rewrite ParseFacts.split_free by eauto.
    cbn [map].
    now rewrite (printed_value _ _ HY), (printed_value _ _ HMo),
      (printed_value _ _ HD).
  - subst timePart.
    rewrite ParseFacts.split_app by eauto.
    rewrite ParseFacts.split_app by eauto.
    rewrite ParseFacts.split_free by eauto.
    cbn [map].
    now rewrite (printed_value _ _ Hh), (printed_value _ _ Hmi),
      (printed_value _ _ Hs).
  - apply nonempty_app. apply (printed_nonempty _ _ HY).
  - apply nonempty_app. apply (printed_nonempty _ _ Hh).
Qed.

Lemma getISTTimestamp_shape (now : Z) :
  let t := now + 19800000 in
  getISTTimestamp now
  = ((toString (YearFromTime t)
        ++ String "-" (pad2 (MonthFromTime t + 1)
        ++ String "-" (pad2 (DateFromTime t))))
     ++ String " "
        (pad2 (HourFromTime t)
           ++ String ":" (pad2 (MinFromTime t)
           ++ String ":" (pad2 (SecFromTime t)))))%string.
Proof.
  intros t. unfold getISTTimestamp. fold t.
  repeat first [rewrite JSFacts.app_assoc | progress cbn [append]].
  reflexivity.
Qed.

(** [getInstrumentsRefreshCutoff] computes the cutoff of the
    description. *)
Lemma getInstrumentsRefreshCutoff_spec (now : Z) :
  0 <= now -> getInstrumentsRefreshCutoff now = Ok (cutoffOf now).
Proof.
  intros Hnow. unfold getInstrumentsRefreshCutoff.
  rewrite getISTTimestamp_shape. cbv zeta.
  set (t := now + 19800000).
  assert (Ht : 0 <= t) by (subst t; lia).
  destruct (ClockFacts.YearFromDay_spec_t t Ht) as [Hy _].
  pose proof (ClockFacts.MonthFromTime_range t) as Hm.
  pose proof (ClockFacts.DateFromTime_range t Ht) as Hd.
  destruct (ClockFacts.time_fields_range t) as [Hh [Hmi Hs]].
  destruct (split_timestamp
              (toString (YearFromTime t)) (pad2 (MonthFromTime t + 1))
              (pad2 (DateFromTime t)) (pad2 (HourFromTime t))
              (pad2 (MinFromTime t)) (pad2 (SecFromTime t))
              (YearFromTime t) (MonthFromTime t + 1) (DateFromTime t)
              (HourFromTime t) (MinFromTime t) (SecFromTime t))
    as [Hsplit [Hdate [Htime [Hne1 Hne2]]]];
    try (apply printed_toString; lia); try (apply printed_pad2; lia).
  rewrite Hsplit, Hne1, Hne2, Hdate, Htime.
  cbn [orb length Nat.eqb Nat.ltb Nat.leb negb nth_or nth].
  unfold num_add, newDate.
  assert (((0 <=? YearFromTime t) && (YearFromTime t <=? 99))%bool = false)
    as ->.
  { apply andb_false_iff. right. apply Z.leb_gt. lia. }
  replace (MonthFromTime t + 1 + -1) with (MonthFromTime t) by lia.
  rewrite ClockFacts.MakeDay_fields.
  unfold num_ltb, num_eqb.
  rewrite (ClockFacts.hour_minute_before_cutoff t Ht).
  unfold cutoffOf. fold t.
  destruct (TimeWithinDay t <? 30600000).
  - unfold setDate, getDate, option_map.
    rewrite (ClockFacts.MakeDay_date _ _ _ (-1)).
    rewrite ClockFacts.MakeDay_fields.
    rewrite ClockFacts.TimeWithinDay_of_midnight, ClockFacts.Day_of_midnight.
    unfold getFullYear, getMonth, option_map, num_toString, dateString, pad2.
    replace (Day t + -1) with (Day t - 1) by lia.
    repeat first [rewrite JSFacts.app_assoc | progress cbn [append]].
    reflexivity.
  - unfold getFullYear, getMonth, getDate, option_map, num_toString,
      dateString, pad2.
    repeat first [rewrite JSFacts.app_assoc | progress cbn [append]].
    reflexivity.
Qed.

End FreshnessFacts.

Module OracleFacts.

Import JS Clock Instruments.

(** *** The byte order of texts *)

Lemma ascii_compare_trans (a b c : ascii) (o : comparison) :
  Ascii.compare a b = o -> Ascii.compare b c = o -> Ascii.compare a c = o.
Proof.
  unfold Ascii.compare. destruct o; intros H1 H2.
  - apply N.compare_eq_iff in H1. apply N.compare_eq_iff in H2.
    apply N.compare_eq_iff. congruence.
  - apply N.compare_lt_iff in H1. apply N.compare_lt_iff in H2.
    apply N.compare_lt_iff. now apply N.lt_trans with (N_of_ascii b).
  - apply N.compare_gt_iff in H1. apply N.compare_gt_iff in H2.
    apply N.compare_gt_iff. now apply N.lt_trans with (N_of_ascii b).
Qed.

Lemma compare_lt_trans (a b c : string) :
  String.compare a b = Lt -> String.compare b c = Lt ->
  String.compare a c = Lt.
Proof.
  revert b c. induction a as [|x a IH]; intros [|y b] [|z c];
    cbn [String.compare]; try congruence.
  destruct (Ascii.compare x y) eqn:Exy; try discriminate;
    destruct (Ascii.compare y z) eqn:Eyz; try discriminate; intros H1 H2.
  - rewrite (ascii_compare_trans x y z Eq Exy Eyz). now apply (IH b).
  - apply Ascii.compare_eq_iff in Exy. subst y. now rewrite Eyz.
  - apply Ascii.compare_eq_iff in Eyz. subst z. now rewrite Exy.
  - now rewrite (ascii_compare_trans x y z Lt Exy Eyz).
Qed.

Lemma leb_trans (a b c : string) :
  String.leb a b = true -> String.leb b c = true -> String.leb a c = true.
Proof.
  unfold String.leb.
  destruct (String.compare a b) eqn:Eab; try discriminate;
    destruct (String.compare b c) eqn:Ebc; try discriminate; intros _ _.
  - apply String.compare_eq_iff in Eab. subst b. now rewrite Ebc.
  - apply String.compare_eq_iff in Eab. subst b. now rewrite Ebc.
  - apply String.compare_eq_iff in Ebc. subst c. now rewrite Eab.
  - now rewrite (compare_lt_trans a b c Eab Ebc).
Qed.

Lemma compare_refl (a : string) : String.compare a a = Eq.
Proof.
  induction a as [|x a IH]; [reflexivity|].
  cbn [String.compare]. unfold Ascii.compare.
  now rewrite N.compare_refl.
Qed.

Lemma leb_refl (a : string) : String.leb a a = true.
Proof. unfold String.leb. now rewrite compare_refl. Qed.

Lemma not_ltb_leb (a b : string) :
  String.ltb a b = false -> String.leb b a = true.
Proof.
  unfold String.ltb, String.leb. rewrite (String.compare_antisym a b).
  destruct (String.compare b a); cbn; congruence.
Qed.

Lemma ltb_leb (a b : string) :
  String.ltb a b = true -> String.leb a b = true.
Proof.
  unfold String.ltb, String.leb. destruct (String.compare a b); congruence.
Qed.

(** [MAX(updated_at)] is absent on the empty table only, and else it is
    the stamp of a row that no other stamp exceeds. *)
Lemma max_updated_at_spec {number : Type}
      (table : list (InstrumentRecord number)) :
  match max_updated_at table with
  | None => table = []
  | Some m =>
      In m (map (@updated_at number) table)
      /\ forall r, In r table -> String.leb (updated_at r) m = true
  end.
Proof.
  induction table as [|r rest IH]; [reflexivity|].
  cbn [max_updated_at]. destruct (max_updated_at rest) as [m|].
  - destruct IH as [Hin Hmax].
    destruct (String.ltb (updated_at r) m) eqn:E.
    + split; [now right|].
      intros r' [<- | Hr']; [now apply ltb_leb | now apply Hmax].
    + split; [now left|].
      intros r' [<- | Hr']; [apply leb_refl|].
      apply leb_trans with m; [now apply Hmax | now apply not_ltb_leb].
  - subst rest. split; [now left|].
    intros r' [<- | []]. apply leb_refl.
Qed.

Lemma empty_before_cutoff (now : Z) :
  String.ltb EmptyString (cutoffOf now) = true.
Proof.
  unfold cutoffOf, dateString. cbv zeta.
  match goal with
  | |- String.ltb _ (?a ++ _)%string = true => destruct a
  end; reflexivity.
Qed.

(** C4.  From the epoch on, [isRefreshRequired] answers true exactly
    when the query for the latest [updated_at] fails, or the table has
    no row, or the latest [updated_at] (the greatest in the order of
    texts) is below the cutoff in that order; the cutoff is 08:30:00 of the current IST day, or of the
    day before when the IST time of day is before 08:30.  At IST
    2024-01-10 09:00:00 a latest update of 08:29:59 that day is stale,
    one of 08:30:01 is fresh, and an empty table is stale. *)
Theorem isRefreshRequired_spec :
  (forall (number : Type) (now : Z) (fault : Fault)
          (st : DbState number),
      0 <= now ->
      getInstrumentsRefreshCutoff now = Ok (cutoffOf now)
      /\ (isRefreshRequired now fault st = true <->
          fault <> NoFault
          \/ max_updated_at (rows st) = None
          \/ exists latest,
               max_updated_at (rows st) = Some latest
               /\ String.ltb latest (cutoffOf now) = true)
      /\ match max_updated_at (rows st) with
         | None => rows st = []
         | Some latest =>
             In latest (map (@updated_at number) (rows st))
             /\ forall r, In r (rows st) ->
                          String.leb (updated_at r) latest = true
         end)
  /\ getISTTimestamp 1704857400000 = "2024-01-10 09:00:00"
  /\ cutoffOf 1704857400000 = "2024-01-10 08:30:00"
  /\ cutoffOf (1704857400000 - 1800001) = "2024-01-09 08:30:00"
  /\ isRefreshRequired 1704857400000 NoFault
       (tableOf ["2024-01-10 08:29:59"]) = true
  /\ isRefreshRequired 1704857400000 NoFault
       (tableOf ["2024-01-10 08:30:01"]) = false
  /\ isRefreshRequired 1704857400000 NoFault (tableOf []) = true.
Proof.
  split; [|repeat split; vm_compute; reflexivity].
  intros number now fault st Hnow.
  pose proof (FreshnessFacts.getInstrumentsRefreshCutoff_spec now Hnow)
    as Hcut.
  split; [assumption|].
  split; [|apply max_updated_at_spec].
  unfold isRefreshRequired. rewrite Hcut.
  unfold getLatestUpdateTime.
  destruct fault as [|msg|msg].
  - destruct (max_updated_at (rows st)) as [latest|] eqn:Emax.
    + destruct (String.eqb_spec latest EmptyString) as [-> | Hne].
      * split; [|reflexivity]. intros _. right. right.
        exists EmptyString. split; [reflexivity|].
        apply empty_before_cutoff.
      * destruct (String.ltb latest (cutoffOf now)) eqn:Elt.
        -- split; [|reflexivity]. intros _. right. right.
           now exists latest.
        -- split; [discriminate|].
           intros [H | [H | [l [Hl Hlt]]]]; [congruence | discriminate |].
           injection Hl as <-. congruence.
    + split; [|reflexivity]. intros _. right. now left.
  - split; [|reflexivity]. intros _. left. discriminate.
  - split; [|reflexivity]. intros _. left. discriminate.
Qed.

End OracleFacts.

(** ** The instrument refresh *)

Module RefreshFacts.

Import Instruments.

Section WithNumbers.

Context {number : Type}.
Variable parseInt parseFloat : string -> number.
Variable orZero : number -> number.

(** *** One statement *)

Lemma exec_log (faults : nat -> Fault) (s : Stmt number) (st st' : DbState number)
      (r : result unit) :
  exec faults s st = (r, st') -> log st' = log st ++ [s].
Proof.
  unfold exec. destruct (refused s st).
  - intros H. injection H as <- <-. reflexivity.
  - destruct s; destruct (faults (List.length (log st))); intros H; injection H as <- <-;
      cbn; unfold abandon; cbn; destruct (txn st); reflexivity.
Qed.

Lemma exec_ok (faults : nat -> Fault) (s : Stmt number) (st st' : DbState number) :
  exec faults s st = (Ok tt, st') ->
  rows st' = rows (effect s st) /\ txn st' = txn (effect s st).
Proof.
  unfold exec. destruct (refused s st); [discriminate|].
  destruct s; destruct (faults (List.length (log st))); intros H; try discriminate H;
    injection H as <-; cbn; unfold abandon; cbn;
    destruct (txn st); split; reflexivity.
Qed.

(** A statement that throws leaves the rows and the transaction as
    they were, or the engine has abandoned the open transaction. *)
Lemma exec_throw (faults : nat -> Fault) (s : Stmt number) (st st' : DbState number)
      (msg : string) :
  exec faults s st = (Throw msg, st') ->
  (rows st' = rows st /\ txn st' = txn st)
  \/ (exists before, txn st = Some before
                     /\ rows st' = before /\ txn st' = None).
Proof.
  unfold exec. destruct (refused s st).
  - intros H. injection H as _ <-. left. split; reflexivity.
  - destruct s; destruct (faults (List.length (log st))); intros H; try discriminate H;
      injection H as _ <-; cbn; unfold abandon; cbn;
      (destruct (txn st) as [before|] eqn:Et; cbn; rewrite ?Et;
       [ first [ left; split; reflexivity
               | right; exists before; repeat split; reflexivity ]
       | left; split; reflexivity ]).
Qed.

Lemma exec_rollback (faults : nat -> Fault) (st : DbState number) :
  match exec faults SRollback st with
  | (Ok _, st') =>
      exists before, txn st = Some before
                     /\ rows st' = before /\ txn st' = None
  | (Throw _, st') =>
      txn st = None /\ rows st' = rows st /\ txn st' = None
  end.
Proof.
  unfold exec. cbn [refused].
  destruct (txn st) as [before|] eqn:Et.
  - cbn. unfold abandon. cbn. rewrite Et. cbn. now exists before.
  - cbn. repeat split; assumption.
Qed.

(** *** The insert loop inside its transaction *)

Lemma insertAll_outcome (env : Env) (records : list (InstrumentRecord number))
      (n : Z) (st : DbState number) (before : list (InstrumentRecord number)) :
  txn st = Some before ->
  match insertAll env records n st with
  | (Ok m, st') =>
      m = n + Z.of_nat (List.length records)
      /\ rows st' = rows st ++ records
      /\ txn st' = Some before
  | (Throw _, st') =>
      txn st' = Some before
      \/ (rows st' = before /\ txn st' = None)
  end.
Proof.
  revert n st. induction records as [|r records IH]; intros n st Ht.
  - cbn. rewrite app_nil_r. repeat split; [lia | assumption].
  - cbn [insertAll]. unfold mbind.
    destruct (exec (faults env) (SInsert r) st) as [[[]|msg] st1] eqn:E.
    + apply exec_ok in E. cbn in E. destruct E as [Erows Etxn].
      rewrite Ht in Etxn.
      specialize (IH (n + 1) st1 Etxn).
      destruct (insertAll env records (n + 1) st1) as [[m|msg] st2].
      * destruct IH as [-> [-> ->]]. rewrite Erows, <- app_assoc.
        cbn [List.length]. repeat split. lia.
      * exact IH.
    + apply exec_throw in E. destruct E as [[_ Etxn] | [b [Hb [Hr Hn]]]].
      * left. congruence.
      * right. split; congruence.
Qed.

(** *** The [catch] of the insert phase *)

Lemma rollback_outcome (env : Env) (msg : string) (st : DbState number)
      (before : list (InstrumentRecord number)) :
  txn st = Some before \/ (rows st = before /\ txn st = None) ->
  match (exec (faults env) SRollback >> ret (failed msg)) st with
  | (Ok r, st') =>
      r = failed msg /\ rows st' = before /\ txn st' = None
  | (Throw _, st') => txn st' = None /\ rows st' = before
  end.
Proof.
  intros H. unfold mbind, ret.
  pose proof (exec_rollback (faults env) st) as R.
  destruct (exec (faults env) SRollback st) as [[[]|m] st'].
  - destruct R as [b [Hb [Hr Hn]]].
    destruct H as [H | [_ H]]; [|congruence].
    repeat split; congruence.
  - destruct R as [Hn [Hr Hn']].
    destruct H as [H | [H _]]; [congruence|].
    split; congruence.
Qed.

(** *** Delete, then insert in a transaction *)

Lemma replaceRows_outcome (env : Env)
      (records : list (InstrumentRecord number)) (st : DbState number) :
  txn st = None ->
  match replaceRows env records st with
  | (Ok r, st') =>
      txn st' = None
      /\ if success r
         then rows st' = records
              /\ count r = Z.of_nat (List.length records)
         else count r = 0 /\ (rows st' = rows st \/ rows st' = [])
  | (Throw _, st') => txn st' = None /\ rows st' = []
  end.
Proof.
  intros Ht. unfold replaceRows.
  unfold mbind at 1. unfold tryCatch at 1. unfold mbind at 1.
  destruct (exec (faults env) SDelete st) as [[[]|m] st1] eqn:E1.
  - (* the rows are gone *)
    apply exec_ok in E1. cbn in E1. destruct E1 as [R1 T1].
    rewrite Ht in T1. cbn [ret].
    unfold mbind at 1.
    destruct (exec (faults env) SPrepare st1) as [[[]|m] st2] eqn:E2.
    + apply exec_ok in E2. cbn in E2. destruct E2 as [R2 T2].
      rewrite R1 in R2. rewrite T1 in T2.
      unfold tryCatch. unfold mbind at 1.
      destruct (exec (faults env) SBegin st2) as [[[]|m] st3] eqn:E3.
      * apply exec_ok in E3. cbn in E3. destruct E3 as [R3 T3].
        rewrite R2 in R3, T3.
        unfold mbind at 1.
        pose proof (insertAll_outcome env records 0 st3 [] T3) as I.
        destruct (insertAll env records 0 st3) as [[n|m] st4].
        -- destruct I as [-> [R4 T4]]. rewrite R3 in R4. cbn [app] in R4.
           unfold mbind at 1.
           destruct (exec (faults env) SCommit st4) as [[[]|m] st5] eqn:E5.
           ++ apply exec_ok in E5. cbn in E5. destruct E5 as [R5 T5].
              cbn [ret success count].
              repeat split; try assumption; try congruence; lia.
           ++ apply exec_throw in E5.
              pose proof (rollback_outcome env
                            ("Failed to insert data: " ++ m) st5 []) as Rb.
              destruct ((exec (faults env) SRollback >>
                         ret (failed ("Failed to insert data: " ++ m))) st5)
                as [[r|m'] st6].
              ** destruct Rb as [-> [R6 T6]].
                 { destruct E5 as [[_ T5] | [b [Hb [R5 T5]]]].
                   - left. congruence.
                   - right. split; congruence. }
                 cbn. repeat split; auto.
              ** apply Rb.
                 destruct E5 as [[_ T5] | [b [Hb [R5 T5]]]].
                 --- left. congruence.
                 --- right. split; congruence.
        -- pose proof (rollback_outcome env
                         ("Failed to insert data: " ++ m) st4 []) as Rb.
           destruct ((exec (faults env) SRollback >>
                      ret (failed ("Failed to insert data: " ++ m))) st4)
             as [[r|m'] st5].
           ++ destruct Rb as [-> [R5 T5]]; [tauto|].
              cbn. repeat split; auto.
           ++ apply Rb. tauto.
      * apply exec_throw in E3.
        assert (H3 : rows st3 = [] /\ txn st3 = None).
        { destruct E3 as [[R3 T3] | [b [Hb _]]]; [split|]; congruence. }
        pose proof (rollback_outcome env
                      ("Failed to insert data: " ++ m) st3 []) as Rb.
        destruct ((exec (faults env) SRollback >>
                   ret (failed ("Failed to insert data: " ++ m))) st3)
          as [[r|m'] st4].
        -- destruct Rb as [-> [R4 T4]]; [now right|].
           cbn. repeat split; auto.
        -- apply Rb. now right.
    + apply exec_throw in E2.
      destruct E2 as [[R2 T2] | [b [Hb _]]]; [split|]; congruence.
  - (* the delete failed *)
    apply exec_throw in E1. cbn [ret].
    destruct E1 as [[R1 T1] | [b [Hb _]]]; [|congruence].
    cbn. repeat split; [congruence | now left].
Qed.

(** *** The whole refresh *)

Lemma length_parseCSV (csvText : string) (csvData : list Row) :
  parseCSV csvText = Ok csvData ->
  List.length csvData
  = (List.length (JS.split newline (JS.trim csvText)) - 1)%nat.
Proof.
  unfold parseCSV.
  destruct (List.length (JS.split newline (JS.trim csvText)) <? 2)%nat;
    [discriminate|].
  intros H. injection H as <-. rewrite length_map.
  destruct (JS.split newline (JS.trim csvText)); cbn; lia.
Qed.

(** C2.  Whatever fails (the fetch, the parse, the delete, an insert,
    the commit), a refresh that starts outside a transaction and
    reports failure leaves the table with exactly its rows of before
    or with no row at all, and leaves no transaction open. *)
Theorem failed_refresh_keeps_or_empties
        (env : Env) (st st' : DbState number) (r : RefreshResult) :
  txn st = None ->
  performInstrumentsRefresh parseInt parseFloat orZero env st = (r, st') ->
  success r = false ->
  (rows st' = rows st \/ rows st' = []) /\ txn st' = None.
Proof.
  intros Ht H Hs. unfold performInstrumentsRefresh in H.
  destruct (fetched env) as [msg | ok statusText text].
  - cbn in H. injection H as <- <-. split; [now left | assumption].
  - destruct ok; cbn [negb] in H.
    + unfold mbind at 1, lift at 1 in H.
      destruct text as [csvText | msg];
        [|cbn in H; injection H as <- <-; split; [now left | assumption]].
      unfold mbind at 1, lift at 1 in H.
      destruct (parseCSV csvText) as [csvData | msg];
        [|cbn in H; injection H as <- <-; split; [now left | assumption]].
      set (records := map _ csvData) in H.
      pose proof (replaceRows_outcome env records st Ht) as O.
      destruct (replaceRows env records st) as [[r' | msg] st''].
      * injection H as <- <-. destruct O as [T O]. rewrite Hs in O.
        split; [apply O | assumption].
      * injection H as <- <-. destruct O as [T R].
        split; [now right | assumption].
    + cbn in H. injection H as <- <-. split; [now left | assumption].
Qed.

(** C9.  After a refresh that starts outside a transaction and
    reports success, the table holds one row per data line of the
    feed (the lines after the header of the trimmed text), which is
    the count returned, and every row carries the one IST timestamp
    read before the inserts. *)
Theorem successful_refresh_rows
        (env : Env) (st st' : DbState number) (r : RefreshResult) :
  txn st = None ->
  performInstrumentsRefresh parseInt parseFloat orZero env st = (r, st') ->
  success r = true ->
  exists statusText csvText csvData,
    fetched env = FetchResponse true statusText (Ok csvText)
    /\ parseCSV csvText = Ok csvData
    /\ rows st'
       = map (fun row =>
                transformToDBRecord parseInt parseFloat orZero row
                  (Clock.getISTTimestamp (now env)))
             csvData
    /\ Forall (fun x => updated_at x = Clock.getISTTimestamp (now env))
              (rows st')
    /\ count r = Z.of_nat (List.length (rows st'))
    /\ List.length (rows st')
       = (List.length (JS.split newline (JS.trim csvText)) - 1)%nat.
Proof.
  intros Ht H Hs. unfold performInstrumentsRefresh in H.
  destruct (fetched env) as [msg | ok statusText text] eqn:Ef;
    [cbn in H; injection H as <- <-; discriminate Hs|].
  destruct ok; cbn [negb] in H;
    [|cbn in H; injection H as <- <-; discriminate Hs].
  unfold mbind at 1, lift at 1 in H.
  destruct text as [csvText | msg];
    [|cbn in H; injection H as <- <-; discriminate Hs].
  unfold mbind at 1, lift at 1 in H.
  destruct (parseCSV csvText) as [csvData | msg] eqn:Ep;
    [|cbn in H; injection H as <- <-; discriminate Hs].
  set (records := map _ csvData) in H.
  pose proof (replaceRows_outcome env records st Ht) as O.
  destruct (replaceRows env records st) as [[r' | msg] st''];
    [|injection H as <- <-; discriminate Hs].
  injection H as <- <-. destruct O as [T O]. rewrite Hs in O.
  destruct O as [R C].
  exists statusText, csvText, csvData.
  split; [reflexivity|]. split; [exact Ep|].
  split; [exact R|]. split; [|split].
  - rewrite R. subst records. apply Forall_forall. intros x Hx.
    apply in_map_iff in Hx. destruct Hx as [row [<- _]]. reflexivity.
  - rewrite R. exact C.
  - rewrite R. subst records. rewrite length_map.
    now apply length_parseCSV.
Qed.

(** *** A failing insert *)

Lemma exec_nofault (faults : nat -> Fault) (s : Stmt number)
      (st : DbState number) :
  refused s st = None ->
  faults (List.length (log st)) = NoFault ->
  exec faults s st = (Ok tt, effect s (logged s st)).
Proof.
  intros Hr Hf. unfold exec. rewrite Hr, Hf. now destruct s.
Qed.

Lemma log_effect (s : Stmt number) (st : DbState number) :
  log (effect s (logged s st)) = log st ++ [s].
Proof.
  destruct s; cbn; try reflexivity.
  unfold abandon. cbn. now destruct (txn st).
Qed.

Lemma insertAll_log (env : Env) (records : list (InstrumentRecord number))
      (n : Z) (st : DbState number) :
  exists issued,
    log (snd (insertAll env records n st)) = log st ++ issued.
Proof.
  revert n st. induction records as [|r records IH]; intros n st.
  - exists []. cbn. now rewrite app_nil_r.
  - cbn [insertAll]. unfold mbind.
    destruct (exec (faults env) (SInsert r) st) as [[[]|msg] st1] eqn:E;
      apply exec_log in E.
    + destruct (IH (n + 1) st1) as [issued Hi].
      exists (SInsert r :: issued). rewrite Hi, E, <- app_assoc.
      reflexivity.
    + exists [SInsert r]. exact E.
Qed.

(** An insert that meets a fault makes the loop throw. *)
Lemma insertAll_fails (env : Env)
      (records : list (InstrumentRecord number)) (n : Z)
      (st : DbState number) (i : nat) :
  (i < List.length records)%nat ->
  faults env (List.length (log st) + i) <> NoFault ->
  exists msg st', insertAll env records n st = (Throw msg, st').
Proof.
  revert n st i. induction records as [|r records IH]; intros n st i Hi Hf.
  - cbn in Hi. lia.
  - cbn [insertAll]. unfold mbind.
    destruct (exec (faults env) (SInsert r) st) as [[[]|msg] st1] eqn:E.
    + destruct i as [|i].
      * exfalso. rewrite Nat.add_0_r in Hf.
        unfold exec in E. cbn [refused] in E.
        destruct (faults env (List.length (log st))); congruence.
      * apply exec_log in E.
        apply (IH (n + 1) st1 i); [cbn in Hi; lia|].
        rewrite E, length_app. cbn [List.length].
        now replace (List.length (log st) + 1 + i)%nat
          with (List.length (log st) + S i)%nat by lia.
    + eauto.
Qed.

(** C1, as the code has it.  The delete runs on its own, before the
    transaction is opened; the inserts run inside one transaction.
    When the delete, the prepare and the begin go through and some
    insert meets a fault, the refresh reports failure with count 0,
    the transaction is closed by a rollback and the table is left
    empty: no row of the feed is kept, and the rows of before are
    gone. *)
Theorem insert_error_leaves_empty_table
        (env : Env) (st st' : DbState number) (r : RefreshResult)
        (statusText csvText : string) (csvData : list Row) (i : nat) :
  txn st = None ->
  fetched env = FetchResponse true statusText (Ok csvText) ->
  parseCSV csvText = Ok csvData ->
  faults env (List.length (log st)) = NoFault ->
  faults env (List.length (log st) + 1) = NoFault ->
  faults env (List.length (log st) + 2) = NoFault ->
  (i < List.length csvData)%nat ->
  faults env (List.length (log st) + 3 + i) <> NoFault ->
  performInstrumentsRefresh parseInt parseFloat orZero env st = (r, st') ->
  success r = false /\ count r = 0
  /\ rows st' = [] /\ txn st' = None
  /\ exists issued,
       log st' = log st ++ SDelete :: SPrepare :: SBegin :: issued
                   ++ [SRollback].
Proof.
  intros Ht Hfetch Hparse F0 F1 F2 Hi Fi H.
  unfold performInstrumentsRefresh in H. rewrite Hfetch in H.
  cbn [negb] in H. unfold mbind at 1, lift at 1 in H.
  unfold mbind at 1, lift at 1 in H. rewrite Hparse in H.
  set (records := map _ csvData) in H.
  unfold replaceRows in H.
  unfold mbind at 1, tryCatch at 1, mbind at 1 in H.
  rewrite (exec_nofault (faults env) SDelete st) in H
    by (reflexivity || assumption).
  cbn [ret] in H. unfold mbind at 1 in H.
  set (st1 := effect SDelete (logged SDelete st)) in H.
  assert (L1 : log st1 = log st ++ [SDelete]) by apply log_effect.
  assert (T1 : txn st1 = None) by exact Ht.
  rewrite (exec_nofault (faults env) SPrepare st1) in H;
    [|reflexivity
     |rewrite L1, length_app; cbn [List.length]; assumption].
  set (st2 := effect SPrepare (logged SPrepare st1)) in H.
  assert (L2 : log st2 = log st ++ [SDelete; SPrepare]).
  { subst st2. rewrite log_effect, L1, <- app_assoc. reflexivity. }
  assert (T2 : txn st2 = None) by exact Ht.
  assert (R2 : rows st2 = []) by reflexivity.
  unfold tryCatch, mbind at 1 in H.
  rewrite (exec_nofault (faults env) SBegin st2) in H;
    [|cbn [refused]; change (txn st2) with (txn st); now rewrite Ht
     |rewrite L2, length_app; cbn [List.length]; assumption].
  set (st3 := effect SBegin (logged SBegin st2)) in H.
  assert (L3 : log st3 = log st ++ [SDelete; SPrepare; SBegin]).
  { subst st3. rewrite log_effect, L2, <- app_assoc. reflexivity. }
  assert (T3 : txn st3 = Some []) by reflexivity.
  unfold mbind at 1 in H.
  destruct (insertAll_fails env records 0 st3 i) as [msg [st4 E4]].
  { subst records. now rewrite length_map. }
  { rewrite L3, length_app. cbn [List.length].
    now replace (List.length (log st) + 3 + i)%nat
      with (List.length (log st) + 3 + i)%nat by lia. }
  pose proof (insertAll_outcome env records 0 st3 [] T3) as O4.
  destruct (insertAll_log env records 0 st3) as [issued L4].
  rewrite E4 in *. cbn [snd] in L4.
  pose proof (exec_rollback (faults env) st4) as Rb.
  unfold mbind, ret in H.
  destruct (exec (faults env) SRollback st4) as [[[]|msg'] st5] eqn:E5.
  - injection H as <- <-. destruct Rb as [b [Hb [R5 T5]]].
    apply exec_log in E5.
    repeat split; try reflexivity; try assumption.
    + destruct O4 as [T4 | [_ T4]]; congruence.
    + exists issued. rewrite E5, L4, L3, <- !app_assoc. reflexivity.
  - injection H as <- <-. destruct Rb as [T4 [R5 T5]].
    apply exec_log in E5.
    repeat split; try reflexivity; try assumption.
    + destruct O4 as [T4' | [R4 _]]; congruence.
    + exists issued. rewrite E5, L4, L3, <- !app_assoc. reflexivity.
Qed.

End WithNumbers.

End RefreshFacts.

Module RefreshWitness.

Import Instruments.

Lemma failed_refresh_keeps_or_empties_witness :
  (rows (snd (demoRefresh secondInsertFails)) = rows oldTable
   \/ rows (snd (demoRefresh secondInsertFails)) = [])
  /\ txn (snd (demoRefresh secondInsertFails)) = None.
Proof.
  apply (RefreshFacts.failed_refresh_keeps_or_empties
           (fun _ => tt) (fun _ => tt) (fun x => x)
           (demoEnv secondInsertFails) oldTable
           (snd (demoRefresh secondInsertFails))
           (fst (demoRefresh secondInsertFails))).
  - reflexivity.
  - vm_compute. reflexivity.
  - vm_compute. reflexivity.
Defined.

Lemma successful_refresh_rows_witness :
  exists statusText csvText csvData,
    fetched (demoEnv noFaults) = FetchResponse true statusText (Ok csvText)
    /\ parseCSV csvText = Ok csvData
    /\ rows (snd (demoRefresh noFaults))
       = map (fun row =>
                transformToDBRecord (fun _ => tt) (fun _ => tt) (fun x => x)
                  row (Clock.getISTTimestamp (now (demoEnv noFaults))))
             csvData
    /\ Forall (fun x => updated_at x
                        = Clock.getISTTimestamp (now (demoEnv noFaults)))
              (rows (snd (demoRefresh noFaults)))
    /\ count (fst (demoRefresh noFaults))
       = Z.of_nat (List.length (rows (snd (demoRefresh noFaults))))
    /\ List.length (rows (snd (demoRefresh noFaults)))
       = (List.length (JS.split newline (JS.trim csvText)) - 1)%nat.
Proof.
  apply (RefreshFacts.successful_refresh_rows
           (fun _ => tt) (fun _ => tt) (fun x => x)
           (demoEnv noFaults) oldTable
           (snd (demoRefresh noFaults)) (fst (demoRefresh noFaults))).
  - reflexivity.
  - vm_compute. reflexivity.
  - vm_compute. reflexivity.
Defined.

Example refresh_count_and_stamp :
  count (fst (demoRefresh noFaults)) = 2
  /\ map (@updated_at unit) (rows (snd (demoRefresh noFaults)))
     = ["2024-01-10 09:00:00"; "2024-01-10 09:00:00"].
Proof. vm_compute. split; reflexivity. Qed.

Lemma insert_error_leaves_empty_table_witness :
  success (fst (demoRefresh secondInsertFails)) = false
  /\ count (fst (demoRefresh secondInsertFails)) = 0
  /\ rows (snd (demoRefresh secondInsertFails)) = []
  /\ txn (snd (demoRefresh secondInsertFails)) = None
  /\ exists issued,
       log (snd (demoRefresh secondInsertFails))
       = log oldTable ++ SDelete :: SPrepare :: SBegin :: issued
           ++ [SRollback].
Proof.
  apply (RefreshFacts.insert_error_leaves_empty_table
           (fun _ => tt) (fun _ => tt) (fun x => x)
           (demoEnv secondInsertFails) oldTable
           (snd (demoRefresh secondInsertFails))
           (fst (demoRefresh secondInsertFails))
           "OK" demoFeed
           [[("instrument_token", "1"); ("tradingsymbol", "ABC")];
            [("instrument_token", "2"); ("tradingsymbol", "DEF")]]
           1%nat).
  - reflexivity.
  - reflexivity.
  - vm_compute. reflexivity.
  - reflexivity.
  - reflexivity.
  - reflexivity.
  - cbn. lia.
  - vm_compute. discriminate.
  - vm_compute. reflexivity.
Defined.

(** The table held a row; the second insert fails; the refresh reports
    failure and the table is empty, not what it was: the delete was
    issued before the transaction began and the rollback does not undo
    it. *)
Lemma delete_is_not_rolled_back :
  success (fst (demoRefresh secondInsertFails)) = false
  /\ rows oldTable = [stampedRow "2024-01-09 09:00:00"]
  /\ rows (snd (demoRefresh secondInsertFails)) = []
  /\ rows (snd (demoRefresh secondInsertFails)) <> rows oldTable
  /\ exists r1 r2,
       log (snd (demoRefresh secondInsertFails))
       = [SDelete; SPrepare; SBegin; SInsert r1; SInsert r2; SRollback].
Proof.
  split; [vm_compute; reflexivity|].
  split; [reflexivity|].
  split; [vm_compute; reflexivity|].
  split; [vm_compute; discriminate|].
  eexists. eexists. vm_compute. reflexivity.
Qed.

End RefreshWitness.

(** ** Session acquisition *)

Module SessionFacts.

Import Session.

Section WithSurroundings.

Variable RT : Runtime.
Variable E : Env.

(** *** Running the parts of a computation *)

Lemma run_bind {A B} (m : IO A) (k : A -> IO B) (w w1 : World) (a : A) :
  m w = (Ok a, w1) -> mbind m k w = k a w1.
Proof. intros H. unfold mbind. now rewrite H. Qed.

Lemma run_bind_throw {A B} (m : IO A) (k : A -> IO B) (w w1 : World)
      (msg : string) :
  m w = (Throw msg, w1) -> mbind m k w = (Throw msg, w1).
Proof. intros H. unfold mbind. now rewrite H. Qed.

Lemma statement_ok (w : World) :
  dbfault E (dbops w) = None -> statement E w = (Ok tt, counted w).
Proof. intros H. unfold statement. now rewrite H. Qed.

Lemma latestSession_in (user_id : string) (table : list SessionRow)
      (r : SessionRow) :
  latestSession user_id table = Some r ->
  In r table /\ s_user_id r = user_id.
Proof.
  revert r. induction table as [|x table IH]; intros r H; [discriminate|].
  cbn [latestSession] in H.
  destruct (String.eqb_spec (s_user_id x) user_id) as [Hx | Hx].
  - destruct (latestSession user_id table) as [b|].
    + destruct (String.ltb (created_at x) (created_at b)).
      * injection H as <-. destruct (IH b eq_refl). split; [now right | assumption].
      * injection H as <-. split; [now left | assumption].
    + injection H as <-. split; [now left | assumption].
  - destruct (IH r H). split; [now right | assumption].
Qed.

(** The row the session query selects is the most recently created
    record of the account, and no other. *)
Lemma latestSession_most_recent (user_id : string)
      (table : list SessionRow) (es : SessionRow) :
  latestSession user_id table = Some es ->
  most_recent user_id table es.
Proof.
  revert es. induction table as [|x table IH]; intros es H;
    [discriminate|].
  cbn [latestSession] in H.
  destruct (String.eqb_spec (s_user_id x) user_id) as [Hx | Hx].
  - destruct (latestSession user_id table) as [b|] eqn:Eb.
    + destruct (IH b eq_refl) as [earlier [later [Ht [Hu [He Hl]]]]].
      destruct (String.ltb (created_at x) (created_at b)) eqn:Elt;
        injection H as <-.
      * exists (x :: earlier), later. cbn [app]. rewrite <- Ht.
        split; [reflexivity|]. split; [exact Hu|]. split; [|exact Hl].
        intros r [<- | Hr] Hru; [exact Elt | now apply He].
      * exists [], table. split; [reflexivity|]. split; [exact Hx|].
        split; [intros r []|].
        intros r Hr Hru.
        apply OracleFacts.leb_trans with (created_at b);
          [|now apply OracleFacts.not_ltb_leb].
        rewrite Ht in Hr. apply in_app_or in Hr.
        destruct Hr as [Hr | [<- | Hr]].
        -- apply OracleFacts.ltb_leb. now apply He.
        -- apply OracleFacts.leb_refl.
        -- now apply Hl.
    + injection H as <-.
      exists [], table. split; [reflexivity|]. split; [exact Hx|].
      split; [intros r []|].
      intros r Hr Hru. exfalso.
      clear IH. induction table as [|y table IHt]; [destruct Hr|].
      cbn [latestSession] in Eb.
      destruct (String.eqb_spec (s_user_id y) user_id) as [Hy | Hy].
      * destruct (latestSession user_id table) as [b|]; [|discriminate].
        now destruct (String.ltb (created_at y) (created_at b)).
      * destruct Hr as [<- | Hr]; [contradiction | now apply IHt].
  - destruct (IH es H) as [earlier [later [Ht [Hu [He Hl]]]]].
    exists (x :: earlier), later. cbn [app]. rewrite <- Ht.
    split; [reflexivity|]. split; [exact Hu|]. split; [|exact Hl].
    intros r [<- | Hr] Hru; [contradiction | now apply He].
Qed.


(** *** The local checks *)

Lemma verifyCredentials_ok (req : LoginRequest) (w : World)
      (user_id password : string) (totp_secret : Totp.ustring)
      (form : LoginForm) :
  Verified RT E req w user_id password totp_secret form ->
  verifyCredentials RT E req w
  = (Ok (inr (user_id, password, totp_secret, form)),
     counted (counted w)).
Proof.
  intros [Hm [ct [Hct Hinc]] Hf Hu Hp Hs [Hq1 Hq2] [u [Hfind [Hpw Hsec]]]].
  unfold verifyCredentials.
  rewrite Hm, Hct, Hinc. cbn [String.eqb Ascii.eqb Bool.eqb negb].
  unfold mbind at 1, lift at 1. rewrite Hf, Hu, Hp, Hs.
  unfold mbind at 1, tryCatch at 1, mbind at 1.
  unfold selectUser. unfold mbind at 1.
  rewrite (statement_ok w Hq1).
  unfold mbind at 1.
  rewrite (statement_ok (counted w) Hq2).
  cbn [users counted]. rewrite Hfind. cbn [ret].
  unfold mbind at 1, lift at 1. rewrite Hpw. cbn [negb].
  unfold ustring_eqb. rewrite Hsec.
  destruct (list_eq_dec N.eq_dec totp_secret totp_secret); [|congruence].
  reflexivity.
Qed.

Lemma handleLogin_verified (req : LoginRequest) (w : World)
      (user_id password : string) (totp_secret : Totp.ustring)
      (form : LoginForm) :
  Verified RT E req w user_id password totp_secret form ->
  handleLogin RT E req w
  = settle
      ((let* cached := lookupCache RT E user_id in
        match cached with
        | Some reply => ret reply
        | None =>
            freshLogin RT E user_id password totp_secret
                       (f_api_key form) (f_api_secret form)
        end) (counted (counted w))).
Proof.
  intros V. unfold handleLogin, handleLoginBody.
  now rewrite (run_bind _ _ _ _ _ (verifyCredentials_ok _ _ _ _ _ _ V)).
Qed.

(** *** The cache check *)

Lemma selectLatestSession_ok (user_id : string) (w : World) :
  dbfault E (dbops w) = None ->
  dbfault E (S (dbops w)) = None ->
  selectLatestSession E user_id w
  = (Ok (latestSession user_id (sessions w)), counted (counted w)).
Proof.
  intros H1 H2. unfold selectLatestSession.
  unfold mbind at 1. unfold mbind at 1.
  rewrite (statement_ok w H1), (statement_ok (counted w) H2).
  reflexivity.
Qed.


Lemma nonempty_true (s : string) : s <> EmptyString -> nonempty s = true.
Proof.
  intros H. unfold nonempty.
  now destruct (String.eqb_spec s EmptyString).
Qed.




(** *** The handshake *)

Lemma getSessionID_none (apiKey cookies : string) (w : World) :
  noSessionId RT (net E (netlog w) (connectRequest apiKey cookies)) ->
  getSessionID RT E apiKey cookies w
  = (Ok None, sent (connectRequest apiKey cookies) w).
Proof.
  intros H. unfold getSessionID, redirectParam, tryCatch.
  unfold mbind at 1, fetch.
  destruct (net E (netlog w) (connectRequest apiKey cookies)) as [msg | r];
    [reflexivity|].
  cbn [noSessionId] in H.
  destruct (Z.eqb_spec (status r) 302) as [Hs | Hs]; cbn [negb];
    [|reflexivity].
  destruct H as [H | [H | [loc [Hloc H]]]]; [contradiction | |].
  - destruct (location r) as [loc|]; [|reflexivity].
    cbn [opt_truthy] in H. rewrite H. reflexivity.
  - rewrite Hloc. destruct (nonempty loc); [|reflexivity].
    cbn [negb]. unfold mbind, lift.
    destruct (searchParam RT true loc "sess_id") as [value | msg];
      [|reflexivity].
    rewrite H. reflexivity.
Qed.

Lemma finish_is_not_connect (apiKey sessId cookies apiKey' cookies' : string) :
  finishRequest apiKey sessId cookies <> connectRequest apiKey' cookies'.
Proof. intros H. apply (f_equal url) in H. discriminate H. Qed.

Lemma token_is_not_connect (apiKey requestToken checksum apiKey' cookies'
                            : string) :
  tokenRequest apiKey requestToken checksum
  <> connectRequest apiKey' cookies'.
Proof. intros H. apply (f_equal method) in H. discriminate H. Qed.

Lemma generateAPISession_no_session_id
      (userId password : string) (totpSecret : Totp.ustring)
      (apiKey apiSecret : string) (w w1 : World) (oms : OMSSessionResult) :
  generateOMSSession RT E userId password totpSecret w = (Ok oms, w1) ->
  oms_success oms = true ->
  noSessionId RT (net E (netlog w1)
                      (connectRequest apiKey (cookieHeader oms))) ->
  generateAPISession RT E userId password totpSecret apiKey apiSecret w
  = (Ok (apiFailure "Failed to get session ID"),
     sent (connectRequest apiKey (cookieHeader oms)) w1).
Proof.
  intros Homs Hs Hno. unfold generateAPISession, tryCatch.
  rewrite (run_bind _ _ _ _ _ Homs), Hs. cbn [negb].
  cbv zeta. rewrite (run_bind _ _ _ _ _ (getSessionID_none _ _ _ Hno)).
  reflexivity.
Qed.

(** C5.  When the broker's login and 2FA have succeeded and the answer
    to the no-follow GET to the connect endpoint gives no session
    identifier (any status other than 302, for example 200; or a 302
    whose Location is missing or empty, or whose sess_id parameter
    is absent, empty or unreadable; or no answer at all), then
    generateAPISession returns the failure "Failed to get session
    ID", and the connect request is the last request of the attempt:
    the requests sent are those of the login and 2FA followed by the
    connect request only, which is neither a connect/finish request
    nor the token-exchange POST. *)
Theorem connect_failure_short_circuits
      (userId password : string) (totpSecret : Totp.ustring)
      (apiKey apiSecret : string) (w w1 : World) (oms : OMSSessionResult) :
  generateOMSSession RT E userId password totpSecret w = (Ok oms, w1) ->
  oms_success oms = true ->
  noSessionId RT (net E (netlog w1)
                      (connectRequest apiKey (cookieHeader oms))) ->
  let connect := connectRequest apiKey (cookieHeader oms) in
  let outcome :=
    generateAPISession RT E userId password totpSecret apiKey apiSecret w in
  fst outcome = Ok (apiFailure "Failed to get session ID")
  /\ api_success (apiFailure "Failed to get session ID") = false
  /\ snd outcome = sent connect w1
  /\ netlog (snd outcome) = netlog w1 ++ [connect]
  /\ (forall key sessId cookies,
        finishRequest key sessId cookies <> connect)
  /\ (forall key requestToken checksum,
        tokenRequest key requestToken checksum <> connect).
Proof.
  intros Homs Hs Hno connect outcome. subst connect outcome.
  rewrite (generateAPISession_no_session_id _ _ _ _ _ _ _ _ Homs Hs Hno).
  repeat split.
  - intros. apply finish_is_not_connect.
  - intros. apply token_is_not_connect.
Qed.

(** *** The stored tokens stay non-empty *)

Lemma keeps_ret {A} (a : A) : keeps_tokens (ret a).
Proof. intros w H. exact H. Qed.

Lemma keeps_throw {A} (msg : string) : keeps_tokens (@throw World A msg).
Proof. intros w H. exact H. Qed.

Lemma keeps_lift {A} (r : result A) : keeps_tokens (lift r).
Proof. intros w H. exact H. Qed.

Lemma keeps_bind {A B} (m : IO A) (k : A -> IO B) :
  keeps_tokens m -> (forall a, keeps_tokens (k a)) ->
  keeps_tokens (mbind m k).
Proof.
  intros Hm Hk w H. unfold mbind. specialize (Hm w H).
  destruct (m w) as [[a | msg] w1]; cbn [snd] in *; [|exact Hm].
  exact (Hk a w1 Hm).
Qed.

Lemma keeps_tryCatch {A} (m : IO A) (h : string -> IO A) :
  keeps_tokens m -> (forall msg, keeps_tokens (h msg)) ->
  keeps_tokens (tryCatch m h).
Proof.
  intros Hm Hh w H. unfold tryCatch. specialize (Hm w H).
  destruct (m w) as [[a | msg] w1]; cbn [snd] in *; [exact Hm|].
  exact (Hh msg w1 Hm).
Qed.

Lemma keeps_fetch (req : Request) : keeps_tokens (fetch E req).
Proof.
  intros w H. unfold fetch.
  now destruct (net E (netlog w) req).
Qed.

Lemma keeps_dateNow : keeps_tokens (dateNow E).
Proof. intros w H. exact H. Qed.

Lemma keeps_statement : keeps_tokens (statement E).
Proof.
  intros w H. unfold statement.
  now destruct (dbfault E (dbops w)).
Qed.

Lemma keeps_appendSession (r : SessionRow) :
  enctoken r <> Some EmptyString -> keeps_tokens (appendSession r).
Proof.
  intros Hr w H. cbn. apply Forall_app. split; [exact H|].
  constructor; [exact Hr | constructor].
Qed.

Lemma opt_or_null_nonempty (o : option string) :
  opt_or_null o <> Some EmptyString.
Proof.
  unfold opt_or_null. destruct o as [s|]; cbn; [|discriminate].
  unfold nonempty. destruct (String.eqb_spec s EmptyString);
    cbn; congruence.
Qed.

Ltac frame :=
  repeat match goal with
    | |- keeps_tokens (ret _) => apply keeps_ret
    | |- keeps_tokens (throw _) => apply keeps_throw
    | |- keeps_tokens (lift _) => apply keeps_lift
    | |- keeps_tokens (fetch _ _) => apply keeps_fetch
    | |- keeps_tokens (dateNow _) => apply keeps_dateNow
    | |- keeps_tokens (statement _) => apply keeps_statement
    | |- keeps_tokens (mbind _ _) => apply keeps_bind; [| intros ?]
    | |- keeps_tokens (tryCatch _ _) => apply keeps_tryCatch; [| intros ?]
    | |- keeps_tokens (if ?b then _ else _) => destruct b
    | |- keeps_tokens (match ?x with _ => _ end) => destruct x
    | |- keeps_tokens (let _ := _ in _) => progress cbv zeta
    end.

Lemma keeps_getISTTimestamp : keeps_tokens (getISTTimestamp E).
Proof. unfold getISTTimestamp. frame. Qed.

Lemma keeps_generateTotpValue (totpSecret : Totp.ustring) :
  keeps_tokens (generateTotpValue RT E totpSecret).
Proof. unfold generateTotpValue. frame. Qed.

Lemma keeps_generateOMSSession (userId password : string)
      (totpSecret : Totp.ustring) :
  keeps_tokens (generateOMSSession RT E userId password totpSecret).
Proof.
  unfold generateOMSSession.
  repeat first [ apply keeps_getISTTimestamp
               | apply keeps_generateTotpValue
               | progress frame ].
Qed.

Lemma keeps_redirectParam (req : Request) (withBase : bool)
      (param : string) :
  keeps_tokens (redirectParam RT E req withBase param).
Proof. unfold redirectParam. frame. Qed.

Lemma keeps_generateSessionToken (apiKey requestToken checksum : string) :
  keeps_tokens (generateSessionToken RT E apiKey requestToken checksum).
Proof. unfold generateSessionToken. frame. Qed.

Lemma keeps_generateAPISession (userId password : string)
      (totpSecret : Totp.ustring) (apiKey apiSecret : string) :
  keeps_tokens
    (generateAPISession RT E userId password totpSecret apiKey apiSecret).
Proof.
  unfold generateAPISession, getSessionID, getRequestToken.
  repeat first [ apply keeps_generateOMSSession
               | apply keeps_redirectParam
               | apply keeps_generateSessionToken
               | progress frame ].
Qed.

Lemma keeps_generateSession (userId password : string)
      (totpSecret : Totp.ustring) (apiKey apiSecret : option string) :
  keeps_tokens
    (generateSession RT E userId password totpSecret apiKey apiSecret).
Proof.
  unfold generateSession.
  repeat first [ apply keeps_generateOMSSession
               | apply keeps_generateAPISession
               | progress frame ].
Qed.

Lemma keeps_getUserProfile (enctoken : string) :
  keeps_tokens (getUserProfile RT E enctoken).
Proof. unfold getUserProfile. frame. Qed.

Lemma keeps_runInsert (v_user_id : jsval) (enc : option string)
      (v_api_key v_access_token : jsval)
      (session_text type_ time_ created updated : string) :
  enc <> Some EmptyString ->
  keeps_tokens
    (runInsert RT E v_user_id enc v_api_key v_access_token
               session_text type_ time_ created updated).
Proof.
  intros Henc. unfold runInsert.
  repeat first [ apply keeps_appendSession; exact Henc
               | progress frame ].
Qed.

Lemma keeps_freshLogin (user_id password : string)
      (totp_secret : Totp.ustring) (api_key api_secret : option string) :
  keeps_tokens
    (freshLogin RT E user_id password totp_secret api_key api_secret).
Proof.
  unfold freshLogin.
  repeat first [ apply keeps_generateSession
               | apply keeps_getISTTimestamp
               | apply keeps_getUserProfile
               | apply keeps_runInsert; apply opt_or_null_nonempty
               | progress frame ].
Qed.

Lemma keeps_lookupCache (user_id : string) :
  keeps_tokens (lookupCache RT E user_id).
Proof.
  unfold lookupCache, selectLatestSession, cachedSession, isEnctokenValid.
  frame.
  all: intros w H; exact H.
Qed.

Lemma keeps_verifyCredentials (req : LoginRequest) :
  keeps_tokens (verifyCredentials RT E req).
Proof.
  unfold verifyCredentials, selectUser.
  frame.
  all: intros w H; exact H.
Qed.

Lemma keeps_handleLoginBody (req : LoginRequest) :
  keeps_tokens (handleLoginBody RT E req).
Proof.
  unfold handleLoginBody.
  repeat first [ apply keeps_verifyCredentials
               | apply keeps_lookupCache
               | apply keeps_freshLogin
               | progress frame ].
Qed.

(** X1.  No login makes a stored bearer token empty: if no row of
    the session table holds the empty text as its bearer token
    before [handleLogin] runs, none does after it, whatever the
    request, the broker's answers and the faults of the statements
    (a token that is missing or empty is stored as NULL). *)
Lemma handleLogin_keeps_tokens (req : LoginRequest) (w : World) :
  tokens_nonempty (sessions w) ->
  tokens_nonempty (sessions (snd (handleLogin RT E req w))).
Proof.
  intros H. unfold handleLogin, settle.
  pose proof (keeps_handleLoginBody req w H) as K.
  now destruct (handleLoginBody RT E req w) as [[reply | msg] w'].
Qed.

(** *** The drivers always return *)

Lemma returns_ret {A} (a : A) : returns (ret a).
Proof. intros w. now exists a, w. Qed.

Lemma returns_bind {A B} (m : IO A) (k : A -> IO B) :
  returns m -> (forall a, returns (k a)) -> returns (mbind m k).
Proof.
  intros Hm Hk w. destruct (Hm w) as [a [w1 Ha]].
  unfold mbind. rewrite Ha. apply Hk.
Qed.

Lemma returns_tryCatch {A} (m : IO A) (h : string -> IO A) :
  (forall msg, returns (h msg)) -> returns (tryCatch m h).
Proof.
  intros Hh w. unfold tryCatch.
  destruct (m w) as [[a | msg] w1]; [now exists a, w1 | apply Hh].
Qed.

Lemma returns_generateOMSSession (userId password : string)
      (totpSecret : Totp.ustring) :
  returns (generateOMSSession RT E userId password totpSecret).
Proof. apply returns_tryCatch. intros msg. apply returns_ret. Qed.

Lemma returns_generateAPISession (userId password : string)
      (totpSecret : Totp.ustring) (apiKey apiSecret : string) :
  returns
    (generateAPISession RT E userId password totpSecret apiKey apiSecret).
Proof. apply returns_tryCatch. intros msg. apply returns_ret. Qed.

Lemma returns_generateSession (userId password : string)
      (totpSecret : Totp.ustring) (apiKey apiSecret : option string) :
  returns
    (generateSession RT E userId password totpSecret apiKey apiSecret).
Proof.
  unfold generateSession.
  destruct (opt_truthy apiKey && opt_truthy apiSecret);
    apply returns_bind;
    first [ apply returns_generateAPISession
          | apply returns_generateOMSSession
          | intros a; apply returns_ret ].
Qed.

(** *** What a failed acquisition answers *)

Lemma run_lift_bind {A B} (a : A) (k : A -> IO B) (w : World) :
  mbind (lift (Ok a)) k w = k a w.
Proof. reflexivity. Qed.

Lemma fetch_reply (req : Request) (r : Response) (w : World) :
  net E (netlog w) req = NetReply r -> fetch E req w = (Ok r, sent req w).
Proof. intros H. unfold fetch. now rewrite H. Qed.

Lemma generateTotpValue_ok (totpSecret : Totp.ustring) (w : World)
      (code : string) :
  Totp.generateTotpValue (totp RT) totpSecret (clock E (ticks w)) 30
  = Ok code ->
  generateTotpValue RT E totpSecret w = (Ok code, ticked w).
Proof.
  intros H. unfold generateTotpValue, mbind, dateNow, lift.
  now rewrite H.
Qed.

Lemma generateOMSSession_login_rejected
      (userId password : string) (totpSecret : Totp.ustring)
      (w : World) (r : Response) :
  net E (netlog w) (loginRequest userId password) = NetReply r ->
  ok r = false ->
  generateOMSSession RT E userId password totpSecret w
  = (Ok (omsFailure ("Login failed [" ++ JS.toString (status r)
                       ++ "]: " ++ text r)),
     sent (loginRequest userId password) w).
Proof.
  intros Hnet Hok. unfold generateOMSSession, tryCatch.
  rewrite (run_bind _ _ _ _ _ (fetch_reply _ _ _ Hnet)), Hok.
  reflexivity.
Qed.

Lemma generateOMSSession_twofa_rejected
      (userId password : string) (totpSecret : Totp.ustring)
      (w : World) (r1 r2 : Response)
      (loginData st data uid rid ttype : jsval) (code : string) :
  net E (netlog w) (loginRequest userId password) = NetReply r1 ->
  ok r1 = true ->
  json r1 = Ok loginData ->
  get RT loginData "status" = Ok st ->
  is_success st = true ->
  get RT loginData "data" = Ok data ->
  get RT data "user_id" = Ok uid ->
  get RT data "request_id" = Ok rid ->
  get RT data "twofa_type" = Ok ttype ->
  Totp.generateTotpValue (totp RT) totpSecret (clock E (ticks w)) 30
  = Ok code ->
  net E (netlog w ++ [loginRequest userId password])
      (twofaRequest
         (Cookie.convertSetCookieToCookie
            (opt_or (set_cookie r1) EmptyString))
         uid rid code ttype)
  = NetReply r2 ->
  ok r2 = false ->
  generateOMSSession RT E userId password totpSecret w
  = (Ok (omsFailure ("2FA failed [" ++ JS.toString (status r2)
                       ++ "]: " ++ text r2)),
     sent (twofaRequest
             (Cookie.convertSetCookieToCookie
                (opt_or (set_cookie r1) EmptyString))
             uid rid code ttype)
          (ticked (sent (loginRequest userId password) w))).
Proof.
  intros Hnet Hok Hjson Hst Hsucc Hdata Huid Hrid Htype Hcode Hnet2 Hok2.
  unfold generateOMSSession, tryCatch.
  rewrite (run_bind _ _ _ _ _ (fetch_reply _ _ _ Hnet)), Hok.
  cbn [negb]. cbv zeta.
  rewrite Hjson, run_lift_bind, Hst, run_lift_bind, Hsucc.
  cbn [negb].
  rewrite Hdata, run_lift_bind, Huid, run_lift_bind, Hrid, run_lift_bind,
    Htype, run_lift_bind.
  rewrite (run_bind _ _ _ _ _
             (generateTotpValue_ok totpSecret
                (sent (loginRequest userId password) w) code Hcode)).
  rewrite (run_bind _ _ _ _ _
             (fetch_reply _ r2
                (ticked (sent (loginRequest userId password) w)) Hnet2)).
  rewrite Hok2. reflexivity.
Qed.

Lemma generateSession_oms_failure
      (userId password : string) (totpSecret : Totp.ustring)
      (apiKey apiSecret : option string) (w w1 : World)
      (oms : OMSSessionResult) (msg : string) :
  generateOMSSession RT E userId password totpSecret w = (Ok oms, w1) ->
  oms_success oms = false ->
  oms_error oms = Some msg ->
  nonempty msg = true ->
  exists sr,
    generateSession RT E userId password totpSecret apiKey apiSecret w
    = (Ok sr, w1)
    /\ result_success sr = false
    /\ result_error sr = Some msg.
Proof.
  intros Homs Hs He Hne. unfold generateSession.
  destruct (opt_truthy apiKey && opt_truthy apiSecret).
  - exists (FromAPI (apiFailure msg)). split; [|now split].
    unfold mbind at 1. unfold generateAPISession, tryCatch.
    rewrite (run_bind _ _ _ _ _ Homs), Hs, He. cbn [negb opt_or].
    rewrite Hne. reflexivity.
  - exists (FromOMS oms). split; [|now split].
    now rewrite (run_bind _ _ _ _ _ Homs).
Qed.

Lemma failed_session_reply
      (req : LoginRequest) (w w5 w6 : World) (user_id password : string)
      (totp_secret : Totp.ustring) (form : LoginForm)
      (sr : SessionResult) :
  Verified RT E req w user_id password totp_secret form ->
  lookupCache RT E user_id (counted (counted w)) = (Ok None, w5) ->
  generateSession RT E user_id password totp_secret
                  (f_api_key form) (f_api_secret form) w5 = (Ok sr, w6) ->
  result_success sr = false ->
  handleLogin RT E req w
  = (authError (opt_or (result_error sr) "Failed to generate session"),
     w6).
Proof.
  intros V Hcache Hgen Hs.
  rewrite (handleLogin_verified _ _ _ _ _ _ V).
  rewrite (run_bind _ _ _ _ _ Hcache).
  unfold freshLogin.
  rewrite (run_bind _ _ _ _ _ Hgen), Hs. reflexivity.
Qed.

Lemma failed_driver_reply
      (req : LoginRequest) (w w5 w6 : World) (user_id password : string)
      (totp_secret : Totp.ustring) (form : LoginForm)
      (oms : OMSSessionResult) (msg : string) :
  Verified RT E req w user_id password totp_secret form ->
  lookupCache RT E user_id (counted (counted w)) = (Ok None, w5) ->
  generateOMSSession RT E user_id password totp_secret w5 = (Ok oms, w6) ->
  oms_success oms = false ->
  oms_error oms = Some msg ->
  nonempty msg = true ->
  handleLogin RT E req w = (authError msg, w6).
Proof.
  intros V Hcache Homs Hs He Hne.
  destruct (generateSession_oms_failure _ _ _ (f_api_key form)
              (f_api_secret form) _ _ _ _ Homs Hs He Hne)
    as [sr [Hgen [Hsr Herr]]].
  rewrite (failed_session_reply _ _ _ _ _ _ _ _ _ V Hcache Hgen Hsr).
  rewrite Herr. cbn [opt_or]. now rewrite Hne.
Qed.


(** C6, as the code has it.  When session acquisition fails after
    the local checks, the reply is an authentication error: status
    401 and class AuthenticationException, the class of "Invalid
    credentials".  Its message is the error text of the driver (or
    "Failed to generate session" when there is none): "Login failed
    [status]: body" with the status and body of the broker's answer
    when the login step is rejected, "2FA failed [status]: body"
    when the 2FA step is rejected, "Failed to get session ID" when
    the API handshake gets no session identifier.  Acquisition
    always returns a result. *)
Theorem failed_acquisition_reply :
  (forall req w w5 w6 user_id password totp_secret form sr,
      Verified RT E req w user_id password totp_secret form ->
      lookupCache RT E user_id (counted (counted w)) = (Ok None, w5) ->
      generateSession RT E user_id password totp_secret
                      (f_api_key form) (f_api_secret form) w5
      = (Ok sr, w6) ->
      result_success sr = false ->
      let message :=
        opt_or (result_error sr) "Failed to generate session" in
      handleLogin RT E req w = (authError message, w6)
      /\ error_class (authError message)
         = (401, VStr "AuthenticationException")
      /\ error_class (authError message)
         = error_class (authError "Invalid credentials")
      /\ error_message (authError message) = VStr message)
  /\ (forall req w w5 user_id password totp_secret form r,
         Verified RT E req w user_id password totp_secret form ->
         lookupCache RT E user_id (counted (counted w)) = (Ok None, w5) ->
         net E (netlog w5) (loginRequest user_id password) = NetReply r ->
         ok r = false ->
         handleLogin RT E req w
         = (authError ("Login failed [" ++ JS.toString (status r)
                         ++ "]: " ++ text r),
            sent (loginRequest user_id password) w5))
  /\ (forall req w w5 user_id password totp_secret form r1 r2
             loginData st data uid rid ttype code,
         Verified RT E req w user_id password totp_secret form ->
         lookupCache RT E user_id (counted (counted w)) = (Ok None, w5) ->
         net E (netlog w5) (loginRequest user_id password) = NetReply r1 ->
         ok r1 = true ->
         json r1 = Ok loginData ->
         get RT loginData "status" = Ok st ->
         is_success st = true ->
         get RT loginData "data" = Ok data ->
         get RT data "user_id" = Ok uid ->
         get RT data "request_id" = Ok rid ->
         get RT data "twofa_type" = Ok ttype ->
         Totp.generateTotpValue (totp RT) totp_secret
                                (clock E (ticks w5)) 30 = Ok code ->
         let twofa :=
           twofaRequest
             (Cookie.convertSetCookieToCookie
                (opt_or (set_cookie r1) EmptyString))
             uid rid code ttype in
         net E (netlog w5 ++ [loginRequest user_id password]) twofa
         = NetReply r2 ->
         ok r2 = false ->
         handleLogin RT E req w
         = (authError ("2FA failed [" ++ JS.toString (status r2)
                         ++ "]: " ++ text r2),
            sent twofa
                 (ticked (sent (loginRequest user_id password) w5))))
  /\ (forall req w w5 w6 user_id password totp_secret form oms
             apiKey apiSecret,
         Verified RT E req w user_id password totp_secret form ->
         lookupCache RT E user_id (counted (counted w)) = (Ok None, w5) ->
         f_api_key form = Some apiKey -> apiKey <> EmptyString ->
         f_api_secret form = Some apiSecret -> apiSecret <> EmptyString ->
         generateOMSSession RT E user_id password totp_secret w5
         = (Ok oms, w6) ->
         oms_success oms = true ->
         noSessionId RT (net E (netlog w6)
                             (connectRequest apiKey (cookieHeader oms))) ->
         handleLogin RT E req w
         = (authError "Failed to get session ID",
            sent (connectRequest apiKey (cookieHeader oms)) w6))
  /\ (forall userId password totpSecret apiKey apiSecret,
         returns (generateSession RT E userId password totpSecret
                                  apiKey apiSecret)).
Proof.
  split; [|split; [|split; [|split]]].
  - intros req w w5 w6 user_id password totp_secret form sr
           V Hcache Hgen Hs message.
    split; [|repeat split].
    exact (failed_session_reply _ _ _ _ _ _ _ _ _ V Hcache Hgen Hs).
  - intros req w w5 user_id password totp_secret form r V Hcache Hnet Hok.
    apply (failed_driver_reply _ _ _ _ _ _ _ _ _ _ V Hcache
             (generateOMSSession_login_rejected _ _ totp_secret _ _
                Hnet Hok));
      reflexivity.
  - intros req w w5 user_id password totp_secret form r1 r2
           loginData st data uid rid ttype code V Hcache
           Hnet Hok Hjson Hst Hsucc Hdata Huid Hrid Htype Hcode twofa
           Hnet2 Hok2.
    apply (failed_driver_reply _ _ _ _ _ _ _ _ _ _ V Hcache
             (generateOMSSession_twofa_rejected _ _ _ _ _ _ _ _ _ _ _ _ _
                Hnet Hok Hjson Hst Hsucc Hdata Huid Hrid Htype Hcode
                Hnet2 Hok2));
      reflexivity.
  - intros req w w5 w6 user_id password totp_secret form oms
           apiKey apiSecret V Hcache Hkey Hkne Hsec Hsne Homs Hs Hno.
    pose proof (generateAPISession_no_session_id _ _ _ apiKey apiSecret
                  _ _ _ Homs Hs Hno) as Hapi.
    assert (Hgen :
              generateSession RT E user_id password totp_secret
                              (f_api_key form) (f_api_secret form) w5
              = (Ok (FromAPI (apiFailure "Failed to get session ID")),
                 sent (connectRequest apiKey (cookieHeader oms)) w6)).
    { unfold generateSession. rewrite Hkey, Hsec.
      cbn [opt_truthy opt_or].
      rewrite (nonempty_true _ Hkne), (nonempty_true _ Hsne).
      cbn [andb].
      now rewrite (run_bind _ _ _ _ _ Hapi). }
    exact (failed_session_reply _ _ _ _ _ _ _ _ _ V Hcache Hgen eq_refl).
  - intros. apply returns_generateSession.
Qed.

End WithSurroundings.

End SessionFacts.

Module SessionWitness.

Import Session.

Lemma connect_failure_short_circuits_witness :
  let E := broker loginOk twofaOk (answered 200 "<html>") unreached in
  let outcome :=
    generateAPISession demoRuntime E "AB1234" "correct horse"
                       Totp.rfc_secret "key" "secret" (demoWorld []) in
  fst outcome = Ok (apiFailure "Failed to get session ID")
  /\ map url (netlog (snd outcome))
     = ["https://kite.zerodha.com/api/login";
        "https://kite.zerodha.com/api/twofa";
        "https://kite.zerodha.com/connect/login?v=3&api_key=key"].
Proof.
  intros E outcome.
  pose (first := generateOMSSession demoRuntime E "AB1234" "correct horse"
                                    Totp.rfc_secret (demoWorld [])).
  pose (oms := match fst first with
               | Ok o => o
               | Throw msg => omsFailure msg
               end).
  destruct (SessionFacts.connect_failure_short_circuits
              demoRuntime E "AB1234" "correct horse" Totp.rfc_secret
              "key" "secret" (demoWorld []) (snd first) oms)
    as [Hfst [_ [_ [Hlog _]]]].
  - vm_compute. reflexivity.
  - vm_compute. reflexivity.
  - vm_compute. left. discriminate.
  - split; [exact Hfst|].
    fold outcome in Hlog. rewrite Hlog.
    vm_compute. reflexivity.
Defined.


Lemma failed_acquisition_reply_witness :
  let rejectedAtLogin :=
    broker (answered 403 "blocked") unreached unreached unreached in
  let rejectedAtTwofa :=
    broker loginOk (answered 403 "blocked") unreached unreached in
  let run E :=
    fst (handleLogin demoRuntime E (demoRequest None None) (demoWorld [])) in
  run rejectedAtLogin = authError "Login failed [403]: blocked"
  /\ run rejectedAtTwofa = authError "2FA failed [403]: blocked".
Proof.
  intros E1 E2 run.
  assert (V : forall E, dbfault E = (fun _ => None) ->
                        Verified demoRuntime E (demoRequest None None)
                                 (demoWorld []) "AB1234" "correct horse"
                                 Totp.rfc_secret (demoForm None None)).
  { intros E HE. constructor.
    - reflexivity.
    - exists "application/x-www-form-urlencoded". split; reflexivity.
    - reflexivity.
    - reflexivity.
    - reflexivity.
    - reflexivity.
    - rewrite HE. split; reflexivity.
    - exists demoUser. repeat split; reflexivity. }
  split.
  - destruct (SessionFacts.failed_acquisition_reply demoRuntime E1)
      as [_ [P _]].
    unfold run.
    rewrite (P (demoRequest None None) (demoWorld [])
               (counted (counted (counted (counted (demoWorld [])))))
               "AB1234" "correct horse" Totp.rfc_secret (demoForm None None)
               {| status := 403; set_cookie := None; location := None;
                  text := "blocked"; json := Throw "JSON Parse error" |}
               (V E1 eq_refl) eq_refl eq_refl eq_refl).
    vm_compute. reflexivity.
  - destruct (SessionFacts.failed_acquisition_reply demoRuntime E2)
      as [_ [_ [P _]]].
    unfold run.
    rewrite (P (demoRequest None None) (demoWorld [])
               (counted (counted (counted (counted (demoWorld [])))))
               "AB1234" "correct horse" Totp.rfc_secret (demoForm None None)
               {| status := 200;
                  set_cookie := Some "kf_session=abc; Path=/";
                  location := None; text := EmptyString;
                  json := Ok (VObj [("status", VStr "success");
                                    ("data",
                                     VObj [("user_id", VStr "AB1234");
                                           ("request_id", VStr "req1");
                                           ("twofa_type", VStr "totp")])]) |}
               {| status := 403; set_cookie := None; location := None;
                  text := "blocked"; json := Throw "JSON Parse error" |}
               (VObj [("status", VStr "success");
                      ("data", VObj [("user_id", VStr "AB1234");
                                     ("request_id", VStr "req1");
                                     ("twofa_type", VStr "totp")])])
               (VStr "success")
               (VObj [("user_id", VStr "AB1234");
                      ("request_id", VStr "req1");
                      ("twofa_type", VStr "totp")])
               (VStr "AB1234") (VStr "req1") (VStr "totp") "287082"
               (V E2 eq_refl) eq_refl eq_refl eq_refl eq_refl eq_refl
               eq_refl eq_refl eq_refl eq_refl eq_refl).
    + vm_compute. reflexivity.
    + vm_compute. reflexivity.
    + reflexivity.
    + reflexivity.
Defined.

(** The message of the reply tells the step that failed, and carries
    the status and the body of the broker's answer: two logins that
    differ only in the step the broker rejects, with the same status
    and body, are answered with the same class and different
    messages. *)
Lemma failure_message_reveals_step :
  let rejectedAtLogin :=
    broker (answered 403 "blocked") unreached unreached unreached in
  let rejectedAtTwofa :=
    broker loginOk (answered 403 "blocked") unreached unreached in
  let run E :=
    fst (handleLogin demoRuntime E (demoRequest None None) (demoWorld [])) in
  error_class (run rejectedAtLogin) = error_class (run rejectedAtTwofa)
  /\ error_message (run rejectedAtLogin)
     = VStr "Login failed [403]: blocked"
  /\ error_message (run rejectedAtTwofa)
     = VStr "2FA failed [403]: blocked"
  /\ error_message (run rejectedAtLogin)
     <> error_message (run rejectedAtTwofa).
Proof.
  vm_compute. repeat split. discriminate.
Qed.

End SessionWitness.

(** ** More on the login: local rejection and the drivers *)

Module LoginFacts.

Import Session Account.

Section WithSurroundings.

Variable RT : Runtime.
Variable E : Env.

Lemma undisturbed_refl (w : World) : undisturbed w w.
Proof. now repeat split. Qed.

Lemma undisturbed_counted (w w' : World) :
  undisturbed w w' -> undisturbed w (counted w').
Proof. intros H. exact H. Qed.

Hint Resolve undisturbed_refl undisturbed_counted : core.

(** The local checks of [handleLogin] either pass, or end in an
    early reply, or throw; in the last two cases without a request
    and without a change of the tables. *)
Lemma verifyCredentials_cases (req : LoginRequest) (w : World) :
  match verifyCredentials RT E req w with
  | (Ok (inr (user_id, password, totp_secret, form)), w') =>
      Verified RT E req w user_id password totp_secret form
  | (Ok (inl early), w') =>
      undisturbed w w'
      /\ (code early = 400 \/ code early = 401 \/ code early = 500)
  | (Throw msg, w') => undisturbed w w'
  end.
Proof.
  unfold verifyCredentials.
  destruct (String.eqb_spec (req_method req) "POST") as [Hm | Hm];
    cbn [negb]; [|cbn; auto].
  destruct (content_type req) as [ct|] eqn:Hct;
    [destruct (includes "application/x-www-form-urlencoded" ct) eqn:Hinc|];
    cbn [negb]; try (cbn; now auto).
  unfold mbind at 1, lift at 1.
  destruct (formData req) as [form | msg] eqn:Hf; [|now auto].
  destruct (present (f_user_id form)) as [user_id|] eqn:Hu;
    [|cbn; now auto].
  destruct (present (f_password form)) as [password|] eqn:Hp;
    [|cbn; now auto].
  destruct (present_secret (f_totp_secret form)) as [totp_secret|] eqn:Hs;
    [|cbn; now auto].
  unfold mbind at 1, tryCatch at 1, mbind at 1, selectUser.
  unfold mbind at 1, statement at 1.
  destruct (dbfault E (dbops w)) as [msg|] eqn:H1; [cbn; now auto|].
  unfold mbind at 1, statement at 1. cbn [dbops counted].
  destruct (dbfault E (S (dbops w))) as [msg|] eqn:H2; [cbn; now auto|].
  cbn [users counted ret].
  destruct (find (fun u => String.eqb (u_user_id u) user_id) (users w))
    as [u|] eqn:Hfind; [|cbn; now auto].
  unfold mbind at 1, lift at 1.
  destruct (passwordVerify RT password (password_hash u))
    as [[|] | msg] eqn:Hpw; cbn [negb]; [|cbn; now auto | now auto].
  unfold ustring_eqb.
  destruct (list_eq_dec N.eq_dec (u_totp_secret u) totp_secret)
    as [Hsec | Hsec]; cbn [negb]; [|cbn; now auto].
  cbn [ret].
  constructor; try assumption.
  - now exists ct.
  - now split.
  - now exists u.
Qed.

(** X2.  A login request that does not pass the local checks (a form
    POST with the three required fields, for an account whose
    password hash verifies and whose TOTP secret is the one given)
    never reaches the broker and changes no table: [handleLogin]
    answers it with status 400, 401 or 500 and the requests sent,
    the session table and the user table are as before. *)
Theorem unverified_login_is_quiet (req : LoginRequest) (w : World) :
  (exists user_id password totp_secret form,
      Verified RT E req w user_id password totp_secret form)
  \/ (undisturbed w (snd (handleLogin RT E req w))
      /\ (code (fst (handleLogin RT E req w)) = 400
          \/ code (fst (handleLogin RT E req w)) = 401
          \/ code (fst (handleLogin RT E req w)) = 500)).
Proof.
  pose proof (verifyCredentials_cases req w) as H.
  unfold handleLogin, handleLoginBody.
  destruct (verifyCredentials RT E req w)
    as [[[early | [[[user_id password] totp_secret] form]] | msg] w']
         eqn:Hv.
  - right. rewrite (SessionFacts.run_bind _ _ _ _ _ Hv). exact H.
  - left. now exists user_id, password, totp_secret, form.
  - right. rewrite (SessionFacts.run_bind_throw _ _ _ _ _ Hv).
    split; [exact H | right; right; reflexivity].
Qed.

(** X3.  The three ways credentials can be wrong are answered alike.
    For a form POST with the three required fields whose account
    query goes through: when there is no such account, or the
    password does not verify, or the TOTP secret differs from the
    stored one, [handleLogin] answers 401 "Invalid credentials" and
    leaves the same world (two statements counted, nothing else). *)
Theorem invalid_credentials_are_uniform
      (req : LoginRequest) (w : World) (form : LoginForm)
      (user_id password : string) (totp_secret : Totp.ustring) :
  req_method req = "POST" ->
  (exists ct, content_type req = Some ct
              /\ includes "application/x-www-form-urlencoded" ct = true) ->
  formData req = Ok form ->
  present (f_user_id form) = Some user_id ->
  present (f_password form) = Some password ->
  present_secret (f_totp_secret form) = Some totp_secret ->
  dbfault E (dbops w) = None ->
  dbfault E (S (dbops w)) = None ->
  match find (fun u => String.eqb (u_user_id u) user_id) (users w) with
  | None => True
  | Some u =>
      passwordVerify RT password (password_hash u) = Ok false
      \/ (passwordVerify RT password (password_hash u) = Ok true
          /\ u_totp_secret u <> totp_secret)
  end ->
  handleLogin RT E req w
  = (authError "Invalid credentials", counted (counted w)).
Proof.
  intros Hm [ct [Hct Hinc]] Hf Hu Hp Hs H1 H2 Hbad.
  assert (Hv : verifyCredentials RT E req w
               = (Ok (inl (authError "Invalid credentials")),
                  counted (counted w))).
  { unfold verifyCredentials.
    rewrite Hm, Hct, Hinc. cbn [String.eqb Ascii.eqb Bool.eqb negb].
    unfold mbind at 1, lift at 1. rewrite Hf, Hu, Hp, Hs.
    unfold mbind at 1, tryCatch at 1, mbind at 1.
    unfold selectUser. unfold mbind at 1.
    rewrite (SessionFacts.statement_ok E w H1).
    unfold mbind at 1.
    rewrite (SessionFacts.statement_ok E (counted w) H2).
    cbn [users counted ret].
    destruct (find (fun u => String.eqb (u_user_id u) user_id) (users w))
      as [u|]; [|reflexivity].
    destruct Hbad as [Hpw | [Hpw Hsec]].
    - unfold mbind, lift. rewrite Hpw. reflexivity.
    - unfold mbind, lift. rewrite Hpw. cbn [negb].
      unfold ustring_eqb.
      destruct (list_eq_dec N.eq_dec (u_totp_secret u) totp_secret);
        [contradiction | reflexivity]. }
  unfold handleLogin, handleLoginBody.
  now rewrite (SessionFacts.run_bind _ _ _ _ _ Hv).
Qed.

(** *** The drivers *)

Lemma returns_handled {A} (m : IO A) (a : A) :
  returns (tryCatch m (fun _ => ret a)).
Proof.
  apply SessionFacts.returns_tryCatch. intros msg.
  apply SessionFacts.returns_ret.
Qed.

(** X4.  No exception escapes the session drivers: in every world
    [generateOMSSession], [generateAPISession], [isEnctokenValid],
    [getUserProfile], [getSessionID], [getRequestToken] and
    [generateSessionToken] return a value.  In particular, when the
    login request itself fails with a message, [generateOMSSession]
    returns the failure carrying that message, and when the profile
    request fails, [isEnctokenValid] returns false and
    [getUserProfile] returns null. *)
Theorem drivers_never_throw :
  (forall userId password totpSecret,
      returns (generateOMSSession RT E userId password totpSecret))
  /\ (forall userId password totpSecret apiKey apiSecret,
         returns (generateAPISession RT E userId password totpSecret
                                     apiKey apiSecret))
  /\ (forall enctoken, returns (isEnctokenValid E enctoken))
  /\ (forall enctoken, returns (getUserProfile RT E enctoken))
  /\ (forall apiKey cookies, returns (getSessionID RT E apiKey cookies))
  /\ (forall apiKey sessId cookies,
         returns (getRequestToken RT E apiKey sessId cookies))
  /\ (forall apiKey requestToken checksum,
         returns (generateSessionToken RT E apiKey requestToken checksum))
  /\ (forall userId password totpSecret w msg,
         net E (netlog w) (loginRequest userId password) = NetThrows msg ->
         generateOMSSession RT E userId password totpSecret w
         = (Ok (omsFailure msg), sent (loginRequest userId password) w))
  /\ (forall enctoken w msg,
         net E (netlog w) (profileRequest enctoken) = NetThrows msg ->
         isEnctokenValid E enctoken w
         = (Ok false, sent (profileRequest enctoken) w)
         /\ getUserProfile RT E enctoken w
            = (Ok VNull, sent (profileRequest enctoken) w)).
Proof.
  repeat split.
  - intros. apply SessionFacts.returns_generateOMSSession.
  - intros. apply SessionFacts.returns_generateAPISession.
  - intros. apply returns_handled.
  - intros. apply returns_handled.
  - intros. apply returns_handled.
  - intros. apply returns_handled.
  - intros. apply returns_handled.
  - intros userId password totpSecret w msg Hnet.
    unfold generateOMSSession, tryCatch, mbind at 1, fetch.
    now rewrite Hnet.
  - unfold isEnctokenValid, tryCatch, mbind, fetch. now rewrite H.
  - unfold getUserProfile, tryCatch, mbind at 1, fetch. now rewrite H.
Qed.

Lemma getRequestToken_none (apiKey sessId cookies : string) (w : World) :
  noRequestToken RT (net E (netlog w)
                         (finishRequest apiKey sessId cookies)) ->
  getRequestToken RT E apiKey sessId cookies w
  = (Ok None, sent (finishRequest apiKey sessId cookies) w).
Proof.
  intros H. unfold getRequestToken, redirectParam, tryCatch.
  unfold mbind at 1, fetch.
  destruct (net E (netlog w) (finishRequest apiKey sessId cookies))
    as [msg | r]; [reflexivity|].
  cbn [noRequestToken] in H.
  destruct (Z.eqb_spec (status r) 302) as [Hs | Hs]; cbn [negb];
    [|reflexivity].
  destruct H as [H | [H | [loc [Hloc H]]]]; [contradiction | |].
  - destruct (location r) as [loc|]; [|reflexivity].
    cbn [opt_truthy] in H. rewrite H. reflexivity.
  - rewrite Hloc. destruct (nonempty loc); [|reflexivity].
    cbn [negb]. unfold mbind, lift.
    destruct (searchParam RT false loc "request_token") as [value | msg];
      [|reflexivity].
    rewrite H. reflexivity.
Qed.

Lemma token_is_not_finish (apiKey requestToken checksum apiKey' sessId
                           cookies : string) :
  tokenRequest apiKey requestToken checksum
  <> finishRequest apiKey' sessId cookies.
Proof. intros H. apply (f_equal method) in H. discriminate H. Qed.

(** X5.  When the broker's login and 2FA have succeeded and the
    connect step has given a session identifier, but the answer to
    the no-follow GET to the connect/finish endpoint gives no request
    token (any status other than 302; a 302 whose Location is
    missing or empty, or whose request_token parameter is absent,
    empty or unreadable; or no answer at all), [generateAPISession]
    returns the failure "Failed to get request token" and the finish
    request is the last request sent: the token-exchange POST is not
    issued. *)
Theorem finish_failure_short_circuits
      (userId password : string) (totpSecret : Totp.ustring)
      (apiKey apiSecret sessId : string) (w w1 w2 : World)
      (oms : OMSSessionResult) :
  generateOMSSession RT E userId password totpSecret w = (Ok oms, w1) ->
  oms_success oms = true ->
  getSessionID RT E apiKey (cookieHeader oms) w1 = (Ok (Some sessId), w2) ->
  noRequestToken RT (net E (netlog w2)
                         (finishRequest apiKey sessId (cookieHeader oms))) ->
  let finish := finishRequest apiKey sessId (cookieHeader oms) in
  let outcome :=
    generateAPISession RT E userId password totpSecret apiKey apiSecret w in
  fst outcome = Ok (apiFailure "Failed to get request token")
  /\ snd outcome = sent finish w2
  /\ netlog (snd outcome) = netlog w2 ++ [finish]
  /\ (forall key requestToken checksum,
        tokenRequest key requestToken checksum <> finish).
Proof.
  intros Homs Hs Hsess Hno finish outcome. subst outcome.
  unfold generateAPISession, tryCatch.
  rewrite (SessionFacts.run_bind _ _ _ _ _ Homs), Hs. cbn [negb].
  cbv zeta. rewrite (SessionFacts.run_bind _ _ _ _ _ Hsess).
  rewrite (SessionFacts.run_bind _ _ _ _ _
             (getRequestToken_none _ _ _ _ Hno)).
  repeat split. intros. apply token_is_not_finish.
Qed.

(** *** What a login writes *)

Lemma reads_ret {A} (a : A) : reads_only (ret a).
Proof. intros w. now split. Qed.

Lemma reads_throw {A} (msg : string) : reads_only (@throw World A msg).
Proof. intros w. now split. Qed.

Lemma reads_lift {A} (r : result A) : reads_only (lift r).
Proof. intros w. now split. Qed.

Lemma reads_bind {A B} (m : IO A) (k : A -> IO B) :
  reads_only m -> (forall a, reads_only (k a)) -> reads_only (mbind m k).
Proof.
  intros Hm Hk w. unfold mbind. specialize (Hm w).
  destruct (m w) as [[a | msg] w1]; cbn [snd] in *; [|exact Hm].
  destruct (Hk a w1) as [H1 H2]. destruct Hm as [H3 H4].
  split; congruence.
Qed.

Lemma reads_tryCatch {A} (m : IO A) (h : string -> IO A) :
  reads_only m -> (forall msg, reads_only (h msg)) ->
  reads_only (tryCatch m h).
Proof.
  intros Hm Hh w. unfold tryCatch. specialize (Hm w).
  destruct (m w) as [[a | msg] w1]; cbn [snd] in *; [exact Hm|].
  destruct (Hh msg w1) as [H1 H2]. destruct Hm as [H3 H4].
  split; congruence.
Qed.

Lemma reads_fetch (req : Request) : reads_only (fetch E req).
Proof.
  intros w. unfold fetch. now destruct (net E (netlog w) req).
Qed.

Lemma reads_dateNow : reads_only (dateNow E).
Proof. intros w. now split. Qed.

Lemma reads_statement : reads_only (statement E).
Proof.
  intros w. unfold statement. now destruct (dbfault E (dbops w)).
Qed.

Ltac reading :=
  repeat match goal with
    | |- reads_only (ret _) => apply reads_ret
    | |- reads_only (throw _) => apply reads_throw
    | |- reads_only (lift _) => apply reads_lift
    | |- reads_only (fetch _ _) => apply reads_fetch
    | |- reads_only (dateNow _) => apply reads_dateNow
    | |- reads_only (statement _) => apply reads_statement
    | |- reads_only (mbind _ _) => apply reads_bind; [| intros ?]
    | |- reads_only (tryCatch _ _) => apply reads_tryCatch; [| intros ?]
    | |- reads_only (if ?b then _ else _) => destruct b
    | |- reads_only (match ?x with _ => _ end) => destruct x
    | |- reads_only (let _ := _ in _) => progress cbv zeta
    end.

Lemma reads_getISTTimestamp : reads_only (getISTTimestamp E).
Proof. unfold getISTTimestamp. reading. Qed.

Lemma reads_generateOMSSession (userId password : string)
      (totpSecret : Totp.ustring) :
  reads_only (generateOMSSession RT E userId password totpSecret).
Proof.
  unfold generateOMSSession, generateTotpValue, getISTTimestamp.
  reading.
Qed.

Lemma reads_generateAPISession (userId password : string)
      (totpSecret : Totp.ustring) (apiKey apiSecret : string) :
  reads_only
    (generateAPISession RT E userId password totpSecret apiKey apiSecret).
Proof.
  unfold generateAPISession, getSessionID, getRequestToken,
    redirectParam, generateSessionToken.
  repeat first [ apply reads_generateOMSSession | progress reading ].
Qed.

Lemma reads_generateSession (userId password : string)
      (totpSecret : Totp.ustring) (apiKey apiSecret : option string) :
  reads_only
    (generateSession RT E userId password totpSecret apiKey apiSecret).
Proof.
  unfold generateSession.
  repeat first [ apply reads_generateOMSSession
               | apply reads_generateAPISession
               | progress reading ].
Qed.

Lemma reads_getUserProfile (enctoken : string) :
  reads_only (getUserProfile RT E enctoken).
Proof. unfold getUserProfile. reading. Qed.

Lemma reads_selectLatestSession (user_id : string) :
  reads_only (selectLatestSession E user_id).
Proof.
  unfold selectLatestSession. reading. intros w. now split.
Qed.

Lemma reads_lookupCache (user_id : string) :
  reads_only (lookupCache RT E user_id).
Proof.
  unfold lookupCache, cachedSession, isEnctokenValid.
  repeat first [ apply reads_selectLatestSession | progress reading ].
Qed.

Lemma reads_verifyCredentials (req : LoginRequest) :
  reads_only (verifyCredentials RT E req).
Proof.
  unfold verifyCredentials, selectUser. reading.
  all: intros w; now split.
Qed.

Lemma may_append_reads {A} (m : IO A) : reads_only m -> may_append m.
Proof.
  intros H w. destruct (H w) as [H1 H2]. split; [exact H2 | now left].
Qed.

Lemma may_append_bind {A B} (m : IO A) (k : A -> IO B) :
  reads_only m -> (forall a, may_append (k a)) -> may_append (mbind m k).
Proof.
  intros Hm Hk w. unfold mbind. destruct (Hm w) as [H1 H2].
  destruct (m w) as [[a | msg] w1]; cbn [snd] in *; [|now split; [|left]].
  destruct (Hk a w1) as [H3 H4]. rewrite H1, H2 in *. now split.
Qed.

Lemma may_append_runInsert (v_user_id : jsval) (enc : option string)
      (v_api_key v_access_token : jsval)
      (session_text type_ time_ created updated : string) :
  may_append
    (runInsert RT E v_user_id enc v_api_key v_access_token
               session_text type_ time_ created updated).
Proof.
  unfold runInsert.
  repeat (apply may_append_bind; [reading | intros ?]).
  destruct a as [u|].
  - intros w. split; [reflexivity|]. right. cbn. eauto.
  - apply may_append_reads. reading.
Qed.

(** The guarded insert of [handleLogin] returns, and appends at most
    one row. *)
Lemma guarded_insert (m : IO unit) (w : World) :
  may_append m ->
  exists w', tryCatch m (fun _ => ret tt) w = (Ok tt, w')
             /\ users w' = users w
             /\ (sessions w' = sessions w
                 \/ exists row, sessions w' = sessions w ++ [row]).
Proof.
  intros H. unfold tryCatch. specialize (H w).
  destruct (m w) as [[[] | msg] w1]; cbn [snd] in H;
    exists w1; now split.
Qed.

Lemma stores_reads (m : IO Reply) : reads_only m -> stores_once m.
Proof.
  intros H w. destruct (H w) as [H1 H2]. split; [exact H2 | now left].
Qed.

Lemma stores_bind {A} (m : IO A) (k : A -> IO Reply) :
  reads_only m -> (forall a, stores_once (k a)) ->
  stores_once (mbind m k).
Proof.
  intros Hm Hk w. unfold mbind. destruct (Hm w) as [H1 H2].
  destruct (m w) as [[a | msg] w1]; cbn [snd fst] in *;
    [|now split; [|left]].
  destruct (Hk a w1) as [H3 H4]. rewrite H1, H2 in *. now split.
Qed.

Lemma stores_after_insert (m : IO unit) (data : jsval) :
  may_append m ->
  stores_once (tryCatch m (fun _ => ret tt) >>
               ret (successResponse data)).
Proof.
  intros H w. unfold mbind.
  destruct (guarded_insert m w H) as [w' [-> [Hu Hs]]].
  cbn [ret fst snd]. split; [exact Hu|].
  destruct Hs as [Hs | Hs]; [now left | right].
  split; [|exact Hs]. now exists (successResponse data).
Qed.

Lemma stores_freshLogin (user_id password : string)
      (totp_secret : Totp.ustring) (api_key api_secret : option string) :
  stores_once
    (freshLogin RT E user_id password totp_secret api_key api_secret).
Proof.
  unfold freshLogin.
  apply stores_bind; [apply reads_generateSession | intros sr].
  destruct (negb (result_success sr));
    [apply stores_reads; apply reads_ret|].
  destruct (truthy (apiSessionOf sr)).
  - cbv zeta.
    apply stores_bind; [apply reads_getISTTimestamp | intros ts].
    apply stores_after_insert.
    apply may_append_bind; [apply reads_statement | intros _].
    apply may_append_bind; [apply reads_dateNow | intros now].
    apply may_append_runInsert.
  - cbv zeta.
    apply stores_bind; [apply reads_getUserProfile | intros profile].
    destruct (negb (truthy profile));
      [apply stores_reads; apply reads_ret|].
    apply stores_bind; [apply reads_getISTTimestamp | intros ts].
    apply stores_after_insert.
    apply may_append_bind; [apply reads_statement | intros _].
    apply may_append_bind; [reading | intros src].
    apply may_append_bind; [reading | intros iso].
    apply may_append_runInsert.
Qed.

Lemma stores_handleLoginBody (req : LoginRequest) :
  stores_once (handleLoginBody RT E req).
Proof.
  unfold handleLoginBody.
  apply stores_bind; [apply reads_verifyCredentials | intros verified].
  destruct verified as [early | [[[user_id password] totp_secret] form]];
    [apply stores_reads; apply reads_ret|].
  apply stores_bind; [apply reads_lookupCache | intros cached].
  destruct cached as [reply|];
    [apply stores_reads; apply reads_ret|].
  apply stores_freshLogin.
Qed.

(** X6.  A login writes at most one row, and only when it succeeds:
    after [handleLogin] the user table is as before, and the session
    table is either as before or has one more row at its end, the
    latter only with a reply of status 200. *)
Theorem login_stores_at_most_one_row (req : LoginRequest) (w : World) :
  users (snd (handleLogin RT E req w)) = users w
  /\ (sessions (snd (handleLogin RT E req w)) = sessions w
      \/ code (fst (handleLogin RT E req w)) = 200
         /\ exists row,
              sessions (snd (handleLogin RT E req w))
              = sessions w ++ [row]).
Proof.
  pose proof (stores_handleLoginBody req w) as H.
  unfold handleLogin, settle.
  destruct (handleLoginBody RT E req w) as [[reply | msg] w'];
    cbn [fst snd] in *.
  - destruct H as [Hu [Hs | [[r [Hr Hc]] Hrow]]].
    + split; [exact Hu | now left].
    + injection Hr as <-. split; [exact Hu | right; now split].
  - destruct H as [Hu [Hs | [[r [Hr Hc]] Hrow]]];
      [split; [exact Hu | now left] | discriminate].
Qed.

End WithSurroundings.

End LoginFacts.

(** ** Logout *)

Module LogoutFacts.

Import Session Account.

Section WithSurroundings.

Variable RT : Runtime.
Variable E : Env.

Lemma latestSession_unstored (user_id : string) (table : list SessionRow) :
  latestSession user_id
    (filter (fun r => negb (String.eqb (s_user_id r) user_id)) table)
  = None.
Proof.
  induction table as [|r table IH]; [reflexivity|].
  cbn [filter].
  destruct (String.eqb (s_user_id r) user_id) eqn:Er; cbn [negb];
    [exact IH|].
  cbn [latestSession]. now rewrite Er, IH.
Qed.

Lemma latestSession_none (user_id : string) (table : list SessionRow) :
  latestSession user_id table = None ->
  filter (fun r => String.eqb (s_user_id r) user_id) table = [].
Proof.
  induction table as [|r table IH]; [reflexivity|].
  cbn [latestSession filter].
  destruct (String.eqb (s_user_id r) user_id).
  - destruct (latestSession user_id table) as [b|]; [|discriminate].
    now destruct (String.ltb (created_at r) (created_at b)).
  - exact IH.
Qed.

Lemma changes_positive (user_id : string) (table : list SessionRow)
      (s : SessionRow) :
  latestSession user_id table = Some s ->
  (Z.of_nat
     (List.length
        (filter (fun r => String.eqb (s_user_id r) user_id) table))
   =? 0) = false.
Proof.
  intros H.
  destruct (filter (fun r => String.eqb (s_user_id r) user_id) table)
    as [|x rest] eqn:Ef; [|reflexivity].
  exfalso.
  destruct (SessionFacts.latestSession_in _ _ _ H) as [Hin Hu].
  assert (Hf : In s (filter (fun r => String.eqb (s_user_id r) user_id)
                            table)).
  { apply filter_In. split; [exact Hin|]. rewrite Hu.
    apply String.eqb_refl. }
  rewrite Ef in Hf. exact Hf.
Qed.

(** The request to the broker is sent once and its outcome is
    set aside. *)
Lemma best_effort_fetch (req : Request) (w : World) :
  tryCatch (fetch E req >> ret tt) (fun _ => ret tt) w
  = (Ok tt, sent req w).
Proof.
  unfold tryCatch, mbind, fetch.
  now destruct (net E (netlog w) req).
Qed.

Lemma deleteSessions_ok (user_id : string) (w : World) :
  dbfault E (dbops w) = None ->
  dbfault E (S (dbops w)) = None ->
  deleteSessions E user_id w
  = (Ok (Z.of_nat
           (List.length
              (filter (fun r => String.eqb (s_user_id r) user_id)
                      (sessions w)))),
     unstored user_id (counted (counted w))).
Proof.
  intros H1 H2. unfold deleteSessions.
  unfold mbind at 1. rewrite (SessionFacts.statement_ok E w H1).
  unfold mbind at 1.
  rewrite (SessionFacts.statement_ok E (counted w) H2).
  reflexivity.
Qed.

(** The world after the broker was, or was not, asked to invalidate
    the session. *)
Lemma handleLogout_found
      (req : LoginRequest) (w : World) (form : LoginForm)
      (user_id : string) (s : SessionRow) :
  req_method req = "DELETE" ->
  (exists ct, content_type req = Some ct
              /\ includes "application/x-www-form-urlencoded" ct = true) ->
  formData req = Ok form ->
  present (f_user_id form) = Some user_id ->
  dbfault E (dbops w) = None ->
  dbfault E (S (dbops w)) = None ->
  dbfault E (S (S (dbops w))) = None ->
  dbfault E (S (S (S (dbops w)))) = None ->
  latestSession user_id (sessions w) = Some s ->
  handleLogout E req w
  = (successResponse (VObj [("message", VStr "Logout successful");
                            ("user_id", VStr user_id)]),
     unstored user_id
       (counted (counted
          ((if opt_truthy (api_key s) && opt_truthy (access_token s)
            then sent (invalidateRequest
                         (opt_or (api_key s) EmptyString)
                         (opt_or (access_token s) EmptyString))
            else fun w0 => w0)
             (counted (counted w)))))).
Proof.
  intros Hm [ct [Hct Hinc]] Hf Hu H1 H2 H3 H4 Hl.
  unfold handleLogout, handleLogoutBody.
  rewrite Hm, Hct, Hinc. cbn [String.eqb Ascii.eqb Bool.eqb negb].
  unfold mbind at 1, lift at 1. rewrite Hf, Hu.
  unfold mbind at 1, tryCatch at 1, mbind at 1.
  rewrite (SessionFacts.selectLatestSession_ok E user_id w H1 H2), Hl.
  cbn [ret].
  unfold mbind at 1.
  destruct (opt_truthy (api_key s) && opt_truthy (access_token s)).
  - rewrite best_effort_fetch.
    unfold mbind at 1, tryCatch at 1, mbind at 1.
    rewrite deleteSessions_ok by assumption.
    cbn [ret sessions sent counted].
    rewrite (changes_positive _ _ _ Hl). reflexivity.
  - cbn [ret].
    unfold mbind at 1, tryCatch at 1, mbind at 1.
    rewrite deleteSessions_ok by assumption.
    cbn [ret sessions sent counted].
    rewrite (changes_positive _ _ _ Hl). reflexivity.
Qed.

(** X7.  A logout of an account with a stored session succeeds
    whatever the broker answers.  For a form DELETE with a user_id
    whose four statements go through and whose account has a session
    row: [handleLogout] answers 200 "Logout successful"; afterwards
    no session row of that account is left, the rows of the other
    accounts are kept in their order and the user table is
    untouched; and the only request sent is the one that invalidates
    the API session at the broker, sent exactly when the latest row
    has both an api_key and an access_token. *)
Theorem logout_removes_sessions
      (req : LoginRequest) (w : World) (form : LoginForm)
      (user_id : string) (s : SessionRow) :
  req_method req = "DELETE" ->
  (exists ct, content_type req = Some ct
              /\ includes "application/x-www-form-urlencoded" ct = true) ->
  formData req = Ok form ->
  present (f_user_id form) = Some user_id ->
  dbfault E (dbops w) = None ->
  dbfault E (S (dbops w)) = None ->
  dbfault E (S (S (dbops w))) = None ->
  dbfault E (S (S (S (dbops w)))) = None ->
  latestSession user_id (sessions w) = Some s ->
  let run := handleLogout E req w in
  fst run
  = successResponse (VObj [("message", VStr "Logout successful");
                           ("user_id", VStr user_id)])
  /\ sessions (snd run)
     = filter (fun r => negb (String.eqb (s_user_id r) user_id))
              (sessions w)
  /\ (forall r, In r (sessions (snd run)) <->
                In r (sessions w) /\ s_user_id r <> user_id)
  /\ users (snd run) = users w
  /\ netlog (snd run)
     = netlog w
         ++ (if opt_truthy (api_key s) && opt_truthy (access_token s)
             then [invalidateRequest (opt_or (api_key s) EmptyString)
                                     (opt_or (access_token s) EmptyString)]
             else []).
Proof.
  intros Hm Hct Hf Hu H1 H2 H3 H4 Hl run. subst run.
  rewrite (handleLogout_found req w form user_id s) by assumption.
  cbn [fst snd].
  assert (Hs : forall w0 : World,
             sessions
               ((if opt_truthy (api_key s) && opt_truthy (access_token s)
                 then sent (invalidateRequest
                              (opt_or (api_key s) EmptyString)
                              (opt_or (access_token s) EmptyString))
                 else fun w0 => w0) w0) = sessions w0)
    by (intros w0;
        now destruct (opt_truthy (api_key s)
                      && opt_truthy (access_token s))).
  split; [reflexivity|].
  split; [cbn [unstored sessions counted]; now rewrite Hs|].
  split.
  - intros r. cbn [unstored sessions counted]. rewrite Hs.
    cbn [sessions counted]. rewrite filter_In.
    destruct (String.eqb_spec (s_user_id r) user_id); cbn [negb];
      intuition congruence.
  - split.
    + cbn [unstored users counted].
      now destruct (opt_truthy (api_key s)
                    && opt_truthy (access_token s)).
    + cbn [unstored netlog counted].
      destruct (opt_truthy (api_key s) && opt_truthy (access_token s));
        cbn [netlog sent counted]; [reflexivity|].
      now rewrite app_nil_r.
Qed.

(** X8.  A logout of an account without a session row changes
    nothing.  For a form DELETE with a user_id whose query goes
    through and finds no session row, [handleLogout] answers 401 "No
    active session found for this user", sends no request and runs
    no DELETE: only the two statements of the query are counted. *)
Theorem logout_without_session
      (req : LoginRequest) (w : World) (form : LoginForm)
      (user_id : string) :
  req_method req = "DELETE" ->
  (exists ct, content_type req = Some ct
              /\ includes "application/x-www-form-urlencoded" ct = true) ->
  formData req = Ok form ->
  present (f_user_id form) = Some user_id ->
  dbfault E (dbops w) = None ->
  dbfault E (S (dbops w)) = None ->
  latestSession user_id (sessions w) = None ->
  handleLogout E req w
  = (authError "No active session found for this user",
     counted (counted w)).
Proof.
  intros Hm [ct [Hct Hinc]] Hf Hu H1 H2 Hl.
  unfold handleLogout, handleLogoutBody.
  rewrite Hm, Hct, Hinc. cbn [String.eqb Ascii.eqb Bool.eqb negb].
  unfold mbind at 1, lift at 1. rewrite Hf, Hu.
  unfold mbind at 1, tryCatch at 1, mbind at 1.
  rewrite (SessionFacts.selectLatestSession_ok E user_id w H1 H2), Hl.
  reflexivity.
Qed.

Lemma lookupCache_no_session (user_id : string) (w : World) :
  latestSession user_id (sessions w) = None ->
  exists w1, lookupCache RT E user_id w = (Ok None, w1)
             /\ undisturbed w w1.
Proof.
  intros Hl. unfold lookupCache, mbind at 1, tryCatch,
    selectLatestSession.
  unfold mbind at 1, statement at 1.
  destruct (dbfault E (dbops w)) as [msg|].
  - exists (counted w). split; [reflexivity | now repeat split].
  - unfold mbind at 1, statement at 1.
    destruct (dbfault E (dbops (counted w))) as [msg|].
    + exists (counted (counted w)).
      split; [reflexivity | now repeat split].
    + cbn [sessions counted]. rewrite Hl.
      exists (counted (counted w)).
      split; [reflexivity | now repeat split].
Qed.

(** X9.  After a logout the next login starts afresh.  In the world
    a successful logout of an account leaves (the hypotheses of X7),
    a login of that account that passes the local checks uses no
    stored session: no validity probe is sent and no table is
    touched before [handleLogin] goes on to generate a new session
    with the broker. *)
Theorem login_after_logout_is_fresh
      (out : LoginRequest) (w : World) (form : LoginForm)
      (user_id : string) (s : SessionRow)
      (req : LoginRequest) (password : string)
      (totp_secret : Totp.ustring) (form' : LoginForm) :
  req_method out = "DELETE" ->
  (exists ct, content_type out = Some ct
              /\ includes "application/x-www-form-urlencoded" ct = true) ->
  formData out = Ok form ->
  present (f_user_id form) = Some user_id ->
  dbfault E (dbops w) = None ->
  dbfault E (S (dbops w)) = None ->
  dbfault E (S (S (dbops w))) = None ->
  dbfault E (S (S (S (dbops w)))) = None ->
  latestSession user_id (sessions w) = Some s ->
  Verified RT E req (snd (handleLogout E out w))
           user_id password totp_secret form' ->
  exists w1,
    undisturbed (snd (handleLogout E out w)) w1
    /\ handleLogin RT E req (snd (handleLogout E out w))
       = settle (freshLogin RT E user_id password totp_secret
                            (f_api_key form') (f_api_secret form') w1).
Proof.
  intros Hm Hct Hf Hu H1 H2 H3 H4 Hl V.
  rewrite (SessionFacts.handleLogin_verified _ _ _ _ _ _ _ _ V).
  set (w' := snd (handleLogout E out w)) in *.
  assert (Hnone : latestSession user_id (sessions (counted (counted w')))
                  = None).
  { subst w'.
    rewrite (handleLogout_found out w form user_id s) by assumption.
    cbn [snd sessions counted unstored].
    apply latestSession_unstored. }
  destruct (lookupCache_no_session user_id _ Hnone) as [w1 [Hc Hq]].
  exists w1. split; [exact Hq|].
  now rewrite (SessionFacts.run_bind _ _ _ _ _ Hc).
Qed.

End WithSurroundings.

End LogoutFacts.

(** ** Registration *)

Module RegisterFacts.

Import Session Account.

Section WithRegistration.

Variable E : Env.
Variable passwordHash : string -> result string.
Variable randomUUID : string.

Lemma r_statement_ok (r : Registry) :
  dbfault E (r_dbops r) = None ->
  r_statement E r = (Ok tt, r_counted r).
Proof. intros H. unfold r_statement. now rewrite H. Qed.

Lemma mrun_bind {S A B} (m : M S A) (k : A -> M S B) (s s1 : S) (a : A) :
  m s = (Ok a, s1) -> mbind m k s = k a s1.
Proof. intros H. unfold mbind. now rewrite H. Qed.

Lemma selectAccountId_ok (user_id : string) (r : Registry) :
  dbfault E (r_dbops r) = None ->
  dbfault E (S (r_dbops r)) = None ->
  selectAccountId E user_id r
  = (Ok (has_account user_id (accounts r)), r_counted (r_counted r)).
Proof.
  intros H1 H2. unfold selectAccountId.
  rewrite (mrun_bind _ _ _ _ _ (r_statement_ok r H1)).
  now rewrite (mrun_bind _ _ _ _ _ (r_statement_ok (r_counted r) H2)).
Qed.

Lemma updateAccount_ok (h : string) (s : Totp.ustring)
      (k ts user_id : string) (r : Registry) :
  dbfault E (r_dbops r) = None ->
  dbfault E (S (r_dbops r)) = None ->
  updateAccount E h s k ts user_id r
  = (Ok tt,
     {| accounts := map (updated user_id h s k ts) (accounts r);
        r_dbops := S (S (r_dbops r)); r_ticks := r_ticks r |}).
Proof.
  intros H1 H2. unfold updateAccount.
  rewrite (mrun_bind _ _ _ _ _ (r_statement_ok r H1)).
  now rewrite (mrun_bind _ _ _ _ _ (r_statement_ok (r_counted r) H2)).
Qed.

Lemma insertAccount_ok (user_id h : string) (s : Totp.ustring)
      (k created updated_ : string) (r : Registry) :
  dbfault E (r_dbops r) = None ->
  dbfault E (S (r_dbops r)) = None ->
  has_account user_id (accounts r) = false ->
  insertAccount E user_id h s k created updated_ r
  = (Ok tt,
     {| accounts :=
          accounts r ++
          [{| a_user_id := user_id; a_password_hash := h;
              a_totp_secret := s; a_hash_key := k;
              a_created_at := created; a_updated_at := updated_ |}];
        r_dbops := S (S (r_dbops r)); r_ticks := r_ticks r |}).
Proof.
  intros H1 H2 Hno. unfold insertAccount.
  rewrite (mrun_bind _ _ _ _ _ (r_statement_ok r H1)).
  rewrite (mrun_bind _ _ _ _ _ (r_statement_ok (r_counted r) H2)).
  cbn [accounts r_counted]. now rewrite Hno.
Qed.

Lemma has_account_ids (user_id : string) (table : list AccountRow) :
  has_account user_id table = true <-> In user_id (ids table).
Proof.
  unfold has_account, ids. rewrite existsb_exists, in_map_iff.
  split; intros [a [H1 H2]]; exists a.
  - apply String.eqb_eq in H2. now split.
  - split; [exact H2 | now apply String.eqb_eq].
Qed.

Lemma ids_updated (user_id h k ts : string) (s : Totp.ustring)
      (table : list AccountRow) :
  ids (map (updated user_id h s k ts) table) = ids table.
Proof.
  unfold ids. rewrite map_map. apply map_ext. intros a.
  unfold updated. now destruct (String.eqb (a_user_id a) user_id).
Qed.

Lemma ids_registered (user_id h k ts : string) (s : Totp.ustring)
      (table : list AccountRow) :
  ids (registered user_id h s k ts table)
  = ids table ++ (if has_account user_id table then [] else [user_id]).
Proof.
  unfold registered. destruct (has_account user_id table).
  - now rewrite ids_updated, app_nil_r.
  - unfold ids. now rewrite map_app.
Qed.

Lemma updated_miss (user_id h k ts : string) (s : Totp.ustring)
      (x : AccountRow) :
  String.eqb (a_user_id x) user_id = false ->
  updated user_id h s k ts x = x.
Proof. intros H. unfold updated. now rewrite H. Qed.

Lemma updated_hit (user_id h k ts : string) (s : Totp.ustring)
      (x : AccountRow) :
  String.eqb (a_user_id x) user_id = true ->
  updated user_id h s k ts x
  = {| a_user_id := a_user_id x; a_password_hash := h;
       a_totp_secret := s; a_hash_key := k;
       a_created_at := a_created_at x; a_updated_at := ts |}.
Proof. intros H. unfold updated. now rewrite H. Qed.

Lemma find_registered (user_id h k ts : string) (s : Totp.ustring)
      (table : list AccountRow) :
  exists a,
    find (fun a => String.eqb (a_user_id a) user_id)
         (registered user_id h s k ts table) = Some a
    /\ a_user_id a = user_id /\ a_password_hash a = h
    /\ a_totp_secret a = s /\ a_hash_key a = k /\ a_updated_at a = ts.
Proof.
  unfold registered.
  induction table as [|x table IH].
  - cbn. rewrite String.eqb_refl. eexists. split; [reflexivity|].
    now repeat split.
  - cbn [has_account existsb].
    destruct (String.eqb (a_user_id x) user_id) eqn:Ex; cbn [orb].
    + cbn [map find]. rewrite (updated_hit _ _ _ _ _ _ Ex).
      cbn [a_user_id]. rewrite Ex.
      eexists. split; [reflexivity|].
      apply String.eqb_eq in Ex. cbn. now repeat split.
    + fold (has_account user_id table).
      destruct (has_account user_id table).
      * cbn [map find]. rewrite (updated_miss _ _ _ _ _ _ Ex), Ex.
        exact IH.
      * cbn [app find]. rewrite Ex. exact IH.
Qed.

Lemma others_registered (user_id h k ts : string) (s : Totp.ustring)
      (table : list AccountRow) (a : AccountRow) :
  a_user_id a <> user_id ->
  (In a (registered user_id h s k ts table) <-> In a table).
Proof.
  intros Ha. unfold registered.
  destruct (has_account user_id table).
  - rewrite in_map_iff. split.
    + intros [x [Hx Hin]]. unfold updated in Hx.
      destruct (String.eqb_spec (a_user_id x) user_id) as [Ex | Ex].
      * subst a. cbn in Ha. congruence.
      * now subst x.
    + intros Hin. exists a. split; [|exact Hin].
      unfold updated.
      now destruct (String.eqb_spec (a_user_id a) user_id).
  - rewrite in_app_iff. split; [|now left].
    intros [Hin | [<- | []]]; [exact Hin|]. now cbn in Ha.
Qed.

Lemma handleRegister_ok
      (req : LoginRequest) (r : Registry) (form : LoginForm)
      (user_id password h : string) (totp_secret : Totp.ustring) :
  req_method req = "POST" ->
  (exists ct, content_type req = Some ct
              /\ includes "application/x-www-form-urlencoded" ct = true) ->
  formData req = Ok form ->
  present (f_user_id form) = Some user_id ->
  present (f_password form) = Some password ->
  present_secret (f_totp_secret form) = Some totp_secret ->
  passwordHash password = Ok h ->
  dbfault E (r_dbops r) = None ->
  dbfault E (S (r_dbops r)) = None ->
  dbfault E (S (S (r_dbops r))) = None ->
  dbfault E (S (S (S (r_dbops r)))) = None ->
  handleRegister E passwordHash randomUUID req r
  = (successResponse
       (VObj [("message",
               VStr (if has_account user_id (accounts r)
                     then "User updated successfully"
                     else "User registered successfully"));
              ("user_id", VStr user_id);
              ("operation",
               VStr (if has_account user_id (accounts r)
                     then "updated" else "created"))]),
     {| accounts :=
          registered user_id h totp_secret randomUUID
            (Clock.getISTTimestamp (clock E (r_ticks r))) (accounts r);
        r_dbops := S (S (S (S (r_dbops r))));
        r_ticks := S (r_ticks r) |}).
Proof.
  intros Hm [ct [Hct Hinc]] Hf Hu Hp Hs Hh H1 H2 H3 H4.
  unfold handleRegister, handleRegisterBody.
  rewrite Hm, Hct, Hinc. cbn [String.eqb Ascii.eqb Bool.eqb negb].
  unfold mbind at 1, lift at 1. rewrite Hf, Hu, Hp, Hs.
  unfold mbind at 1, lift at 1. rewrite Hh.
  unfold mbind at 1, r_getISTTimestamp at 1.
  rewrite (mrun_bind _ _ _ _ _
             (selectAccountId_ok user_id (r_ticked r) H1 H2)).
  cbn [accounts r_counted r_ticked].
  unfold registered.
  destruct (has_account user_id (accounts r)) eqn:Ehas.
  - unfold mbind at 1, tryCatch.
    rewrite (mrun_bind _ _ _ _ _
               (updateAccount_ok h totp_secret randomUUID _ user_id
                  (r_counted (r_counted (r_ticked r))) H3 H4)).
    reflexivity.
  - unfold mbind at 1, tryCatch.
    rewrite (mrun_bind _ _ _ _ _
               (insertAccount_ok user_id h totp_secret randomUUID _ _
                  (r_counted (r_counted (r_ticked r))) H3 H4 Ehas)).
    reflexivity.
Qed.

(** X10.  Registration is an upsert by user_id.  For a form POST
    with the three required fields whose password hashes and whose
    four statements go through, [handleRegister] answers 200 and
    names the operation, "updated" when the account existed and
    "created" when not.  Afterwards the first row with that user_id
    holds the new password hash, the TOTP secret given, the new hash
    key and the time of the registration as its update time; the
    rows of the other accounts are the same; and the user_ids of the
    table are those from before, in their order, followed by the new
    one when the account was created. *)
Theorem register_is_upsert
      (req : LoginRequest) (r : Registry) (form : LoginForm)
      (user_id password h : string) (totp_secret : Totp.ustring) :
  req_method req = "POST" ->
  (exists ct, content_type req = Some ct
              /\ includes "application/x-www-form-urlencoded" ct = true) ->
  formData req = Ok form ->
  present (f_user_id form) = Some user_id ->
  present (f_password form) = Some password ->
  present_secret (f_totp_secret form) = Some totp_secret ->
  passwordHash password = Ok h ->
  dbfault E (r_dbops r) = None ->
  dbfault E (S (r_dbops r)) = None ->
  dbfault E (S (S (r_dbops r))) = None ->
  dbfault E (S (S (S (r_dbops r)))) = None ->
  let run := handleRegister E passwordHash randomUUID req r in
  code (fst run) = 200
  /\ prop (prop (body (fst run)) "data") "operation"
     = VStr (if has_account user_id (accounts r)
             then "updated" else "created")
  /\ (exists a,
         find (fun a => String.eqb (a_user_id a) user_id)
              (accounts (snd run)) = Some a
         /\ a_user_id a = user_id
         /\ a_password_hash a = h
         /\ a_totp_secret a = totp_secret
         /\ a_hash_key a = randomUUID
         /\ a_updated_at a
            = Clock.getISTTimestamp (clock E (r_ticks r)))
  /\ (forall a, a_user_id a <> user_id ->
                (In a (accounts (snd run)) <-> In a (accounts r)))
  /\ ids (accounts (snd run))
     = ids (accounts r)
         ++ (if has_account user_id (accounts r) then []
             else [user_id]).
Proof.
  intros Hm Hct Hf Hu Hp Hs Hh H1 H2 H3 H4 run. subst run.
  rewrite (handleRegister_ok req r form user_id password h totp_secret)
    by assumption.
  cbn [fst snd accounts].
  split; [reflexivity|]. split; [reflexivity|].
  split; [apply find_registered|].
  split; [intros a Ha; now apply others_registered|].
  apply ids_registered.
Qed.

(** Whatever the request and the faults, a registration leaves the
    user_ids as they are or adds one that was not there. *)
Lemma handleRegister_ids (req : LoginRequest) (r r' : Registry)
      (out : result Reply) :
  handleRegisterBody E passwordHash randomUUID req r = (out, r') ->
  ids (accounts r') = ids (accounts r)
  \/ exists user_id,
       has_account user_id (accounts r) = false
       /\ ids (accounts r') = ids (accounts r) ++ [user_id].
Proof.
  unfold handleRegisterBody.
  destruct (negb (String.eqb (req_method req) "POST"));
    [intros [= <- <-]; now left|].
  destruct (negb _); [intros [= <- <-]; now left|].
  unfold mbind at 1, lift at 1.
  destruct (formData req) as [form | msg]; [|intros [= <- <-]; now left].
  destruct (present (f_user_id form)) as [user_id|];
    [|intros [= <- <-]; now left].
  destruct (present (f_password form)) as [password|];
    [|intros [= <- <-]; now left].
  destruct (present_secret (f_totp_secret form)) as [totp_secret|];
    [|intros [= <- <-]; now left].
  unfold mbind at 1, lift at 1.
  destruct (passwordHash password) as [h | msg];
    [|intros [= <- <-]; now left].
  unfold mbind at 1, r_getISTTimestamp at 1.
  unfold mbind at 1, selectAccountId.
  unfold mbind at 1, r_statement at 1.
  destruct (dbfault E (r_dbops (r_ticked r)));
    [intros [= <- <-]; now left|].
  unfold mbind at 1, r_statement at 1.
  destruct (dbfault E (r_dbops (r_counted (r_ticked r))));
    [intros [= <- <-]; now left|].
  cbn [accounts r_counted r_ticked].
  destruct (has_account user_id (accounts r)) eqn:Ehas.
  - unfold mbind at 1, tryCatch, mbind at 1, updateAccount.
    unfold mbind at 1, r_statement at 1.
    destruct (dbfault E _); [intros [= <- <-]; now left|].
    unfold mbind at 1, r_statement at 1.
    destruct (dbfault E _); [intros [= <- <-]; now left|].
    intros [= <- <-]. left. cbn [accounts]. apply ids_updated.
  - unfold mbind at 1, tryCatch, mbind at 1, insertAccount.
    unfold mbind at 1, r_statement at 1.
    destruct (dbfault E _); [intros [= <- <-]; now left|].
    unfold mbind at 1, r_statement at 1.
    destruct (dbfault E _); [intros [= <- <-]; now left|].
    cbn [accounts r_counted r_ticked]. rewrite Ehas.
    intros [= <- <-].
    right. exists user_id. split; [exact Ehas|].
    cbn [accounts]. unfold ids. now rewrite map_app.
Qed.

(** X11.  The user_ids of the table stay unique: if no two rows have
    the same user_id before [handleRegister] runs, none have after
    it, whatever the request, the outcome of the hashing and the
    faults of the statements. *)
Theorem register_keeps_ids_unique (req : LoginRequest) (r : Registry) :
  unique_ids (accounts r) ->
  unique_ids
    (accounts (snd (handleRegister E passwordHash randomUUID req r))).
Proof.
  intros Hu. unfold handleRegister.
  destruct (handleRegisterBody E passwordHash randomUUID req r)
    as [out r'] eqn:Hrun.
  assert (Hr : unique_ids (accounts r')).
  { destruct (handleRegister_ids req r r' out Hrun)
      as [H | [user_id [Hno H]]];
      unfold unique_ids; fold (ids (accounts r')); rewrite H;
      [exact Hu|].
    apply NoDup_app; [exact Hu | repeat constructor; intros [] |].
    intros x Hx [<- | []].
    apply has_account_ids in Hx. congruence. }
  now destruct out.
Qed.

End WithRegistration.

Section ThenLogin.

Variable RT : Runtime.
Variable E : Env.
Variable passwordHash : string -> result string.
Variable randomUUID : string.

(** X12.  What is registered can log in.  After a registration that
    goes through (the hypotheses of X10), and given that the runtime
    verifies the password against the hash the registration stored,
    the same form sent as a login passes the local checks of
    [handleLogin] in every world over the resulting table in which
    the account query goes through. *)
Theorem registered_account_verifies
      (req : LoginRequest) (r : Registry) (form : LoginForm)
      (user_id password h : string) (totp_secret : Totp.ustring)
      (table : list SessionRow) (sentSoFar : list Request) :
  req_method req = "POST" ->
  (exists ct, content_type req = Some ct
              /\ includes "application/x-www-form-urlencoded" ct = true) ->
  formData req = Ok form ->
  present (f_user_id form) = Some user_id ->
  present (f_password form) = Some password ->
  present_secret (f_totp_secret form) = Some totp_secret ->
  passwordHash password = Ok h ->
  dbfault E (r_dbops r) = None ->
  dbfault E (S (r_dbops r)) = None ->
  dbfault E (S (S (r_dbops r))) = None ->
  dbfault E (S (S (S (r_dbops r)))) = None ->
  passwordVerify RT password h = Ok true ->
  let w := loginWorld
             (snd (handleRegister E passwordHash randomUUID req r))
             table sentSoFar in
  dbfault E (dbops w) = None ->
  dbfault E (S (dbops w)) = None ->
  Verified RT E req w user_id password totp_secret form.
Proof.
  intros Hm Hct Hf Hu Hp Hs Hh H1 H2 H3 H4 Hv w H5 H6.
  constructor; [exact Hm | exact Hct | exact Hf | exact Hu | exact Hp
                | exact Hs | split; [exact H5 | exact H6] |].
  subst w.
  rewrite (handleRegister_ok E passwordHash randomUUID req r form
             user_id password h totp_secret) by assumption.
  cbn [snd loginWorld users accounts].
  destruct (find_registered user_id h randomUUID
              (Clock.getISTTimestamp (clock E (r_ticks r)))
              totp_secret (accounts r))
    as [a [Hfind [Ha1 [Ha2 [Ha3 _]]]]].
  exists (loginView a).
  split; [|split; cbn [loginView password_hash u_totp_secret];
           [now rewrite Ha2 | exact Ha3]].
  clear - Hfind.
  induction (registered user_id h totp_secret randomUUID
               (Clock.getISTTimestamp (clock E (r_ticks r)))
               (accounts r)) as [|x l IH]; [discriminate|].
  cbn [map find loginView u_user_id] in *.
  destruct (String.eqb (a_user_id x) user_id).
  - now injection Hfind as <-.
  - now apply IH.
Qed.

End ThenLogin.

End RegisterFacts.

Module AccountWitness.

Import Session Account.

Lemma handleLogin_keeps_tokens_witness :
  let run :=
    handleLogin demoRuntime (broker loginOk twofaOk unreached profileOk)
                (demoRequest None None) (demoWorld []) in
  map enctoken (sessions (snd run)) = [Some "tok123"]
  /\ tokens_nonempty (sessions (snd run)).
Proof.
  intros run. split; [vm_compute; reflexivity|].
  apply SessionFacts.handleLogin_keeps_tokens. constructor.
Defined.

Lemma invalid_credentials_are_uniform_witness :
  let E := broker unreached unreached unreached unreached in
  let form :=
    {| f_user_id := Some "AB1234"; f_password := Some "wrong";
       f_totp_secret := Some Totp.rfc_secret;
       f_api_key := None; f_api_secret := None |} in
  let req :=
    {| req_method := "POST";
       content_type := Some "application/x-www-form-urlencoded";
       formData := Ok form |} in
  handleLogin demoRuntime E req (demoWorld [])
  = (authError "Invalid credentials", counted (counted (demoWorld []))).
Proof.
  intros E form req.
  apply (LoginFacts.invalid_credentials_are_uniform
           demoRuntime E req (demoWorld []) form "AB1234" "wrong"
           Totp.rfc_secret);
    try reflexivity.
  - exists "application/x-www-form-urlencoded". split; reflexivity.
  - left. reflexivity.
Defined.

Lemma finish_failure_short_circuits_witness :
  let E := broker loginOk twofaOk
                  (redirected "/connect/finish?sess_id=sess1") unreached in
  let outcome :=
    generateAPISession redirectRuntime E "AB1234" "correct horse"
                       Totp.rfc_secret "key" "secret" (demoWorld []) in
  fst outcome = Ok (apiFailure "Failed to get request token")
  /\ map url (netlog (snd outcome))
     = ["https://kite.zerodha.com/api/login";
        "https://kite.zerodha.com/api/twofa";
        "https://kite.zerodha.com/connect/login?v=3&api_key=key";
        "https://kite.zerodha.com/connect/finish?v=3&api_key=key&sess_id=sess1"].
Proof.
  intros E outcome.
  pose (first := generateOMSSession redirectRuntime E "AB1234"
                                    "correct horse" Totp.rfc_secret
                                    (demoWorld [])).
  pose (oms := match fst first with
               | Ok o => o
               | Throw msg => omsFailure msg
               end).
  pose (second := getSessionID redirectRuntime E "key" (cookieHeader oms)
                               (snd first)).
  destruct (LoginFacts.finish_failure_short_circuits
              redirectRuntime E "AB1234" "correct horse" Totp.rfc_secret
              "key" "secret" "sess1" (demoWorld []) (snd first)
              (snd second) oms)
    as [Hfst [_ [Hlog _]]].
  - vm_compute. reflexivity.
  - vm_compute. reflexivity.
  - vm_compute. reflexivity.
  - vm_compute. exact I.
  - split; [exact Hfst|].
    fold outcome in Hlog. rewrite Hlog.
    vm_compute. reflexivity.
Defined.

Lemma logout_removes_sessions_witness :
  let E := broker unreached unreached unreached unreached in
  let run := handleLogout E demoLogout
               (demoWorld [otherSession; apiSession]) in
  code (fst run) = 200
  /\ sessions (snd run) = [otherSession]
  /\ netlog (snd run) = [invalidateRequest "key" "acc789"].
Proof.
  intros E run.
  destruct (LogoutFacts.logout_removes_sessions
              E demoLogout (demoWorld [otherSession; apiSession])
              (demoForm None None) "AB1234" apiSession)
    as [Hfst [Hs [_ [_ Hn]]]]; try reflexivity.
  - exists "application/x-www-form-urlencoded". split; reflexivity.
  - fold run in Hfst, Hs, Hn. rewrite Hfst, Hs, Hn.
    repeat split.
Defined.

Lemma logout_without_session_witness :
  let E := broker unreached unreached unreached unreached in
  handleLogout E demoLogout (demoWorld [otherSession])
  = (authError "No active session found for this user",
     counted (counted (demoWorld [otherSession]))).
Proof.
  intros E.
  apply (LogoutFacts.logout_without_session
           E demoLogout (demoWorld [otherSession]) (demoForm None None)
           "AB1234");
    try reflexivity.
  exists "application/x-www-form-urlencoded". split; reflexivity.
Defined.

Lemma login_after_logout_is_fresh_witness :
  let E := broker (answered 403 "blocked") unreached unreached unreached in
  let w := snd (handleLogout E demoLogout
                  (demoWorld [otherSession; apiSession])) in
  exists w1,
    undisturbed w w1
    /\ handleLogin demoRuntime E (demoRequest None None) w
       = settle (freshLogin demoRuntime E "AB1234" "correct horse"
                            Totp.rfc_secret None None w1).
Proof.
  intros E w.
  apply (LogoutFacts.login_after_logout_is_fresh
           demoRuntime E demoLogout (demoWorld [otherSession; apiSession])
           (demoForm None None) "AB1234" apiSession
           (demoRequest None None) "correct horse" Totp.rfc_secret
           (demoForm None None));
    try reflexivity.
  - exists "application/x-www-form-urlencoded". split; reflexivity.
  - constructor; try reflexivity.
    + exists "application/x-www-form-urlencoded". split; reflexivity.
    + split; reflexivity.
    + exists demoUser. repeat split; reflexivity.
Defined.

Lemma register_is_upsert_witness :
  let E := broker unreached unreached unreached unreached in
  let run := handleRegister E demoHash "uuid-1" (demoRequest None None)
               emptyRegistry in
  code (fst run) = 200
  /\ prop (prop (body (fst run)) "data") "operation" = VStr "created"
  /\ ids (accounts (snd run)) = ["AB1234"]
  /\ map a_updated_at (accounts (snd run)) = ["1970-01-01 05:30:59"].
Proof.
  intros E run.
  destruct (RegisterFacts.register_is_upsert
              E demoHash "uuid-1" (demoRequest None None) emptyRegistry
              (demoForm None None) "AB1234" "correct horse" "correct horse"
              Totp.rfc_secret)
    as [Hc [Ho [_ [_ Hi]]]]; try reflexivity.
  - exists "application/x-www-form-urlencoded". split; reflexivity.
  - fold run in Hc, Ho, Hi.
    split; [exact Hc|]. split; [exact Ho|]. split; [exact Hi|].
    vm_compute. reflexivity.
Defined.

Lemma register_keeps_ids_unique_witness :
  let E := broker unreached unreached unreached unreached in
  unique_ids
    (accounts
       (snd (handleRegister E demoHash "uuid-2" (demoRequest None None)
               (snd (handleRegister E demoHash "uuid-1"
                       (demoRequest None None) emptyRegistry)))))
  /\ List.length
       (accounts
          (snd (handleRegister E demoHash "uuid-2" (demoRequest None None)
                  (snd (handleRegister E demoHash "uuid-1"
                          (demoRequest None None) emptyRegistry)))))
     = 1%nat.
Proof.
  intros E. split; [|vm_compute; reflexivity].
  apply RegisterFacts.register_keeps_ids_unique.
  apply RegisterFacts.register_keeps_ids_unique.
  constructor.
Defined.

Lemma registered_account_verifies_witness :
  let E := broker unreached unreached unreached unreached in
  Verified demoRuntime E (demoRequest None None)
           (loginWorld
              (snd (handleRegister E demoHash "uuid-1"
                      (demoRequest None None) emptyRegistry))
              [] [])
           "AB1234" "correct horse" Totp.rfc_secret (demoForm None None).
Proof.
  intros E.
  apply (RegisterFacts.registered_account_verifies
           demoRuntime E demoHash "uuid-1" (demoRequest None None)
           emptyRegistry (demoForm None None) "AB1234" "correct horse"
           "correct horse" Totp.rfc_secret [] []);
    try reflexivity.
  exists "application/x-www-form-urlencoded". split; reflexivity.
Defined.

End AccountWitness.

(** ** More on the refresh: the feed, the parser and the handler *)

Module FeedFacts.

Import Instruments Http.

(** *** The parser *)

Lemma row_get_set_same (k v : string) (row : Row) :
  row_get k (row_set k v row) = Some v.
Proof.
  induction row as [|[k' v'] row IH]; cbn.
  - now rewrite String.eqb_refl.
  - destruct (String.eqb k' k) eqn:E; cbn.
    + now rewrite String.eqb_refl.
    + now rewrite E.
Qed.

Lemma row_get_set_other (k k' v : string) (row : Row) :
  k' <> k -> row_get k' (row_set k v row) = row_get k' row.
Proof.
  intros Hne. induction row as [|[k0 v0] row IH]; cbn.
  - destruct (String.eqb_spec k k'); congruence.
  - destruct (String.eqb_spec k0 k) as [-> | Hk]; cbn.
    + destruct (String.eqb_spec k k'); congruence.
    + now rewrite IH.
Qed.

Lemma keys_row_set (k v : string) (row : Row) :
  map fst (row_set k v row)
  = if existsb (String.eqb k) (map fst row) then map fst row
    else map fst row ++ [k].
Proof.
  induction row as [|[k' v'] row IH]; cbn; [reflexivity|].
  destruct (String.eqb_spec k' k) as [-> | Hk]; cbn.
  - now rewrite String.eqb_refl.
  - rewrite IH. destruct (String.eqb_spec k k'); [congruence|].
    cbn. now destruct (existsb (String.eqb k) (map fst row)).
Qed.

Lemma nodup_row_set (k v : string) (row : Row) :
  NoDup (map fst row) -> NoDup (map fst (row_set k v row)).
Proof.
  intros H. rewrite keys_row_set.
  destruct (existsb (String.eqb k) (map fst row)) eqn:E; [exact H|].
  apply NoDup_app; [exact H | repeat constructor; intros [] |].
  intros x Hx [<- | []].
  assert (existsb (String.eqb k) (map fst row) = true); [|congruence].
  apply existsb_exists. exists k. split; [exact Hx|].
  apply String.eqb_refl.
Qed.

Lemma fillRow_other (headers values : list string) (row : Row)
      (k : string) :
  ~ In k headers ->
  row_get k (fillRow headers values row) = row_get k row.
Proof.
  revert values row.
  induction headers as [|h hs IH]; intros values row Hn; [reflexivity|].
  cbn [fillRow]. rewrite IH by (intros H; apply Hn; now right).
  destruct (String.eqb h "__proto__"); [reflexivity|].
  apply row_get_set_other. intros ->. apply Hn. now left.
Qed.

Lemma fillRow_proto (headers values : list string) (row : Row) :
  row_get "__proto__" (fillRow headers values row)
  = row_get "__proto__" row.
Proof.
  revert values row.
  induction headers as [|h hs IH]; intros values row; [reflexivity|].
  cbn [fillRow]. rewrite IH.
  destruct (String.eqb_spec h "__proto__") as [-> | Hne]; [reflexivity|].
  apply row_get_set_other. congruence.
Qed.

Lemma fillRow_has (headers values : list string) (row : Row) (k : string) :
  In k headers -> k <> "__proto__" ->
  row_get k (fillRow headers values row) <> None.
Proof.
  intros Hin Hk. revert values row Hin.
  induction headers as [|h hs IH]; intros values row Hin; [destruct Hin|].
  cbn [fillRow].
  destruct (in_dec string_dec k hs) as [Hks | Hks]; [now apply IH|].
  destruct Hin as [-> | Hin]; [|contradiction].
  rewrite fillRow_other by exact Hks.
  destruct (String.eqb_spec k "__proto__") as [E | _]; [contradiction|].
  now rewrite row_get_set_same.
Qed.

Lemma fillRow_nodup (headers values : list string) (row : Row) :
  NoDup (map fst row) -> NoDup (map fst (fillRow headers values row)).
Proof.
  revert values row.
  induction headers as [|h hs IH]; intros values row H; [exact H|].
  cbn [fillRow]. apply IH.
  destruct (String.eqb h "__proto__"); [exact H|].
  now apply nodup_row_set.
Qed.

Lemma fillRow_cell (headers values : list string) (row : Row)
      (i : nat) (h : string) :
  NoDup headers ->
  nth_error headers i = Some h ->
  h <> "__proto__" ->
  row_get h (fillRow headers values row) = Some (cell values i).
Proof.
  intros Hnd Hi Hh. revert values row i Hnd Hi.
  induction headers as [|h0 hs IH]; intros values row i Hnd Hi;
    [destruct i; discriminate|].
  inversion Hnd as [|? ? Hnot Hnd']; subst.
  cbn [fillRow]. destruct i as [|i].
  - injection Hi as ->.
    rewrite fillRow_other by exact Hnot.
    destruct (String.eqb_spec h "__proto__") as [E | _]; [contradiction|].
    rewrite row_get_set_same. unfold cell.
    now destruct values.
  - cbn [nth_error] in Hi.
    rewrite (IH (tl values) _ i Hnd' Hi). unfold cell.
    destruct values as [|v vs]; [now destruct i | reflexivity].
Qed.

Lemma row_get_none (k : string) (row : Row) :
  row_get k row = None <-> ~ In k (map fst row).
Proof.
  induction row as [|[k' v] row IH]; cbn; [tauto|].
  destruct (String.eqb_spec k' k) as [-> | Hk].
  - split; [discriminate | intros H; exfalso; apply H; now left].
  - rewrite IH. split; [intros H [E | E]; tauto | tauto].
Qed.

(** X13.  Every row that [parseCSV] returns has exactly the fields of
    the header line, the name [__proto__] apart.  When the text
    parses, there is at least one row, one for every line after the
    first; a row has a value for a name exactly when the name is among
    the comma-separated headers of the first line and is not
    [__proto__] (a header of that name sets no field of the row), and
    names each field once; and when the headers are distinct, the
    field of the header at place [i], if that is not [__proto__],
    holds the value at place [i] of the row's line without its
    enclosing double quotes, or the empty text when the line has no
    such place. *)
Theorem parseCSV_rows_have_header_fields (csvText : string)
        (csvData : list Row) :
  parseCSV csvText = Ok csvData ->
  let lines := JS.split newline (JS.trim csvText) in
  let headers := JS.split "," (hd EmptyString lines) in
  csvData <> []
  /\ List.length csvData = List.length (tl lines)
  /\ forall (n : nat) (row : Row),
       nth_error csvData n = Some row ->
       (forall k, row_get k row <> None
                  <-> In k headers /\ k <> "__proto__")
       /\ NoDup (map fst row)
       /\ (NoDup headers ->
           forall i h, nth_error headers i = Some h ->
                       h <> "__proto__" ->
                       row_get h row
                       = Some (cell (JS.split ","
                                       (nth n (tl lines) EmptyString)) i)).
Proof.
  intros H lines headers. unfold parseCSV in H. fold lines in H.
  destruct (List.length lines <? 2)%nat eqn:El; [discriminate|].
  injection H as <-. fold headers.
  apply Nat.ltb_ge in El.
  split.
  - destruct lines as [|l0 [|l1 ls]]; cbn in El; try lia. discriminate.
  - split; [apply length_map|].
    intros n row Hn.
    rewrite nth_error_map in Hn.
    destruct (nth_error (tl lines) n) as [line|] eqn:Eline;
      [|discriminate].
    injection Hn as <-.
    rewrite (nth_error_nth _ _ _ Eline).
    split; [|split].
    + intros k. split.
      * intros Hk. split.
        -- destruct (in_dec string_dec k headers) as [Hin | Hin];
             [exact Hin|].
           rewrite fillRow_other in Hk by exact Hin. now cbn in Hk.
        -- intros ->. rewrite fillRow_proto in Hk. now cbn in Hk.
      * intros [Hin Hk]. now apply fillRow_has.
    + apply fillRow_nodup. constructor.
    + intros Hnd i h Hi Hh. now apply fillRow_cell.
Qed.

Section WithNumbers.

Context {number : Type}.
Variable parseInt parseFloat : string -> number.
Variable orZero : number -> number.

(** X14.  A refresh whose feed cannot be used leaves the database
    alone.  When the fetch throws, or the response is not ok, or its
    text cannot be read, or the text does not parse,
    [performInstrumentsRefresh] reports failure with count 0 and the
    error of that step, and no statement at all reaches the
    database: rows, transaction and statement log are as before. *)
Theorem unusable_feed_touches_nothing (env : Env) (st : DbState number) :
  parsedFeed env = None ->
  performInstrumentsRefresh parseInt parseFloat orZero env st
  = (failed (feedError env), st).
Proof.
  unfold parsedFeed, feedError, performInstrumentsRefresh.
  destruct (fetched env) as [msg | [|] statusText [csvText | msg]];
    try reflexivity.
  unfold mbind at 1, lift at 1. unfold mbind at 1, lift at 1.
  destruct (parseCSV csvText) as [csvData | msg];
    [discriminate | reflexivity].
Qed.

Lemma refresh_outcome (env : Env) (st st' : DbState number)
      (r : RefreshResult) :
  txn st = None ->
  performInstrumentsRefresh parseInt parseFloat orZero env st = (r, st') ->
  txn st' = None
  /\ if success r
     then count r = Z.of_nat (List.length (rows st'))
     else rows st' = rows st \/ rows st' = [].
Proof.
  intros Ht H. unfold performInstrumentsRefresh in H.
  destruct (fetched env) as [msg | ok statusText text];
    [cbn in H; injection H as <- <-; cbn; split; [assumption | now left]|].
  destruct ok; cbn [negb] in H;
    [|cbn in H; injection H as <- <-; cbn; split; [assumption | now left]].
  unfold mbind at 1, lift at 1 in H.
  destruct text as [csvText | msg];
    [|cbn in H; injection H as <- <-; cbn; split; [assumption | now left]].
  unfold mbind at 1, lift at 1 in H.
  destruct (parseCSV csvText) as [csvData | msg];
    [|cbn in H; injection H as <- <-; cbn; split; [assumption | now left]].
  set (records := map _ csvData) in H.
  pose proof (RefreshFacts.replaceRows_outcome parseInt parseFloat orZero
                env records st Ht) as O.
  destruct (replaceRows env records st) as [[r' | msg] st''].
  - injection H as <- <-. destruct O as [T O]. split; [exact T|].
    destruct (success r'); [|apply O].
    destruct O as [-> ->]. reflexivity.
  - injection H as <- <-. destruct O as [T R]. cbn.
    split; [exact T | now right].
Qed.

(** X15.  The refresh endpoint reports what happened to the table.
    A request with a method other than GET is answered 405 with the
    header Allow: GET, and neither the feed nor the database is
    touched.  A GET on a connection with no open transaction is
    answered 200 exactly when the refresh succeeded, and then
    total_instruments is the number of rows the table now holds;
    otherwise it is answered 500 DatabaseException with the error
    of the refresh, or "Refresh failed" when that is empty, and the
    table holds its rows of before or none. *)
Theorem handleRefresh_reports (method : string) (env : Env)
        (st : DbState number) :
  txn st = None ->
  let run := handleRefresh parseInt parseFloat orZero method env st in
  let refresh :=
    performInstrumentsRefresh parseInt parseFloat orZero env st in
  if String.eqb method "GET" then
    snd run = snd refresh
    /\ txn (snd run) = None
    /\ if success (fst refresh) then
         h_status (fst run) = 200
         /\ Session.prop (Session.prop (h_body (fst run)) "data")
                         "total_instruments"
            = Session.VNum
                (JS.toString (Z.of_nat (List.length (rows (snd run)))))
       else
         fst run
         = asResponse
             (Session.dbError
                (Session.opt_or (error (fst refresh)) "Refresh failed"))
         /\ (rows (snd run) = rows st \/ rows (snd run) = [])
  else
    snd run = st
    /\ h_status (fst run) = 405
    /\ In ("Allow", "GET") (h_headers (fst run)).
Proof.
  intros Ht run refresh. subst run. unfold handleRefresh, checkMethod.
  cbn [existsb orb].
  destruct (String.eqb method "GET") eqn:Em; cbn [negb].
  - subst refresh.
    destruct (performInstrumentsRefresh parseInt parseFloat orZero env st)
      as [r st'] eqn:Hrun.
    cbn [fst snd].
    destruct (success r) eqn:Hs; cbn [fst snd].
    + destruct (refresh_outcome env st st' r Ht Hrun) as [Htx Hc].
      rewrite Hs in Hc.
      split; [reflexivity|]. split; [exact Htx|].
      split; [reflexivity|]. cbn. now rewrite Hc.
    + destruct (refresh_outcome env st st' r Ht Hrun) as [Htx Hr].
      rewrite Hs in Hr.
      split; [reflexivity|]. split; [exact Htx|].
      split; [reflexivity | exact Hr].
  - cbn. split; [reflexivity|]. split; [reflexivity|]. right. now left.
Qed.

End WithNumbers.

End FeedFacts.

(** ** The decoder of the secret and the TOTP endpoint *)

Module DecoderFacts.

Import Totp Base32.

(** *** Binary digits of fixed width *)

Lemma length_fixed_bits (k : nat) (v : Z) :
  String.length (fixed_bits k v) = k.
Proof. induction k as [|k IH]; cbn; [reflexivity | now rewrite IH]. Qed.

Lemma fixed_bits_low (k : nat) (w v : Z) :
  fixed_bits k (w * 2 ^ Z.of_nat k + v) = fixed_bits k v.
Proof.
  revert w. induction k as [|k IH]; intros w; [reflexivity|].
  cbn [fixed_bits].
  replace (w * 2 ^ Z.of_nat (S k) + v)
    with ((2 * w) * 2 ^ Z.of_nat k + v)
    by (rewrite Nat2Z.inj_succ, Z.pow_succ_r by lia; ring).
  rewrite IH. f_equal.
  rewrite Z.div_add_l by (apply Z.pow_nonzero; lia).
  replace (2 * w + v / 2 ^ Z.of_nat k) with (v / 2 ^ Z.of_nat k + w * 2)
    by ring.
  now rewrite Z.mod_add by lia.
Qed.

Lemma fixed_bits_app (a b : nat) (v : Z) :
  fixed_bits (a + b) v
  = (fixed_bits a (v / 2 ^ Z.of_nat b) ++ fixed_bits b v)%string.
Proof.
  induction a as [|a IH]; [reflexivity|].
  cbn [Nat.add fixed_bits append]. rewrite IH. f_equal.
  rewrite Z.div_div by (try apply Z.pow_pos_nonneg; lia).
  rewrite <- Z.pow_add_r by lia.
  now replace (Z.of_nat b + Z.of_nat a) with (Z.of_nat (a + b)) by lia.
Qed.

Lemma substring_skip (p s : string) (len : nat) :
  String.substring (String.length p) len (p ++ s) = String.substring 0 len s.
Proof. induction p as [|c p IH]; [reflexivity | exact IH]. Qed.

Lemma substring_take (m q : string) :
  String.substring 0 (String.length m) (m ++ q) = m.
Proof.
  induction m as [|c m IH]; cbn.
  - now destruct q.
  - now rewrite IH.
Qed.

(** A slice of fixed-width digits is the fixed-width digits of a
    quotient. *)
Lemma slice_fixed_bits (L a len : nat) (v : Z) :
  (a + len <= L)%nat ->
  JS.slice a (a + len) (fixed_bits L v)
  = fixed_bits len (v / 2 ^ Z.of_nat (L - a - len)).
Proof.
  intros H. unfold JS.slice.
  replace (a + len - a)%nat with len by lia.
  replace L with (a + (len + (L - a - len)))%nat at 1 by lia.
  rewrite fixed_bits_app, fixed_bits_app.
  rewrite <- (length_fixed_bits a
                (v / 2 ^ Z.of_nat (len + (L - a - len)))) at 1.
  rewrite substring_skip.
  rewrite <- (length_fixed_bits len (v / 2 ^ Z.of_nat (L - a - len))) at 1.
  apply substring_take.
Qed.

Lemma parseInt2_go_fixed (k : nat) (v acc : Z) :
  parseInt2_go (fixed_bits k v) (Some acc)
  = Some (acc * 2 ^ Z.of_nat k + v mod 2 ^ Z.of_nat k).
Proof.
  revert acc. induction k as [|k IH]; intros acc.
  - cbn. rewrite Z.mod_1_r. f_equal. ring.
  - cbn [fixed_bits parseInt2_go].
    assert (Hb : 0 <= (v / 2 ^ Z.of_nat k) mod 2 < 2)
      by (apply Z.mod_pos_bound; lia).
    assert (Hs : v mod 2 ^ Z.of_nat (S k)
                 = v mod 2 ^ Z.of_nat k
                   + 2 ^ Z.of_nat k * ((v / 2 ^ Z.of_nat k) mod 2)).
    { rewrite Nat2Z.inj_succ, Z.pow_succ_r by lia.
      rewrite (Z.mul_comm 2).
      apply Z.rem_mul_r; [apply Z.pow_nonzero; lia | lia]. }
    destruct (Z.eqb_spec ((v / 2 ^ Z.of_nat k) mod 2) 1) as [E | E].
    + cbn [Ascii.eqb Bool.eqb]. rewrite IH, Hs, E. f_equal.
      rewrite Nat2Z.inj_succ, Z.pow_succ_r by lia. ring.
    + assert (E0 : (v / 2 ^ Z.of_nat k) mod 2 = 0) by lia.
      cbn [Ascii.eqb Bool.eqb]. rewrite IH, Hs, E0. f_equal.
      rewrite Nat2Z.inj_succ, Z.pow_succ_r by lia. ring.
Qed.

Lemma parseInt2_fixed (k : nat) (v : Z) :
  parseInt2 (fixed_bits (S k) v) = Some (v mod 2 ^ Z.of_nat (S k)).
Proof.
  unfold parseInt2. cbn [fixed_bits parseInt2_go].
  assert (Hb : 0 <= (v / 2 ^ Z.of_nat k) mod 2 < 2)
    by (apply Z.mod_pos_bound; lia).
  assert (Hs : v mod 2 ^ Z.of_nat (S k)
               = v mod 2 ^ Z.of_nat k
                 + 2 ^ Z.of_nat k * ((v / 2 ^ Z.of_nat k) mod 2)).
  { rewrite Nat2Z.inj_succ, Z.pow_succ_r by lia.
    rewrite (Z.mul_comm 2).
    apply Z.rem_mul_r; [apply Z.pow_nonzero; lia | lia]. }
  destruct (Z.eqb_spec ((v / 2 ^ Z.of_nat k) mod 2) 1) as [E | E].
  - cbn [Ascii.eqb Bool.eqb]. rewrite parseInt2_go_fixed, Hs, E.
    f_equal. ring.
  - assert (E0 : (v / 2 ^ Z.of_nat k) mod 2 = 0) by lia.
    cbn [Ascii.eqb Bool.eqb]. rewrite parseInt2_go_fixed, Hs, E0.
    f_equal. ring.
Qed.

(** *** The two loops *)

Lemma indexOf_bound (c : N) (l : ustring) (i : Z) :
  In c l -> i <= indexOf c l i < i + Z.of_nat (List.length l).
Proof.
  revert i. induction l as [|a l IH]; intros i Hin; [destruct Hin|].
  cbn [indexOf List.length]. destruct (N.eqb_spec a c) as [-> | Hne]; [lia|].
  destruct Hin as [-> | Hin]; [congruence|].
  specialize (IH (i + 1) Hin). lia.
Qed.

Lemma five_bits (v : Z) :
  0 <= v < 32 ->
  JS.padStart 5 "0" (JS.toStringRadix 2 v) = fixed_bits 5 v.
Proof.
  intros H.
  assert (E : v = 0 \/ v = 1 \/ v = 2 \/ v = 3 \/ v = 4 \/ v = 5 \/ v = 6
              \/ v = 7 \/ v = 8 \/ v = 9 \/ v = 10 \/ v = 11 \/ v = 12
              \/ v = 13 \/ v = 14 \/ v = 15 \/ v = 16 \/ v = 17 \/ v = 18
              \/ v = 19 \/ v = 20 \/ v = 21 \/ v = 22 \/ v = 23 \/ v = 24
              \/ v = 25 \/ v = 26 \/ v = 27 \/ v = 28 \/ v = 29 \/ v = 30
              \/ v = 31) by lia.
  repeat (destruct E as [-> | E]; [reflexivity|]).
  subst v. reflexivity.
Qed.

Section WithRuntime.

Variable R : Runtime.

Lemma base32Bits_value (s : ustring) (a : nat) (w : Z) :
  forallb in_alphabet s = true ->
  base32Bits s (fixed_bits a w)
  = Ok (fixed_bits (a + 5 * List.length s)
          (fold_left (fun acc c => acc * 32 + indexOf c base32Chars 0)
                     s w)).
Proof.
  revert a w. induction s as [|c s IH]; intros a w Hs.
  - cbn. now rewrite Nat.add_0_r.
  - cbn [forallb] in Hs. apply andb_true_iff in Hs. destruct Hs as [Hc Hs].
    cbn [base32Bits fold_left List.length].
    pose proof (proj2 (SecretFacts.in_base32Chars c) Hc) as Hin.
    pose proof (indexOf_bound c base32Chars 0 Hin) as Hv.
    change (Z.of_nat (List.length base32Chars)) with 32 in Hv.
    destruct (Z.eqb_spec (indexOf c base32Chars 0) (-1)) as [E | E];
      [lia|].
    rewrite five_bits by lia.
    replace (fixed_bits a w ++ fixed_bits 5 (indexOf c base32Chars 0))%string
      with (fixed_bits (a + 5) (w * 32 + indexOf c base32Chars 0)).
    + rewrite IH by exact Hs. f_equal. f_equal. lia.
    + rewrite fixed_bits_app. f_equal.
      * f_equal. change (2 ^ Z.of_nat 5) with 32.
        rewrite Z.div_add_l by lia. rewrite Z.div_small by lia. lia.
      * change 32 with (2 ^ Z.of_nat 5). apply fixed_bits_low.
Qed.

Lemma base32Bytes_map (n i : nat) (bits : string) :
  base32Bytes n i bits
  = map (fun j => toUint8 (parseInt2 (JS.slice (j * 8) ((j + 1) * 8) bits)))
        (seq i n).
Proof.
  revert i. induction n as [|n IH]; intros i; [reflexivity|].
  cbn [base32Bytes seq map]. now rewrite IH.
Qed.

Lemma byte_of_bits (L j : nat) (v : Z) :
  (8 * j + 8 <= L)%nat ->
  toUint8 (parseInt2 (JS.slice (j * 8) ((j + 1) * 8) (fixed_bits L v)))
  = (v / 2 ^ Z.of_nat (L - 8 * j - 8)) mod 256.
Proof.
  intros H.
  replace ((j + 1) * 8)%nat with (j * 8 + 8)%nat by lia.
  rewrite slice_fixed_bits by lia.
  rewrite parseInt2_fixed. cbn [toUint8].
  change (2 ^ Z.of_nat 8) with 256.
  rewrite Z.mod_mod by lia.
  now replace (L - j * 8 - 8)%nat with (L - 8 * j - 8)%nat by lia.
Qed.

Lemma be_word_snoc (l : list Z) (x : Z) :
  be_word (l ++ [x]) = be_word l * 256 + x.
Proof. unfold be_word. now rewrite fold_left_app. Qed.

Lemma be_word_bytes (L m : nat) (v : Z) :
  0 <= v < 2 ^ Z.of_nat L ->
  (8 * m <= L)%nat ->
  be_word (map (fun j => (v / 2 ^ Z.of_nat (L - 8 * j - 8)) mod 256)
               (seq 0 m))
  = v / 2 ^ Z.of_nat (L - 8 * m).
Proof.
  intros Hv. induction m as [|m IH]; intros Hm.
  - cbn [seq map]. unfold be_word. cbn [fold_left].
    replace (L - 8 * 0)%nat with L by lia.
    now rewrite Z.div_small.
  - rewrite seq_S, map_app. cbn [map]. rewrite be_word_snoc.
    cbn [Nat.add].
    rewrite IH by lia.
    replace (L - 8 * m)%nat with ((L - 8 * m - 8) + 8)%nat by lia.
    rewrite Nat2Z.inj_add, Z.pow_add_r by lia.
    rewrite <- Z.div_div by (try apply Z.pow_pos_nonneg; lia).
    replace (L - 8 * S m)%nat with (L - 8 * m - 8)%nat by lia.
    change (2 ^ Z.of_nat 8) with 256.
    replace (L - 8 * m - 8 + 8 - 8)%nat with (L - 8 * m - 8)%nat by lia.
    pose proof (Z.div_mod (v / 2 ^ Z.of_nat (L - 8 * m - 8)) 256
                  ltac:(lia)).
    lia.
Qed.

Lemma base32_value_bound (s : ustring) (w : Z) (a : nat) :
  forallb in_alphabet s = true ->
  0 <= w < 2 ^ Z.of_nat a ->
  0 <= fold_left (fun acc c => acc * 32 + indexOf c base32Chars 0) s w
    < 2 ^ Z.of_nat (a + 5 * List.length s).
Proof.
  revert w a. induction s as [|c s IH]; intros w a Hs Hw.
  - cbn. now rewrite Nat.add_0_r.
  - cbn [forallb] in Hs. apply andb_true_iff in Hs. destruct Hs as [Hc Hs].
    cbn [fold_left List.length].
    pose proof (proj2 (SecretFacts.in_base32Chars c) Hc) as Hin.
    pose proof (indexOf_bound c base32Chars 0 Hin) as Hv.
    change (Z.of_nat (List.length base32Chars)) with 32 in Hv.
    replace (a + 5 * S (List.length s))%nat
      with ((a + 5) + 5 * List.length s)%nat by lia.
    apply IH; [exact Hs|].
    rewrite Nat2Z.inj_add, Z.pow_add_r by lia.
    change (2 ^ Z.of_nat 5) with 32. lia.
Qed.

(** X16.  [base32Decode] is the base-32 decoder.  With the secret in
    upper case and without its trailing padding: when one of its
    characters is outside the alphabet A-Z, 2-7 the decoder throws
    "Invalid base32 character"; otherwise it returns the whole bytes
    of the bit sequence, five bits per character: as many bytes as
    eight goes into five times the number of characters, each below
    256, which read as a big-endian number are the base-32 number of
    the characters with the left-over low bits dropped. *)
Theorem base32Decode_is_base32 (secret : ustring) :
  let clean := cleanSecret R secret in
  let n := List.length clean in
  if forallb in_alphabet clean then
    exists bytes,
      base32Decode R secret = Ok bytes
      /\ List.length bytes = (5 * n / 8)%nat
      /\ Forall is_byte bytes
      /\ be_word bytes
         = base32_value clean / 2 ^ Z.of_nat ((5 * n) mod 8)
  else
    base32Decode R secret = Throw "Invalid base32 character".
Proof.
  intros clean n. unfold base32Decode. fold clean.
  destruct (forallb in_alphabet clean) eqn:Hall.
  - pose proof (base32Bits_value clean 0 0 Hall) as Hb.
    cbn [fixed_bits Nat.add] in Hb. rewrite Hb. cbn [bind].
    fold (base32_value clean). fold n.
    rewrite length_fixed_bits, base32Bytes_map.
    eexists. split; [reflexivity|].
    pose proof (Nat.div_mod_eq (5 * n) 8) as Hdm.
    assert (Hm : (8 * (5 * n / 8) <= 5 * n)%nat) by lia.
    split; [now rewrite length_map, length_seq|].
    split.
    + apply Forall_forall. intros x Hx. apply in_map_iff in Hx.
      destruct Hx as [j [<- Hj]]. apply in_seq in Hj.
      rewrite byte_of_bits by lia.
      apply Z.mod_pos_bound. lia.
    + rewrite (map_ext_in _
                 (fun j => (base32_value clean
                            / 2 ^ Z.of_nat (5 * n - 8 * j - 8)) mod 256)).
      * rewrite be_word_bytes; [| |exact Hm].
        -- f_equal. f_equal. f_equal. lia.
        -- apply (base32_value_bound clean 0 0 Hall). cbn. lia.
      * intros j Hj. apply in_seq in Hj. apply byte_of_bits. lia.
  - assert (Hbad : exists c, In c clean /\ in_alphabet c = false).
    { clear - Hall. induction clean as [|c s IH]; [discriminate|].
      cbn [forallb] in Hall. destruct (in_alphabet c) eqn:Ec.
      - destruct (IH Hall) as [c' [Hin Hc']].
        exists c'. split; [now right | exact Hc'].
      - exists c. split; [now left | exact Ec]. }
    now rewrite (SecretFacts.base32Bits_bad clean EmptyString Hbad).
Qed.

End WithRuntime.

End DecoderFacts.

(** ** What the normalisation of the secret comes to *)

Module NormalFacts.

Import Totp.

Lemma stripPadding_end (x v : ustring) : stripPadding x <> v ++ [61%N].
Proof.
  revert v. induction x as [|c x IH]; intros v; cbn [stripPadding].
  - now destruct v.
  - destruct (stripPadding x) as [|d r] eqn:E.
    + destruct (N.eqb_spec c 61) as [-> | Hne]; [now destruct v|].
      destruct v as [|a [|b v]]; cbn; congruence.
    + destruct v as [|a v]; cbn; [congruence|].
      intros H. injection H as _ H. now apply (IH v).
Qed.

Lemma stripPadding_padded (u : ustring) (k : nat) :
  (forall v, u <> v ++ [61%N]) ->
  stripPadding (u ++ repeat 61%N k) = u.
Proof.
  induction u as [|c u IH]; intros Hend.
  - cbn [app]. induction k as [|k IHk]; [reflexivity|].
    cbn [repeat stripPadding]. now rewrite IHk.
  - cbn [app stripPadding].
    rewrite IH by (intros v ->; now apply (Hend (c :: v))).
    destruct u as [|d u]; [|reflexivity].
    destruct (N.eqb_spec c 61) as [-> | Hne]; [|reflexivity].
    now elim (Hend []).
Qed.

(** The normal form of a secret is what the decoder makes of it before
    its first loop, and nothing else. *)
Lemma normalized_clean (R : Runtime) (s u : ustring) :
  normalized R s u <-> u = cleanSecret R s.
Proof.
  unfold normalized, cleanSecret. split.
  - intros [[k Hk] Hend]. rewrite Hk. symmetry.
    now apply stripPadding_padded.
  - intros ->. split; [|intros v; apply stripPadding_end].
    destruct (SecretFacts.stripPadding_split (toUpperCase R s)) as [k Hk].
    now exists k.
Qed.

Lemma decoded_length (R : Runtime) (s : ustring) :
  (forall c, In c (cleanSecret R s) -> in_alphabet c = true) ->
  exists key,
    base32Decode R s = Ok key
    /\ List.length key = (5 * List.length (cleanSecret R s) / 8)%nat.
Proof.
  intros Hall.
  assert (Hf : forallb in_alphabet (cleanSecret R s) = true)
    by (apply forallb_forall; exact Hall).
  unfold base32Decode.
  pose proof (DecoderFacts.base32Bits_value (cleanSecret R s) 0 0 Hf) as Hb.
  cbn [Base32.fixed_bits Nat.add] in Hb. rewrite Hb. cbn [bind].
  eexists. split; [reflexivity|].
  rewrite DecoderFacts.length_fixed_bits, DecoderFacts.base32Bytes_map.
  now rewrite length_map, length_seq.
Qed.

(** C10.  [generateTotpValue] normalizes its secret before decoding.
    Under the laws of the case mapping, every secret has one normal
    form: its upper case without the trailing [=] signs.  The
    generator gives for the secret what it gives for the normal form,
    so secrets with the same normal form give the same result: adding
    [=] signs at the end, or taking the upper case, changes nothing.
    When a character of the normal form lies outside [A]..[Z] and
    [2]..[7] the generator throws "Invalid base32 character".
    Otherwise the secret decodes, to as many bytes as eight goes into
    five times the length of the normal form, and the generator
    returns a code when [importKey] accepts that key and throws the
    error of [importKey] when it refuses it.  A secret of letters of
    either case and digits [2]..[7] has a normal form within the
    alphabet. *)
Theorem generateTotpValue_normalizes (R : Runtime) (s : ustring)
                                     (now step : Z) :
  CaseMappingLaws R ->
  exists u,
    normalized R s u
    /\ (forall u', normalized R s u' -> u' = u)
    /\ generateTotpValue R s now step = generateTotpValue R u now step
    /\ (forall s', normalized R s' u ->
          generateTotpValue R s' now step = generateTotpValue R s now step)
    /\ (forall k,
          generateTotpValue R (s ++ repeat 61%N k) now step
          = generateTotpValue R s now step)
    /\ generateTotpValue R (toUpperCase R s) now step
       = generateTotpValue R s now step
    /\ ((exists c, In c u /\ in_alphabet c = false) ->
          generateTotpValue R s now step = Throw "Invalid base32 character")
    /\ ((forall c, In c u -> in_alphabet c = true) ->
          exists key,
            base32Decode R s = Ok key
            /\ List.length key = (5 * List.length u / 8)%nat
            /\ if importKeyAccepts R key
               then exists code, generateTotpValue R s now step = Ok code
               else generateTotpValue R s now step
                    = Throw (importKeyError R))
    /\ ((forall c, In c s ->
           in_alphabet c = true \/ (97 <= c /\ c <= 122)%N) ->
          forall c, In c u -> in_alphabet c = true).
Proof.
  intros laws.
  assert (Hgen : forall a b, cleanSecret R a = cleanSecret R b ->
             generateTotpValue R a now step = generateTotpValue R b now step).
  { intros a b Hab. unfold generateTotpValue, base32Decode.
    now rewrite Hab. }
  exists (cleanSecret R s).
  split; [now apply normalized_clean|].
  split; [intros u' Hu'; now apply normalized_clean|].
  split.
  { apply Hgen. symmetry. now apply SecretFacts.cleanSecret_idempotent. }
  split.
  { intros s' Hs'. apply Hgen. symmetry. now apply normalized_clean. }
  split.
  { intros k. apply Hgen.
    destruct (proj2 (normalized_clean R s (cleanSecret R s)) eq_refl)
      as [[k0 Hk0] Hend].
    unfold cleanSecret at 1.
    rewrite (SecretFacts.toUpperCase_app R),
      (SecretFacts.toUpperCase_padding R laws), Hk0.
    rewrite <- app_assoc, <- repeat_app.
    now apply stripPadding_padded. }
  split.
  { apply Hgen. unfold cleanSecret.
    now rewrite (SecretFacts.toUpperCase_idempotent R laws). }
  split.
  { intros Hsome. unfold generateTotpValue, base32Decode.
    now rewrite (SecretFacts.base32Bits_bad _ EmptyString Hsome). }
  split.
  { intros Hall. destruct (decoded_length R s Hall) as [key [Hdec Hlen]].
    exists key. split; [exact Hdec|]. split; [exact Hlen|].
    unfold generateTotpValue. rewrite Hdec. cbn [bind].
    unfold hmacSha1.
    destruct (importKeyAccepts R key); cbn [bind];
      [eexists|]; reflexivity. }
  intros Hletters c Hin. apply SecretFacts.stripPadding_incl in Hin.
  now apply (SecretFacts.toUpperCase_letters R laws s Hletters).
Qed.

End NormalFacts.

Module NormalWitness.

Import Totp.

Lemma generateTotpValue_normalizes_witness :
  normalized asciiRuntime rfc_secret_lower rfc_secret
  /\ generateTotpValue asciiRuntime rfc_secret_lower 59000 30
     = generateTotpValue asciiRuntime rfc_secret 59000 30
  /\ generateTotpValue asciiRuntime rfc_secret 59000 30 = Ok "287082".
Proof.
  destruct (NormalFacts.generateTotpValue_normalizes asciiRuntime
              rfc_secret_lower 59000 30 SecretFacts.asciiRuntime_laws)
    as [u [Hn [Hu [Hg _]]]].
  assert (Hr : normalized asciiRuntime rfc_secret_lower rfc_secret).
  { split.
    - exists 4%nat. vm_compute. reflexivity.
    - intros v Hv.
      assert (Hl : last rfc_secret 0%N = last (v ++ [61%N]) 0%N)
        by now rewrite Hv.
      rewrite last_last in Hl. vm_compute in Hl. discriminate Hl. }
  split; [exact Hr|]. split.
  - rewrite Hg. now rewrite (Hu rfc_secret Hr).
  - vm_compute. reflexivity.
Defined.

(** The secret [a=] has the normal form [A], which lies within the
    alphabet; it decodes to the empty key, which [importKey] refuses,
    and the generator throws. *)
Example accepted_characters_rejected_secret :
  normalized asciiRuntime (ustr "a=") (ustr "A")
  /\ (forall c, In c (ustr "A") -> in_alphabet c = true)
  /\ base32Decode asciiRuntime (ustr "a=") = Ok []
  /\ generateTotpValue asciiRuntime (ustr "a=") 59000 30
     = Throw (importKeyError asciiRuntime).
Proof.
  split; [|split; [|split]].
  - split.
    + exists 1%nat. vm_compute. reflexivity.
    + intros [|a [|b v]] Hv; vm_compute in Hv; discriminate Hv.
  - intros c [<- | []]. reflexivity.
  - vm_compute. reflexivity.
  - vm_compute. reflexivity.
Qed.

End NormalWitness.

Module EndpointFacts.

Import Session Http.

(** X17.  The TOTP endpoint answers a bad secret with 400, never with
    500.  For a form request with a totp_secret: under POST, when the
    secret has a character outside the base-32 alphabet, or decodes
    to a key that the runtime refuses to import (the empty key), the
    reply is 400 InputException "Invalid TOTP secret format. Must be
    a valid base32 encoded string."; otherwise it is 200 with the
    code that [generateTotpValue] gives at the time of the request.
    Under any other method the reply is 405 with the header Allow:
    POST. *)
Theorem handleTotp_replies (R : Totp.Runtime) (now : Z) (req : LoginRequest)
        (form : LoginForm) (secret : Totp.ustring) :
  (exists ct, content_type req = Some ct
              /\ includes "application/x-www-form-urlencoded" ct = true) ->
  formData req = Ok form ->
  present_secret (f_totp_secret form) = Some secret ->
  if String.eqb (req_method req) "POST" then
    match Totp.base32Decode R secret with
    | Ok key =>
        if Totp.importKeyAccepts R key then
          exists totpValue,
            Totp.generateTotpValue R secret now 30 = Ok totpValue
            /\ handleTotp R now req
               = asResponse
                   (successResponse
                      (VObj [("message", VStr "TOTP generated successfully");
                             ("totp_value", VStr totpValue)]))
        else
          handleTotp R now req
          = asResponse
              (inputError
                 "Invalid TOTP secret format. Must be a valid base32 encoded string.")
    | Throw _ =>
        handleTotp R now req
        = asResponse
            (inputError
               "Invalid TOTP secret format. Must be a valid base32 encoded string.")
    end
  else
    h_status (handleTotp R now req) = 405
    /\ In ("Allow", "POST") (h_headers (handleTotp R now req)).
Proof.
  intros [ct [Hct Hinc]] Hf Hs.
  unfold handleTotp, checkMethod. cbn [existsb orb].
  destruct (String.eqb (req_method req) "POST"); cbn [negb];
    [|split; [reflexivity | right; now left]].
  rewrite Hct, Hinc, Hf. cbn [negb bind]. rewrite Hs.
  unfold Totp.generateTotpValue.
  destruct (Totp.base32Decode R secret) as [key | msg]; cbn [bind];
    [|reflexivity].
  unfold Totp.hmacSha1.
  destruct (Totp.importKeyAccepts R key); cbn [bind]; [|reflexivity].
  eexists. split; reflexivity.
Qed.

End EndpointFacts.

Module EndpointWitness.

Import Session Http.

Lemma parseCSV_rows_have_header_fields_witness :
  exists csvData,
    Instruments.parseCSV protoFeed = Ok csvData
    /\ List.length csvData = 1%nat
    /\ forall n row,
         nth_error csvData n = Some row ->
         Instruments.row_get "tradingsymbol" row <> None
         /\ Instruments.row_get "__proto__" row = None
         /\ NoDup (map fst row).
Proof.
  eexists. split; [reflexivity|].
  destruct (FeedFacts.parseCSV_rows_have_header_fields
              protoFeed _ eq_refl) as [_ [_ H]].
  split; [reflexivity|].
  intros n row Hn. destruct (H n row Hn) as [Hkeys [Hnd _]].
  split; [|split; [|exact Hnd]].
  - apply Hkeys. split; [|discriminate].
    vm_compute. right. now left.
  - destruct (Instruments.row_get "__proto__" row) eqn:E; [|reflexivity].
    exfalso.
    assert (Hp : Instruments.row_get "__proto__" row <> None)
      by (rewrite E; discriminate).
    apply Hkeys in Hp. destruct Hp as [_ Hp]. now apply Hp.
Defined.

Lemma unusable_feed_touches_nothing_witness :
  let env :=
    {| Instruments.fetched :=
         Instruments.FetchResponse false "Service Unavailable"
                                   (Ok EmptyString);
       Instruments.now := 1704857400000;
       Instruments.faults := Instruments.noFaults |} in
  Instruments.performInstrumentsRefresh
    (fun _ => tt) (fun _ => tt) (fun x => x) env Instruments.oldTable
  = (Instruments.failed "Failed to fetch instruments: Service Unavailable",
     Instruments.oldTable).
Proof.
  intros env.
  apply (FeedFacts.unusable_feed_touches_nothing
           (fun _ => tt) (fun _ => tt) (fun x => x) env
           Instruments.oldTable).
  reflexivity.
Defined.

Lemma handleRefresh_reports_witness :
  let run :=
    handleRefresh (fun _ => tt) (fun _ => tt) (fun x => x) "GET"
                  (Instruments.demoEnv Instruments.noFaults)
                  Instruments.oldTable in
  h_status (fst run) = 200
  /\ prop (prop (h_body (fst run)) "data") "total_instruments" = VNum "2"
  /\ List.length (Instruments.rows (snd run)) = 2%nat.
Proof.
  intros run.
  pose proof (FeedFacts.handleRefresh_reports
                (fun _ => tt) (fun _ => tt) (fun x => x) "GET"
                (Instruments.demoEnv Instruments.noFaults)
                Instruments.oldTable eq_refl) as H.
  cbv zeta in H. fold run in H.
  change (String.eqb "GET" "GET") with true in H. cbv iota in H.
  destruct H as [_ [_ H]].
  assert (Hs : Instruments.success
                 (fst (Instruments.performInstrumentsRefresh
                         (fun _ => tt) (fun _ => tt) (fun x => x)
                         (Instruments.demoEnv Instruments.noFaults)
                         Instruments.oldTable)) = true)
    by (vm_compute; reflexivity).
  rewrite Hs in H. destruct H as [H1 H2].
  split; [exact H1|].
  assert (Hl : List.length (Instruments.rows (snd run)) = 2%nat)
    by (vm_compute; reflexivity).
  split; [|exact Hl].
  rewrite H2, Hl. reflexivity.
Defined.

Lemma handleTotp_replies_witness :
  handleTotp Totp.asciiRuntime 59000
             (totpRequest "POST" "GEZDGNBVGY3TQOJQGEZDGNBVGY3TQOJQ")
  = asResponse
      (successResponse
         (VObj [("message", VStr "TOTP generated successfully");
                ("totp_value", VStr "287082")]))
  /\ handleTotp Totp.asciiRuntime 59000 (totpRequest "POST" "not base32!")
     = asResponse
         (inputError
            "Invalid TOTP secret format. Must be a valid base32 encoded string.")
  /\ handleTotp Totp.asciiRuntime 59000 (totpRequest "POST" "=")
     = asResponse
         (inputError
            "Invalid TOTP secret format. Must be a valid base32 encoded string.").
Proof.
  assert (Hct : forall m s,
             exists ct, content_type (totpRequest m s) = Some ct
                        /\ includes "application/x-www-form-urlencoded" ct
                           = true)
    by (intros; exists "application/x-www-form-urlencoded";
        split; reflexivity).
  split; [|split].
  - pose proof (EndpointFacts.handleTotp_replies
                  Totp.asciiRuntime 59000
                  (totpRequest "POST" "GEZDGNBVGY3TQOJQGEZDGNBVGY3TQOJQ")
                  _ _ (Hct _ _) eq_refl eq_refl) as H.
    change (String.eqb _ "POST") with true in H. cbv iota in H.
    assert (Hd : Totp.base32Decode Totp.asciiRuntime
                   (Totp.ustr "GEZDGNBVGY3TQOJQGEZDGNBVGY3TQOJQ")
                 = Ok Totp.rfc_key) by (vm_compute; reflexivity).
    rewrite Hd in H. cbn [Totp.importKeyAccepts Totp.asciiRuntime] in H.
    change (negb _) with true in H. cbv iota in H.
    destruct H as [v [Hv H]]. rewrite H.
    assert (Hv' : Totp.generateTotpValue Totp.asciiRuntime
                    (Totp.ustr "GEZDGNBVGY3TQOJQGEZDGNBVGY3TQOJQ") 59000 30
                  = Ok "287082") by (vm_compute; reflexivity).
    rewrite Hv' in Hv. injection Hv as <-. reflexivity.
  - pose proof (EndpointFacts.handleTotp_replies
                  Totp.asciiRuntime 59000
                  (totpRequest "POST" "not base32!")
                  _ _ (Hct _ _) eq_refl eq_refl) as H.
    change (String.eqb _ "POST") with true in H. cbv iota in H.
    assert (Hd : Totp.base32Decode Totp.asciiRuntime
                   (Totp.ustr "not base32!")
                 = Throw "Invalid base32 character")
      by (vm_compute; reflexivity).
    rewrite Hd in H. exact H.
  - pose proof (EndpointFacts.handleTotp_replies
                  Totp.asciiRuntime 59000 (totpRequest "POST" "=")
                  _ _ (Hct _ _) eq_refl eq_refl) as H.
    change (String.eqb _ "POST") with true in H. cbv iota in H.
    assert (Hd : Totp.base32Decode Totp.asciiRuntime (Totp.ustr "=")
                 = Ok []) by (vm_compute; reflexivity).
    rewrite Hd in H. exact H.
Defined.

End EndpointWitness.

(** ** The order of timestamps *)

Module OrderFacts.

Import JS Clock Instants.

(** *** Comparing digits of fixed width *)

Lemma compare_cons (c : ascii) (x y : string) :
  String.compare (String c x) (String c y) = String.compare x y.
Proof.
  cbn [String.compare]. unfold Ascii.compare. now rewrite N.compare_refl.
Qed.

Lemma compare_digit (a b : Z) (x y : string) :
  0 <= a < 10 -> 0 <= b < 10 ->
  String.compare (String (digit a) x) (String (digit b) y)
  = match a ?= b with
    | Eq => String.compare x y
    | c => c
    end.
Proof.
  intros Ha Hb. cbn [String.compare]. unfold Ascii.compare, digit, chr.
  rewrite !N_ascii_embedding by lia.
  rewrite Z2N.inj_compare by lia.
  rewrite Z.add_compare_mono_l.
  now destruct (a ?= b).
Qed.

Lemma compare_fixed (k : nat) (a b : Z) (x y : string) :
  0 <= a < 10 ^ Z.of_nat k -> 0 <= b < 10 ^ Z.of_nat k ->
  String.compare (fixed_digits k a ++ x) (fixed_digits k b ++ y)
  = match a ?= b with
    | Eq => String.compare x y
    | c => c
    end.
Proof.
  revert a b x y. induction k as [|k IH]; intros a b x y Ha Hb.
  - change (10 ^ Z.of_nat 0) with 1 in *.
    assert (a = 0) as -> by lia. assert (b = 0) as -> by lia.
    reflexivity.
  - rewrite Nat2Z.inj_succ, Z.pow_succ_r in Ha, Hb by lia.
    cbn [fixed_digits]. rewrite !JSFacts.app_assoc. cbn [append str1].
    rewrite IH by (split; [apply Z.div_pos; lia
                          | apply Z.div_lt_upper_bound; lia]).
    rewrite compare_digit by (apply Z.mod_pos_bound; lia).
    pose proof (Z.div_mod a 10 ltac:(lia)) as Ea.
    pose proof (Z.div_mod b 10 ltac:(lia)) as Eb.
    pose proof (Z.mod_pos_bound a 10 ltac:(lia)) as Ra.
    pose proof (Z.mod_pos_bound b 10 ltac:(lia)) as Rb.
    destruct (Z.compare_spec (a / 10) (b / 10)) as [E1 | E1 | E1];
      destruct (Z.compare_spec (a mod 10) (b mod 10)) as [E2 | E2 | E2];
      destruct (Z.compare_spec a b) as [E | E | E];
      try reflexivity; lia.
Qed.

Lemma pad2_fixed (n : Z) : 0 <= n < 100 -> pad2 n = fixed_digits 2 n.
Proof.
  intros Hn. unfold pad2, toString.
  assert ((n <? 0) = false) as -> by (apply Z.ltb_ge; lia).
  apply (JSFacts.padStart_toStringRadix 1 n). simpl. lia.
Qed.

Lemma toString_year (y : Z) :
  1000 <= y <= 9999 -> toString y = fixed_digits 4 y.
Proof.
  intros Hy. unfold toString.
  assert ((y <? 0) = false) as -> by (apply Z.ltb_ge; lia).
  rewrite JSFacts.toStringRadix_unfold by lia.
  assert ((y <? 10) = false) as -> by (apply Z.ltb_ge; lia).
  assert (H1 : 100 <= y / 10 <= 999)
    by (split; [apply Z.div_le_lower_bound; lia
               | apply Z.lt_succ_r, Z.div_lt_upper_bound; lia]).
  rewrite (JSFacts.toStringRadix_unfold (y / 10)) by lia.
  assert ((y / 10 <? 10) = false) as -> by (apply Z.ltb_ge; lia).
  assert (H2 : 10 <= y / 10 / 10 <= 99)
    by (split; [apply Z.div_le_lower_bound; lia
               | apply Z.lt_succ_r, Z.div_lt_upper_bound; lia]).
  rewrite (JSFacts.toStringRadix_unfold (y / 10 / 10)) by lia.
  assert ((y / 10 / 10 <? 10) = false) as -> by (apply Z.ltb_ge; lia).
  assert (H3 : 1 <= y / 10 / 10 / 10 <= 9)
    by (split; [apply Z.div_le_lower_bound; lia
               | apply Z.lt_succ_r, Z.div_lt_upper_bound; lia]).
  rewrite (JSFacts.toStringRadix_unfold (y / 10 / 10 / 10)) by lia.
  assert ((y / 10 / 10 / 10 <? 10) = true) as -> by (apply Z.ltb_lt; lia).
  cbn [fixed_digits append].
  rewrite (Z.mod_small (y / 10 / 10 / 10) 10) by lia.
  reflexivity.
Qed.

(** *** Dates in the order of days *)

Lemma DayFromYear_mono (a b : Z) : a <= b -> DayFromYear a <= DayFromYear b.
Proof.
  intros H. unfold DayFromYear. Z.div_mod_to_equations. lia.
Qed.

Lemma year_mono (t1 t2 : Z) :
  0 <= t1 -> 0 <= t2 -> Day t1 <= Day t2 ->
  YearFromTime t1 <= YearFromTime t2.
Proof.
  intros H1 H2 H.
  destruct (ClockFacts.YearFromDay_spec_t t1 H1) as [_ [L1 U1]].
  destruct (ClockFacts.YearFromDay_spec_t t2 H2) as [_ [L2 U2]].
  destruct (Z_le_gt_dec (YearFromTime t1) (YearFromTime t2)) as [|Hgt];
    [assumption|].
  pose proof (DayFromYear_mono (YearFromTime t2 + 1) (YearFromTime t1)
                ltac:(lia)).
  lia.
Qed.

Lemma same_day_same_date (t1 t2 : Z) :
  Day t1 = Day t2 ->
  YearFromTime t1 = YearFromTime t2
  /\ MonthFromTime t1 = MonthFromTime t2
  /\ DateFromTime t1 = DateFromTime t2.
Proof.
  intros H.
  unfold DateFromTime, MonthFromTime, InLeapYear, DayWithinYear,
    YearFromTime.
  now rewrite H.
Qed.

Lemma later_day_later_date (t1 t2 : Z) :
  0 <= t1 -> 0 <= t2 -> Day t1 < Day t2 ->
  YearFromTime t1 < YearFromTime t2
  \/ (YearFromTime t1 = YearFromTime t2
      /\ (MonthFromTime t1 < MonthFromTime t2
          \/ (MonthFromTime t1 = MonthFromTime t2
              /\ DateFromTime t1 < DateFromTime t2))).
Proof.
  intros H1 H2 H.
  pose proof (year_mono t1 t2 H1 H2 ltac:(lia)) as Hy.
  destruct (Z.eq_dec (YearFromTime t1) (YearFromTime t2)) as [E | E];
    [right; split; [exact E|] | left; lia].
  pose proof (ClockFacts.DayWithinYear_range t1 H1) as R1.
  pose proof (ClockFacts.DayWithinYear_range t2 H2) as R2.
  assert (Hd : DayWithinYear t1 < DayWithinYear t2)
    by (unfold DayWithinYear; rewrite E; lia).
  assert (Hl : InLeapYear t1 = InLeapYear t2)
    by (unfold InLeapYear; now rewrite E).
  pose proof (ClockFacts.leapDay_range (YearFromTime t2)) as Rl.
  fold (InLeapYear t2) in Rl.
  unfold DateFromTime, MonthFromTime. rewrite Hl in *.
  set (d1 := DayWithinYear t1) in *. set (d2 := DayWithinYear t2) in *.
  set (l := InLeapYear t2) in *.
  repeat match goal with
         | |- context [if ?a <? ?b then _ else _] =>
             destruct (Z.ltb_spec a b)
         end;
    cbn [monthStart]; lia.
Qed.

Lemma year_four_digits (t : Z) :
  0 <= t < 253402300800000 -> 1000 <= YearFromTime t <= 9999.
Proof.
  intros [H0 H1].
  destruct (ClockFacts.YearFromDay_spec_t t H0) as [Hy [Hl _]].
  split; [lia|].
  destruct (Z_le_gt_dec (YearFromTime t) 9999) as [|Hgt]; [assumption|].
  pose proof (DayFromYear_mono 10000 (YearFromTime t) ltac:(lia)) as Hm.
  change (DayFromYear 10000) with 2932897 in Hm.
  assert (Day t < 2932897)
    by (unfold Day, msPerDay; apply Z.div_lt_upper_bound; lia).
  lia.
Qed.

(** *** A timestamp as six numbers of fixed width *)

Lemma stamp_fixed (now : Z) :
  0 <= now < lastInstant ->
  let t := now + 19800000 in
  getISTTimestamp now
  = (fixed_digits 4 (YearFromTime t)
       ++ String "-"
       (fixed_digits 2 (MonthFromTime t + 1)
          ++ String "-"
          (fixed_digits 2 (DateFromTime t)
             ++ String " "
             (fixed_digits 2 (HourFromTime t)
                ++ String ":"
                (fixed_digits 2 (MinFromTime t)
                   ++ String ":"
                   (fixed_digits 2 (SecFromTime t) ++ EmptyString))))))%string.
Proof.
  intros Hn t. unfold lastInstant in Hn.
  assert (Ht : 0 <= t < 253402300800000) by (subst t; lia).
  rewrite FreshnessFacts.getISTTimestamp_shape. cbv zeta. fold t.
  pose proof (year_four_digits t Ht) as Hy.
  pose proof (ClockFacts.MonthFromTime_range t) as Hm.
  pose proof (ClockFacts.DateFromTime_range t ltac:(lia)) as Hd.
  destruct (ClockFacts.time_fields_range t) as [Hh [Hmi Hs]].
  rewrite toString_year by exact Hy.
  rewrite !pad2_fixed by lia.
  rewrite JSFacts.app_empty_r.
  repeat first [rewrite JSFacts.app_assoc | progress cbn [append]].
  reflexivity.
Qed.

Lemma pow4 : 10 ^ Z.of_nat 4 = 10000.
Proof. reflexivity. Qed.

Lemma pow2 : 10 ^ Z.of_nat 2 = 100.
Proof. reflexivity. Qed.

Lemma stamp_compare_fields (now1 now2 : Z) :
  0 <= now1 < lastInstant -> 0 <= now2 < lastInstant ->
  let t1 := now1 + 19800000 in
  let t2 := now2 + 19800000 in
  String.compare (getISTTimestamp now1) (getISTTimestamp now2)
  = match YearFromTime t1 ?= YearFromTime t2 with
    | Eq =>
        match MonthFromTime t1 + 1 ?= MonthFromTime t2 + 1 with
        | Eq =>
            match DateFromTime t1 ?= DateFromTime t2 with
            | Eq =>
                match HourFromTime t1 ?= HourFromTime t2 with
                | Eq =>
                    match MinFromTime t1 ?= MinFromTime t2 with
                    | Eq => SecFromTime t1 ?= SecFromTime t2
                    | c => c
                    end
                | c => c
                end
            | c => c
            end
        | c => c
        end
    | c => c
    end.
Proof.
  intros H1 H2 t1 t2.
  rewrite (stamp_fixed now1 H1), (stamp_fixed now2 H2). cbv zeta.
  fold t1. fold t2.
  unfold lastInstant in *.
  assert (Ht1 : 0 <= t1 < 253402300800000) by (subst t1; lia).
  assert (Ht2 : 0 <= t2 < 253402300800000) by (subst t2; lia).
  pose proof (year_four_digits t1 Ht1).
  pose proof (year_four_digits t2 Ht2).
  pose proof (ClockFacts.MonthFromTime_range t1).
  pose proof (ClockFacts.MonthFromTime_range t2).
  pose proof (ClockFacts.DateFromTime_range t1 ltac:(lia)).
  pose proof (ClockFacts.DateFromTime_range t2 ltac:(lia)).
  destruct (ClockFacts.time_fields_range t1) as [? [? ?]].
  destruct (ClockFacts.time_fields_range t2) as [? [? ?]].
  rewrite compare_fixed by (rewrite pow4; lia). rewrite compare_cons.
  rewrite compare_fixed by (rewrite pow2; lia). rewrite compare_cons.
  rewrite compare_fixed by (rewrite pow2; lia). rewrite compare_cons.
  rewrite compare_fixed by (rewrite pow2; lia). rewrite compare_cons.
  rewrite compare_fixed by (rewrite pow2; lia). rewrite compare_cons.
  rewrite compare_fixed by (rewrite pow2; lia).
  cbn [String.compare].
  destruct (YearFromTime t1 ?= YearFromTime t2); try reflexivity.
  destruct (MonthFromTime t1 + 1 ?= MonthFromTime t2 + 1); try reflexivity.
  destruct (DateFromTime t1 ?= DateFromTime t2); try reflexivity.
  destruct (HourFromTime t1 ?= HourFromTime t2); try reflexivity.
  destruct (MinFromTime t1 ?= MinFromTime t2); try reflexivity.
  now destruct (SecFromTime t1 ?= SecFromTime t2).
Qed.

(** *** The fields in the order of time *)

Lemma time_of_day_compare (t1 t2 : Z) :
  0 <= t1 -> 0 <= t2 -> Day t1 = Day t2 ->
  match HourFromTime t1 ?= HourFromTime t2 with
  | Eq =>
      match MinFromTime t1 ?= MinFromTime t2 with
      | Eq => SecFromTime t1 ?= SecFromTime t2
      | c => c
      end
  | c => c
  end = (t1 / 1000 ?= t2 / 1000).
Proof.
  intros H1 H2. unfold Day, msPerDay, HourFromTime, MinFromTime, SecFromTime.
  change 86400000 with (1000 * 86400). change 3600000 with (1000 * 3600).
  change 60000 with (1000 * 60).
  rewrite <- !Z.div_div by lia.
  set (q1 := t1 / 1000). set (q2 := t2 / 1000).
  assert (0 <= q1) by (apply Z.div_pos; lia).
  assert (0 <= q2) by (apply Z.div_pos; lia).
  clearbody q1 q2. intros Hd.
  destruct (Z.compare_spec ((q1 / 3600) mod 24) ((q2 / 3600) mod 24));
    destruct (Z.compare_spec ((q1 / 60) mod 60) ((q2 / 60) mod 60));
    destruct (Z.compare_spec (q1 mod 60) (q2 mod 60));
    destruct (Z.compare_spec q1 q2);
    try reflexivity; exfalso; Z.div_mod_to_equations; lia.
Qed.

Lemma later_day_later_second (t1 t2 : Z) :
  Day t1 < Day t2 -> t1 / 1000 < t2 / 1000.
Proof.
  unfold Day, msPerDay. change 86400000 with (1000 * 86400).
  rewrite <- !Z.div_div by lia.
  intros H. Z.div_mod_to_equations. lia.
Qed.

Lemma stamp_compare (now1 now2 : Z) :
  0 <= now1 < lastInstant -> 0 <= now2 < lastInstant ->
  String.compare (getISTTimestamp now1) (getISTTimestamp now2)
  = (now1 / 1000 ?= now2 / 1000).
Proof.
  intros H1 H2. rewrite stamp_compare_fields by assumption. cbv zeta.
  set (t1 := now1 + 19800000). set (t2 := now2 + 19800000).
  assert (Ht1 : 0 <= t1) by (subst t1; lia).
  assert (Ht2 : 0 <= t2) by (subst t2; lia).
  assert (Hq : (now1 / 1000 ?= now2 / 1000) = (t1 / 1000 ?= t2 / 1000)).
  { subst t1 t2.
    replace (now1 + 19800000) with (now1 + 19800 * 1000) by lia.
    replace (now2 + 19800000) with (now2 + 19800 * 1000) by lia.
    rewrite !Z.div_add by lia.
    now rewrite (Z.add_comm (now1 / 1000)), (Z.add_comm (now2 / 1000)),
      Z.add_compare_mono_l. }
  rewrite Hq.
  destruct (Z.lt_total (Day t1) (Day t2)) as [Hd | [Hd | Hd]].
  - rewrite (proj2 (Z.compare_lt_iff _ _)
               (later_day_later_second t1 t2 Hd)).
    destruct (later_day_later_date t1 t2 Ht1 Ht2 Hd)
      as [Hy | [Hy [Hm | [Hm Hdt]]]].
    + now rewrite (proj2 (Z.compare_lt_iff _ _) Hy).
    + rewrite Hy, Z.compare_refl.
      now rewrite (proj2 (Z.compare_lt_iff _ _)
                     (proj1 (Z.add_lt_mono_r _ _ 1) Hm)).
    + rewrite Hy, Hm, !Z.compare_refl.
      now rewrite (proj2 (Z.compare_lt_iff _ _) Hdt).
  - destruct (same_day_same_date t1 t2 Hd) as [Hy [Hm Hdt]].
    rewrite Hy, Hm, Hdt, !Z.compare_refl.
    now apply time_of_day_compare.
  - rewrite (proj2 (Z.compare_gt_iff _ _)
               (later_day_later_second t2 t1 Hd)).
    destruct (later_day_later_date t2 t1 Ht2 Ht1 Hd)
      as [Hy | [Hy [Hm | [Hm Hdt]]]].
    + now rewrite (proj2 (Z.compare_gt_iff _ _) Hy).
    + rewrite Hy, Z.compare_refl.
      now rewrite (proj2 (Z.compare_gt_iff _ _)
                     (proj1 (Z.add_lt_mono_r _ _ 1) Hm)).
    + rewrite Hy, Hm, !Z.compare_refl.
      now rewrite (proj2 (Z.compare_gt_iff _ _) Hdt).
Qed.

(** X18.  Timestamps sort as the instants they were taken at.  For two
    instants from the epoch up to the end of the IST year 9999, the
    order of their [getISTTimestamp] texts (the byte order that the
    string comparison of [isRefreshRequired] and SQLite's [MAX] use)
    is the order of the instants counted in whole seconds: the
    earlier instant never has the greater text, and two instants have
    the same text exactly when they fall in the same second. *)
Theorem timestamps_sort_chronologically (now1 now2 : Z) :
  0 <= now1 < lastInstant -> 0 <= now2 < lastInstant ->
  String.compare (getISTTimestamp now1) (getISTTimestamp now2)
  = (now1 / 1000 ?= now2 / 1000)
  /\ (now1 <= now2 ->
      String.leb (getISTTimestamp now1) (getISTTimestamp now2) = true)
  /\ (getISTTimestamp now1 = getISTTimestamp now2 <->
      now1 / 1000 = now2 / 1000).
Proof.
  intros H1 H2. pose proof (stamp_compare now1 now2 H1 H2) as Hc.
  split; [exact Hc|]. split.
  - intros Hle. unfold String.leb. rewrite Hc.
    assert (now1 / 1000 <= now2 / 1000) by (apply Z.div_le_mono; lia).
    destruct (Z.compare_spec (now1 / 1000) (now2 / 1000));
      [reflexivity | reflexivity | lia].
  - split.
    + intros E. rewrite E, OracleFacts.compare_refl in Hc.
      symmetry in Hc. now apply Z.compare_eq_iff.
    + intros E. apply String.compare_eq_iff.
      rewrite Hc. now apply Z.compare_eq_iff.
Qed.

End OrderFacts.

(** ** Staleness in instants *)

Module StalenessFacts.

Import JS Clock Instants Instruments.

Lemma cutoffInstant_day (now : Z) :
  let ist := now + 19800000 in
  (if TimeWithinDay ist <? 30600000 then Day ist - 1 else Day ist)
  = Day (ist - 30600000).
Proof.
  cbv zeta. unfold TimeWithinDay, Day, msPerDay.
  destruct (Z.ltb_spec ((now + 19800000) mod 86400000) 30600000);
    Z.div_mod_to_equations; lia.
Qed.

Lemma cutoffInstant_bracket (now : Z) :
  cutoffInstant now <= now < cutoffInstant now + msPerDay
  /\ (cutoffInstant now + 19800000) mod msPerDay = 30600000
  /\ cutoffInstant now mod 1000 = 0.
Proof.
  unfold cutoffInstant, Day, msPerDay. Z.div_mod_to_equations. lia.
Qed.

Lemma cutoffInstant_next (now now' : Z) :
  now < cutoffInstant now' <-> cutoffInstant now + msPerDay <= now'.
Proof.
  unfold cutoffInstant, Day, msPerDay. Z.div_mod_to_equations. lia.
Qed.

(** The cutoff is the timestamp of the cutoff instant. *)
Lemma cutoffOf_stamp (now : Z) :
  10800000 <= now ->
  cutoffOf now = getISTTimestamp (cutoffInstant now).
Proof.
  intros Hn. unfold cutoffOf, dateString. cbv zeta.
  rewrite cutoffInstant_day.
  rewrite FreshnessFacts.getISTTimestamp_shape. cbv zeta.
  set (D := Day (now + 19800000 - 30600000)).
  assert (HD : 0 <= D)
    by (subst D; unfold Day, msPerDay; apply Z.div_pos; lia).
  assert (Et : cutoffInstant now + 19800000 = D * msPerDay + 30600000)
    by (unfold cutoffInstant; fold D; lia).
  rewrite Et.
  assert (Hday : Day (MakeDate D 0) = Day (D * msPerDay + 30600000)).
  { rewrite ClockFacts.Day_of_midnight. unfold Day, msPerDay.
    Z.div_mod_to_equations. lia. }
  destruct (OrderFacts.same_day_same_date _ _ Hday) as [-> [-> ->]].
  assert (Hh : HourFromTime (D * msPerDay + 30600000) = 8)
    by (unfold HourFromTime, msPerDay; Z.div_mod_to_equations; lia).
  assert (Hm : MinFromTime (D * msPerDay + 30600000) = 30)
    by (unfold MinFromTime, msPerDay; Z.div_mod_to_equations; lia).
  assert (Hs : SecFromTime (D * msPerDay + 30600000) = 0)
    by (unfold SecFromTime, msPerDay; Z.div_mod_to_equations; lia).
  rewrite Hh, Hm, Hs.
  change (pad2 8) with "08". change (pad2 30) with "30".
  change (pad2 0) with "00".
  repeat first [rewrite JSFacts.app_assoc | progress cbn [append]].
  reflexivity.
Qed.

Lemma stamp_nonempty (now : Z) :
  String.eqb (getISTTimestamp now) EmptyString = false.
Proof.
  rewrite FreshnessFacts.getISTTimestamp_shape. cbv zeta.
  match goal with
  | |- String.eqb ((?a ++ _) ++ _)%string _ = false => destruct a
  end; reflexivity.
Qed.

Section WithNumbers.

Context {number : Type}.
Variable parseInt parseFloat : string -> number.
Variable orZero : number -> number.

Lemma stale_iff (now t : Z) (st : DbState number) :
  10800000 <= now < lastInstant ->
  0 <= t < lastInstant ->
  max_updated_at (rows st) = Some (getISTTimestamp t) ->
  (isRefreshRequired now NoFault st = true <-> t < cutoffInstant now).
Proof.
  intros Hn Ht Hmax.
  unfold isRefreshRequired.
  rewrite FreshnessFacts.getInstrumentsRefreshCutoff_spec by lia.
  unfold getLatestUpdateTime. rewrite Hmax, stamp_nonempty.
  rewrite cutoffOf_stamp by lia.
  destruct (cutoffInstant_bracket now) as [Hb [_ Hk]].
  assert (Hc : 0 <= cutoffInstant now < lastInstant).
  { split; [|lia]. unfold cutoffInstant, Day, msPerDay.
    Z.div_mod_to_equations. lia. }
  unfold String.ltb.
  rewrite (OrderFacts.stamp_compare t (cutoffInstant now) Ht Hc).
  assert (Hq : t / 1000 < cutoffInstant now / 1000 <-> t < cutoffInstant now)
    by (split; intros; Z.div_mod_to_equations; lia).
  destruct (Z.compare_spec (t / 1000) (cutoffInstant now / 1000)) as [E|E|E].
  - split; [discriminate | intros; lia].
  - split; [intros _; now apply Hq | reflexivity].
  - split; [discriminate | intros; lia].
Qed.

(** X19.  Data is stale exactly when it was stamped before the
    latest 08:30 IST.  Let the greatest [updated_at] of the table be
    the timestamp taken at instant [t], and let [now] be an instant
    from 08:30 IST of the first day of 1970 up to the end of the IST
    year 9999.  Then [isRefreshRequired] answers true exactly when
    [t] is before the cutoff instant of [now], which is the latest
    instant at or before [now] at which it is 08:30:00 in IST. *)
Theorem staleness_in_instants (now t : Z) (st : DbState number) :
  10800000 <= now < lastInstant ->
  0 <= t < lastInstant ->
  max_updated_at (rows st) = Some (getISTTimestamp t) ->
  (isRefreshRequired now NoFault st = true <-> t < cutoffInstant now)
  /\ cutoffInstant now <= now < cutoffInstant now + msPerDay
  /\ (cutoffInstant now + 19800000) mod msPerDay = 30600000
  /\ cutoffOf now = getISTTimestamp (cutoffInstant now).
Proof.
  intros Hn Ht Hmax.
  split; [now apply stale_iff|].
  destruct (cutoffInstant_bracket now) as [Hb [Hc _]].
  split; [exact Hb|]. split; [exact Hc|].
  apply cutoffOf_stamp. lia.
Qed.

Lemma max_updated_at_const (table : list (InstrumentRecord number))
      (stamp : string) :
  table <> [] ->
  Forall (fun r => updated_at r = stamp) table ->
  max_updated_at table = Some stamp.
Proof.
  induction table as [|r rest IH]; intros Hne Hall; [congruence|].
  inversion Hall as [|? ? Hr Hrest]; subst.
  cbn [max_updated_at]. destruct rest as [|r' rest'].
  - reflexivity.
  - rewrite IH by (try discriminate; exact Hrest).
    now destruct (String.ltb (updated_at r) (updated_at r)).
Qed.

Lemma parseCSV_nonempty (csvText : string) (csvData : list Row) :
  parseCSV csvText = Ok csvData -> csvData <> [].
Proof.
  unfold parseCSV.
  destruct (List.length (JS.split newline (JS.trim csvText)) <? 2)%nat
    eqn:El; [discriminate|].
  intros H. injection H as <-. apply Nat.ltb_ge in El.
  destruct (JS.split newline (JS.trim csvText)) as [|l0 [|l1 ls]];
    cbn in El; try lia. discriminate.
Qed.

Lemma refreshed_stamp (env : Env) (st st' : DbState number)
      (r : RefreshResult) :
  txn st = None ->
  performInstrumentsRefresh parseInt parseFloat orZero env st = (r, st') ->
  success r = true ->
  max_updated_at (rows st') = Some (getISTTimestamp (now env)).
Proof.
  intros Ht H Hs. unfold performInstrumentsRefresh in H.
  destruct (fetched env) as [msg | ok statusText text];
    [cbn in H; injection H as <- <-; discriminate Hs|].
  destruct ok; cbn [negb] in H;
    [|cbn in H; injection H as <- <-; discriminate Hs].
  unfold mbind at 1, lift at 1 in H.
  destruct text as [csvText | msg];
    [|cbn in H; injection H as <- <-; discriminate Hs].
  unfold mbind at 1, lift at 1 in H.
  destruct (parseCSV csvText) as [csvData | msg] eqn:Ep;
    [|cbn in H; injection H as <- <-; discriminate Hs].
  set (records := map _ csvData) in H.
  pose proof (RefreshFacts.replaceRows_outcome parseInt parseFloat orZero
                env records st Ht) as O.
  destruct (replaceRows env records st) as [[r' | msg] st''];
    [|injection H as <- <-; discriminate Hs].
  injection H as <- <-. destruct O as [_ O]. rewrite Hs in O.
  destruct O as [-> _]. subst records.
  apply max_updated_at_const.
  - pose proof (parseCSV_nonempty _ _ Ep). now destruct csvData.
  - apply Forall_forall. intros x Hx. apply in_map_iff in Hx.
    destruct Hx as [row [<- _]]. reflexivity.
Qed.

(** X20.  A successful refresh makes the data fresh until the next
    08:30 IST.  After [performInstrumentsRefresh] reports success
    at an instant [now] (on a connection with no open transaction,
    between 08:30 IST of the first day of 1970 and the end of the
    IST year 9999), the greatest [updated_at] of the table is the
    timestamp of [now]; [isRefreshRequired] asked at that same
    instant answers false; and asked at any later instant it
    answers true exactly from the first 08:30:00 IST after [now]
    on. *)
Theorem refresh_makes_fresh (env : Env) (st st' : DbState number)
        (r : RefreshResult) :
  txn st = None ->
  performInstrumentsRefresh parseInt parseFloat orZero env st = (r, st') ->
  success r = true ->
  10800000 <= now env < lastInstant ->
  max_updated_at (rows st') = Some (getISTTimestamp (now env))
  /\ isRefreshRequired (now env) NoFault st' = false
  /\ forall now', now env <= now' < lastInstant ->
                  (isRefreshRequired now' NoFault st' = true <->
                   cutoffInstant (now env) + msPerDay <= now').
Proof.
  intros Ht H Hs Hn.
  pose proof (refreshed_stamp env st st' r Ht H Hs) as Hmax.
  split; [exact Hmax|]. split.
  - pose proof (stale_iff (now env) (now env) st' Hn ltac:(lia) Hmax)
      as Hi.
    destruct (cutoffInstant_bracket (now env)) as [Hb _].
    destruct (isRefreshRequired (now env) NoFault st'); [|reflexivity].
    pose proof (proj1 Hi eq_refl). lia.
  - intros now' Hn'.
    rewrite (stale_iff now' (now env) st') by (try assumption; lia).
    apply cutoffInstant_next.
Qed.

End WithNumbers.

End StalenessFacts.

Module StalenessWitness.

Import Clock Instants Instruments.

Lemma timestamps_sort_chronologically_witness :
  String.compare (getISTTimestamp 1704857400000)
                 (getISTTimestamp 1704857401000) = Lt
  /\ String.leb (getISTTimestamp 1704857400000)
                (getISTTimestamp 1704857401000) = true.
Proof.
  destruct (OrderFacts.timestamps_sort_chronologically
              1704857400000 1704857401000)
    as [Hc [Hl _]]; try (unfold lastInstant; lia).
  split; [rewrite Hc; reflexivity | apply Hl; lia].
Defined.

Lemma staleness_in_instants_witness :
  (isRefreshRequired 1704857400000 NoFault
     (tableOf [getISTTimestamp 1704855599000]) = true
   <-> 1704855599000 < cutoffInstant 1704857400000)
  /\ cutoffOf 1704857400000 = getISTTimestamp (cutoffInstant 1704857400000).
Proof.
  destruct (StalenessFacts.staleness_in_instants
              1704857400000 1704855599000
              (tableOf [getISTTimestamp 1704855599000]))
    as [Hi [_ [_ Hc]]]; try (unfold lastInstant; lia).
  - reflexivity.
  - split; [exact Hi | exact Hc].
Defined.

Lemma refresh_makes_fresh_witness :
  max_updated_at (rows (snd (demoRefresh noFaults)))
  = Some "2024-01-10 09:00:00"
  /\ isRefreshRequired 1704857400000 NoFault (snd (demoRefresh noFaults))
     = false.
Proof.
  destruct (StalenessFacts.refresh_makes_fresh
              (fun _ => tt) (fun _ => tt) (fun x => x)
              (demoEnv noFaults) oldTable
              (snd (demoRefresh noFaults)) (fst (demoRefresh noFaults)))
    as [Hm [Hf _]].
  - reflexivity.
  - vm_compute. reflexivity.
  - vm_compute. reflexivity.
  - cbn [now demoEnv]. unfold lastInstant. lia.
  - split; [|exact Hf].
    rewrite Hm. vm_compute. reflexivity.
Defined.

End StalenessWitness.

(** ** The query endpoint *)

Module QueryFacts.

Import Session Query.

Lemma get_same (name : string) (ps ps' : list (string * string)) :
  special name = true ->
  same_but_filter_values ps ps' ->
  get name ps = get name ps'.
Proof.
  intros Hn H. induction H as [|[k v] [k' v'] ps ps' [Hk Hv] _ IH];
    [reflexivity|].
  cbn [fst snd] in Hk, Hv. subst k'. cbn [get].
  destruct (String.eqb_spec k name) as [-> | Hne]; [|exact IH].
  destruct Hv as [[Hs _] | ->]; [congruence | reflexivity].
Qed.

Lemma keys_buildFilters (ps ps' fs fs' : list (string * string)) :
  same_but_filter_values ps ps' ->
  map fst fs = map fst fs' ->
  map fst (buildFilters ps fs) = map fst (buildFilters ps' fs').
Proof.
  intros H. revert fs fs'.
  induction H as [|[k v] [k' v'] ps ps' [Hk _] _ IH]; intros fs fs' Hf;
    [exact Hf|].
  cbn [fst] in Hk. subst k'. cbn [buildFilters].
  destruct (special k); [now apply IH|].
  destruct (member k VALID_QUERY_FIELDS); [|now apply IH].
  apply IH. rewrite !FeedFacts.keys_row_set. now rewrite Hf.
Qed.

Lemma buildFilters_valid (ps fs : list (string * string)) :
  Forall (fun f => member (fst f) VALID_QUERY_FIELDS = true) fs ->
  Forall (fun f => member (fst f) VALID_QUERY_FIELDS = true)
         (buildFilters ps fs).
Proof.
  revert fs. induction ps as [|[k v] ps IH]; intros fs Hf; [exact Hf|].
  cbn [buildFilters]. destruct (special k); [now apply IH|].
  destruct (member k VALID_QUERY_FIELDS) eqn:Ek; [|now apply IH].
  apply IH. clear IH.
  induction fs as [|[k0 v0] fs IHf]; cbn [Instruments.row_set].
  - constructor; [exact Ek | constructor].
  - inversion Hf as [|? ? H0 Hrest]; subst.
    destruct (String.eqb k0 k).
    + constructor; [exact Ek | exact Hrest].
    + constructor; [exact H0 | now apply IHf].
Qed.

Lemma member_In (x : string) (xs : list string) :
  member x xs = true <-> In x xs.
Proof.
  unfold member. rewrite existsb_exists. split.
  - intros [y [Hy E]]. apply String.eqb_eq in E. now subst y.
  - intros H. exists x. split; [exact H | apply String.eqb_refl].
Qed.

Section WithRuntime.

Variable R : Runtime.

(** X21.  The values given for the filter fields reach neither the
    text of the statement nor the decision to run it.  For two lists
    of query parameters with the same names in the same order that
    differ at most in the values of the fields of
    [VALID_QUERY_FIELDS]: either both are refused with the same
    reply, or both are planned with the same SQL text and the same
    number of bound values. *)
Theorem filter_values_stay_out_of_sql (ps ps' : list (string * string)) :
  same_but_filter_values ps ps' ->
  match planQuery R ps, planQuery R ps' with
  | inr p, inr p' =>
      sql p = sql p'
      /\ List.length (queryParams p) = List.length (queryParams p')
  | inl early, inl early' => early = early'
  | _, _ => False
  end.
Proof.
  intros H. unfold planQuery.
  rewrite (get_same "order_by" ps ps' eq_refl H).
  rewrite (get_same "order" ps ps' eq_refl H).
  rewrite (get_same "limit" ps ps' eq_refl H).
  rewrite (get_same "strike_min" ps ps' eq_refl H).
  rewrite (get_same "strike_max" ps ps' eq_refl H).
  pose proof (keys_buildFilters ps ps' [] [] H eq_refl) as Hk.
  set (filters := buildFilters ps []) in *.
  set (filters' := buildFilters ps' []) in *.
  assert (Hlen : List.length filters = List.length filters')
    by (rewrite <- (length_map fst filters), Hk; apply length_map).
  assert (Hw : map (fun f => whereClause (fst f)) filters
               = map (fun f => whereClause (fst f)) filters')
    by (rewrite <- !(map_map fst whereClause); now rewrite Hk).
  cbv zeta.
  destruct (negb _ && negb _); [reflexivity|].
  destruct (opt_truthy (get "order_by" ps') && negb _); [reflexivity|].
  destruct (readLimit R (get "limit" ps')) as [e | limit];
    [reflexivity|].
  destruct (readStrike R (get "strike_min" ps') _) as [e | strikeMin];
    [reflexivity|].
  destruct (readStrike R (get "strike_max" ps') _) as [e | strikeMax];
    [reflexivity|].
  destruct (match strikeMin with
            | Some lo => match strikeMax with
                         | Some hi => greater R lo hi
                         | None => false
                         end
            | None => false
            end); [reflexivity|].
  rewrite Hlen.
  destruct ((List.length filters' =? 0)%nat && _); [reflexivity|].
  cbn [sql queryParams]. rewrite Hw. split; [reflexivity|].
  rewrite !length_app, !length_map. now rewrite Hlen.
Qed.

(** X22.  Every statement that is planned is put together from fixed
    texts.  Its text is the SELECT template around at least one
    condition, the conditions joined by AND, each one of the ten
    texts [field = ?], [field = ? COLLATE NOCASE], [strike >= ?],
    [strike <= ?] over the fields of [VALID_QUERY_FIELDS], with as
    many bound values as conditions; followed, if at all, by ORDER
    BY with a column of [VALID_ORDER_BY_FIELDS] and the upper case
    of asc or desc, and by LIMIT with a number that is not NaN, not
    below 1 and not above 10000. *)
Theorem planned_statement_is_whitelisted
        (ps : list (string * string)) (p : Plan R) :
  planQuery R ps = inr p ->
  exists clauses ordering limiting,
    sql p = (sqlBefore ++ JS.join " AND " clauses ++ sqlAfter
               ++ ordering ++ limiting)%string
    /\ clauses <> []
    /\ Forall (fun c => In c conditions) clauses
    /\ List.length (queryParams p) = List.length clauses
    /\ (ordering = EmptyString
        \/ exists column direction,
             ordering = (" ORDER BY " ++ column ++ " "
                           ++ toUpperCase R direction)%string
             /\ In column VALID_ORDER_BY_FIELDS
             /\ (direction = "asc" \/ direction = "desc"))
    /\ (limiting = EmptyString
        \/ exists n,
             limiting = (" LIMIT " ++ show R n)%string
             /\ isNaN R n = false
             /\ lessThan R n 1 = false
             /\ greaterThan R n 10000 = false).
Proof.
  unfold planQuery. cbv zeta.
  set (orderParam :=
         match get "order" ps with
         | Some s =>
             if nonempty (toLowerCase R s) then toLowerCase R s else "asc"
         | None => "asc"
         end).
  destruct (negb (String.eqb orderParam "asc")
            && negb (String.eqb orderParam "desc")) eqn:Eo;
    [discriminate|].
  destruct (opt_truthy (get "order_by" ps)
            && negb (member (opt_or (get "order_by" ps) EmptyString)
                            VALID_ORDER_BY_FIELDS)) eqn:Eb;
    [discriminate|].
  destruct (readLimit R (get "limit" ps)) as [e | limit] eqn:El;
    [discriminate|].
  destruct (readStrike R (get "strike_min" ps) _) as [e | strikeMin];
    [discriminate|].
  destruct (readStrike R (get "strike_max" ps) _) as [e | strikeMax];
    [discriminate|].
  destruct (match strikeMin with
            | Some lo => match strikeMax with
                         | Some hi => greater R lo hi
                         | None => false
                         end
            | None => false
            end); [discriminate|].
  pose proof (buildFilters_valid ps [] (Forall_nil _)) as Hvalid.
  set (filters := buildFilters ps []) in *.
  destruct ((List.length filters =? 0)%nat && _) eqn:Ee; [discriminate|].
  intros Hp. injection Hp as Hp. rewrite <- Hp. clear Hp p.
  cbn [sql queryParams].
  set (clauses :=
         map (fun f => whereClause (fst f)) filters
           ++ match strikeMin with
              | Some _ => ["strike >= ?"]
              | None => []
              end
           ++ match strikeMax with
              | Some _ => ["strike <= ?"]
              | None => []
              end).
  exists clauses.
  exists (if opt_truthy (get "order_by" ps)
          then (" ORDER BY " ++ opt_or (get "order_by" ps) EmptyString
                  ++ " " ++ toUpperCase R orderParam)%string
          else EmptyString).
  exists (if present_number R limit
          then (" LIMIT " ++ match limit with
                             | Some n => show R n
                             | None => EmptyString
                             end)%string
          else EmptyString).
  split; [|split; [|split; [|split; [|split]]]].
  - destruct (opt_truthy (get "order_by" ps));
      destruct (present_number R limit);
      repeat first [rewrite JSFacts.app_assoc
                   | rewrite JSFacts.app_empty_r
                   | progress cbn [append]];
      reflexivity.
  - subst clauses. intros Hc.
    apply app_eq_nil in Hc. destruct Hc as [Hf Hc].
    apply app_eq_nil in Hc. destruct Hc as [Hlo Hhi].
    apply map_eq_nil in Hf. rewrite Hf in Ee. cbn in Ee.
    destruct strikeMin; [discriminate|].
    destruct strikeMax; discriminate.
  - subst clauses. apply Forall_app. split; [|apply Forall_app; split].
    + apply Forall_forall. intros c Hc. apply in_map_iff in Hc.
      destruct Hc as [f [<- Hf]].
      rewrite Forall_forall in Hvalid. specialize (Hvalid f Hf).
      unfold conditions. apply in_or_app. left.
      apply in_map. now apply member_In.
    + destruct strikeMin; constructor; [|constructor].
      unfold conditions. apply in_or_app. right. now left.
    + destruct strikeMax; constructor; [|constructor].
      unfold conditions. apply in_or_app. right. right. now left.
  - subst clauses. rewrite !length_app, !length_map.
    now destruct strikeMin, strikeMax.
  - destruct (opt_truthy (get "order_by" ps)) eqn:Et; [right | now left].
    exists (opt_or (get "order_by" ps) EmptyString), orderParam.
    split; [reflexivity|]. split.
    + cbn [andb] in Eb. apply negb_false_iff in Eb.
      now apply member_In.
    + destruct (String.eqb_spec orderParam "asc") as [Ha | Ha];
        [now left|].
      destruct (String.eqb_spec orderParam "desc") as [Hd | Hd];
        [now right | discriminate].
  - unfold readLimit in El.
    destruct (opt_truthy (get "limit" ps));
      [|injection El as <-; now left].
    cbv zeta in El.
    destruct (isNaN R _ || lessThan R _ 1) eqn:E1; [discriminate|].
    destruct (greaterThan R _ 10000) eqn:E2; [discriminate|].
    injection El as <-. cbn [present_number].
    destruct (truthyNumber R _); [right | now left].
    eexists. split; [reflexivity|].
    apply orb_false_iff in E1. destruct E1 as [E1 E3].
    now repeat split.
Qed.

Lemma get_known (name : string) (ps : list (string * string)) :
  special name = true ->
  get name (filter known ps) = get name ps.
Proof.
  intros Hn. induction ps as [|[k v] ps IH]; [reflexivity|].
  cbn [filter get]. unfold known at 1. cbn [fst].
  destruct (String.eqb_spec k name) as [-> | Hne].
  - rewrite Hn. cbn [orb get]. now rewrite String.eqb_refl.
  - destruct (special k || member k VALID_QUERY_FIELDS);
      [cbn [get]; destruct (String.eqb_spec k name); [congruence|]|];
      exact IH.
Qed.

Lemma buildFilters_known (ps fs : list (string * string)) :
  buildFilters (filter known ps) fs = buildFilters ps fs.
Proof.
  revert fs. induction ps as [|[k v] ps IH]; intros fs; [reflexivity|].
  cbn [filter buildFilters]. unfold known at 1. cbn [fst].
  destruct (special k) eqn:Es; cbn [orb buildFilters].
  - rewrite Es. apply IH.
  - destruct (member k VALID_QUERY_FIELDS) eqn:Em; cbn [buildFilters].
    + rewrite Es, Em. apply IH.
    + apply IH.
Qed.

Lemma planQuery_known (ps : list (string * string)) :
  planQuery R (filter known ps) = planQuery R ps.
Proof.
  unfold planQuery.
  rewrite !get_known by reflexivity.
  now rewrite buildFilters_known.
Qed.

(** X23.  Parameters under unknown names change nothing as long as a
    known name is left.  When the list of query parameters keeps at
    least one parameter after those are removed whose names are
    neither one of the five special ones (order_by, order, limit,
    strike_min, strike_max) nor a field of [VALID_QUERY_FIELDS],
    [handleQuery] gives for the whole list the reply and the table
    it gives for the list without them.  When a list that is not
    empty holds unknown names only, a GET is refused with "No valid
    query parameters provided", where the empty list it leaves is
    refused with "At least one query parameter is required"; the
    table afterwards is the same for both. *)
Theorem unknown_parameters_are_ignored
        (method : string) (ps : list (string * string))
        (env : Query.Env R) (st : Instruments.DbState (number R)) :
  (filter known ps <> [] ->
   handleQuery R method (filter known ps) env st
   = handleQuery R method ps env st)
  /\ (ps <> [] -> filter known ps = [] ->
      fst (handleQuery R "GET" ps env st)
      = inputError
          ("No valid query parameters provided. Valid fields: "
             ++ JS.join ", " VALID_QUERY_FIELDS
             ++ ", strike_min, strike_max")
      /\ fst (handleQuery R "GET" (filter known ps) env st)
         = inputError "At least one query parameter is required"
      /\ snd (handleQuery R "GET" ps env st)
         = snd (handleQuery R "GET" (filter known ps) env st)).
Proof.
  split.
  - intros Hk. unfold handleQuery.
    destruct (negb (String.eqb method "GET")); [reflexivity|].
    cbv zeta. rewrite planQuery_known.
    destruct ps as [|p ps]; [now elim Hk|].
    destruct (filter known (p :: ps)) as [|q qs]; [now elim Hk|].
    reflexivity.
  - intros Hps Hk.
    pose proof (planQuery_known ps) as Hplan. rewrite Hk in Hplan.
    unfold handleQuery. rewrite Hk. cbn [String.eqb Ascii.eqb Bool.eqb negb].
    cbv zeta. rewrite <- Hplan.
    destruct ps as [|p ps]; [now elim Hps|].
    split; [reflexivity|]. split; reflexivity.
Qed.

End WithRuntime.

End QueryFacts.

Module QueryTableFacts.

Import Session Query Instants.

Lemma handleQuery_table (R : Runtime) (method : string)
      (ps : list (string * string)) (env : Query.Env R)
      (st : Instruments.DbState (number R)) :
  snd (handleQuery R method ps env st)
  = if negb (String.eqb method "GET") then st
    else if Instruments.isRefreshRequired (checkedAt R env)
              (checkFault R env) st
         then snd (Instruments.performInstrumentsRefresh
                     (parseInt R) (parseFloat R) (orZero R)
                     (refreshEnv R env) st)
         else st.
Proof.
  unfold handleQuery.
  destruct (negb (String.eqb method "GET")); [reflexivity|].
  cbv zeta.
  destruct ps as [|p ps]; [reflexivity|].
  destruct (planQuery R (p :: ps)) as [early | plan]; [reflexivity|].
  now destruct (execute R env _ (sql plan) (queryParams plan)).
Qed.

(** X24.  A query changes the table only through the refresh that
    goes before it.  Take a table with no open transaction, and let
    the refresh, when it runs, read the clock at an instant between
    08:30 IST of the first day of 1970 and the end of the IST year
    9999.  After [handleQuery] no transaction is open, and the table
    is fresh by the rule of [isRefreshRequired] at every instant from
    08:30 IST of the first day of 1970 up to the one the refresh read
    (so at the instant of the staleness check that went before, when
    the clock did not run backwards in between), or holds the rows it
    held, or holds no rows.  A request with a method other than GET,
    and a request that finds the data fresh, leave the table and its
    log of statements exactly as they were. *)
Theorem query_leaves_fresh_old_or_no_rows (R : Runtime) (method : string)
        (ps : list (string * string)) (env : Query.Env R)
        (st : Instruments.DbState (number R)) :
  Instruments.txn st = None ->
  10800000 <= Instruments.now (refreshEnv R env) < lastInstant ->
  let st' := snd (handleQuery R method ps env st) in
  Instruments.txn st' = None
  /\ ((forall now',
         10800000 <= now' <= Instruments.now (refreshEnv R env) ->
         Instruments.isRefreshRequired now' Instruments.NoFault st' = false)
      \/ Instruments.rows st' = Instruments.rows st
      \/ Instruments.rows st' = [])
  /\ (method <> "GET"
      \/ Instruments.isRefreshRequired (checkedAt R env) (checkFault R env)
           st = false ->
      st' = st).
Proof.
  intros Ht Hn st'. subst st'. rewrite handleQuery_table.
  destruct (String.eqb_spec method "GET") as [-> | Hm]; cbn [negb].
  2: { split; [exact Ht|]. split; [right; now left | reflexivity]. }
  destruct (Instruments.isRefreshRequired (checkedAt R env)
              (checkFault R env) st) eqn:Es.
  2: { split; [exact Ht|]. split; [right; now left | reflexivity]. }
  destruct (Instruments.performInstrumentsRefresh (parseInt R)
              (parseFloat R) (orZero R) (refreshEnv R env) st)
    as [r st1] eqn:Er.
  cbn [snd].
  destruct (FeedFacts.refresh_outcome _ _ _ _ _ _ _ Ht Er) as [T O].
  split; [exact T|]. split.
  - destruct (Instruments.success r) eqn:Hs; [left | right; exact O].
    intros now' Hn'.
    pose proof (StalenessFacts.refreshed_stamp _ _ _ _ _ _ _ Ht Er Hs)
      as Hmax.
    pose proof (StalenessFacts.stale_iff now'
                  (Instruments.now (refreshEnv R env)) st1
                  ltac:(lia) ltac:(lia) Hmax) as Hi.
    destruct (StalenessFacts.cutoffInstant_bracket now') as [Hb _].
    destruct (Instruments.isRefreshRequired now'
                Instruments.NoFault st1); [|reflexivity].
    pose proof (proj1 Hi eq_refl). lia.
  - intros [Hm | Hf]; [now elim Hm | discriminate Hf].
Qed.

End QueryTableFacts.

Module QueryWitness.

Import Session Query.

Lemma filter_values_stay_out_of_sql_witness :
  same_but_filter_values
    [("name", "NIFTY"); ("limit", "5"); ("order_by", "strike")]
    [("name", "x' OR 1=1 --"); ("limit", "5"); ("order_by", "strike")]
  /\ match planQuery demoNumbers
            [("name", "NIFTY"); ("limit", "5"); ("order_by", "strike")],
          planQuery demoNumbers
            [("name", "x' OR 1=1 --"); ("limit", "5");
             ("order_by", "strike")]
     with
     | inr p, inr p' =>
         sql p = sql p'
         /\ List.length (queryParams p) = List.length (queryParams p')
     | inl early, inl early' => early = early'
     | _, _ => False
     end.
Proof.
  assert (H : same_but_filter_values
                [("name", "NIFTY"); ("limit", "5"); ("order_by", "strike")]
                [("name", "x' OR 1=1 --"); ("limit", "5");
                 ("order_by", "strike")]).
  { unfold same_but_filter_values.
    constructor; [split; [reflexivity | left; split; reflexivity]|].
    constructor; [split; [reflexivity | right; reflexivity]|].
    constructor; [split; [reflexivity | right; reflexivity]|].
    constructor. }
  split; [exact H|].
  exact (QueryFacts.filter_values_stay_out_of_sql demoNumbers _ _ H).
Defined.

Lemma planned_statement_is_whitelisted_witness :
  exists p,
    planQuery demoNumbers
      [("name", "NIFTY"); ("strike_min", "100"); ("limit", "5");
       ("order_by", "strike"); ("order", "DESC")] = inr p
    /\ exists clauses ordering limiting,
         sql p = (sqlBefore ++ JS.join " AND " clauses ++ sqlAfter
                    ++ ordering ++ limiting)%string
         /\ clauses <> []
         /\ Forall (fun c => In c conditions) clauses
         /\ List.length (queryParams p) = List.length clauses.
Proof.
  destruct (planQuery demoNumbers
              [("name", "NIFTY"); ("strike_min", "100"); ("limit", "5");
               ("order_by", "strike"); ("order", "DESC")])
    as [early | p] eqn:E.
  - vm_compute in E. discriminate E.
  - exists p. split; [reflexivity|].
    destruct (QueryFacts.planned_statement_is_whitelisted demoNumbers _ p E)
      as [clauses [ordering [limiting [Hs [Hn [Hc [Hl _]]]]]]].
    exists clauses, ordering, limiting. now repeat split.
Defined.

Lemma unknown_parameters_are_ignored_witness :
  handleQuery demoNumbers "GET" [("name", "ABC")] demoQueryEnv emptyTable
  = handleQuery demoNumbers "GET"
      [("colour", "red"); ("name", "ABC"); ("page", "2")]
      demoQueryEnv emptyTable
  /\ fst (handleQuery demoNumbers "GET" [("colour", "red")] demoQueryEnv
            emptyTable)
     = inputError
         ("No valid query parameters provided. Valid fields: "
            ++ JS.join ", " VALID_QUERY_FIELDS
            ++ ", strike_min, strike_max")
  /\ fst (handleQuery demoNumbers "GET" [] demoQueryEnv emptyTable)
     = inputError "At least one query parameter is required".
Proof.
  split.
  - apply (proj1 (QueryFacts.unknown_parameters_are_ignored demoNumbers
                    "GET"
                    [("colour", "red"); ("name", "ABC"); ("page", "2")]
                    demoQueryEnv emptyTable)).
    discriminate.
  - destruct (proj2 (QueryFacts.unknown_parameters_are_ignored demoNumbers
                       "GET" [("colour", "red")] demoQueryEnv emptyTable))
      as [H1 [H2 _]]; [discriminate | reflexivity |].
    split; [exact H1 | exact H2].
Defined.

Lemma query_leaves_fresh_old_or_no_rows_witness :
  Instruments.txn
    (snd (handleQuery demoNumbers "GET" [("name", "ABC")] demoQueryEnv
            emptyTable)) = None
  /\ Instruments.isRefreshRequired 1704857399000 Instruments.NoFault
       (snd (handleQuery demoNumbers "GET" [("name", "ABC")] demoQueryEnv
               emptyTable)) = false
  /\ List.length
       (Instruments.rows
          (snd (handleQuery demoNumbers "GET" [("name", "ABC")]
                  demoQueryEnv emptyTable))) = 2%nat.
Proof.
  destruct (QueryTableFacts.query_leaves_fresh_old_or_no_rows demoNumbers
              "GET" [("name", "ABC")] demoQueryEnv emptyTable)
    as [Ht [Hf _]].
  - reflexivity.
  - cbn [refreshEnv demoQueryEnv Instruments.now Instruments.demoEnv].
    unfold Instants.lastInstant. lia.
  - split; [exact Ht|]. split; [|vm_compute; reflexivity].
    destruct Hf as [Hf | [Hf | Hf]];
      [|vm_compute in Hf; discriminate Hf
       |vm_compute in Hf; discriminate Hf].
    apply Hf.
    cbn [refreshEnv demoQueryEnv Instruments.now Instruments.demoEnv]. lia.
Defined.

End QueryWitness.

(** ** The cookie values read from a Set-Cookie header *)

Module CookieValueFacts.

Import Session.

Lemma prefix_drop (pat s : string) :
  String.prefix pat s = true ->
  s = (pat ++ drop (String.length pat) s)%string.
Proof.
  revert s. induction pat as [|a pat IH]; intros s H; [reflexivity|].
  destruct s as [|b s]; [discriminate H|].
  cbn [String.prefix] in H.
  destruct (Ascii.ascii_dec a b) as [<- | Hne]; [|discriminate H].
  cbn [String.length drop append]. now rewrite <- IH.
Qed.

Lemma prefix_app (pat x : string) : String.prefix pat (pat ++ x) = true.
Proof.
  induction pat as [|a pat IH]; [now destruct x|].
  cbn [append String.prefix].
  destruct (Ascii.ascii_dec a a) as [_ | Hne]; [exact IH | now elim Hne].
Qed.

Lemma drop_app (pat x : string) : drop (String.length pat) (pat ++ x) = x.
Proof. induction pat as [|a pat IH]; [reflexivity | exact IH]. Qed.

Lemma skip_not_semicolon (s : string) :
  JS.skip_while (fun c => negb (Ascii.eqb c ";")) s = EmptyString
  \/ exists r,
       JS.skip_while (fun c => negb (Ascii.eqb c ";")) s = String ";" r.
Proof.
  induction s as [|c s IH]; [now left|].
  cbn [JS.skip_while].
  destruct (Ascii.eqb_spec c ";") as [-> | Hne]; cbn [negb];
    [right; now exists s | exact IH].
Qed.

Lemma parseCookie_from_found (pat s v : string) :
  parseCookie_from pat s = Some v ->
  v <> EmptyString
  /\ JS.free_of ";" v
  /\ exists before after,
       s = (before ++ pat ++ v ++ after)%string
       /\ (after = EmptyString \/ exists r, after = String ";" r).
Proof.
  assert (Here : forall s,
             (if String.prefix pat s then
                if nonempty (JS.take_while (fun c => negb (Ascii.eqb c ";"))
                               (drop (String.length pat) s))
                then Some (JS.take_while (fun c => negb (Ascii.eqb c ";"))
                             (drop (String.length pat) s))
                else None
              else None) = Some v ->
             v <> EmptyString
             /\ JS.free_of ";" v
             /\ exists after,
                  s = (pat ++ v ++ after)%string
                  /\ (after = EmptyString
                      \/ exists r, after = String ";" r)).
  { intros s0 H.
    destruct (String.prefix pat s0) eqn:Ep; [|discriminate H].
    destruct (nonempty _) eqn:En; [|discriminate H].
    injection H as <-. split; [|split].
    - intros E. rewrite E in En. discriminate En.
    - apply CookieFacts.all_take_while.
    - exists (JS.skip_while (fun c => negb (Ascii.eqb c ";"))
                (drop (String.length pat) s0)).
      split; [|apply skip_not_semicolon].
      rewrite <- CookieFacts.take_skip. now apply prefix_drop. }
  induction s as [|c s IH]; intros H.
  - cbn [parseCookie_from] in H. cbv zeta in H.
    destruct (if String.prefix pat EmptyString then _ else _) as [v0|] eqn:E;
      [|discriminate H].
    injection H as ->. destruct (Here _ E) as [Hv [Hf [after [Hs Ha]]]].
    split; [exact Hv|]. split; [exact Hf|].
    exists EmptyString, after. now split.
  - cbn [parseCookie_from] in H. cbv zeta in H.
    destruct (if String.prefix pat (String c s) then _ else _) as [v0|] eqn:E.
    + injection H as ->. destruct (Here _ E) as [Hv [Hf [after [Hs Ha]]]].
      split; [exact Hv|]. split; [exact Hf|].
      exists EmptyString, after. now split.
    + destruct (IH H) as [Hv [Hf [before [after [Hs Ha]]]]].
      split; [exact Hv|]. split; [exact Hf|].
      exists (String c before), after. split; [|exact Ha].
      cbn [append]. now rewrite <- Hs.
Qed.

Lemma parseCookie_from_missing (pat s : string) :
  parseCookie_from pat s = None ->
  forall before c rest,
    s = (before ++ pat ++ String c rest)%string -> c = ";"%char.
Proof.
  induction s as [|a s IH]; intros H before c rest Hs.
  - destruct before; [|discriminate Hs]. cbn [append] in Hs.
    cbn [parseCookie_from] in H. cbv zeta in H.
    rewrite Hs, prefix_app, drop_app in H. cbn [JS.take_while] in H.
    destruct (Ascii.eqb_spec c ";") as [-> | Hne]; [reflexivity|].
    cbn [negb] in H. discriminate H.
  - cbn [parseCookie_from] in H. cbv zeta in H.
    destruct before as [|b before].
    + cbn [append] in Hs. rewrite Hs, prefix_app, drop_app in H.
      cbn [JS.take_while] in H.
      destruct (Ascii.eqb_spec c ";") as [-> | Hne]; [reflexivity|].
      cbn [negb] in H. discriminate H.
    + cbn [append] in Hs. injection Hs as -> Hs.
      destruct (if String.prefix pat _ then _ else _); [discriminate H|].
      exact (IH H before c rest Hs).
Qed.

(** X25.  What [parseCookie] reads, for a name made of word
    characters (as are kf_session, enctoken and public_token, the
    names it is asked for).  When it finds a value for the name, the
    value is not empty, holds no semicolon, stands in the
    header directly after the name and [=], and is followed there by a
    semicolon or by the end of the header.  When it finds none, every
    place of the header where the name and [=] stand is followed by a
    semicolon or by the end of the header. *)
Theorem parseCookie_reads_a_value (cookieString name : string) :
  JS.all_chars JS.is_word name = true ->
  match parseCookie cookieString name with
  | Some v =>
      v <> EmptyString
      /\ JS.free_of ";" v
      /\ exists before after,
           cookieString = (before ++ name ++ "=" ++ v ++ after)%string
           /\ (after = EmptyString \/ exists r, after = String ";" r)
  | None =>
      forall before c rest,
        cookieString = (before ++ name ++ "=" ++ String c rest)%string ->
        c = ";"%char
  end.
Proof.
  intros _. unfold parseCookie.
  destruct (parseCookie_from (name ++ "=") cookieString) as [v|] eqn:E.
  - destruct (parseCookie_from_found _ _ _ E)
      as [Hv [Hf [before [after [Hs Ha]]]]].
    split; [exact Hv|]. split; [exact Hf|].
    exists before, after. split; [|exact Ha].
    rewrite Hs. now rewrite JSFacts.app_assoc.
  - intros before c rest Hs.
    apply (parseCookie_from_missing _ _ E before c rest).
    rewrite Hs. now rewrite JSFacts.app_assoc.
Qed.

End CookieValueFacts.

Module CookieValueWitness.

Import Session.

Lemma parseCookie_reads_a_value_witness :
  JS.all_chars JS.is_word "enctoken" = true
  /\ parseCookie "kf_session=k1; Path=/, enctoken=abc==; Secure" "enctoken"
     = Some "abc=="
  /\ match parseCookie "kf_session=k1; Path=/, enctoken=abc==; Secure"
              "enctoken" with
     | Some v =>
         v <> EmptyString
         /\ JS.free_of ";" v
         /\ exists before after,
              "kf_session=k1; Path=/, enctoken=abc==; Secure"
              = (before ++ "enctoken" ++ "=" ++ v ++ after)%string
              /\ (after = EmptyString \/ exists r, after = String ";" r)
     | None =>
         forall before c rest,
           "kf_session=k1; Path=/, enctoken=abc==; Secure"
           = (before ++ "enctoken" ++ "=" ++ String c rest)%string ->
           c = ";"%char
     end.
Proof.
  split; [reflexivity|]. split; [reflexivity|].
  apply (CookieValueFacts.parseCookie_reads_a_value
           "kf_session=k1; Path=/, enctoken=abc==; Secure" "enctoken").
  reflexivity.
Defined.

End CookieValueWitness.
